(* ===== verification/_CoqProject ===== *)
-Q . S2P
Prelude.v
Doubles.v
Hsrv.v
Xml.v
TinyFacts.v
MMessage.v
World.v
XmlPrint.v
MParams.v
Subjects.v
Archive.v
Pages.v
Samples.v
MessageClaims.v
EventCounter.v
EventClaims.v
Rule.v
RuleClaims.v
Engines.v
ProgramEngine.v
EngineClaims.v
ArchiveOps.v
ArchiveQueries.v
ArchiveFacts.v
ArchiveClaims.v
BusClaims.v
Rpc.v
RpcClaims.v
Routes.v
RouteClaims.v
MathExpr.v
Configurator.v
ConfClaims.v
Player.v
PlayerClaims.v
Users.v
NameTable.v
RemoteAgent.v
Managers.v
AgentConf.v
Udp.v
AgentNet.v
AlarmManager.v
GuiManagers.v
LogManagers.v
Push.v
Logger.v
RpcServer.v
UserClaims.v
NameClaims.v
LogClaims.v
AlarmClaims.v
PushClaims.v
Hosts.v
Http.v
Legacy.v
Services.v
MotionDetect.v
NetDevices.v
NetDevClaims.v
NetSamples.v
UdpClaims.v
NetClaims.v
ManagerAgent.v
BridgeClaims.v
PwrProgram.v
Scheduler.v
PowerClaims.v
Devices.v
Pwm.v
Gpio.v
Fsm.v
VirtualDevices.v
MqttDevices.v
VirtualClaims.v
DeviceClaims.v
FsmClaims.v
TemplateClaims.v
GpioClaims.v
SystemClaims.v
