(* ===== verification/Prelude.v ===== *)
(** * HAT, the Home Agent Team platform: a verification library

    HAT (src/agents) is a home automation platform.  Each process ("agent") runs
    threads that exchange messages over a bus inside the process; agents find each
    other on the network, post events to one another and answer requests of web clients
    through routes.  This library models the platform in C++ and proves what its parts
    promise one another.

    ** The program and its model

    The common library (minilibs, tinyxml):
    - Numbers, strings and dates: [Doubles] (the C++ [double] and [float]), [Hsrv] (hsrv.cpp,
      namelist.cpp, the path functions of filemanager.cpp).  XML: [Xml] holds the nodes as the code
      navigates them, the interface of a parser, and the parser of TinyXML; [XmlPrint] the printing of
      documents.
    - The state of the world and the files: [World] (hsrv.cpp, filemanager.cpp), [Pages] (the published
      index; NameService.cpp), [AgentConf] (agentlib.cpp), [Services] (what is left of hsrv.cpp,
      iplocation.cpp, RestHttpServer.cpp, and WSpusher).
    - Messages (MMessage.cpp): [MMessage]; parameters read from XML files (Mattribute.cpp, template.h,
      agentlib.h): [MParams].
    - The bus: threads observe subjects and are notified through priority queues (MMessageQueue.h,
      Subject.cpp, SubjectSet.cpp, ObserverThread.cpp): [Subjects]; remote calls wait in a table and a thread
      emits periodic messages (RpcWaitTable.cpp, Trigger.cpp): [Rpc].
    - The archive (ArchiveManager.cpp, PMStat.h): [Archive], [ArchiveOps], [ArchiveQueries].  Routes and the REST
      service (Route.cpp, ArchiveRoute.cpp, CmdRoute.cpp, LoggerRoute.cpp, RestHttpServer.cpp): [Routes].
    - The network of agents: posting to another agent (MRemoteAgent.cpp, iplocation.cpp, ObserverTCP.cpp):
      [RemoteAgent]; datagrams and ciphers (cipher.cpp, udpclient.cpp, udpserver.cpp): [Udp]; announcements
      (agentnet.cpp): [AgentNet].
    - Power programs (pwrprogram.cpp): [PwrProgram].  Older classes that no agent starts any more: [Http]
      (httpserver.cpp), [Legacy] (attribute.cpp, phone.cpp, alarm.cpp, remoteagent.cpp, WebSocket.cpp).
    The agents:
    - Manager.  Event counters and conditions: [EventCounter]; event rules and timed rules: [Rule]; the threads
      that hold them: [Engines]; weekly programs, actions and their threads: [ProgramEngine]; the configurator:
      [Configurator]; the start of the process: [ManagerAgent].
    - Player, the older copy of the Manager with delayed actions: [Player].
    - PwrControl: the scheduler of loads: [Scheduler]; expressions: [MathExpr].
    - BBDevices: devices and countdowns: [Devices], [Pwm], [Fsm]; the thread that owns them: [VirtualDevices]; the
      channels of the board: [Gpio].  MqttBBDevices and MqttLogger: [MqttDevices].
    - NetDevices, devices made of devices of other agents: [NetDevices].  MDetector, cameras: [MotionDetect].
    - WSServer, the server of the graphical client: users and translation of requests: [Users]; the agents and
      devices it knows: [NameTable], [Managers]; its managers: [AlarmManager], [GuiManagers], [LogManagers]; clients told of
      events: [Push]; its requests: [RpcServer].  The logger agent is an older form of it: [Logger].
    - The start of a process, the log, starter, sshtunnel, MiniWWW and the demonstration agents: [Hosts].

    The parts meet on the bus: a device notifies an "event", the rule engine counts
    it and notifies "cmd" messages, which the device manager gives to other devices;
    these notify "devcmd" messages, which the channel thread writes; the timer answers
    the "wait" messages of devices and actions; the trigger wakes the engines; the
    observers of [RemoteAgent] carry events to other agents, whose routes put them on their bus.

    ** How the code is represented

    - A class is a record with the fields of the class, in a module of its own; a
      method is a function that takes the object and returns it with the result.
    - Code with effects is written in the state monad of [World]: the clock is the
      sequence of readings the calls to gettimeofday obtain, files and directories are
      a map and a set, and calls that leave a component (notifications, RPC
      signals, log lines, shell) are appended to a trace.  The lists an agent publishes are copied into its
      archive ([Archived], the object [hsrv::archive]), which writes them below the directories of its roots.
    - Computations that may end the process (an exception, a null or dangling pointer, an
      access outside of a buffer, [exit], a loop without an end) answer an option.
    - A [double] is exact binary64 ([Doubles], over the Standard Library's
      [spec_float]).  Integers are kept in [Z]; conversions that truncate are written
      out with [wrap] and [swrap].
    - Objects shared by address (observers, waiting calls, devices, remote agents) live in a
      store and are reached by address.  Threads that interleave are a step relation where
      their order matters ([Player]).
    - What the platform or a vendored library decides is a class with named fields: [Platform] (time zone,
      contents of uninitialised variables), [Config] (paths of the agent), [PathNames] with its laws
      [PathLaws] (resolution of path names, order of listings), [LibM] (pow), [Calendar] and [PropertyTree] (boost),
      [NamedTree], [Sorting] (std::sort), [Regex], [JsonNodes] (libjson), [Network], [Tcp], [Sockets], [Datagrams], [Interfaces],
      [Inotify] (the operating system), [Crypto] (OpenSSL), [Mosquitto].  [Samples] and [NetSamples] instantiate
      them, and the witnesses evaluate there.  The interfaces [XmlParser] and [XmlEnd] are implemented by
      [tinyxml] and [tinyxml_end] of [Xml]; [Configured] (Engines) and [RouterExec] (Routes) are the
      interfaces between components of the code.
    - [Sends] ([Samples]) is a small program logic for the messages a computation notifies and for its result, used by
      the claims on engines, rules, devices and their manager.

    ** What the theorems show

    - [MessageClaims]: the XML parser ends on every text; messages and parameter files are read back as they were
      written, through that parser; invariants of messages; splitting, replacement, times of day.
      [TinyFacts] and [XmlPrint]: trees of elements printed to files and streams are parsed as they were.
    - [RuleClaims]: [Rule::match] fires exactly when a reference condition holds and
      answers the alarm and one command per enabled action; latency, validity, timetable.
    - [EventClaims]: release order and aging of the event memory.  [EngineClaims]: one event handled by the rule engine is the
      abstract update of counters and conditions followed by the messages of the rules that fire; timed
      rules send on edges only; program switches and saved programs are round trips.
    - [PlayerClaims]: the rules of the player are those of the Manager; under every interleaving of requests and
      threads an action sends one command for each request; late threads and expired ones.
    - [BusClaims]: reachable buses are sound, so notification is total; a message
      reaches exactly the observers that accept it; queues are bounded (the oldest message of the
      lowest priority is discarded), ordered by priority and first in first out within one.  [RpcClaims]: an answer reaches its caller; tags do not collide.
    - [ArchiveClaims] (over [ArchiveFacts]): the purge spares what is not expired; a forbidden write changes nothing; exploring a
      tree ends.  [RouteClaims]: a request over REST has the effect of the operation on the archive; a command that
      waits gets its answer.
    - [UdpClaims], [NetClaims], [BridgeClaims]: an announcement survives its frame and cipher; the observers made
      for other agents are those of the agents heard, silent ones are dropped, of two agents of one name one
      waits, sending and delivering nothing until its turn; any well-formed message of one bus is notified on the bus
      of another agent, as the receiving agent completes it.
    - [ManagerAgent]: the started process observes what its engines need.  [ConfClaims]: the configurator writes only
      its own files, the temporary file of its lists and the copies of these lists in the archive.
    - [PowerClaims], [MathExpr], [PwrProgram]: the scheduler sheds the least priority first; the parser of expressions
      produces the postfix form and evaluation computes its meaning; the targets of installed programs.
    - [DeviceClaims], [FsmClaims], [GpioClaims], [TemplateClaims]: the two relays of a tri-state output are never
      closed together, over any history of messages; a state machine takes the first transition that fires;
      dead time of the inputs; when templates end.  [VirtualClaims]: the maps of the device manager are sound in
      every reachable state, a command reaches the device of its name, a delayed input is
      reported, or lost when another change waits under the same second.
      [SystemClaims]: a command travels through the manager, the device and the channel thread to its file.
      [MqttDevices]: the classes copied for MQTT agree with those of the board, and report exactly once when a report is due.
    - [NetDevClaims]: a cyclic device passes through every state.
    - [UserClaims], [NameClaims], [LogClaims], [AlarmClaims], [PushClaims]: only a known user with its password is
      admitted; requests on names and devices are answered; a received message is in the log
      of its class, or of its agent where the class is disaggregated, and in those of the users; requests on alarms and power
      end, and what a queue of alarms loses; an event reaches exactly the clients that registered for it.

    ** Bounds and fuel

    Loops that are not structural take fuel that is computed from their input:
    - the parser of XML gets twice the length of the text plus two, proved enough in [TinyFacts];
    - [catch_up] (the timetable of a cyclic rule) takes one turn per second at most
      ([RuleClaims]); [Euclide] as many turns as its second argument ([RpcClaims]);
    - [strReplaceAll] one turn per character ([Hsrv]); the scans for names at least one character per turn
      ([PowerClaims], [NameClaims]);
    - walks over directories descend at most once per directory of the world ([ArchiveClaims]);
    - [VD.fill], [VD.removeComments] and the replacements of the configurators take one turn per character of the
      template, enough when every turn removes a mark ([TemplateClaims]); they answer [None] where the code never ends;
    - the join of the player's threads takes one turn per thread ([PlayerClaims]).

    ** What is not modelled

    - Sockets, threads and the kernel: what a call answers is a parameter.  Mutexes and condition variables are not
      modelled: an operation under its mutex is one step.  Sleeping takes no time but the readings of the clock.
    - Vendored libraries: libjson, the HTTP server, the web socket library, boost, OpenSSL, mosquitto.
    - Start-up code (main functions, forking, identity of the process) but for the Manager agent and
      the host tools; debug printing to the console.
    - The sessions of the web socket server of WSServer.  WSServerWS and some files of MqttBBDevices and Player
      repeat files that are modelled, and superseded copies are not built.
    - The spellings "inf", "nan" and hexadecimal are not read by [scan_double]; a node of XML ends
      at the first zero byte of its value. *)
From stdpp Require Export base strings list gmap option pretty sorting.
From Stdlib Require Export ZArith.
From Stdlib Require Export Ascii.

#[export] Set Default Goal Selector "!".
Open Scope Z_scope.

(** ** Notation and automation of the development *)

Declare Scope hat_scope.
Delimit Scope hat_scope with hat.

Create HintDb hat.
Create Rewrite HintDb hat.
Create Rewrite HintDb hat_bool.

(** String equality test of the C++ code ([a == b] on [std::string]). *)
Definition seqb (a b : string) : bool := bool_decide (a = b).
Notation "a =s b" := (seqb a b) (at level 70) : hat_scope.
Notation "a <>s b" := (negb (seqb a b)) (at level 70) : hat_scope.
Open Scope hat_scope.

(** ** Updating one field of a record

    [r <| f := v |>] is [r] with field [f] replaced.  A record type declares how it
    is rebuilt from its projections ([Rebuild]); the updater of each field is
    found by abstracting that projection in the rebuilt record. *)
Class Rebuild (R : Type) := rebuild : R -> R.
Class Update {R T : Type} (p : R -> T) := update_field : (T -> T) -> R -> R.
Arguments update_field {R T} p {_} _ _ / : assert.

Ltac find_update :=
  match goal with
  | |- @Update ?R ?T ?p =>
      let inst := constr:(_ : Rebuild R) in
      let body := eval red in inst in
      unfold Update; let f := fresh "f" in let r := fresh "r" in intros f r;
      let e := eval cbv beta in (body r) in
      let e' := eval pattern (p r) in e in
      match e' with ?k _ => let res := eval cbv beta in (k (f (p r))) in exact res end
  end.
#[export] Hint Extern 0 (Update _) => find_update : typeclass_instances.

Notation "r <| f := v |>" := (update_field f (fun _ => v) r)
  (at level 12, left associativity, f at level 10, v at level 200) : hat_scope.

Lemma seqb_true a b : (a =s b) = true <-> a = b.
Proof. apply bool_decide_eq_true. Qed.
Lemma seqb_false a b : (a =s b) = false <-> a <> b.
Proof. apply bool_decide_eq_false. Qed.
Lemma seqb_refl a : (a =s a) = true.
Proof. by apply seqb_true. Qed.
Lemma seqb_ne a b : a <> b -> (a =s b) = false.
Proof. apply seqb_false. Qed.
Lemma seqb_sym a b : (a =s b) = (b =s a).
Proof. unfold seqb. apply bool_decide_ext. naive_solver. Qed.

#[export] Hint Rewrite seqb_refl : hat.
#[export] Hint Resolve seqb_refl : hat.
#[export] Hint Rewrite andb_true_iff andb_false_iff orb_true_iff orb_false_iff
  negb_true_iff negb_false_iff seqb_true seqb_false : hat_bool.

(** Turn the boolean tests of a hypothesis into propositions. *)
Ltac bool_hyps :=
  repeat match goal with
  | H : _ |- _ => progress (autorewrite with hat_bool in H)
  end.

(** Case split on every string test of the goal, substituting equal strings. *)
Ltac seq_cases :=
  repeat match goal with
  | |- context [seqb ?a ?b] =>
      let E := fresh "Es" in
      destruct (seqb a b) eqn:E;
      [ apply seqb_true in E; subst | apply seqb_false in E ]; simpl
  end.

(** One split on the first [if]/[match] scrutinee of the goal. *)
Ltac split_match :=
  match goal with
  | |- context [match ?x with _ => _ end] => destruct x eqn:?
  end.

(** ** Loops of the form "first element that satisfies p" *)

Section first_match.
Context {A : Type}.
Implicit Types (p : A -> bool) (l : list A).

(** [for(i...) if(p(l[i])) return i; return -1;] *)
Fixpoint find_first p l : option nat :=
  match l with
  | [] => None
  | x :: l' => if p x then Some 0%nat else S <$> find_first p l'
  end.

(** [for(i...; !found) if(p(l[i])) { l[i] = f(l[i]); found = true; }] *)
Fixpoint update_first p (f : A -> A) l : list A :=
  match l with
  | [] => []
  | x :: l' => if p x then f x :: l' else x :: update_first p f l'
  end.

Lemma find_first_Some p l i :
  find_first p l = Some i <->
  (exists x, l !! i = Some x /\ p x = true) /\
  forall j y, (j < i)%nat -> l !! j = Some y -> p y = false.
Proof.
  revert i; induction l as [|x l IH]; intros i; simpl.
  { split; [done|]. intros [(y & Hy & _) _]. by rewrite lookup_nil in Hy. }
  destruct (p x) eqn:E.
  - split.
    + intros [= <-]. split; [by exists x|]. intros; lia.
    + intros [_ H]. destruct i as [|i]; [done|].
      specialize (H 0%nat x ltac:(lia) eq_refl). congruence.
  - destruct i as [|i].
    + split; [by destruct (find_first p l)|].
      intros [(y & [= ->] & Hp) _]. congruence.
    + transitivity (find_first p l = Some i).
      { destruct (find_first p l); naive_solver. }
      rewrite IH. split; intros [H1 H2]; (split; [done|]).
      * intros [|j] y Hj; simpl; [by intros [= ->]|]. apply H2. lia.
      * intros j y Hj Hy. apply (H2 (S j) y); [lia|done].
Qed.

Lemma find_first_None p l :
  find_first p l = None <-> forall x, x ∈ l -> p x = false.
Proof.
  induction l as [|x l IH]; simpl.
  { split; [|done]. intros _ x Hx. by apply not_elem_of_nil in Hx. }
  destruct (p x) eqn:E.
  - split; [done|]. intros H. specialize (H x (list_elem_of_here _ _)). congruence.
  - rewrite fmap_None, IH. set_solver.
Qed.

Lemma length_update_first p f l : length (update_first p f l) = length l.
Proof. induction l as [|x l IH]; simpl; [done|]. destruct (p x); simpl; auto. Qed.

Lemma update_first_spec p f l :
  update_first p f l =
  match find_first p l with Some i => alter f i l | None => l end.
Proof.
  induction l as [|x l IH]; simpl; [done|].
  destruct (p x); [done|]. rewrite IH. by destruct (find_first p l).
Qed.

Lemma update_first_Forall (P : A -> Prop) p f l :
  (forall x, P x -> p x = true -> P (f x)) -> Forall P l -> Forall P (update_first p f l).
Proof.
  intros Hf. induction 1 as [|x l Hx Hl IH]; simpl; [done|].
  destruct (p x) eqn:E; constructor; auto.
Qed.
End first_match.
#[export] Hint Rewrite @length_update_first : hat.

(** ** Machine integers: [int] is 32 bits, [long] and [size_t] are 64 bits *)

Definition wrap (w : Z) (x : Z) : Z := x mod 2 ^ w.
Definition swrap (w : Z) (x : Z) : Z := (x + 2 ^ (w - 1)) mod 2 ^ w - 2 ^ (w - 1).
Definition in_int (x : Z) : Prop := - 2 ^ 31 <= x < 2 ^ 31.
Definition in_long (x : Z) : Prop := - 2 ^ 63 <= x < 2 ^ 63.

Lemma wrap_small w x : 0 <= x < 2 ^ w -> wrap w x = x.
Proof. apply Z.mod_small. Qed.
Lemma swrap_id w x : 0 < w -> - 2 ^ (w - 1) <= x < 2 ^ (w - 1) -> swrap w x = x.
Proof.
  intros Hw Hx. unfold swrap.
  assert (2 ^ w = 2 * 2 ^ (w - 1)) as E.
  { rewrite <- Z.pow_succ_r by lia. f_equal; lia. }
  rewrite Z.mod_small; lia.
Qed.

Lemma swrap_range w x : 0 < w -> - 2 ^ (w - 1) <= swrap w x < 2 ^ (w - 1).
Proof.
  intros Hw. unfold swrap.
  assert (2 ^ w = 2 * 2 ^ (w - 1)) as E.
  { rewrite <- Z.pow_succ_r by lia. f_equal; lia. }
  pose proof (Z.mod_pos_bound (x + 2 ^ (w - 1)) (2 ^ w)). 
  assert (0 < 2 ^ (w - 1)) by (apply Z.pow_pos_nonneg; lia). lia.
Qed.

(** ** [std::string] *)

Notation npos := (2 ^ 64 - 1).

Definition char_of (n : nat) : Ascii.ascii := Ascii.ascii_of_nat n.
Definition ceqb (a b : Ascii.ascii) : bool := Ascii.eqb a b.
Notation "a =c b" := (ceqb a b) (at level 70) : hat_scope.

(** [s.find(pat, from)] *)
Definition sfind (pat s : string) (from : nat) : option nat := String.index from pat s.
Definition contains (pat s : string) : bool := bool_decide (is_Some (sfind pat s 0)).

(** [s.substr(pos)] and [s.substr(pos, len)] for [pos <= s.size()]. *)
Definition drop_str (pos : nat) (s : string) : string :=
  String.substring pos (String.length s - pos) s.
Definition take_str (n : nat) (s : string) : string := String.substring 0 n s.

(** Strings as lists of characters, for the character loops. *)
Fixpoint chars (s : string) : list Ascii.ascii :=
  match s with EmptyString => [] | String c s' => c :: chars s' end.
Fixpoint of_chars (l : list Ascii.ascii) : string :=
  match l with [] => EmptyString | c :: l' => String c (of_chars l') end.

Lemma chars_of_chars l : chars (of_chars l) = l.
Proof. induction l; simpl; congruence. Qed.
Lemma of_chars_chars s : of_chars (chars s) = s.
Proof. induction s; simpl; congruence. Qed.

Lemma sapp_cons c (a b : string) : String c a +:+ b = String c (a +:+ b).
Proof. done. Qed.
Lemma sapp_nil_l (b : string) : "" +:+ b = b.
Proof. done. Qed.
#[export] Hint Rewrite sapp_cons sapp_nil_l : hat.
Lemma sapp_assoc (a b c : string) : (a +:+ b) +:+ c = a +:+ (b +:+ c).
Proof. induction a; [done|]. rewrite !sapp_cons. congruence. Qed.
Lemma sapp_nil_r (a : string) : a +:+ "" = a.
Proof. induction a; [done|]. rewrite !sapp_cons. congruence. Qed.
Lemma length_sapp (a b : string) : String.length (a +:+ b) = (String.length a + String.length b)%nat.
Proof. induction a; [done|]. rewrite !sapp_cons. simpl. congruence. Qed.

Lemma of_chars_app l1 l2 : of_chars (l1 ++ l2) = of_chars l1 +:+ of_chars l2.
Proof. induction l1; simpl; [done|]. by rewrite IHl1. Qed.
Lemma chars_app s1 s2 : chars (s1 +:+ s2) = chars s1 ++ chars s2.
Proof. induction s1; simpl; [done|]. by rewrite IHs1. Qed.
Lemma length_chars s : length (chars s) = String.length s.
Proof. induction s; simpl; congruence. Qed.
#[export] Hint Rewrite chars_of_chars of_chars_chars of_chars_app chars_app length_chars : hat.

(** The pieces of a text between the occurrences of a character, empty ones included. *)
Fixpoint pieces (c : Ascii.ascii) (cur l : list Ascii.ascii) : list string :=
  match l with
  | [] => [of_chars cur]
  | d :: l' => if d =c c then of_chars cur :: pieces c [] l' else pieces c (cur ++ [d]) l'
  end.

#[export] Hint Rewrite sapp_nil_r length_sapp : hat.

(** ** The order on [std::string] and the ordered iteration of [std::map] *)

Definition key_le {V} (a b : string * V) : Prop := String.le a.1 b.1.
#[export] Instance key_le_dec {V} : RelDecision (@key_le V).
Proof. intros a b. apply _. Defined.
#[export] Instance key_le_total {V} : Total (@key_le V).
Proof. intros a b. apply (total String.le). Qed.
#[export] Instance key_le_trans {V} : Transitive (@key_le V).
Proof. intros a b c. apply (transitivity (R := String.le)). Qed.

(** [for(it = m.begin(); it != m.end(); it++)] visits the keys in this order. *)
Definition map_items {V} (m : gmap string V) : list (string * V) :=
  merge_sort key_le (map_to_list m).

Lemma map_items_perm {V} (m : gmap string V) : map_items m ≡ₚ map_to_list m.
Proof. apply merge_sort_Permutation. Qed.

Lemma elem_of_map_items {V} (m : gmap string V) k v :
  (k, v) ∈ map_items m <-> m !! k = Some v.
Proof. rewrite map_items_perm. apply elem_of_map_to_list. Qed.

Lemma map_items_sorted {V} (m : gmap string V) : StronglySorted key_le (map_items m).
Proof. apply StronglySorted_merge_sort; apply _. Qed.

Lemma map_items_NoDup_keys {V} (m : gmap string V) : NoDup (map_items m).*1.
Proof. rewrite map_items_perm. apply NoDup_fst_map_to_list. Qed.

(** [mapfold f m a]: run [f] on every entry in key order. *)
Definition map_iter {V A} (f : A -> string -> V -> A) (m : gmap string V) (a : A) : A :=
  fold_left (fun acc kv => f acc kv.1 kv.2) (map_items m) a.

(** Join with a separator, as the [first? "" : sep] loops do. *)
Fixpoint sconcat (l : list string) : string :=
  match l with [] => "" | a :: l' => a +:+ sconcat l' end.

Lemma sconcat_app l1 l2 : sconcat (l1 ++ l2) = sconcat l1 +:+ sconcat l2.
Proof. induction l1; simpl; [done|]. by rewrite IHl1, sapp_assoc. Qed.
#[export] Hint Rewrite sconcat_app : hat.
