(* ===== verification/Doubles.v ===== *)
(** * [double] and [float]: binary64 and binary32 arithmetic, printing and scanning

    A C++ [double] is modelled exactly, as an element of [spec_float] rounded
    to 53 bits of mantissa and an exponent below 1024 (round to nearest, ties
    to even).  [double2a] is the printing of [hsrv::double2a] (five decimals of
    the exact value, ties to even as glibc prints them); [scan_double] is what
    [sscanf("%lf")] reads from a decimal numeral.  The infinities and NaN print
    as glibc prints them, up to the sign of a NaN, which [spec_float] does not
    keep; the spellings "inf", "nan" and hexadecimal numerals are not scanned. *)
From S2P Require Import Prelude.
From Stdlib Require Export SpecFloat.

Abbreviation double := spec_float.
Definition prec64 : Z := 53.
Definition emax64 : Z := 1024.

Definition dadd (x y : double) : double := SFadd prec64 emax64 x y.
Definition dsub (x y : double) : double := SFsub prec64 emax64 x y.
Definition dmul (x y : double) : double := SFmul prec64 emax64 x y.
Definition ddiv (x y : double) : double := SFdiv prec64 emax64 x y.
Definition dopp (x : double) : double := SFopp x.
Definition dltb (x y : double) : bool := SFltb x y.
Definition dleb (x y : double) : bool := SFleb x y.
Definition dgtb (x y : double) : bool := SFltb y x.
Definition dgeb (x y : double) : bool := SFleb y x.
Definition deqb (x y : double) : bool := SFeqb x y.

(** The conversion of an integer to [double], correctly rounded. *)
Definition d_of_Z (n : Z) : double := binary_normalize prec64 emax64 n 0 false.
Definition d0 : double := S754_zero false.
Definition d1 : double := d_of_Z 1.
Definition dinf : double := S754_infinity false.

(** The correctly rounded value of [m * 10^k] in a format. *)
Definition of_dec (prec emax : Z) (neg : bool) (m k : Z) : spec_float :=
  match m with
  | Z.pos p =>
      if 0 <=? k then
        binary_normalize prec emax ((if neg then -1 else 1) * (m * 10 ^ k)) 0 neg
      else
        let '(q, e, loc) := SFdiv_core_binary prec emax m 0 (10 ^ (- k)) 0 in
        binary_round_aux prec emax neg q e loc
  | _ => S754_zero neg
  end.
Definition d_of_dec : bool -> Z -> Z -> double := of_dec prec64 emax64.

(** [(long)x], truncation toward zero; [None] where the conversion is undefined. *)
Definition Z_of_d (x : double) : option Z :=
  match x with
  | S754_zero _ => Some 0
  | S754_finite s m e =>
      let a := if 0 <=? e then Z.pos m * 2 ^ e else Z.pos m / 2 ^ (- e) in
      Some (if s then - a else a)
  | _ => None
  end.

(** Exact division rounded to nearest, ties to even. *)
Definition div_half_even (a b : Z) : Z :=
  let q := a / b in
  let r := a mod b in
  if 2 * r <? b then q
  else if b <? 2 * r then q + 1
  else if Z.even q then q else q + 1.

(** [n] printed with at least five digits, then the point moved five places. *)
Definition zeros (n : nat) : string := of_chars (replicate n "0"%char).
Definition fixed5 (n : Z) : string :=
  let ip := n / 100000 in
  let fp := pretty (n mod 100000) in
  pretty ip +:+ "." +:+ zeros (5 - String.length fp) +:+ fp.

(** [hsrv::double2a]: [stringstream] with [precision(5)] and [ios::fixed]. *)
Definition double2a (x : double) : string :=
  match x with
  | S754_zero s => (if s then "-" else "") +:+ fixed5 0
  | S754_infinity s => if s then "-inf" else "inf"
  | S754_nan => "nan"
  | S754_finite s m e =>
      let n := if 0 <=? e then Z.pos m * 2 ^ e * 100000
               else div_half_even (Z.pos m * 100000) (2 ^ (- e)) in
      (if s then "-" else "") +:+ fixed5 n
  end.

(** ** Scanning numerals ([sscanf]) *)

Definition digit_of (c : ascii) : option Z := Z.of_nat <$> Ascii.is_nat c.

Fixpoint skip_space (l : list ascii) : list ascii :=
  match l with
  | c :: l' => if Ascii.is_space c then skip_space l' else l
  | [] => []
  end.

(** Longest prefix of digits: (value, number of digits, rest). *)
Fixpoint scan_digits (acc : Z) (n : nat) (l : list ascii) : Z * nat * list ascii :=
  match l with
  | c :: l' => match digit_of c with
               | Some d => scan_digits (10 * acc + d) (S n) l'
               | None => (acc, n, l)
               end
  | [] => (acc, n, [])
  end.

Definition scan_sign (l : list ascii) : bool * list ascii :=
  match l with
  | "-"%char :: l' => (true, l')
  | "+"%char :: l' => (false, l')
  | _ => (false, l)
  end.

(** [sscanf(s, "%ld", &d)] before the clamping of [strtol]. *)
Definition scan_Z (s : string) : option Z :=
  let '(neg, l) := scan_sign (skip_space (chars s)) in
  let '(v, n, _) := scan_digits 0 0 l in
  if bool_decide (n = 0%nat) then None else Some (if neg then - v else v).

Definition clamp_long (x : Z) : Z := Z.max (- 2 ^ 63) (Z.min x (2 ^ 63 - 1)).
Definition clamp_ulong (x : Z) : Z :=
  if x <? - (2 ^ 64 - 1) then 2 ^ 64 - 1 else if 2 ^ 64 - 1 <? x then 2 ^ 64 - 1 else wrap 64 x.

Definition scan_int (s : string) : option Z := (fun v => swrap 32 (clamp_long v)) <$> scan_Z s.
Definition scan_long (s : string) : option Z := clamp_long <$> scan_Z s.
Definition scan_unsigned (s : string) : option Z := (fun v => wrap 32 (clamp_ulong v)) <$> scan_Z s.

(** A decimal numeral: its sign, digits and power of ten. *)
Definition scan_decimal (s : list ascii) : option (bool * Z * Z) :=
  let '(neg, l) := scan_sign (skip_space s) in
  let '(v, n, l1) := scan_digits 0 0 l in
  let '(v2, n2, l2) := match l1 with
                       | "."%char :: l' => scan_digits v 0 l'
                       | _ => (v, 0%nat, l1)
                       end in
  if bool_decide (n + n2 = 0)%nat then None else
  let ex := match l2 with
            | ("e"%char | "E"%char) :: l' =>
                let '(eneg, l3) := scan_sign l' in
                let '(ev, en, _) := scan_digits 0 0 l3 in
                if bool_decide (en = 0%nat) then None else Some (if eneg then - ev else ev)
            | _ => Some 0
            end in
  (fun e => (neg, v2, e - Z.of_nat n2)) <$> ex.
(** [sscanf(s, "%lf", &d)] on decimal numerals. *)
Definition scan_double (s : string) : option double :=
  (fun '(neg, m, k) => d_of_dec neg m k) <$> scan_decimal (chars s).

(** [atoi] and [%d] of an integer print: [hsrv::int2a], [long2a], [unsigned2a]. *)
Definition int2a (n : Z) : string := pretty n.
Definition long2a (n : Z) : string := pretty n.
Definition unsigned2a (n : Z) : string := pretty n.

Example double2a_ex : double2a (d_of_dec false 1234567891 (-4)) = "123456.78910".
Proof. vm_compute. reflexivity. Qed.
Example scan_ex : (double2a <$> scan_double " -12.5e1x") = Some "-125.00000".
Proof. vm_compute. reflexivity. Qed.
Example scan_ex2 : scan_double "OFF" = None.
Proof. vm_compute. reflexivity. Qed.

(** * The order on doubles: [<] is transitive and, away from NaN, total *)

(** The position of a number on the line: sign, then exponent and mantissa read with the sign.
    NaN has none. *)
Definition rank (x : double) : option (Z * Z * Z) :=
  match x with
  | S754_nan => None
  | S754_zero _ => Some (0, 0, 0)
  | S754_infinity s => Some (if s then -2 else 2, 0, 0)
  | S754_finite s m e => Some (if s then (-1, - e, - Z.pos m) else (1, e, Z.pos m))
  end.
Definition rank_lt (a b : Z * Z * Z) : Prop :=
  let '(a1, a2, a3) := a in let '(b1, b2, b3) := b in
  a1 < b1 \/ a1 = b1 /\ (a2 < b2 \/ a2 = b2 /\ a3 < b3).

Lemma rank_lt_trans a b c : rank_lt a b -> rank_lt b c -> rank_lt a c.
Proof. destruct a as [[? ?] ?], b as [[? ?] ?], c as [[? ?] ?]. simpl. lia. Qed.
Lemma rank_lt_irrefl a : ~ rank_lt a a.
Proof. destruct a as [[? ?] ?]. simpl. lia. Qed.
Lemma rank_lt_total a b : rank_lt a b \/ a = b \/ rank_lt b a.
Proof.
  destruct a as [[a1 a2] a3], b as [[b1 b2] b3]. simpl.
  destruct (Z.lt_total a1 b1) as [|[->|]], (Z.lt_total a2 b2) as [|[->|]], (Z.lt_total a3 b3) as [|[->|]];
    (by right; left) || lia.
Qed.

(** [SFcompare] compares the ranks. *)
Lemma compare_rank x y :
  match rank x, rank y with
  | Some a, Some b =>
      match SFcompare x y with
      | Some Lt => rank_lt a b | Some Eq => a = b | Some Gt => rank_lt b a | None => False
      end
  | _, _ => SFcompare x y = None
  end.
Proof.
  destruct x as [sx|sx| |sx mx ex], y as [sy|sy| |sy my ey]; simpl; try done;
    try (destruct sx; try destruct sy; simpl; lia || done);
    try (destruct sy; simpl; lia || done).
  destruct sx, sy; simpl; try lia;
    destruct (Z.compare_spec ex ey); simpl; try lia; subst;
    change (Pos.compare_cont Eq mx my) with (mx ?= my)%positive;
    destruct (Pos.compare_spec mx my); simpl; subst; try lia; reflexivity.
Qed.

Lemma dltb_rank x y : dltb x y = true <-> exists a b, rank x = Some a /\ rank y = Some b /\ rank_lt a b.
Proof.
  unfold dltb, SFltb. pose proof (compare_rank x y) as H.
  destruct (rank x) as [a|], (rank y) as [b|]; try (rewrite H; naive_solver).
  destruct (SFcompare x y) as [[]|]; try done; (split; [naive_solver|]); intros (? & ? & [= <-] & [= <-] & Hl); try done.
  - subst. by apply rank_lt_irrefl in Hl.
  - by destruct (rank_lt_irrefl a (rank_lt_trans _ _ _ Hl H)).
Qed.
Lemma dleb_rank x y : dleb x y = true <-> exists a b, rank x = Some a /\ rank y = Some b /\ (rank_lt a b \/ a = b).
Proof.
  unfold dleb, SFleb. pose proof (compare_rank x y) as H.
  destruct (rank x) as [a|], (rank y) as [b|]; try (rewrite H; naive_solver).
  destruct (SFcompare x y) as [[]|]; try done; (split; [naive_solver|]); intros (? & ? & [= <-] & [= <-] & [Hl| ->]); try done.
  - by destruct (rank_lt_irrefl a (rank_lt_trans _ _ _ Hl H)).
  - by apply rank_lt_irrefl in H.
Qed.

Lemma dltb_trans x y z : dltb x y = true -> dltb y z = true -> dltb x z = true.
Proof.
  rewrite !dltb_rank. intros (a & b & Ha & Hb & H1) (b' & c & Hb' & Hc & H2). simplify_eq.
  exists a, c. split_and!; [done|done|]. by eapply rank_lt_trans.
Qed.
Lemma dltb_irrefl x : dltb x x = false.
Proof.
  apply not_true_iff_false. rewrite dltb_rank. intros (a & b & Ha & Hb & H). simplify_eq.
  by apply rank_lt_irrefl in H.
Qed.
(** Not below [y] and [x < y]: then not below [x] either. *)
Lemma dltb_false_trans x y z : dltb z y = false -> dltb x y = true -> dltb z x = false.
Proof.
  intros H1 H2. apply not_true_iff_false. intros H. by rewrite (dltb_trans z x y H H2) in H1.
Qed.
Lemma dltb_dleb x y z : dltb x y = true -> dleb y z = true -> dltb x z = true.
Proof.
  rewrite !dltb_rank, dleb_rank. intros (a & b & Ha & Hb & H1) (b' & c & Hb' & Hc & [H2| ->]); simplify_eq.
  - exists a, c. split_and!; [done|done|]. by eapply rank_lt_trans.
  - by eauto 6.
Qed.
Lemma dleb_not_dltb x y : dleb x y = true -> dltb y x = false.
Proof.
  intros H. apply not_true_iff_false. intros H2. pose proof (dltb_dleb _ _ _ H2 H) as H3.
  by rewrite dltb_irrefl in H3.
Qed.

(** * [float]: binary32 arithmetic, conversions and printing

    Single precision is exact too: 24 bits of mantissa, exponents below 128.  [print_float]
    is what [<<] writes to a stream with the default precision: "%.6g". *)

Abbreviation float := spec_float.
Definition prec32 : Z := 24.
Definition emax32 : Z := 128.
Definition fadd (x y : float) : float := SFadd prec32 emax32 x y.
Definition f0 : float := S754_zero false.
(** [(float)d] *)
Definition f_of_d (x : double) : float :=
  match x with
  | S754_finite s m e => binary_normalize prec32 emax32 (cond_Zopp s (Z.pos m)) e s
  | _ => x
  end.
(** [(double)f]: every float is a double, with the same value. *)
Definition d_of_f (x : float) : double :=
  match x with
  | S754_finite s m e => binary_normalize prec64 emax64 (cond_Zopp s (Z.pos m)) e s
  | _ => x
  end.
(** [%f] of [sscanf] *)
Definition scan_float (l : list ascii) : option float :=
  (fun '(neg, m, k) => of_dec prec32 emax32 neg m k) <$> scan_decimal l.

(** ** "%.6g" *)

(** The number [n / d], at least one, has [S (log10 fuel n d)] digits before the point. *)
Fixpoint log10 (fuel : nat) (n d : Z) : Z :=
  match fuel with
  | O => 0
  | S f => if n <? 10 * d then 0 else 1 + log10 f n (10 * d)
  end.
(** The exponent of ten of [n / d] (positive): 39 turns cover single precision. *)
Definition exponent10 (n d : Z) : Z :=
  if d <=? n then log10 40 n d
  else (* smallest k with n * 10^k >= d *) - log10 50 (10 * d - 1) n.
(** Six significant digits, ties to even, and the exponent of the first. *)
Definition six_digits (n d : Z) : Z * Z :=
  let x := exponent10 n d in
  let k := 5 - x in
  let q := if 0 <=? k then div_half_even (n * 10 ^ k) d else div_half_even n (d * 10 ^ (- k)) in
  if q =? 1000000 then (100000, x + 1) else (q, x).
Fixpoint drop_zeros (l : list ascii) : list ascii :=
  match l with "0"%char :: l' => drop_zeros l' | _ => l end.
Definition trim_zeros (l : list ascii) : list ascii := rev (drop_zeros (rev l)).
Definition with_point (ip fp : list ascii) : string :=
  match trim_zeros fp with [] => of_chars ip | fp => of_chars ip +:+ "." +:+ of_chars fp end.
Definition print_exponent (x : Z) : string :=
  (if x <? 0 then "e-" else "e+") +:+ (if Z.abs x <? 10 then "0" else "") +:+ pretty (Z.abs x).
Definition print_digits (q x : Z) : string :=
  let ds := chars (pretty q) in
  if (x <? -4) || (6 <=? x) then with_point (take 1 ds) (drop 1 ds) +:+ print_exponent x
  else if 0 <=? x then with_point (take (Z.to_nat x + 1) ds) (drop (Z.to_nat x + 1) ds)
  else with_point ["0"%char] (replicate (Z.to_nat (- x - 1)) "0"%char ++ ds).
Definition print_float (x : float) : string :=
  match x with
  | S754_zero s => (if s then "-" else "") +:+ "0"
  | S754_infinity s => if s then "-inf" else "inf"
  | S754_nan => "nan"
  | S754_finite s m e =>
      let '(q, x) := if 0 <=? e then six_digits (Z.pos m * 2 ^ e) 1 else six_digits (Z.pos m) (2 ^ (- e)) in
      (if s then "-" else "") +:+ print_digits q x
  end.

Definition fdec (neg : bool) (m k : Z) : float := of_dec prec32 emax32 neg m k.
Example print_float_ex :
  map print_float [fdec false 15 (-1); fdec false 1 (-1); fdec true 1234567 0; fdec false 1234567 (-3);
                   fdec false 999999 0; fdec false 9999995 (-1); fdec false 12345 (-8); fdec false 12345 (-10);
                   fdec false 100 0; fdec false 1 20; fdec false 1 (-44); fdec false 34 37; f_of_d (d_of_dec false 7 (-2))] =
  ["1.5"; "0.1"; "-1.23457e+06"; "1234.57"; "999999"; "1e+06"; "0.00012345"; "1.2345e-06";
   "100"; "1e+20"; "9.80909e-45"; "3.4e+38"; "0.07"].
Proof. vm_compute. reflexivity. Qed.
