(* ===== verification/Hsrv.v ===== *)
(** * The service functions of [hsrv] and [NameList] (minilibs/hsrv.cpp,
    namelist.cpp, filemanager.cpp): pure functions on strings and numbers.

    [Platform] gathers what the C++ run time decides: the local time zone and
    the contents of an uninitialised local variable, which the [a2*] functions
    return when [sscanf] matches nothing. *)
From S2P Require Import Prelude Doubles.

Record tm := Tm {
  tm_sec : Z; tm_min : Z; tm_hour : Z; tm_mday : Z; tm_mon : Z;
  tm_year : Z; tm_wday : Z; tm_yday : Z; tm_isdst : Z }.

Record timeval := Timeval { tv_sec : Z; tv_usec : Z }.

Class Platform := {
  localtime : Z -> tm;
  indet_double : double;
  indet_long : Z;
  indet_int : Z;
  indet_unsigned : Z;
  indet_bool : bool }.

(** The calendar fields the C library guarantees of [localtime]. *)
Definition tm_ok (t : tm) : Prop :=
  0 <= tm_sec t < 60 /\ 0 <= tm_min t < 60 /\ 0 <= tm_hour t < 24.

(** ** Conversions *)
Section conversions.
Context {P : Platform}.
Definition a2double (n : string) : double := default indet_double (scan_double n).
Definition a2long (n : string) : Z := default indet_long (scan_long n).
Definition a2int (n : string) : Z := default indet_int (scan_int n).
Definition a2unsigned (n : string) : Z := default indet_unsigned (scan_unsigned n).
End conversions.

(** [atoi]: zero when no digit is found. *)
Definition atoi (s : string) : Z := default 0 (scan_int s).

(** ** Strings *)

Definition nul : ascii := "000"%char.
(** [s[i]], which is NUL at [i = s.size()]. *)
Definition cget (s : string) (i : nat) : ascii := default nul (String.get i s).

Fixpoint tailof_scan (path : string) (i : nat) : nat :=
  match i with
  | O => O
  | S j => if cget path i =c "/"%char then i else tailof_scan path j
  end.
Definition tailof (path : string) : string :=
  let i := tailof_scan path (String.length path) in
  if cget path i =c "/"%char then drop_str (i + 1) path else path.

Definition extractBin (agentname : string) : string :=
  if agentname =s "" then "" else
  let i := tailof_scan agentname (String.length agentname - 1) in
  if (0 <? i)%nat then take_str i agentname else "".

Definition isInString (s signature : string) : bool := contains signature s.
Definition isXmlstring (s : string) : bool := contains "xml version=" s.

Definition upcase_char (c : ascii) : ascii :=
  let n := nat_of_ascii c in
  if ((97 <=? n) && (n <=? 122))%nat then ascii_of_nat (n - 32) else c.
Definition upcase (a : string) : string := of_chars (map upcase_char (chars a)).

Definition ends_with (s ext : string) : bool :=
  drop_str (String.length s - String.length ext) s =s ext.
Definition matchfile (fname ext : string) : bool :=
  if (String.length fname <=? String.length ext)%nat then false
  else if ext =s "" then negb ((fname =s ".") || (fname =s ".."))
  else ends_with fname ext.

(** One replacement: the flag says whether [dst] was found. *)
Definition strReplace (s dst src : string) : bool * string :=
  match sfind dst s 0 with
  | Some pos => (true, take_str pos s +:+ src +:+ drop_str (pos + String.length dst) s)
  | None => (false, s)
  end.

(** [while(strReplace(s, dst, src) == 1);] with fuel: [None] when it runs out. *)
Fixpoint strReplaceAll (fuel : nat) (s dst src : string) : option string :=
  match fuel with
  | O => None
  | S n => let '(found, s') := strReplace s dst src in
           if found then strReplaceAll n s' dst src else Some s'
  end.

(** [hsrv::split]: positions as in the source. *)
Fixpoint split_loop (s : string) (sep : ascii) (limit : Z) (l : list ascii)
    (i starting_char : nat) (split_number : Z) (splitted : list string) : list string :=
  match l with
  | [] => splitted ++ [drop_str starting_char s]
  | c :: l' =>
      if c =c sep then
        let splitted := splitted ++ [String.substring starting_char (i - starting_char) s] in
        let split_number := split_number + 1 in
        if split_number =? limit then splitted
        else split_loop s sep limit l' (i + 1) (i + 1) split_number splitted
      else split_loop s sep limit l' (i + 1) starting_char split_number splitted
  end.
Definition split (s : string) (sep : ascii) (limit : Z) : list string :=
  split_loop s sep limit (chars s) 0 0 0 [].

Fixpoint filterChar_loop (l : list ascii) : list ascii :=
  match l with
  | [] => []
  | [c] => [c]
  | c :: ((d :: rest) as tl) =>
      if (c =c "\") && (d =c "r") then "013"%char :: filterChar_loop tl
      else if (c =c "\") && (d =c "n") then "010"%char :: filterChar_loop rest
      else if (c =c "\") && (d =c "t") then "009"%char :: filterChar_loop rest
      else if (c =c "\") && (d =c "\") then "\"%char :: filterChar_loop rest
      else c :: filterChar_loop tl
  end%char.
Definition filterChar (src : string) : string := of_chars (filterChar_loop (chars src)).

(** [i < s.length()-2] in [size_t] arithmetic: true for strings shorter than 2. *)
Fixpoint convertSpecialChar_loop (short : bool) (l : list ascii) : list ascii :=
  match l with
  | [] => []
  | [c] => [c]
  | c :: ((d :: rest) as tl) =>
      if (short || (0 <? length rest)%nat) && (c =c "\") && (d =c "r")
      then "013"%char :: convertSpecialChar_loop short rest
      else if (c =c "\") && (d =c "n")
      then "010"%char :: convertSpecialChar_loop short rest
      else c :: convertSpecialChar_loop short tl
  end%char.
Definition convertSpecialChar (s : string) : string :=
  of_chars (convertSpecialChar_loop (String.length s <? 2)%nat (chars s)).

(** ** Times of day *)

Fixpoint take_field (l : list ascii) : list ascii * list ascii :=
  match l with
  | [] => ([], [])
  | c :: l' => if (c =c ":"%char) || (c =c "."%char) then ([], l)
               else let '(f, r) := take_field l' in (c :: f, r)
  end.

Definition add_field (sec : Z) (f : list ascii) (unit : Z) : Z :=
  if bool_decide (f = []) then sec else swrap 32 (sec + atoi (of_chars f) * unit).

Definition string2second (s : string) : Z :=
  let '(hh, r) := take_field (chars s) in
  let sec := add_field 0 hh 3600 in
  match r with
  | [] => sec
  | _ :: r =>
      let '(min, r) := take_field r in
      let sec := add_field sec min 60 in
      match r with
      | [] => sec
      | _ :: r => add_field sec (take_field r).1 1
      end
  end.

Definition daysecond (t : list Z) : Z :=
  nth 2 t 0 * 3600 + nth 1 t 0 * 60 + nth 0 t 0.

(** [sprintf("%02d")] *)
Definition pad2 (n : Z) : string :=
  let s := pretty n in zeros (2 - String.length s) +:+ s.
Definition pad4 (n : Z) : string :=
  let s := pretty n in zeros (4 - String.length s) +:+ s.
Definition pad3s (n : Z) : string :=
  let s := pretty n in of_chars (replicate (3 - String.length s) " "%char) +:+ s.

Definition wday_name (n : Z) : string :=
  nth (Z.to_nat n) ["Sun"; "Mon"; "Tue"; "Wed"; "Thu"; "Fri"; "Sat"] "???".
Definition mon_name (n : Z) : string :=
  nth (Z.to_nat n) ["Jan"; "Feb"; "Mar"; "Apr"; "May"; "Jun"; "Jul"; "Aug"; "Sep"; "Oct"; "Nov"; "Dec"] "???".

(** [asctime]: the 26 character rendering of the C library. *)
Definition hms (t : tm) : string := pad2 (tm_hour t) +:+ ":" +:+ pad2 (tm_min t) +:+ ":" +:+ pad2 (tm_sec t).
Definition asctime (t : tm) : string :=
  wday_name (tm_wday t) +:+ " " +:+ mon_name (tm_mon t) +:+ pad3s (tm_mday t) +:+ " " +:+
  hms t +:+ " " +:+ pretty (tm_year t + 1900) +:+ String "010" "".

Section clock_reading.
Context {P : Platform}.

Definition gettime_of (tv : timeval) : double :=
  dadd (d_of_Z (tv_sec tv)) (ddiv (d_of_Z (tv_usec tv)) (d_of_Z 1000000)).
Definition getasciitimeday_of (tv : timeval) : string :=
  String.substring 11 8 (asctime (localtime (tv_sec tv))).
Definition getasciitimefull_of (tv : timeval) : string :=
  of_chars (map (fun c => if (c =c " ") || (c =c "009") then "_" else c)%char
                (chars (asctime (localtime (tv_sec tv))))).
Definition getasciitimecompact_of (tv : timeval) : string :=
  let tc := localtime (tv_sec tv) in
  pad2 ((tm_year tc + 1900) mod 100) +:+ pad2 (tm_mon tc + 1) +:+ pad2 (tm_mday tc) +:+
  pad2 (tm_hour tc) +:+ pad2 (tm_min tc) +:+ pad2 (tm_sec tc).
Definition getday_of (tv : timeval) (delta : Z) : string :=
  let tc := localtime (tv_sec tv + delta) in
  pad4 (tm_year tc + 1900) +:+ "_" +:+ pad2 (tm_mon tc + 1) +:+ "_" +:+ pad2 (tm_mday tc).
Definition CurrentTime_of (tv : timeval) (d : Z) : list Z :=
  let t := localtime (tv_sec tv + d * 24 * 3600) in
  [tm_sec t; tm_min t; tm_hour t; tm_mday t; tm_mon t + 1; tm_year t + 1900;
   (if tm_wday t =? 0 then 7 else tm_wday t); tm_yday t + 1; tm_isdst t].
End clock_reading.

(** ** [NameList]: a vector of names split on a delimiter *)
Module NameList.
(** [while((found = tmp.find(delim)) != npos) { push(tmp.substr(0,found)); tmp = tmp.substr(found+1); }
    if(tmp != "") push(tmp);], [cur] being the characters of [tmp] before the scan point *)
Fixpoint init_loop (delim : ascii) (cur : list ascii) (l : list ascii) : list string :=
  match l with
  | [] => if bool_decide (cur = []) then [] else [of_chars cur]
  | c :: l' => if c =c delim then of_chars cur :: init_loop delim [] l'
               else init_loop delim (cur ++ [c]) l'
  end.

(** [init] leaves the list alone when [names] is empty. *)
Definition init (self : list string) (names : string) (delim : ascii) : bool * list string :=
  if names =s "" then (false, self)
  else let l := init_loop delim [] (chars names) in ((0 <? length l)%nat, l).

Definition add (self : list string) (name : string) : list string := self ++ [name].
Definition member (self : list string) (name : string) : bool := existsb (seqb name) self.
Definition find (self : list string) (name : string) : Z :=
  match find_first (seqb name) self with Some i => Z.of_nat i | None => -1 end.

(** [NameList l; l.init(names, delim);] *)
Definition of_string (names : string) (delim : ascii) : list string := (init [] names delim).2.

Lemma member_elem l n : member l n = true <-> n ∈ l.
Proof.
  unfold member. rewrite existsb_exists. setoid_rewrite seqb_true.
  setoid_rewrite <- list_elem_of_In. naive_solver.
Qed.

Lemma find_nonneg l n : (0 <=? find l n) = member l n.
Proof.
  unfold find. destruct (find_first _ l) as [i|] eqn:E.
  - apply find_first_Some in E as [(x & Hx & Hp) _]. apply seqb_true in Hp as ->.
    transitivity true; [apply Z.leb_le; lia|]. symmetry. apply member_elem.
    by eapply list_elem_of_lookup_2.
  - transitivity false; [apply Z.leb_gt; lia|]. symmetry.
    apply not_true_iff_false. rewrite member_elem. intros Hn.
    rewrite find_first_None in E. specialize (E n Hn). by rewrite seqb_refl in E.
Qed.

Definition join (delim : ascii) (l : list string) : string :=
  match l with
  | [] => ""
  | a :: l' => a +:+ sconcat (map (fun b => String delim b) l')
  end.

Lemma init_loop_word delim cur w rest :
  delim ∉ w -> init_loop delim cur (w ++ rest) = init_loop delim (cur ++ w) rest.
Proof.
  revert cur. induction w as [|c w IH]; intros cur Hw; simpl.
  { by rewrite app_nil_r. }
  apply not_elem_of_cons in Hw as [Hc Hw].
  unfold ceqb. destruct (Ascii.eqb_spec c delim); [congruence|].
  by rewrite IH, <- app_assoc.
Qed.

(** Joining names without the delimiter and splitting gives them back, unless
    the last one is empty, which [init] drops. *)
Lemma init_join delim a l :
  Forall (fun s => delim ∉ chars s) (a :: l) -> List.last (a :: l) "" <> "" ->
  init_loop delim [] (chars (join delim (a :: l))) = a :: l.
Proof.
  unfold join. rewrite chars_app.
  revert a. induction l as [|b l IH]; intros a Ha Hlast.
  - simpl in *. apply Forall_cons_1 in Ha as [Ha _].
    rewrite init_loop_word by done. simpl.
    case_bool_decide as E.
    + destruct Hlast. by rewrite <- (of_chars_chars a), E.
    + by rewrite of_chars_chars.
  - apply Forall_cons_1 in Ha as [Ha Hl]. rewrite init_loop_word by done.
    simpl. unfold ceqb. rewrite Ascii.eqb_refl, of_chars_chars. f_equal.
    rewrite chars_app. apply IH; done.
Qed.
End NameList.

(** ** Path functions of [FileManager] *)
Module FilePath.
(** [l.find_last_of(c)] *)
Fixpoint last_index (c : ascii) (l : list ascii) : option nat :=
  match l with
  | [] => None
  | d :: l' => match last_index c l' with
               | Some i => Some (S i)
               | None => if d =c c then Some 0%nat else None
               end
  end.
Definition find_last_of (path : string) (c : ascii) : option nat := last_index c (chars path).

Definition getTail (path : string) : string :=
  match find_last_of path "/" with
  | Some i => drop_str (i + 1) path
  | None => drop_str 0 path
  end.
Definition getRoot (path : string) : string :=
  match find_last_of path "/" with Some i => take_str (i + 1) path | None => "" end.
Definition getExt (path : string) : string :=
  let fname := getTail path in
  let fname := if fname =s "" then path else fname in
  match find_last_of fname "." with
  | Some i => drop_str (i + 1) fname
  | None => drop_str 0 fname
  end.
Definition getStem (path : string) : string :=
  let fname := getTail path in
  let fname := if fname =s "" then path else fname in
  match find_last_of fname "." with
  | Some i => take_str i fname
  | None => fname
  end.
Definition stripCharacter (str : string) (ch : ascii) : string :=
  of_chars (List.filter (fun c => negb (c =c ch)) (chars str)).

Lemma last_index_None c l : c ∉ l -> last_index c l = None.
Proof.
  induction l as [|d l IH]; simpl; [done|]. intros [Hd Hl]%not_elem_of_cons.
  rewrite IH by done. unfold ceqb. destruct (Ascii.eqb_spec d c); congruence.
Qed.
Lemma last_index_app c l r :
  c ∉ r -> last_index c (l ++ c :: r) = Some (length l).
Proof.
  intros Hr. induction l as [|d l IH]; simpl.
  - rewrite last_index_None by done. unfold ceqb. by rewrite Ascii.eqb_refl.
  - by rewrite IH.
Qed.
Lemma substring_all s : String.substring 0 (String.length s) s = s.
Proof. induction s as [|c s IH]; simpl; congruence. Qed.
Lemma drop_str_0 s : drop_str 0 s = s.
Proof. unfold drop_str. rewrite Nat.sub_0_r. apply substring_all. Qed.
Lemma take_str_prefix a b : take_str (String.length a) (a +:+ b) = a.
Proof.
  unfold take_str. induction a as [|c a IH]; [destruct b; done|].
  rewrite sapp_cons. simpl. by rewrite IH.
Qed.

(** The stem of a configuration file name is the name of its instance. *)
Lemma getStem_xml name :
  "/"%char ∉ chars name -> getStem (name +:+ ".xml") = name.
Proof.
  intros H. unfold getStem, getTail, find_last_of.
  rewrite (last_index_None "/").
  - rewrite drop_str_0. rewrite seqb_ne.
    + rewrite chars_app. change (chars ".xml") with ("."%char :: chars "xml").
      rewrite last_index_app by (simpl; set_solver).
      rewrite length_chars. apply take_str_prefix.
    + intros E. apply (f_equal String.length) in E. rewrite length_sapp in E. simpl in E. lia.
  - rewrite chars_app. simpl. set_solver.
Qed.
End FilePath.

(** * Facts on the service functions: times of day, splitting, replacement *)

(** A decidable fact about small numbers, by evaluation. *)
Lemma below_spec (f : Z -> bool) (n : nat) :
  forallb f (map Z.of_nat (seq 0 n)) = true -> forall z, 0 <= z < Z.of_nat n -> f z = true.
Proof.
  intros H z Hz. rewrite forallb_forall in H. apply H, in_map_iff.
  exists (Z.to_nat z). split; [lia|]. apply in_seq. lia.
Qed.

(** ** Substrings and searches *)
Lemma substring_chars (s : string) i n :
  chars (String.substring i n s) = take n (drop i (chars s)).
Proof.
  revert i n. induction s as [|c s IH]; intros [|i] [|n]; simpl; try done; by rewrite IH.
Qed.
Lemma drop_str_chars i s : (i <= String.length s)%nat -> chars (drop_str i s) = drop i (chars s).
Proof.
  intros H. unfold drop_str. rewrite substring_chars. apply take_ge. rewrite length_drop, length_chars. lia.
Qed.

Lemma index_bounds n p s m :
  String.index n p s = Some m -> p <> "" -> (n <= m /\ m + String.length p <= String.length s)%nat.
Proof.
  intros H Hp. split.
  - revert n m H. induction s as [|c s IH]; intros [|n] m; cbn [String.index]; try lia; [done|].
    destruct (String.index n p s) as [k|] eqn:Ek; [|done]. intros [= <-]. apply IH in Ek. lia.
  - apply String.index_correct1, (f_equal chars), (f_equal length) in H.
    rewrite substring_chars, length_take, length_drop, !length_chars in H.
    assert (0 < String.length p)%nat by (destruct p; simpl; [done|lia]). lia.
Qed.

(** ** The time of day *)
Definition is_sep (c : ascii) : bool := (c =c ":"%char) || (c =c "."%char).
Lemma take_field_app l c r :
  forallb (fun c => negb (is_sep c)) l = true -> is_sep c = true -> take_field (l ++ c :: r) = (l, c :: r).
Proof.
  intros Hl Hc. induction l as [|x l IH]; simpl in *.
  - unfold is_sep in Hc. by rewrite Hc.
  - apply andb_true_iff in Hl as [Hx Hl]. apply negb_true_iff in Hx. unfold is_sep in Hx. rewrite Hx.
    by rewrite (IH Hl).
Qed.
Lemma take_field_all l : forallb (fun c => negb (is_sep c)) l = true -> take_field l = (l, []).
Proof.
  intros Hl. induction l as [|x l IH]; simpl in *; [done|].
  apply andb_true_iff in Hl as [Hx Hl]. apply negb_true_iff in Hx. unfold is_sep in Hx. rewrite Hx.
  by rewrite (IH Hl).
Qed.

Definition field_ok (n : Z) : bool :=
  let l := chars (pad2 n) in
  forallb (fun c => negb (is_sep c)) l && (atoi (of_chars l) =? n) && (length l =? 2)%nat.
Lemma pad2_ok n : 0 <= n < 100 -> field_ok n = true.
Proof. apply (below_spec field_ok 100). vm_compute. reflexivity. Qed.

Lemma add_field_pad2 sec n u :
  0 <= n < 100 -> 0 <= sec -> 0 < u -> sec + n * u < 2 ^ 31 ->
  add_field sec (chars (pad2 n)) u = sec + n * u.
Proof.
  intros Hn Hs Hu Hb. pose proof (pad2_ok n Hn) as H. unfold field_ok in H.
  rewrite !andb_true_iff in H. destruct H as [[_ Ha] Hl]. unfold add_field.
  rewrite bool_decide_false by (intros E; by rewrite E in Hl). apply Z.eqb_eq in Ha. rewrite Ha.
  apply swrap_id; [lia|]. split; [nia|]. change (2 ^ (32 - 1)) with (2 ^ 31). lia.
Qed.

Lemma string2second_hms t :
  tm_ok t -> string2second (hms t) = tm_hour t * 3600 + tm_min t * 60 + tm_sec t.
Proof.
  intros (Hs & Hm & Hh). unfold string2second, hms. rewrite !chars_app.
  change (chars ":") with [":"%char]. simpl.
  assert (forall n, 0 <= n < 100 -> forallb (fun c => negb (is_sep c)) (chars (pad2 n)) = true) as Hp.
  { intros n Hn. pose proof (pad2_ok n Hn) as H. unfold field_ok in H. rewrite !andb_true_iff in H. tauto. }
  rewrite take_field_app by (done || apply Hp; lia). simpl.
  rewrite take_field_app by (done || apply Hp; lia). simpl.
  rewrite take_field_all by (apply Hp; lia). simpl.
  rewrite (add_field_pad2 0 (tm_hour t)) by (change (2 ^ 31) with 2147483648; lia).
  rewrite (add_field_pad2 _ (tm_min t)) by (change (2 ^ 31) with 2147483648; lia).
  rewrite add_field_pad2 by (change (2 ^ 31) with 2147483648; lia). lia.
Qed.

(** The calendar fields [asctime] prints. *)
Definition tm_date_ok (t : tm) : Prop := 0 <= tm_wday t < 7 /\ 0 <= tm_mon t < 12 /\ 1 <= tm_mday t <= 31.

Lemma substring_mid a b c :
  String.substring (String.length a) (String.length b) (a +:+ b +:+ c) = b.
Proof.
  induction a as [|x a IH]; simpl.
  - rewrite sapp_nil_l. induction b as [|y b IHb]; rewrite ?sapp_nil_l, ?sapp_cons; simpl; [by destruct c|].
    by rewrite IHb.
  - exact IH.
Qed.

Lemma length_wday n : 0 <= n < 7 -> String.length (wday_name n) = 3%nat.
Proof. intros H. apply Nat.eqb_eq. revert n H. apply (below_spec (fun n => String.length (wday_name n) =? 3)%nat 7). reflexivity. Qed.
Lemma length_mon n : 0 <= n < 12 -> String.length (mon_name n) = 3%nat.
Proof. intros H. apply Nat.eqb_eq. revert n H. apply (below_spec (fun n => String.length (mon_name n) =? 3)%nat 12). reflexivity. Qed.
Lemma length_pad3s n : 0 <= n < 100 -> String.length (pad3s n) = 3%nat.
Proof. intros H. apply Nat.eqb_eq. revert n H. apply (below_spec (fun n => String.length (pad3s n) =? 3)%nat 100). vm_compute. reflexivity. Qed.
Lemma length_pad2 n : 0 <= n < 100 -> String.length (pad2 n) = 2%nat.
Proof. intros H. apply Nat.eqb_eq. revert n H. apply (below_spec (fun n => String.length (pad2 n) =? 2)%nat 100). vm_compute. reflexivity. Qed.

Lemma day_text t : tm_ok t -> tm_date_ok t -> String.substring 11 8 (asctime t) = hms t.
Proof.
  intros (Hs & Hm & Hh) (Hw & Ho & Hd). unfold asctime.
  set (a := wday_name (tm_wday t) +:+ " " +:+ mon_name (tm_mon t) +:+ pad3s (tm_mday t) +:+ " ").
  replace (wday_name (tm_wday t) +:+ " " +:+ mon_name (tm_mon t) +:+ pad3s (tm_mday t) +:+ " " +:+
    hms t +:+ " " +:+ pretty (tm_year t + 1900) +:+ String "010" "")
    with (a +:+ hms t +:+ (" " +:+ pretty (tm_year t + 1900) +:+ String "010" ""))
    by (unfold a; rewrite !sapp_assoc; reflexivity).
  replace 11%nat with (String.length a).
  2:{ unfold a. rewrite !length_sapp, length_wday, length_mon, length_pad3s by lia. reflexivity. }
  replace 8%nat with (String.length (hms t)).
  2:{ unfold hms. rewrite !length_sapp, !length_pad2 by lia. reflexivity. }
  apply substring_mid.
Qed.

Section clock.
Context {P : Platform}.
Definition clock_ok (tv : timeval) : Prop := tm_ok (localtime (tv_sec tv)) /\ tm_date_ok (localtime (tv_sec tv)).
Lemma second_of_day tv :
  clock_ok tv -> string2second (getasciitimeday_of tv) = daysecond (CurrentTime_of tv 0).
Proof.
  intros [Ht Hd]. unfold getasciitimeday_of. rewrite day_text, string2second_hms by done.
  unfold daysecond, CurrentTime_of. cbv zeta. replace (tv_sec tv + 0 * 24 * 3600) with (tv_sec tv) by lia. simpl. lia.
Qed.
Lemma second_of_day_range tv : clock_ok tv -> 0 <= string2second (getasciitimeday_of tv) < 86400.
Proof.
  intros [Ht Hd]. unfold getasciitimeday_of. rewrite day_text, string2second_hms by done.
  destruct Ht. lia.
Qed.
End clock.

(** ** Searching *)
Lemma take_str_chars n s : chars (take_str n s) = take n (chars s).
Proof. unfold take_str. by rewrite substring_chars, drop_0. Qed.
(** What [find] finds, and where. *)
Lemma drop_str_app a b : drop_str (String.length a) (a +:+ b) = b.
Proof.
  rewrite <- (of_chars_chars (drop_str _ _)), drop_str_chars by (rewrite length_sapp; lia).
  by rewrite chars_app, <- length_chars, drop_app_length, of_chars_chars.
Qed.
Lemma take_str_app a b : take_str (String.length a) (a +:+ b) = a.
Proof. apply FilePath.take_str_prefix. Qed.
Lemma sfind_split p s pos :
  p <> "" -> sfind p s 0 = Some pos ->
  s = take_str pos s +:+ p +:+ drop_str (pos + String.length p) s /\
  (pos + String.length p <= String.length s)%nat.
Proof.
  intros Hp H. destruct (index_bounds _ _ _ _ H Hp) as [_ Hle]. split; [|done].
  apply String.index_correct1, (f_equal chars) in H. rewrite substring_chars in H.
  rewrite <- (of_chars_chars s) at 1. rewrite <- (of_chars_chars (_ +:+ _)). f_equal.
  rewrite !chars_app, take_str_chars, drop_str_chars by lia. rewrite <- H.
  rewrite <- (length_chars p) in *.
  rewrite <- drop_drop, take_drop. by rewrite take_drop.
Qed.
Lemma contains_at x p y : p <> "" -> contains p (x +:+ p +:+ y) = true.
Proof.
  intros Hp. unfold contains. apply bool_decide_eq_true. destruct (sfind p (x +:+ p +:+ y) 0) eqn:E; [eauto|]. exfalso.
  eapply (String.index_correct3 0 (String.length x)) in E; [|done|lia]. apply E.
  rewrite <- (of_chars_chars p) at 3. rewrite <- (of_chars_chars (String.substring _ _ _)). f_equal.
  rewrite substring_chars, !chars_app, <- !length_chars, drop_app_length, take_app_length. done.
Qed.
Lemma contains_inv p s : p <> "" -> contains p s = true -> exists x y, s = x +:+ p +:+ y.
Proof.
  intros Hp H. unfold contains in H. apply bool_decide_eq_true in H as [pos H].
  destruct (sfind_split p s pos Hp H) as [E _]. eauto.
Qed.

(** ** Filling placeholders *)
Definition dollar : ascii := "$".
Definition dollars (s : string) : nat := length (List.filter (fun c => c =c dollar) (chars s)).
Lemma dollars_app a b : dollars (a +:+ b) = (dollars a + dollars b)%nat.
Proof. unfold dollars. by rewrite chars_app, List.filter_app, length_app. Qed.
Lemma dollars_le s : (dollars s <= String.length s)%nat.
Proof. unfold dollars. rewrite <- length_chars. apply List.filter_length_le. Qed.
Lemma dollars_none s : dollar ∉ chars s -> dollars s = 0%nat.
Proof.
  unfold dollars. induction (chars s) as [|c l IH]; simpl; [done|]. intros [Hc Hl]%not_elem_of_cons.
  unfold ceqb at 1. destruct (Ascii.eqb_spec c dollar) as [->|_]; [done|]. by apply IH.
Qed.
(** With a value that holds no '$', every turn removes a '$'. *)
Lemma fill_loop_ends n s k v :
  (0 < dollars k)%nat -> dollar ∉ chars v -> (dollars s < n)%nat ->
  exists s', strReplaceAll n s k v = Some s' /\ contains k s' = false.
Proof.
  intros Hd Hv. assert (Hne : k <> "") by (intros ->; unfold dollars in Hd; simpl in Hd; lia). revert s.
  induction n as [|n IH]; intros s Hn; [lia|]. simpl. unfold strReplace. destruct (sfind k s 0) as [pos|] eqn:E.
  - destruct (sfind_split k s pos Hne E) as [Hs _].
    apply IH. rewrite Hs, !dollars_app in Hn. rewrite !dollars_app, (dollars_none v Hv). lia.
  - exists s. split; [done|]. unfold contains. by rewrite E.
Qed.
Lemma fill_never_ends fuel s k v :
  k <> "" -> contains k v = true -> contains k s = true -> strReplaceAll fuel s k v = None.
Proof.
  intros Hk Hv. revert s. induction fuel as [|n IH]; intros s Hs; [done|]. simpl. unfold strReplace.
  unfold contains in Hs. apply bool_decide_eq_true in Hs as [pos E]. rewrite E. apply IH.
  destruct (contains_inv k v Hk Hv) as (x & y & ->).
  rewrite !sapp_assoc, <- sapp_assoc. by apply contains_at.
Qed.
