(* ===== verification/Xml.v ===== *)
(** * XML documents as the code navigates them (tinyxml nodes, hsrv::getAttrbyName)

    A [TiXmlNode*] is modelled by the node together with its later siblings:
    the list of siblings starting at that node, the empty list being [NULL].
    [FirstChild], [NextSibling] and [ToElement] called through a null pointer
    crash the program: they return [None].  The parser is the interface
    [XmlParser]: [parse_document] gives the children of the [TiXmlDocument] that
    [Parse] makes of a text, [load_document] those that [LoadFile] makes of a
    readable file of that content, and [parse_ok] is the result of [LoadFile].
    [Tiny] is the parser the agents are linked with, and [tinyxml] implements the interface. *)
From S2P Require Import Prelude Doubles.

(** The nodes that are no element; a declaration keeps what it declares. *)
Inductive leaf := TextNode | CDataNode | CommentNode | UnknownTag | DeclarationNode (version encoding standalone : string).
(** A value ends at its first zero byte, as it does for the callers of [Value]. *)
Inductive xnode :=
| XElement (value : string) (attrs : list (string * string)) (children : list xnode)
| XOther (kind : leaf) (value : string).

Definition xptr := list xnode.
(** The first node of the documents the code writes. *)
Definition xml_declaration : xnode := XOther (DeclarationNode "1.0" "" "") "".

Class XmlParser := {
  parse_document : string -> xptr; load_document : string -> xptr; parse_ok : string -> bool }.
(** Whether the pointer [Parse] returns is not null. *)
Class XmlEnd := { parse_returns : string -> bool }.

Definition children (n : xnode) : xptr :=
  match n with XElement _ _ c => c | XOther _ _ => [] end.
Definition attributes (n : xnode) : list (string * string) :=
  match n with XElement _ a _ => a | XOther _ _ => [] end.

Definition FirstChild (p : xptr) : option xptr :=
  match p with [] => None | n :: _ => Some (children n) end.
Definition NextSibling (p : xptr) : option xptr :=
  match p with [] => None | _ :: r => Some r end.
Definition ToElement (p : xptr) : option xptr :=
  match p with [] => None | XElement _ _ _ :: _ => Some p | XOther _ _ :: _ => Some [] end.

(** [pAttrib->Value()] of the first attribute of that name, if any. *)
Fixpoint attr_value (attrs : list (string * string)) (name : string) : option string :=
  match attrs with
  | [] => None
  | (n, v) :: rest => if n =s name then Some v else attr_value rest name
  end.

Definition getAttrbyName (pElement : xptr) (name : string) : string :=
  match pElement with
  | n :: _ => default "*" (attr_value (attributes n) name)
  | [] => "*"
  end.

(** [for(pChild = prg->FirstChild(); pChild != 0 && tmp == "*"; ...)] *)
Fixpoint getParam_loop (l : xptr) (name : string) (tmp : string) : string :=
  match l with
  | [] => tmp
  | n :: r =>
      if tmp =s "*" then
        getParam_loop r name (match n with XElement _ _ _ => getAttrbyName [n] name | XOther _ _ => "*" end)
      else tmp
  end.
Definition getParambyName (prg : xptr) (name : string) : string :=
  match prg with [] => "*" | n :: _ => getParam_loop (children n) name "*" end.

(** The children of a node that are elements see their own attributes; the
    others are a null element, which reads as "*". *)
Definition child_attr (n : xnode) (name : string) : string :=
  match n with XElement _ _ _ => getAttrbyName [n] name | XOther _ _ => "*" end.

Lemma child_attr_spec n name r :
  (fun e => getAttrbyName e name) <$> ToElement (n :: r) = Some (child_attr n name).
Proof. by destruct n. Qed.

(** Text of an attribute list and of a tree, as the [xmlEncode] functions write them. *)
Definition quote (s : string) : string := String (Ascii.ascii_of_nat 34) s +:+ String (Ascii.ascii_of_nat 34) "".

(** * The XML parser (tinyxml/tinyxmlparser.cpp, tinyxml.cpp, tinyxml.h)

    The parser the agents are linked with, from a text or from a file.  A pointer into the text is a [ptr]: [None] is the null
    pointer, [Some l] points at the characters [l] that are left, the terminating zero not included.  A run ends with a result
    and the error flag it may have set in the document; [Stopped] is an assertion that fails (tinyxml/Makefile leaves them on)
    or a read past the end of the text; [NoFuel] is excluded in TinyFacts.  White space is condensed, as nobody changes it.
    Row and column of a node and its user data are left out; documents are printed in XmlPrint. *)

Inductive run (A : Type) := Ran (a : A) (error : bool) | Stopped | NoFuel.
Arguments Ran {A}.
Arguments Stopped {A}.
Arguments NoFuel {A}.
#[export] Instance run_ret : MRet run := fun A a => Ran a false.
#[export] Instance run_bind : MBind run := fun A B k c =>
  match c with
  | Ran a e => match k a with Ran b e' => Ran b (e || e') | Stopped => Stopped | NoFuel => NoFuel end
  | Stopped => Stopped
  | NoFuel => NoFuel
  end.

Module Tiny.
Inductive encoding := Unknown | UTF8 | Legacy.
Definition ptr : Type := option (list ascii).
(** [SetError], then the pointer that is returned. *)
Definition fail {A} (a : A) : run A := Ran a true.
(** What an attribute without a document does with its errors. *)
Definition quiet {A} (c : run A) : run A := match c with Ran a _ => Ran a false | x => x end.

(** ** Characters *)
Definition code (c : ascii) : nat := nat_of_ascii c.
Definition between (a b n : nat) : bool := (a <=? n)%nat && (n <=? b)%nat.
(** The length of the sequence that a byte begins. *)
Definition utf8ByteTable (c : ascii) : nat :=
  let n := code c in
  if between 194 223 n then 2 else if between 224 239 n then 3 else if between 240 244 n then 4 else 1.
Definition IsAlpha (c : ascii) : bool :=
  let n := code c in between 65 90 n || between 97 122 n || (127 <=? n)%nat.
Definition IsAlphaNum (c : ascii) : bool := IsAlpha c || between 48 57 (code c).
Definition IsWhiteSpace : ascii -> bool := Ascii.is_space.
Definition ToLower (c : ascii) : ascii := if between 65 90 (code c) then ascii_of_nat (code c + 32) else c.
Definition is_lead (a b c : ascii) : bool :=
  (code a =? 239)%nat &&
  (((code b =? 187)%nat && (code c =? 191)%nat) || ((code b =? 191)%nat && ((code c =? 190)%nat || (code c =? 191)%nat))).

(** ** Pieces of text *)
Fixpoint skip_utf8 (l : list ascii) : list ascii :=
  match l with
  | [] => []
  | a :: l1 =>
      match l1 with
      | b :: c :: l3 => if is_lead a b c then skip_utf8 l3 else if IsWhiteSpace a then skip_utf8 l1 else l
      | _ => if IsWhiteSpace a then skip_utf8 l1 else l
      end
  end.
Fixpoint skip_plain (l : list ascii) : list ascii :=
  match l with a :: l' => if IsWhiteSpace a then skip_plain l' else l | [] => [] end.
Definition SkipWhiteSpace (enc : encoding) (p : ptr) : ptr :=
  match p with
  | None | Some [] => None
  | Some l => Some (match enc with UTF8 => skip_utf8 l | _ => skip_plain l end)
  end.
(** The text behind a prefix, if it is there. *)
Fixpoint strip (same : ascii -> ascii -> bool) (tag l : list ascii) : option (list ascii) :=
  match tag, l with
  | [], _ => Some l
  | t :: tag', c :: l' => if same c t then strip same tag' l' else None
  | _ :: _, [] => None
  end.
Definition same_ci (a b : ascii) : bool := ToLower a =c ToLower b.
(** [StringEqual], for a text that is not empty. *)
Definition StringEqual (l : list ascii) (tag : string) : bool := bool_decide (is_Some (strip ceqb (chars tag) l)).
Definition StringEqual_ci (l : list ascii) (tag : string) : bool := bool_decide (is_Some (strip same_ci (chars tag) l)).
Fixpoint span (f : ascii -> bool) (l : list ascii) : list ascii * list ascii :=
  match l with
  | [] => ([], [])
  | c :: l' => if f c then let r := span f l' in (c :: r.1, r.2) else ([], l)
  end.
Definition name_start (c : ascii) : bool := IsAlpha c || (c =c "_").
Definition name_char (c : ascii) : bool := IsAlphaNum c || (c =c "_") || (c =c "-") || (c =c ".") || (c =c ":").
Definition ReadName (l : list ascii) : list ascii * ptr :=
  match l with
  | c :: _ => if name_start c then let r := span name_char l in (r.1, Some r.2) else ([], None)
  | [] => ([], None)
  end.

(** ** Entities *)
Definition byte (z : Z) : ascii := ascii_of_N (Z.to_N (z mod 256)).
Definition cont (u : Z) : ascii := byte (Z.land (Z.lor u 128) 191).
Definition ConvertUTF32ToUTF8 (u : Z) : list ascii :=
  let r := Z.shiftr u in
  if u <? 128 then [byte u]
  else if u <? 2048 then [byte (Z.lor (r 6) 192); cont u]
  else if u <? 65536 then [byte (Z.lor (r 12) 224); cont (r 6); cont u]
  else if u <? 2097152 then [byte (Z.lor (r 18) 240); cont (r 12); cont (r 6); cont u]
  else [].
Definition dec_digit (c : ascii) : option Z := if between 48 57 (code c) then Some (Z.of_nat (code c - 48)) else None.
Definition hex_digit (c : ascii) : option Z :=
  let n := code c in
  if between 48 57 n then Some (Z.of_nat (n - 48)) else if between 97 102 n then Some (Z.of_nat (n - 87))
  else if between 65 70 n then Some (Z.of_nat (n - 55)) else None.
(** From the last digit back to the character before the first one; [mult] has 32 bits, the sum 64. *)
Fixpoint ucs_loop (digit : ascii -> option Z) (base : Z) (stop : ascii) (l : list ascii) (mult ucs : Z) : option Z :=
  match l with
  | [] => Some ucs
  | c :: l' =>
      if c =c stop then Some ucs
      else d ← digit c; ucs_loop digit base stop l' (wrap 32 (mult * base)) (wrap 64 (ucs + wrap 32 (mult * d)))
  end.
Definition entity : list (string * ascii) :=
  [("&amp;", "&"%char); ("&lt;", "<"%char); ("&gt;", ">"%char); ("&quot;", ascii_of_nat 34); ("&apos;", "'"%char)].
Fixpoint match_entity (table : list (string * ascii)) (l : list ascii) : option (ascii * list ascii) :=
  match table with
  | [] => None
  | (s, c) :: table' => match strip ceqb (chars s) l with Some r => Some (c, r) | None => match_entity table' l end
  end.
(** The number of an entity, [l] being the text behind its first characters, and the text behind it. *)
Definition number_entity (enc : encoding) (digit : ascii -> option Z) (base : Z) (stop : ascii) (l : list ascii) : list ascii * ptr :=
  let r := span (fun c => negb (c =c ";")) l in
  match r.2 with
  | [] => ([], None)
  | _ :: rest =>
      match ucs_loop digit base stop (rev r.1) 1 0 with
      | None => ([], None)
      | Some u => (match enc with UTF8 => ConvertUTF32ToUTF8 u | _ => [byte u] end, Some rest)
      end
  end.
(** [l] is the text behind the ampersand; one that begins no entity is dropped. *)
Definition GetEntity (enc : encoding) (l : list ascii) : list ascii * ptr :=
  match l with
  | h :: x :: l' =>
      if h =c "#" then
        if x =c "x" then match l' with [] => ([], None) | _ => number_entity enc hex_digit 16 "x" l' end
        else number_entity enc dec_digit 10 "#" (x :: l')
      else match match_entity entity ("&"%char :: l) with Some (c, r) => ([c], Some r) | None => ([], Some l) end
  | _ => ([], Some l)
  end.
(** The character at the pointer; a sequence that the text does not hold whole is read past the end. *)
Definition GetChar (enc : encoding) (c : ascii) (l : list ascii) : run (list ascii * ptr) :=
  let n := match enc with UTF8 => utf8ByteTable c | _ => 1%nat end in
  if (n =? 1)%nat then mret (if c =c "&" then GetEntity enc l else ([c], Some l))
  else if (length l <? n - 1)%nat then Stopped else mret (c :: take (n - 1) l, Some (drop (n - 1) l)).

(** ** Text up to an end tag *)
Fixpoint read_all (fuel : nat) (enc : encoding) (endTag : string) (l : list ascii) : run (list ascii * ptr) :=
  match fuel with
  | O => NoFuel
  | S n =>
      match l with
      | [] => mret ([], Some [])
      | c :: l' =>
          if StringEqual l endTag then mret ([], Some l)
          else
            r ← GetChar enc c l';
            match r.2 with
            | None => mret (r.1, None)
            | Some l2 => x ← read_all n enc endTag l2; mret (r.1 ++ x.1, x.2)
            end
      end
  end.
(** White space becomes one space before the next character, none at the ends. *)
Fixpoint read_condensed (fuel : nat) (enc : encoding) (endTag : string) (whitespace : bool) (l : list ascii) : run (list ascii * ptr) :=
  match fuel with
  | O => NoFuel
  | S n =>
      match l with
      | [] => mret ([], Some [])
      | c :: l' =>
          if StringEqual l endTag then mret ([], Some l)
          else if IsWhiteSpace c then read_condensed n enc endTag true l'
          else
            r ← GetChar enc c l';
            let t := if whitespace then " "%char :: r.1 else r.1 in
            match r.2 with
            | None => mret (t, None)
            | Some l2 => x ← read_condensed n enc endTag false l2; mret (t ++ x.1, x.2)
            end
      end
  end.
Definition nonempty (l : list ascii) : ptr := match l with [] => None | _ => Some l end.
Definition after_tag (endTag : string) (p : ptr) : ptr :=
  match p with None | Some [] => None | Some l => nonempty (drop (String.length endTag) l) end.
Definition ReadText (enc : encoding) (trim : bool) (endTag : string) (l : list ascii) : run (list ascii * ptr) :=
  r ← (if negb trim then read_all (S (length l)) enc endTag l
       else match SkipWhiteSpace enc (Some l) with
            | None => mret ([], None)
            | Some l => read_condensed (S (length l)) enc endTag false l
            end);
  mret (r.1, after_tag endTag r.2).

(** ** Attributes *)
Definition SINGLE_QUOTE : ascii := "'"%char.
Definition DOUBLE_QUOTE : ascii := ascii_of_nat 34.
(** A value without quotes; a quote in it is an error. *)
Fixpoint unquoted (l : list ascii) : run (list ascii * ptr) :=
  match l with
  | [] => mret ([], Some [])
  | c :: l' =>
      if IsWhiteSpace c || (c =c "/") || (c =c ">") then mret ([], Some l)
      else if (c =c SINGLE_QUOTE) || (c =c DOUBLE_QUOTE) then fail ([], None)
      else r ← unquoted l'; mret (c :: r.1, r.2)
  end.
Definition attribute_value (enc : encoding) (l : list ascii) : run (list ascii * ptr) :=
  match l with
  | c :: l' =>
      if c =c SINGLE_QUOTE then ReadText enc false "'" l'
      else if c =c DOUBLE_QUOTE then ReadText enc false (String DOUBLE_QUOTE "") l'
      else unquoted l
  | [] => mret ([], None)
  end.
(** [TiXmlAttribute::Parse]: name, value and where it ends. *)
Definition Attribute_Parse (enc : encoding) (p : ptr) : run (list ascii * list ascii * ptr) :=
  match SkipWhiteSpace enc p with
  | None | Some [] => mret ([], [], None)
  | Some l =>
      let '(name, p) := ReadName l in
      match p with
      | None | Some [] => fail (name, [], None)
      | Some l =>
          match SkipWhiteSpace enc (Some l) with
          | Some (c :: l) =>
              if c =c "=" then
                match SkipWhiteSpace enc (Some l) with
                | None | Some [] => fail (name, [], None)
                | Some l => r ← attribute_value enc l; mret (name, r.1, r.2)
                end
              else fail (name, [], None)
          | _ => fail (name, [], None)
          end
      end
  end.

(** ** Nodes *)
Inductive kind := Declaration | Comment | CData | UnknownNode | Element.
(** [TiXmlNode::Identify], at the first character that is not white space. *)
Definition Identify (l : list ascii) : option kind :=
  match l with
  | c :: l' =>
      if negb (c =c "<") then None
      else if StringEqual_ci l "<?xml" then Some Declaration
      else if StringEqual l "<!--" then Some Comment
      else if StringEqual l "<![CDATA[" then Some CData
      else if StringEqual l "<!" then Some UnknownNode
      else match l' with
           | d :: _ => if IsAlpha d || (d =c "_") then Some Element else Some UnknownNode
           | [] => Some UnknownNode
           end
  | [] => None
  end.
(** What [c_str] shows of a text. *)
Definition c_text (l : list ascii) : string := of_chars (span (fun c => negb (code c =? 0)%nat) l).1.
Definition Unknown_Parse (l : list ascii) : run (xnode * ptr) :=
  let r := span (fun c => negb (c =c ">")) (tail l) in
  mret (XOther UnknownTag (c_text r.1), Some (tail r.2)).
(** The text before a tag, and the text from it on. *)
Fixpoint before_tag (tag : string) (l : list ascii) : list ascii * list ascii :=
  match l with
  | [] => ([], [])
  | c :: l' => if StringEqual l tag then ([], l) else let r := before_tag tag l' in (c :: r.1, r.2)
  end.
Definition Comment_Parse (l : list ascii) : run (xnode * ptr) :=
  let r := before_tag "-->" (drop 4 l) in mret (XOther CommentNode (c_text r.1), Some (drop 3 r.2)).
Definition CData_Parse (enc : encoding) (l : list ascii) : run (xnode * ptr) :=
  let r := before_tag "]]>" (drop 9 l) in
  x ← ReadText enc false "]]>" r.2; mret (XOther CDataNode (c_text r.1), x.2).
Definition Text_Parse (enc : encoding) (l : list ascii) : run (list ascii * ptr) :=
  r ← ReadText enc true "<" l;
  mret (r.1, match r.2 with Some (c :: l) => Some ("<"%char :: c :: l) | _ => None end).
Definition Blank (t : list ascii) : bool := forallb IsWhiteSpace t.
Definition skip_other (l : list ascii) : list ascii := (span (fun c => negb ((c =c ">") || IsWhiteSpace c)) l).2.
(** What a declaration declares: [version], [encoding] and [standalone]. *)
Record declared := mkDeclared { dcl_version : list ascii; dcl_encoding : list ascii; dcl_standalone : list ascii }.
(** What it declares and where it ends; white space up to the end of the text fails an assertion of [StringEqual]. *)
Fixpoint declaration_loop (fuel : nat) (enc : encoding) (d : declared) (p : ptr) : run (declared * ptr) :=
  match fuel with
  | O => NoFuel
  | S n =>
      match p with
      | None | Some [] => mret (d, None)
      | Some (c :: l') =>
          if c =c ">" then mret (d, Some l')
          else
            match SkipWhiteSpace enc p with
            | None | Some [] => Stopped
            | Some l =>
                if StringEqual_ci l "version" then
                  r ← quiet (Attribute_Parse enc (Some l));
                  declaration_loop n enc (mkDeclared r.1.2 (dcl_encoding d) (dcl_standalone d)) r.2
                else if StringEqual_ci l "encoding" then
                  r ← quiet (Attribute_Parse enc (Some l));
                  declaration_loop n enc (mkDeclared (dcl_version d) r.1.2 (dcl_standalone d)) r.2
                else if StringEqual_ci l "standalone" then
                  r ← quiet (Attribute_Parse enc (Some l));
                  declaration_loop n enc (mkDeclared (dcl_version d) (dcl_encoding d) r.1.2) r.2
                else declaration_loop n enc d (Some (skip_other l))
            end
      end
  end.
Definition Declaration_Parse (enc : encoding) (l : list ascii) : run (declared * ptr) :=
  declaration_loop (2 * length l + 2) enc (mkDeclared [] [] []) (Some (drop 5 l)).
Definition declaration_node (d : declared) : xnode :=
  XOther (DeclarationNode (c_text (dcl_version d)) (c_text (dcl_encoding d)) (c_text (dcl_standalone d))) "".
Definition element (name : list ascii) (attrs : list (string * string)) (children : list xnode) : xnode :=
  XElement (of_chars name) attrs children.

Fixpoint Element_Parse (fuel : nat) (enc : encoding) (p : ptr) : run (xnode * ptr) :=
  match fuel with
  | O => NoFuel
  | S n =>
      match SkipWhiteSpace enc p with
      | None | Some [] => fail (element [] [] [], None)
      | Some (c :: l) =>
          if negb (c =c "<") then fail (element [] [] [], None)
          else
            match SkipWhiteSpace enc (Some l) with
            | None => Stopped
            | Some l =>
                let '(name, p) := ReadName l in
                match p with
                | None | Some [] => fail (element name [] [], None)
                | Some l => tag_loop n enc name [] l
                end
            end
      end
  end
(** The loop over the attributes, the end of the tag, the content and the end tag. *)
with tag_loop (fuel : nat) (enc : encoding) (name : list ascii) (attrs : list (string * string)) (l : list ascii) : run (xnode * ptr) :=
  match fuel with
  | O => NoFuel
  | S n =>
      let this := element name attrs [] in
      match SkipWhiteSpace enc (Some l) with
      | None | Some [] => fail (this, None)
      | Some (c :: l) =>
          if c =c "/" then
            match l with d :: l => if d =c ">" then mret (this, Some l) else fail (this, None) | [] => fail (this, None) end
          else if c =c ">" then
            r ← ReadValue n enc (Some l);
            let this := element name attrs r.1 in
            match r.2 with
            | None | Some [] => fail (this, None)
            | Some l =>
                match strip ceqb (chars "</" ++ name) l with
                | None => fail (this, None)
                | Some l =>
                    match SkipWhiteSpace enc (Some l) with
                    | Some (d :: l) => if d =c ">" then mret (this, Some l) else fail (this, None)
                    | _ => fail (this, None)
                    end
                end
            end
          else
            r ← Attribute_Parse enc (Some (c :: l));
            let '(nm, v, p) := r in
            match p with
            | None | Some [] => fail (this, None)
            | Some l =>
                if existsb (fun a => a.1 =s of_chars nm) attrs then fail (this, None)
                else tag_loop n enc name (attrs ++ [(of_chars nm, c_text v)]) l
            end
      end
  end
with ReadValue (fuel : nat) (enc : encoding) (p : ptr) : run (list xnode * ptr) :=
  match fuel with
  | O => NoFuel
  | S n =>
      match SkipWhiteSpace enc p with
      | None => fail ([], None)
      | Some [] => mret ([], Some [])
      | Some ((c :: _) as l) =>
          if c =c "<" then
            if StringEqual l "</" then mret ([], Some l)
            else
              match Identify l with
              | None => mret ([], None)
              | Some k =>
                  r ← (match k with
                       | Declaration => r ← Declaration_Parse enc l; mret (declaration_node r.1, r.2)
                       | Comment => Comment_Parse l
                       | CData => CData_Parse enc l
                       | UnknownNode => Unknown_Parse l
                       | Element => Element_Parse n enc (Some l)
                       end);
                  x ← ReadValue n enc r.2; mret (r.1 :: x.1, x.2)
              end
          else
            r ← Text_Parse enc l;
            x ← ReadValue n enc r.2; mret ((if Blank r.1 then [] else [XOther TextNode (c_text r.1)]) ++ x.1, x.2)
      end
  end.

(** ** Documents *)
Definition after_declaration (enc : encoding) (d : declared) : encoding :=
  match enc with
  | Unknown =>
      let e := chars (c_text (dcl_encoding d)) in
      if bool_decide (e = []) || StringEqual_ci e "UTF-8" || StringEqual_ci e "UTF8" then UTF8 else Legacy
  | _ => enc
  end.
(** A node of the document, where it ends and the encoding from there on. *)
Definition document_node (n : nat) (enc : encoding) (k : kind) (l : list ascii) : run (xnode * ptr * encoding) :=
  match k with
  | Declaration => r ← Declaration_Parse enc l; mret (declaration_node r.1, r.2, after_declaration enc r.1)
  | Comment => r ← Comment_Parse l; mret (r, enc)
  | CData => r ← CData_Parse enc l; mret (r, enc)
  | UnknownNode => r ← Unknown_Parse l; mret (r, enc)
  | Element => r ← Element_Parse n enc (Some l); mret (r, enc)
  end.
(** A text outside of the elements ends the loop. *)
Fixpoint document_loop (fuel : nat) (enc : encoding) (p : ptr) : run (list xnode) :=
  match fuel with
  | O => NoFuel
  | S n =>
      match p with
      | None | Some [] => mret []
      | Some l =>
          match Identify l with
          | None => mret []
          | Some k =>
              r ← document_node n enc k l;
              x ← document_loop n r.2 (SkipWhiteSpace r.2 r.1.2); mret (r.1.1 :: x)
          end
      end
  end.
Definition initial_encoding (enc : encoding) (l : list ascii) : encoding :=
  match enc, l with
  | Unknown, a :: b :: c :: _ => if (code a =? 239)%nat && (code b =? 187)%nat && (code c =? 191)%nat then UTF8 else enc
  | _, _ => enc
  end.
(** [TiXmlDocument::Parse]: the children of the document. *)
Definition Document_Parse (enc : encoding) (l : list ascii) : run (list xnode) :=
  let enc := initial_encoding enc l in
  match SkipWhiteSpace enc (Some l) with
  | None => fail []
  | Some l =>
      x ← document_loop (2 * length l + 2) enc (Some l);
      match x with [] => fail [] | _ => mret x end
  end.

(** ** [Parse] of a text and [LoadFile] of a file that can be read *)
Definition CR : ascii := ascii_of_nat 13.
Definition LF : ascii := ascii_of_nat 10.
Fixpoint normalize (l : list ascii) : list ascii :=
  match l with
  | [] => []
  | c :: l' =>
      if c =c CR then LF :: match l' with d :: l'' => if d =c LF then normalize l'' else normalize l' | [] => [] end
      else c :: normalize l'
  end.
Definition LoadFile (text : string) : run (list xnode) :=
  match text with
  | EmptyString => fail []
  | _ => Document_Parse Unknown (normalize (chars (c_text (chars text))))
  end.
Definition Parse (text : string) : run (list xnode) := Document_Parse UTF8 (chars (c_text (chars text))).
(** The code goes on to the second node of the document without a test, so a run that stops is one that finds no node. *)
Definition nodes (r : run (list xnode)) : list xnode := match r with Ran l _ => l | _ => [] end.
Definition no_error {A} (r : run A) : bool := match r with Ran _ e => negb e | _ => false end.
(** Whether [Parse] returns a pointer into the text: the one the loop over the nodes ends with, unless there is no node. *)
Fixpoint document_end (fuel : nat) (enc : encoding) (p : ptr) : run ptr :=
  match fuel with
  | O => NoFuel
  | S n =>
      match p with
      | None | Some [] => mret p
      | Some l =>
          match Identify l with
          | None => mret p
          | Some k => r ← document_node n enc k l; document_end n r.2 (SkipWhiteSpace r.2 r.1.2)
          end
      end
  end.
Definition returns_pointer (text : string) : bool :=
  match chars (c_text (chars text)) with
  | [] => false
  | l => match SkipWhiteSpace UTF8 (Some l) with
         | None => false
         | Some l => match nodes (Parse text), document_end (2 * length l + 2) UTF8 (Some l) with
                     | _ :: _, Ran (Some _) _ => true
                     | _, _ => false
                     end
         end
  end.
(** ** Characters that are written as entities or numbers *)
Definition hex_upper (n : nat) : ascii := nth n (chars "0123456789ABCDEF") "0"%char.
(** "&#x%02X;" of a byte. *)
Definition hex_reference (c : ascii) : list ascii :=
  chars "&#x" ++ [hex_upper (code c / 16); hex_upper (code c mod 16); ";"%char].
Fixpoint find_entity (table : list (string * ascii)) (c : ascii) : option string :=
  match table with [] => None | (s, d) :: table' => if c =c d then Some s else find_entity table' c end.
Definition encode_char (c : ascii) : list ascii :=
  match find_entity entity c with Some s => chars s | None => if (code c <? 32)%nat then hex_reference c else [c] end.
(** [EncodeString]; a hexadecimal reference passes unchanged up to its semicolon or to the last character. *)
Fixpoint encode (reference : bool) (l : list ascii) : list ascii :=
  match l with
  | [] => []
  | c :: l' =>
      if (reference && negb (c =c ";") && negb (bool_decide (l' = []))) ||
         ((c =c "&") && match l' with a :: b :: _ => (a =c "#") && (b =c "x") | _ => false end)
      then c :: encode true l' else encode_char c ++ encode false l'
  end.
Definition EncodeString (s : string) : string := of_chars (encode false (chars s)).

End Tiny.

Definition tinyxml : XmlParser := {|
  parse_document := fun s => Tiny.nodes (Tiny.Parse s);
  load_document := fun s => Tiny.nodes (Tiny.LoadFile s);
  parse_ok := fun s => Tiny.no_error (Tiny.LoadFile s) |}.
#[export] Instance tinyxml_end : XmlEnd := {| parse_returns := Tiny.returns_pointer |}.
