(* ===== verification/TinyFacts.v ===== *)
(** * Facts of the XML parser: it ends on every text, and it reads back the trees written in the usual form *)
From S2P Require Import Prelude Doubles Xml.
Import Tiny.

(** ** Every run ends *)
(** A run that does not use up its fuel, with a property of its result. *)
Definition runs {A} (Q : A -> Prop) (r : run A) : Prop :=
  match r with Ran a _ => Q a | Stopped => True | NoFuel => False end.
Lemma runs_bind {A B} (Q : A -> Prop) (R : B -> Prop) (c : run A) (k : A -> run B) :
  runs Q c -> (forall a, Q a -> runs R (k a)) -> runs R (c ≫= k).
Proof.
  destruct c as [a e| |]; intros Hc Hk; [|done..]. specialize (Hk a Hc). unfold mbind, run_bind. by destruct (k a).
Qed.
Lemma runs_mono {A} (Q R : A -> Prop) (c : run A) : runs Q c -> (forall a, Q a -> R a) -> runs R c.
Proof. destruct c; cbn; auto. Qed.
Lemma runs_quiet {A} (Q : A -> Prop) (c : run A) : runs Q c -> runs Q (quiet c).
Proof. by destruct c. Qed.
(** The pointer is null or at most [n] characters are left. *)
Definition within (n : nat) (p : ptr) : Prop := match p with Some l => (length l <= n)%nat | None => True end.
Lemma within_le m n p : (m <= n)%nat -> within m p -> within n p.
Proof. destruct p; cbn; lia. Qed.

Lemma list_length_ind (Q : list ascii -> Prop) :
  (forall l, (forall k, (length k < length l)%nat -> Q k) -> Q l) -> forall l, Q l.
Proof. intros H l. apply (well_founded_induction (Wf_nat.well_founded_ltof _ (@length ascii))). intros k Hk. apply H. intros j Hj. by apply Hk. Qed.
(** What is left after white space is an end of the text. *)
Lemma skip_plain_suffix l : skip_plain l `suffix_of` l.
Proof. induction l as [|c l IH]; cbn; [done|]. destruct (IsWhiteSpace c); [by apply suffix_cons_r|done]. Qed.
Lemma skip_utf8_suffix l : skip_utf8 l `suffix_of` l.
Proof.
  induction l as [l IH] using list_length_ind. destruct l as [|a [|b [|c l]]]; cbn [skip_utf8]; [done|..].
  - by destruct (IsWhiteSpace a); [apply suffix_cons_r|].
  - destruct (IsWhiteSpace a); [|done]. apply suffix_cons_r, (IH [b]). cbn. lia.
  - destruct (is_lead a b c); [do 3 apply suffix_cons_r; apply (IH l); cbn; lia|].
    destruct (IsWhiteSpace a); [|done]. apply suffix_cons_r, (IH (b :: c :: l)). cbn. lia.
Qed.
Lemma skip_suffix enc l l' : SkipWhiteSpace enc (Some l) = Some l' -> l' `suffix_of` l.
Proof. destruct l as [|c l]; [done|]. intros [= <-]. destruct enc; [apply skip_plain_suffix|apply skip_utf8_suffix|apply skip_plain_suffix]. Qed.
Lemma skip_le enc l l' : SkipWhiteSpace enc (Some l) = Some l' -> (length l' <= length l)%nat.
Proof. intros [k ->]%skip_suffix. rewrite length_app. lia. Qed.
Lemma skip_plain_head l c r : skip_plain l = c :: r -> IsWhiteSpace c = false.
Proof. induction l as [|a l IH]; [done|]. cbn. destruct (IsWhiteSpace a) eqn:E; [done|]. by intros [= -> _]. Qed.
Lemma skip_utf8_head l c r : skip_utf8 l = c :: r -> IsWhiteSpace c = false.
Proof.
  induction l as [l IH] using list_length_ind. destruct l as [|a [|b [|d l3]]]; cbn [skip_utf8]; [done|..].
  - destruct (IsWhiteSpace a) eqn:E; [done|]. by intros [= -> _].
  - destruct (IsWhiteSpace a) eqn:E; [apply (IH [b]); cbn; lia|]. by intros [= -> _].
  - destruct (is_lead a b d); [apply (IH l3); cbn; lia|].
    destruct (IsWhiteSpace a) eqn:E; [apply (IH (b :: d :: l3)); cbn; lia|]. by intros [= -> _].
Qed.
Lemma skip_head enc l c r : SkipWhiteSpace enc (Some l) = Some (c :: r) -> IsWhiteSpace c = false.
Proof.
  destruct l as [|a l]; [done|]. intros [= E].
  destruct enc; [exact (skip_plain_head (a :: l) _ _ E)|exact (skip_utf8_head (a :: l) _ _ E)|exact (skip_plain_head (a :: l) _ _ E)].
Qed.
Lemma span_le f l : (length (span f l).2 <= length l)%nat.
Proof. induction l as [|c l IH]; cbn; [lia|]. destruct (f c); cbn; lia. Qed.
Lemma span_lt f c l : f c = true -> (length (span f (c :: l)).2 <= length l)%nat.
Proof. intros H. cbn. rewrite H. apply span_le. Qed.
Lemma start_char c : name_start c = true -> name_char c = true.
Proof. unfold name_start, name_char, IsAlphaNum. intros [H|H]%orb_prop; rewrite H; by rewrite ?orb_true_r. Qed.
Lemma ReadName_lt l : within (length l - 1) (ReadName l).2.
Proof.
  destruct l as [|c l]; [done|]. unfold ReadName. destruct (name_start c) eqn:E; [|done]. cbn [fst snd within].
  pose proof (span_lt name_char c l (start_char _ E)). cbn [length]. lia.
Qed.
Lemma strip_le same tag l r : strip same tag l = Some r -> (length r + length tag = length l)%nat.
Proof.
  revert l. induction tag as [|t tag IH]; intros l.
  - cbn. intros [= <-]. lia.
  - destruct l as [|c l]; [done|]. cbn. destruct (same c t); [|done]. intros H%IH. lia.
Qed.
Lemma match_entity_le table l c r : match_entity table l = Some (c, r) -> (forall s x, (s, x) ∈ table -> s <> "") -> (length r < length l)%nat.
Proof.
  induction table as [|[s x] table IH]; [done|]. cbn. destruct (strip ceqb (chars s) l) as [r'|] eqn:E.
  - intros [= -> ->] H. apply strip_le in E. specialize (H s c ltac:(by left)). rewrite length_chars in E. destruct s; [done|]. cbn in E. lia.
  - intros H Ht. apply IH; [done|]. intros. eapply Ht. by right.
Qed.
Lemma number_entity_le enc digit base stop l : within (length l) (number_entity enc digit base stop l).2.
Proof.
  unfold number_entity. pose proof (span_le (fun c => negb (c =c ";")) l) as H. destruct (span _ l).2 as [|x rest]; [done|].
  destruct (ucs_loop _ _ _ _ _ _); [|done]. cbn in *. lia.
Qed.
Lemma GetEntity_le enc l : within (length l) (GetEntity enc l).2.
Proof.
  unfold GetEntity. destruct l as [|h [|x l']]; [cbn; lia..|]. destruct (h =c "#").
  - destruct (x =c "x").
    + destruct l' as [|y l']; [done|]. eapply within_le; [|apply number_entity_le]. cbn. lia.
    + eapply within_le; [|apply number_entity_le]. cbn. lia.
  - destruct (match_entity _ _) as [[c r]|] eqn:E; [|cbn; lia]. apply match_entity_le in E; [cbn in *; lia|].
    intros s y Hs. repeat (apply elem_of_cons in Hs as [[= -> ->]|Hs]; [done|]). by apply elem_of_nil in Hs.
Qed.
Lemma GetChar_runs enc c l : runs (fun r => within (length l) r.2) (GetChar enc c l).
Proof.
  unfold GetChar. set (n := match enc with UTF8 => _ | _ => _ end). destruct (n =? 1)%nat.
  - destruct (c =c "&"); [apply GetEntity_le|cbn; lia].
  - destruct (length l <? n - 1)%nat; [done|]. cbn. rewrite length_drop. lia.
Qed.
Lemma read_all_runs n enc endTag l : (length l < n)%nat -> runs (fun r => within (length l) r.2) (read_all n enc endTag l).
Proof.
  revert l. induction n as [|n IH]; intros l Hn; [lia|]. cbn [read_all]. destruct l as [|c l]; [cbn; lia|].
  destruct (StringEqual _ _); [cbn; lia|]. cbn in Hn. apply (runs_bind (fun r => within (length l) r.2)); [apply GetChar_runs|].
  intros [t [l2|]] H; [|done]. cbn in H. apply (runs_bind (fun r => within (length l2) r.2)); [apply IH; lia|].
  intros [t' p] H'. cbn in *. eapply within_le; [|exact H']. lia.
Qed.
Lemma read_condensed_runs n enc endTag ws l : (length l < n)%nat -> runs (fun r => within (length l) r.2) (read_condensed n enc endTag ws l).
Proof.
  revert ws l. induction n as [|n IH]; intros ws l Hn; [lia|]. cbn [read_condensed]. destruct l as [|c l]; [cbn; lia|].
  destruct (StringEqual _ _); [cbn; lia|]. cbn in Hn. destruct (IsWhiteSpace c).
  { eapply runs_mono; [apply IH; lia|]. intros [t p]. apply within_le. cbn. lia. }
  apply (runs_bind (fun r => within (length l) r.2)); [apply GetChar_runs|].
  intros [t [l2|]] H; [|done]. cbn in H. apply (runs_bind (fun r => within (length l2) r.2)); [apply IH; lia|].
  intros [t' p] H'. cbn in *. eapply within_le; [|exact H']. lia.
Qed.
Lemma after_tag_within n tag p : within n p -> within n (after_tag tag p).
Proof.
  destruct p as [[|c l]|]; [done| |done]. unfold after_tag. intros H. pose proof (length_drop (c :: l) (String.length tag)) as E.
  destruct (drop _ _) eqn:D; [done|]. unfold nonempty, within in *. lia.
Qed.
Lemma ReadText_runs enc trim tag l : runs (fun r => within (length l) r.2) (ReadText enc trim tag l).
Proof.
  unfold ReadText. apply (runs_bind (fun r => within (length l) r.2)); [|intros [t p] H; by apply after_tag_within].
  destruct trim; [|apply read_all_runs; lia]. destruct (SkipWhiteSpace enc (Some l)) as [l'|] eqn:E; [|done].
  apply skip_le in E. eapply runs_mono; [apply read_condensed_runs; lia|]. intros [t p]. apply within_le. lia.
Qed.
Lemma unquoted_runs l : runs (fun r => within (length l) r.2) (unquoted l).
Proof.
  induction l as [|c l IH]; [cbn; lia|]. cbn [unquoted]. destruct (_ || _ || _); [cbn; lia|]. destruct (_ || _); [done|].
  apply (runs_bind _ _ _ _ IH). intros [t p]. apply within_le. cbn. lia.
Qed.
Lemma attribute_value_runs enc l : runs (fun r => within (length l) r.2) (attribute_value enc l).
Proof.
  destruct l as [|c l]; [done|]. unfold attribute_value. destruct (_ =c _); [|destruct (_ =c _); [|apply unquoted_runs]].
  all: eapply runs_mono; [apply ReadText_runs|]; intros [t p]; apply within_le; cbn; lia.
Qed.
(** An attribute that is read takes a character at least. *)
Lemma Attribute_runs enc l : runs (fun r => within (length l - 1) r.2) (Attribute_Parse enc (Some l)).
Proof.
  unfold Attribute_Parse. destruct (SkipWhiteSpace enc (Some l)) as [[|c l1]|] eqn:E1; [done| |done]. apply skip_le in E1.
  pose proof (ReadName_lt (c :: l1)) as H. destruct (ReadName (c :: l1)) as [name [[|d l2]|]]; [done| |done]. cbn [fst snd within] in H.
  destruct (SkipWhiteSpace enc (Some (d :: l2))) as [[|e l3]|] eqn:E2; [done| |done]. apply skip_le in E2.
  destruct (e =c "="); [|done]. destruct (SkipWhiteSpace enc (Some l3)) as [[|f l4]|] eqn:E3; [done| |done]. apply skip_le in E3.
  eapply runs_bind; [apply attribute_value_runs|]. intros [t p]. apply within_le. cbn in *. lia.
Qed.
Lemma skip_other_le l : (length (skip_other l) <= length l)%nat.
Proof. apply span_le. Qed.
Lemma declaration_step enc c l l1 :
  (c =c ">") = false -> SkipWhiteSpace enc (Some (c :: l)) = Some l1 -> (length (skip_other l1) <= length l)%nat.
Proof.
  intros Hc E. destruct (skip_suffix _ _ _ E) as [[|d k] Hk].
  - cbn in Hk. subst l1. pose proof (skip_head _ _ _ _ E) as Hd. apply span_lt. by rewrite Hc, Hd.
  - injection Hk as _ ->. pose proof (skip_other_le l1). rewrite length_app. lia.
Qed.
Lemma declaration_runs n enc e p : match p with Some l => (length l < n)%nat | None => (0 < n)%nat end ->
  runs (fun r => within (match p with Some l => length l | None => 0%nat end) r.2) (declaration_loop n enc e p).
Proof.
  revert e p. induction n as [|n IH]; intros e p Hn; [destruct p; lia|]. cbn [declaration_loop].
  destruct p as [[|c l]|]; [done| |done]. destruct (c =c ">") eqn:Hc; [cbn; lia|].
  destruct (SkipWhiteSpace enc (Some (c :: l))) as [[|d l1]|] eqn:E; [done| |done]. pose proof (skip_le _ _ _ E) as Hl.
  assert (forall e' p', within (length l) p' -> runs (fun r => within (length (c :: l)) r.2) (declaration_loop n enc e' p')) as Hrec.
  { intros e' p' Hp. eapply runs_mono; [apply IH; destruct p'; cbn in *; lia|]. intros [t q]. apply within_le. destruct p'; cbn in *; lia. }
  assert (runs (fun r => within (length l) r.2) (quiet (Attribute_Parse enc (Some (d :: l1))))) as Ha.
  { apply runs_quiet. eapply runs_mono; [apply Attribute_runs|]. intros [t q]. apply within_le. cbn in *. lia. }
  repeat case_match.
  - eapply runs_bind; [exact Ha|]. intros [t q] Hq. by apply Hrec.
  - eapply runs_bind; [exact Ha|]. intros [t q] Hq. by apply Hrec.
  - eapply runs_bind; [exact Ha|]. intros [t q] Hq. by apply Hrec.
  - apply Hrec. cbn [within]. by apply (declaration_step enc c l).
Qed.
Lemma Declaration_runs enc c l : runs (fun r => within (length l) r.2) (Declaration_Parse enc (c :: l)).
Proof.
  unfold Declaration_Parse. eapply runs_mono; [apply declaration_runs; rewrite length_drop; cbn; lia|].
  intros r. apply within_le. rewrite length_drop. cbn. lia.
Qed.
Lemma before_tag_le tag l : (length (before_tag tag l).2 <= length l)%nat.
Proof. induction l as [|c l IH]; cbn; [lia|]. destruct (StringEqual _ _); cbn; lia. Qed.
Lemma Comment_runs c l : runs (fun r => within (length l) r.2) (Comment_Parse (c :: l)).
Proof. cbn. rewrite length_drop. pose proof (before_tag_le "-->" (drop 4 (c :: l))) as H. rewrite length_drop in H. cbn in H. lia. Qed.
Lemma CData_runs enc c l : runs (fun r => within (length l) r.2) (CData_Parse enc (c :: l)).
Proof.
  unfold CData_Parse. pose proof (before_tag_le "]]>" (drop 9 (c :: l))) as H. rewrite length_drop in H.
  eapply runs_bind; [apply ReadText_runs|]. intros [t p]. apply within_le. cbn in *. lia.
Qed.
Lemma Unknown_runs c l : runs (fun r => within (length l) r.2) (Unknown_Parse (c :: l)).
Proof.
  cbn. pose proof (span_le (fun c => negb (c =c ">")) l) as H. destruct (span _ l).2; cbn in *; lia.
Qed.
Lemma read_condensed_lt n enc tag ws c l :
  (length l < n)%nat -> StringEqual (c :: l) tag = false ->
  runs (fun r => within (length l) r.2) (read_condensed (S n) enc tag ws (c :: l)).
Proof.
  intros Hn E. cbn [read_condensed]. rewrite E. destruct (IsWhiteSpace c); [by apply read_condensed_runs|].
  apply (runs_bind (fun r => within (length l) r.2)); [apply GetChar_runs|].
  intros [t [l2|]] H; [|done]. cbn in H. apply (runs_bind (fun r => within (length l2) r.2)); [apply read_condensed_runs; lia|].
  intros [t' p] H'. cbn in *. eapply within_le; [|exact H']. lia.
Qed.
(** A text that does not begin with a tag takes a character at least; the tag that ends it stays. *)
Lemma Text_runs enc c l : (c =c "<") = false -> runs (fun r => within (length l) r.2) (Text_Parse enc (c :: l)).
Proof.
  intros Hc. unfold Text_Parse.
  apply (runs_bind (fun r => match r.2 with Some k => (S (length k) <= length l)%nat | None => True end)).
  - unfold ReadText. cbn [negb]. apply (runs_bind (fun r => within (length l) r.2)).
    + destruct (SkipWhiteSpace enc (Some (c :: l))) as [l'|] eqn:E; [|done]. destruct (skip_suffix _ _ _ E) as [[|d k] Hk].
      * cbn in Hk. subst l'. apply read_condensed_lt; [cbn; lia|]. unfold StringEqual. cbn. unfold ceqb in *. by rewrite Hc.
      * injection Hk as _ ->. eapply runs_mono; [apply read_condensed_runs; lia|]. intros r. apply within_le. rewrite length_app. lia.
    + intros [t [[|d k]|]] H; [done| |done]. cbn in *. destruct (drop 0 k) eqn:D; rewrite drop_0 in D; [done|]. subst k. cbn in *. lia.
  - intros [t [[|d k]|]] H; [done| |done]. cbn in *. lia.
Qed.

Lemma nodes_run n enc :
  (forall l, (2 * length l + 1 <= n)%nat -> runs (fun r => within (length l - 1) r.2) (Element_Parse n enc (Some l))) /\
  (forall name attrs l, (2 * length l + 1 <= n)%nat -> runs (fun r => within (length l) r.2) (tag_loop n enc name attrs l)) /\
  (forall p, match p with Some l => (2 * length l + 2 <= n)%nat | None => (0 < n)%nat end ->
     runs (fun r => within (match p with Some l => length l | None => 0%nat end) r.2) (ReadValue n enc p)).
Proof.
  induction n as [|n (IHe & IHt & IHv)].
  { split_and!; [intros; lia..|]. intros [l|]; lia. }
  split_and!.
  - intros l Hn. cbn [Element_Parse]. destruct (SkipWhiteSpace enc (Some l)) as [[|c l1]|] eqn:E1; [done| |done]. apply skip_le in E1.
    destruct (negb _); [done|]. destruct (SkipWhiteSpace enc (Some l1)) as [l2|] eqn:E2; [|done]. apply skip_le in E2.
    pose proof (ReadName_lt l2) as H. destruct (ReadName l2) as [name [[|d l3]|]]; [done| |done]. cbn in *.
    eapply runs_mono; [apply IHt; cbn; lia|]. intros r. apply within_le. cbn. lia.
  - intros name attrs l Hn. cbn [tag_loop]. destruct (SkipWhiteSpace enc (Some l)) as [[|c l1]|] eqn:E1; [done| |done]. apply skip_le in E1. cbn in E1.
    destruct (c =c "/"); [|destruct (c =c ">")].
    + destruct l1 as [|d l1]; [done|]. destruct (d =c ">"); [|done]. cbn in *. lia.
    + eapply runs_bind; [apply IHv; lia|]. intros [ch [[|d l2]|]] H; [done| |done]. cbn [snd within] in H. cbn [fst snd]. cbv zeta.
      destruct (strip _ _ _) as [l3|] eqn:E3; [|done]. apply strip_le in E3.
      destruct (SkipWhiteSpace enc (Some l3)) as [[|e l4]|] eqn:E4; [done| |done]. apply skip_le in E4.
      destruct (e =c ">"); [|done]. cbn in *. lia.
    + eapply runs_bind; [apply Attribute_runs|]. intros [[nm v] [[|d l2]|]] H; [done| |done]. cbn [snd within length] in H.
      destruct (existsb _ _); [done|]. eapply runs_mono; [apply IHt; cbn in *; lia|]. intros r. apply within_le. cbn in *. lia.
  - intros p Hn. cbn [ReadValue]. destruct p as [l|]; [|done].
    destruct (SkipWhiteSpace enc (Some l)) as [[|c l1]|] eqn:E1; [cbn; lia| |done]. apply skip_le in E1. cbn [length] in E1.
    assert (forall q, within (length l1) q -> runs (fun r => within (length l) r.2) (ReadValue n enc q)) as Hrec.
    { intros q Hq. eapply runs_mono; [apply IHv; destruct q; cbn in *; lia|]. intros r. apply within_le. destruct q; cbn in *; lia. }
    destruct (c =c "<") eqn:Ec.
    + destruct (StringEqual _ _); [cbn; lia|]. destruct (Identify _) as [k|]; [|done].
      apply (runs_bind (fun r => within (length l1) r.2)).
      * destruct k; [|apply Comment_runs|apply CData_runs|apply Unknown_runs|].
        -- eapply runs_bind; [apply Declaration_runs|]. by intros [t q].
        -- eapply runs_mono; [apply IHe; cbn; lia|]. intros r. apply within_le. cbn. lia.
      * intros [x q] Hq. eapply runs_bind; [by apply Hrec|]. by intros [xs q'].
    + eapply runs_bind; [by apply Text_runs|]. intros [t q] Hq. eapply runs_bind; [by apply Hrec|]. by intros [xs q'].
Qed.
Lemma document_node_runs n enc k c l :
  (2 * length (c :: l) + 1 <= n)%nat -> runs (fun r => within (length l) r.1.2) (document_node n enc k (c :: l)).
Proof.
  intros Hn. destruct k; cbn [document_node].
  - eapply runs_bind; [apply Declaration_runs|]. by intros [t q].
  - eapply runs_bind; [apply Comment_runs|]. by intros [t q].
  - eapply runs_bind; [apply CData_runs|]. by intros [t q].
  - eapply runs_bind; [apply Unknown_runs|]. by intros [t q].
  - eapply runs_bind; [by apply nodes_run|]. intros [t q]. cbn. apply within_le. lia.
Qed.
Lemma document_runs n enc p :
  match p with Some l => (2 * length l + 2 <= n)%nat | None => (0 < n)%nat end -> runs (fun _ => True) (document_loop n enc p).
Proof.
  revert enc p. induction n as [|n IH]; intros enc p Hn; [destruct p; lia|]. cbn [document_loop].
  destruct p as [[|c l]|]; [done| |done]. destruct (Identify _) as [k|]; [|done].
  eapply runs_bind; [apply document_node_runs; cbn in *; lia|]. intros [[x q] enc'] Hq. cbn [fst snd] in *.
  eapply runs_bind; [|by intros]. apply IH. destruct q as [m|]; [|cbn in *; lia].
  destruct (SkipWhiteSpace enc' (Some m)) as [m'|] eqn:E; [|cbn in *; lia]. apply skip_le in E. cbn in *. lia.
Qed.
Lemma Document_runs enc l : runs (fun _ => True) (Document_Parse enc l).
Proof.
  unfold Document_Parse. destruct (SkipWhiteSpace _ _) as [l'|] eqn:E; [|done].
  eapply runs_bind; [by apply document_runs|]. by intros [|x xs] _.
Qed.

(** ** Texts written in the usual form *)
(** Groups of bytes that the table announces, none of them beginning with a quote or an ampersand: a value that reads back. *)
Fixpoint clean (k : nat) (l : list ascii) : bool :=
  match l with
  | [] => (k =? 0)%nat
  | c :: l' =>
      negb (code c =? 0)%nat &&
      match k with
      | S k => clean k l'
      | O => negb (c =c DOUBLE_QUOTE) && negb (c =c "&") && clean (utf8ByteTable c - 1) l'
      end
  end.
Definition clean_text (s : string) : bool := clean 0 (chars s).
Definition spaces (l : list ascii) : bool := forallb IsWhiteSpace l.
Definition plain_start (c : ascii) : bool := name_start c && (code c <? 127)%nat.
Definition plain_name (s : string) : bool :=
  match chars s with c :: l => plain_start c && forallb name_char l | [] => false end.
(** A value and its text between quotes [q]: characters, entities and numbers of characters. *)
Definition a_quote (q : ascii) : Prop := q = DOUBLE_QUOTE \/ q = SINGLE_QUOTE.
Definition no_nul (l : list ascii) : bool := forallb (fun c => negb (code c =? 0)%nat) l.
Inductive value_text (q : ascii) : list ascii -> list ascii -> Prop :=
| value_end : value_text q [] []
| value_group c a v t :
    (c =c q) = false -> (c =c "&") = false -> no_nul (c :: a) = true -> length a = (utf8ByteTable c - 1)%nat ->
    value_text q v t -> value_text q (c :: a ++ v) (c :: a ++ t)
| value_entity s c v t : (s, c) ∈ entity -> value_text q v t -> value_text q (c :: v) (chars s ++ t)
| value_number c v t :
    (code c <? 32)%nat = true -> (code c =? 0)%nat = false -> value_text q v t -> value_text q (c :: v) (hex_reference c ++ t).
Inductive attrs_text : list (string * string) -> list ascii -> Prop :=
| attrs_none : attrs_text [] []
| attrs_value q sp n v tv l t :
    a_quote q -> spaces sp = true -> sp <> [] -> plain_name n = true -> value_text q (chars v) tv -> n ∉ l.*1 -> attrs_text l t ->
    attrs_text ((n, v) :: l) (sp ++ chars n ++ "="%char :: q :: tv ++ q :: t).
(** A tree of elements as a text, with white space between them. *)
Inductive node_text : xnode -> list ascii -> Prop :=
| node_closed n l t sp :
    plain_name n = true -> attrs_text l t -> spaces sp = true ->
    node_text (XElement n l []) ("<"%char :: chars n ++ t ++ sp ++ ["/"; ">"]%char)
| node_open n l t sp ch body :
    plain_name n = true -> attrs_text l t -> spaces sp = true -> nodes_text ch body ->
    node_text (XElement n l ch) ("<"%char :: chars n ++ t ++ sp ++ ">"%char :: body ++ chars "</" ++ chars n ++ [">"%char])
with nodes_text : list xnode -> list ascii -> Prop :=
| nodes_none sp : spaces sp = true -> nodes_text [] sp
| nodes_more sp x s l t : spaces sp = true -> node_text x s -> nodes_text l t -> nodes_text (x :: l) (sp ++ s ++ t).
Scheme node_text_rec := Minimality for node_text Sort Prop
with nodes_text_rec := Minimality for nodes_text Sort Prop.
Combined Scheme text_ind from node_text_rec, nodes_text_rec.

Definition free_start (c : ascii) : bool :=
  negb (IsWhiteSpace c) && negb (code c =? 239)%nat && negb (c =c "/") && negb (c =c ">") && negb (c =c "<") &&
  negb (same_ci c "?") && negb (c =c "!") && (IsAlpha c || (c =c "_")) && name_start c && name_char c.
Lemma plain_start_free c : plain_start c = true -> free_start c = true.
Proof. destruct c as [[] [] [] [] [] [] [] []]; vm_compute; congruence. Qed.
Definition stops (l : list ascii) : Prop := match l with c :: _ => name_char c = false | [] => True end.
Lemma space_stops c l : IsWhiteSpace c = true -> stops (c :: l).
Proof. destruct c as [[] [] [] [] [] [] [] []]; vm_compute; congruence. Qed.
Lemma space_not_lead c : IsWhiteSpace c = true -> (code c =? 239)%nat = false.
Proof. destruct c as [[] [] [] [] [] [] [] []]; vm_compute; congruence. Qed.

Lemma bind_ran {A B} (a : A) (k : A -> run B) : (Ran a false ≫= k) = k a.
Proof. unfold mbind, run_bind. by destruct (k a). Qed.
Lemma bind_ret {A B} (a : A) (k : A -> run B) : (mret a ≫= k) = k a.
Proof. apply bind_ran. Qed.
Lemma skip_head_stays c l : IsWhiteSpace c = false -> (code c =? 239)%nat = false -> skip_utf8 (c :: l) = c :: l.
Proof. intros H1 H2. cbn [skip_utf8]. unfold is_lead. rewrite H1, H2. by destruct l as [|b [|d l]]. Qed.
Lemma skip_space_more c l : IsWhiteSpace c = true -> skip_utf8 (c :: l) = skip_utf8 l.
Proof. intros H. cbn [skip_utf8]. unfold is_lead. rewrite H, (space_not_lead c H). by destruct l as [|b [|d l]]. Qed.
Lemma skip_spaces sp c l :
  spaces sp = true -> IsWhiteSpace c = false -> (code c =? 239)%nat = false ->
  SkipWhiteSpace UTF8 (Some (sp ++ c :: l)) = Some (c :: l).
Proof.
  intros Hs H1 H2. assert (skip_utf8 (sp ++ c :: l) = c :: l) as E.
  { induction sp as [|a sp IH]; cbn [app]; [by apply skip_head_stays|]. cbn in Hs. apply andb_true_iff in Hs as [Ha Hs].
    rewrite skip_space_more by done. by apply IH. }
  unfold SkipWhiteSpace. rewrite E. by destruct sp.
Qed.
Lemma skip_here c l :
  IsWhiteSpace c = false -> (code c =? 239)%nat = false -> SkipWhiteSpace UTF8 (Some (c :: l)) = Some (c :: l).
Proof. apply (skip_spaces []). done. Qed.
Lemma span_stops f l r : forallb f l = true -> match r with c :: _ => f c = false | [] => True end -> span f (l ++ r) = (l, r).
Proof.
  induction l as [|c l IH]; cbn; intros Hl Hr.
  - destruct r as [|c r]; [done|]. cbn. by rewrite Hr.
  - apply andb_true_iff in Hl as [-> Hl]. by rewrite IH.
Qed.
Lemma name_parts n : plain_name n = true ->
  exists c l, chars n = c :: l /\ free_start c = true /\ forallb name_char (c :: l) = true.
Proof.
  unfold plain_name. destruct (chars n) as [|c l]; [done|]. intros [Hc Hl]%andb_true_iff. apply plain_start_free in Hc.
  exists c, l. split_and!; [done..|]. cbn. rewrite Hl, andb_true_r. unfold free_start in Hc. by apply andb_true_iff in Hc as [_ ?].
Qed.
Lemma read_name n r : plain_name n = true -> stops r -> ReadName (chars n ++ r) = (chars n, Some r).
Proof.
  intros (c & l & -> & Hf & Hn)%name_parts Hr. unfold free_start in Hf. repeat apply andb_true_iff in Hf as [Hf ?].
  cbn [app ReadName]. replace (name_start c) with true by congruence. change (c :: l ++ r) with ((c :: l) ++ r). by rewrite span_stops.
Qed.
Lemma strip_one c d l : strip ceqb [c] (d :: l) = if ceqb d c then Some l else None.
Proof. done. Qed.
Lemma equal_one (c : ascii) d l : StringEqual (d :: l) (String c "") = (d =c c).
Proof. unfold StringEqual. cbn. destruct (ceqb d c); [by apply bool_decide_eq_true_2|apply bool_decide_eq_false_2; by intros []%is_Some_None]. Qed.
Lemma clean_split k l : clean k l = true -> exists a b, l = a ++ b /\ length a = k /\ clean 0 b = true.
Proof.
  revert l. induction k as [|k IH]; intros l H; [by exists [], l|]. destruct l as [|c l]; [done|]. cbn in H.
  apply andb_true_iff in H as [_ H]. destruct (IH l H) as (a & b & -> & Ha & Hb). exists (c :: a), b. cbn. split_and!; [done|lia|done].
Qed.
Lemma no_nul_app a b : no_nul (a ++ b) = no_nul a && no_nul b.
Proof. apply forallb_app. Qed.
Lemma value_no_nul q v t : value_text q v t -> no_nul v = true /\ no_nul t = true.
Proof.
  induction 1 as [|c a v t _ _ Hn _ _ [IHv IHt]|s c v t Hs _ [IHv IHt]|c v t Hc Hz _ [IHv IHt]]; [done|..].
  - change (c :: a ++ ?x) with ((c :: a) ++ x). by rewrite !no_nul_app, Hn, IHv, IHt.
  - change (c :: v) with ([c] ++ v). rewrite !no_nul_app, IHv, IHt. revert Hs. unfold entity.
    rewrite !elem_of_cons, elem_of_nil. intros Hs. destruct_or! Hs; injection Hs as -> ->; by split.
  - change (c :: v) with ([c] ++ v). rewrite !no_nul_app, IHv, IHt. revert Hc Hz. clear.
    destruct c as [[] [] [] [] [] [] [] []]; by vm_compute.
Qed.
Lemma shown_all l : no_nul l = true -> chars (c_text l) = l.
Proof. intros H. unfold c_text. rewrite <- (app_nil_r l) at 1. rewrite span_stops by done. cbn. apply chars_of_chars. Qed.
Lemma value_shown q v t : value_text q (chars v) t -> c_text (chars v) = v.
Proof. intros [H _]%value_no_nul. apply shown_all in H. by rewrite <- (of_chars_chars (c_text _)), H, of_chars_chars. Qed.
Lemma clean_values n l : (length l < n)%nat -> clean 0 l = true -> value_text DOUBLE_QUOTE l l.
Proof.
  revert l. induction n as [|n IH]; intros [|c l] Hn H; [lia..|constructor|]. pose proof H as H0. cbn [clean] in H.
  apply andb_true_iff in H as [Hz [[Hq Hm]%andb_true_iff Hv]%andb_true_iff]. apply negb_true_iff in Hq, Hm.
  destruct (clean_split _ _ Hv) as (a & b & -> & Ha & Hb). cbn in Hn. rewrite length_app in Hn.
  apply value_group; [done..| |done|apply IH; [lia|done]].
  assert (forall k l, clean k l = true -> no_nul l = true) as Hc.
  { clear. intros k l. revert k. induction l as [|c l IH]; intros k H; [done|]. cbn in H. apply andb_true_iff in H as [Hc H].
    unfold no_nul. cbn. rewrite Hc. destruct k; [repeat apply andb_true_iff in H as [? H]|]; by apply IH in H. }
  apply Hc in H0. change (c :: a ++ b) with ((c :: a) ++ b) in H0. rewrite no_nul_app in H0. by apply andb_true_iff in H0 as [? _].
Qed.
Lemma clean_value v : clean_text v = true -> value_text DOUBLE_QUOTE (chars v) (chars v).
Proof. apply (clean_values (S (length (chars v)))). lia. Qed.
Lemma attrs_more sp n v l t :
  spaces sp = true -> sp <> [] -> plain_name n = true -> clean_text v = true -> n ∉ l.*1 -> attrs_text l t ->
  attrs_text ((n, v) :: l) (sp ++ chars n ++ "="%char :: DOUBLE_QUOTE :: chars v ++ DOUBLE_QUOTE :: t).
Proof. intros. apply attrs_value; [by left|done..|by apply clean_value|done|done]. Qed.
(** An ampersand is read as the character it stands for. *)
Lemma read_entity s c r : (s, c) ∈ entity -> exists t, chars s ++ r = "&"%char :: t /\ GetEntity UTF8 t = ([c], Some r).
Proof.
  unfold entity. rewrite !elem_of_cons, elem_of_nil. intros Hs.
  destruct_or! Hs; injection Hs as -> ->; (eexists; split; [reflexivity|]; by destruct r).
Qed.
Lemma read_number c r : (code c <? 32)%nat = true -> exists t, hex_reference c ++ r = "&"%char :: t /\ GetEntity UTF8 t = ([c], Some r).
Proof.
  intros Hc. eexists. split; [reflexivity|]. revert Hc. destruct c as [[] [] [] [] [] [] [] []]; try (vm_compute; discriminate); intros _; by destruct r.
Qed.
Lemma read_value q n v t r :
  a_quote q -> value_text q v t -> (length t < n)%nat ->
  read_all n UTF8 (String q "") (t ++ q :: r) = Ran (v, Some (q :: r)) false.
Proof.
  intros Hq H. revert n. induction H as [|c a v t Hc Hm _ Ha H IH|s c v t Hs H IH|c v t Hc Hz H IH]; intros [|n] Hn; try lia.
  - cbn [app read_all]. rewrite equal_one. unfold ceqb. by rewrite Ascii.eqb_refl.
  - cbn [app read_all]. rewrite equal_one, Hc. unfold GetChar. cbn [length] in Hn. rewrite length_app in Hn.
    destruct (utf8ByteTable c =? 1)%nat eqn:E.
    + apply Nat.eqb_eq in E. rewrite E in Ha. destruct a; [|done]. rewrite Hm.
      unfold mret, run_ret. rewrite bind_ran. cbn [fst snd app]. rewrite IH by (done || cbn in *; lia). by rewrite bind_ran.
    + rewrite <- Ha. rewrite <- app_assoc, take_app_length, drop_app_length.
      replace (length (a ++ t ++ q :: r) <? length a)%nat with false by (symmetry; apply Nat.ltb_ge; rewrite length_app; lia).
      unfold mret, run_ret. rewrite bind_ran. cbn [fst snd]. rewrite IH by (done || cbn in *; lia). rewrite bind_ran. by cbn.
  - rewrite <- app_assoc. destruct (read_entity s c (t ++ q :: r) Hs) as (u & -> & Hu). cbn [read_all]. rewrite equal_one.
    replace ("&" =c q)%char with false by (by destruct Hq as [->| ->]). unfold GetChar. change (utf8ByteTable "&") with 1%nat. cbn iota.
    change (1 =? 1)%nat with true. change ("&" =c "&")%char with true. cbn iota. rewrite Hu. unfold mret, run_ret. rewrite bind_ran. cbn [fst snd].
    rewrite IH; [by rewrite bind_ran|]. rewrite length_app in Hn. assert (0 < length (chars s))%nat; [|lia].
    revert Hs. unfold entity. rewrite !elem_of_cons, elem_of_nil. intros Hs. destruct_or! Hs; injection Hs as -> ->; cbn; lia.
  - rewrite <- app_assoc. destruct (read_number c (t ++ q :: r) Hc) as (u & -> & Hu). cbn [read_all]. rewrite equal_one.
    replace ("&" =c q)%char with false by (by destruct Hq as [->| ->]). unfold GetChar. change (utf8ByteTable "&") with 1%nat. cbn iota.
    change (1 =? 1)%nat with true. change ("&" =c "&")%char with true. cbn iota. rewrite Hu. unfold mret, run_ret. rewrite bind_ran. cbn [fst snd].
    rewrite IH; [by rewrite bind_ran|]. rewrite length_app in Hn. cbn in Hn. lia.
Qed.
Lemma read_attribute q sp n v tv r :
  a_quote q -> spaces sp = true -> plain_name n = true -> value_text q v tv -> r <> [] ->
  Attribute_Parse UTF8 (Some (sp ++ chars n ++ "="%char :: q :: tv ++ q :: r)) = Ran (chars n, v, Some r) false.
Proof.
  intros Hq Hs Hn Hv Hr. pose proof (name_parts n Hn) as (c & l & En & Hf & _). unfold free_start in Hf. repeat apply andb_true_iff in Hf as [Hf ?].
  unfold Attribute_Parse. rewrite En at 1. cbn [app]. rewrite skip_spaces by (done || by apply negb_true_iff).
  change (c :: l ++ ?x) with ((c :: l) ++ x). rewrite <- En, read_name by done. cbn [SkipWhiteSpace].
  rewrite (skip_head_stays "=" _) by done. change ("=" =c "=")%char with true. cbn iota. cbn [SkipWhiteSpace].
  rewrite (skip_head_stays q _) by (by destruct Hq as [->| ->]).
  replace (attribute_value UTF8 (q :: tv ++ q :: r)) with (ReadText UTF8 false (String q "") (tv ++ q :: r)) by (by destruct Hq as [->| ->]).
  unfold ReadText. cbn [negb]. rewrite (read_value q _ v tv); [|done..|rewrite length_app; cbn; lia]. rewrite !bind_ran. cbn. by destruct r.
Qed.
Lemma tag_attributes name l t acc k r :
  attrs_text l t -> (forall n, n ∈ l.*1 -> n ∉ acc.*1) -> r <> [] ->
  tag_loop (length l + k) UTF8 name acc (t ++ r) = tag_loop k UTF8 name (acc ++ l) r.
Proof.
  intros H. revert acc. induction H as [|q sp n v tv l t Hq Hs Hne Hn Hv Hnl H IH]; intros acc Hd Hr; [by rewrite app_nil_r|].
  cbn [length Nat.add tag_loop]. rewrite <- app_assoc. cbn [app]. rewrite <- app_assoc. cbn [app]. rewrite <- app_assoc. cbn [app].
  pose proof (name_parts n Hn) as (c & m & En & Hf & _). unfold free_start in Hf. repeat apply andb_true_iff in Hf as [Hf ?].
  rewrite En at 1. cbn [app]. rewrite skip_spaces by (done || by apply negb_true_iff).
  replace (c =c "/") with false by (symmetry; by apply negb_true_iff). replace (c =c ">") with false by (symmetry; by apply negb_true_iff).
  change (c :: m ++ ?x) with ((c :: m) ++ x). rewrite <- En. change (chars n ++ ?x) with ([] ++ chars n ++ x).
  rewrite (read_attribute q _ n (chars v)); [|done..|by destruct t, r]. rewrite bind_ran.
  assert (exists x y, t ++ r = x :: y) as (x & y & E) by (destruct t, r; eauto; done). rewrite E. rewrite of_chars_chars.
  assert (existsb (fun a => a.1 =s n) acc = false) as ->.
  { apply not_true_iff_false. intros ([a b] & Ha & Hx%seqb_true)%existsb_exists. cbn in Hx. subst a. apply (Hd n); [by left|].
    apply list_elem_of_fmap. exists (n, b). split; [done|]. by apply list_elem_of_In. }
  rewrite (value_shown q v tv) by done. rewrite <- E, IH; [by rewrite <- app_assoc| |done].
  intros z Hz Hx. rewrite fmap_app in Hx. apply elem_of_app in Hx as [Hx|Hx]; [by apply (Hd z); [right|]|].
  apply list_elem_of_singleton in Hx as ->. done.
Qed.
Lemma attrs_length l t : attrs_text l t -> (length l <= length t)%nat.
Proof. induction 1; [done|]. cbn. rewrite !length_app. cbn. rewrite length_app. cbn. lia. Qed.
Lemma attrs_stops l t sp c r : attrs_text l t -> spaces sp = true -> name_char c = false -> stops (t ++ sp ++ c :: r).
Proof.
  intros H Hs Hc. destruct H as [|q [|a sp'] n v tv l t _ Hs' Hne _ _ _ _]; [|done|].
  - destruct sp as [|a sp]; [done|]. cbn in Hs. apply andb_true_iff in Hs as [Ha _]. by apply space_stops.
  - cbn in Hs'. apply andb_true_iff in Hs' as [Ha _]. by apply space_stops.
Qed.
Lemma element_start n k r :
  plain_name n = true -> stops r -> r <> [] ->
  Element_Parse (S k) UTF8 (Some ("<"%char :: chars n ++ r)) = tag_loop k UTF8 (chars n) [] r.
Proof.
  intros Hn Hs Hr. cbn [Element_Parse]. rewrite (skip_here "<") by done. change (negb ("<" =c "<")%char) with false. cbn iota.
  pose proof (name_parts n Hn) as (c & m & En & Hf & _). unfold free_start in Hf. repeat apply andb_true_iff in Hf as [Hf ?].
  rewrite En at 1. cbn [app]. rewrite skip_here by (by apply negb_true_iff).
  change (c :: m ++ r) with ((c :: m) ++ r). rewrite <- En, read_name by done. by destruct r.
Qed.
Lemma strip_self tag r : strip ceqb tag (tag ++ r) = Some r.
Proof. induction tag as [|c tag IH]; [done|]. cbn. unfold ceqb. by rewrite Ascii.eqb_refl. Qed.
Lemma identify_element n r : plain_name n = true -> Identify ("<"%char :: chars n ++ r) = Some Element /\ StringEqual ("<"%char :: chars n ++ r) "</" = false.
Proof.
  intros (c & l & -> & Hf & _)%name_parts. unfold free_start in Hf. repeat apply andb_true_iff in Hf as [Hf ?].
  unfold Identify, StringEqual_ci, StringEqual. cbn [app]. change (negb ("<" =c "<")%char) with false. cbn.
  repeat match goal with H : negb _ = true |- _ => apply negb_true_iff in H end. unfold ceqb in *. change (same_ci "<" "<") with true. cbn.
  rewrite H2, H3, H6. cbn. rewrite H1. split; done.
Qed.
Lemma node_text_shape x s : node_text x s -> exists n r, s = "<"%char :: chars n ++ r /\ plain_name n = true.
Proof. intros H. destruct H; eauto. Qed.
Lemma trees_read :
  (forall x s, node_text x s -> forall k r, (2 * length (s ++ r) + 1 <= k)%nat -> Element_Parse k UTF8 (Some (s ++ r)) = Ran (x, Some r) false) /\
  (forall l s, nodes_text l s -> forall k r, (2 * length (s ++ "<"%char :: "/"%char :: r) + 2 <= k)%nat ->
     ReadValue k UTF8 (Some (s ++ "<"%char :: "/"%char :: r)) = Ran (l, Some ("<"%char :: "/"%char :: r)) false).
Proof.
  apply text_ind.
  - intros n l t sp Hn Ht Hs k r Hk. pose proof (attrs_length _ _ Ht) as Hl. cbn in Hk. rewrite !length_app in Hk.
    destruct k as [|k]; [lia|]. cbn [app]. rewrite <- !app_assoc. cbn [app].
    rewrite element_start; [|done|by apply (attrs_stops l)|by destruct t, sp].
    replace k with (length l + S (k - length l - 1))%nat by lia.
    rewrite (tag_attributes _ l) by (done || by intros ? ? ?%elem_of_nil || by destruct sp). cbn [tag_loop].
    rewrite skip_spaces by done. cbn. unfold element. by rewrite of_chars_chars.
  - intros n l t sp ch body Hn Ht Hs Hb IH k r Hk. pose proof (attrs_length _ _ Ht) as Hl. cbn in Hk. rewrite !length_app in Hk. cbn in Hk.
    rewrite !length_app in Hk. cbn in Hk. rewrite !length_app in Hk. cbn in Hk.
    destruct k as [|k]; [lia|]. cbn [app]. rewrite <- !app_assoc. cbn [app].
    rewrite element_start; [|done|by apply (attrs_stops l)|by destruct t, sp].
    replace k with (length l + S (k - length l - 1))%nat by lia.
    rewrite (tag_attributes _ l) by (done || by intros ? ? ?%elem_of_nil || by destruct sp). cbn [tag_loop].
    rewrite skip_spaces by done. change (">" =c "/")%char with false. change (">" =c ">")%char with true. cbn iota.
    rewrite <- !app_assoc. cbn [app chars]. rewrite <- ?app_assoc. cbn [app].
    rewrite IH by (rewrite length_app; cbn; rewrite length_app; cbn; lia). rewrite bind_ran. cbn [fst snd].
    change ("<" :: "/" :: chars n ++ ">" :: r)%char with ((["<"; "/"] ++ chars n) ++ ">" :: r)%char.
    rewrite strip_self. cbn [SkipWhiteSpace]. rewrite (skip_head_stays ">") by done. cbn. unfold element. by rewrite of_chars_chars.
  - intros sp Hs k r Hk. destruct k as [|k]; [lia|]. cbn [ReadValue]. by rewrite skip_spaces.
  - intros sp x s l t Hs Hx IHx Ht IHt k r Hk. destruct k as [|k]; [lia|]. cbn [ReadValue]. rewrite <- !app_assoc.
    destruct (node_text_shape _ _ Hx) as (n & q & -> & Hn). cbn [app] in *. rewrite skip_spaces by done.
    change ("<" =c "<")%char with true. cbn iota. rewrite <- app_assoc.
    destruct (identify_element n (q ++ t ++ "<"%char :: "/"%char :: r) Hn) as [-> ->].
    rewrite !length_app in Hk. cbn in Hk. rewrite !length_app in Hk. cbn in Hk.
    change ("<"%char :: chars n ++ q ++ ?y) with ("<"%char :: (chars n ++ (q ++ y))). rewrite (app_assoc (chars n) q).
    rewrite IHx by (cbn; rewrite !length_app; cbn; lia). rewrite bind_ran. cbn [fst snd].
    rewrite IHt by (rewrite length_app; cbn; lia). by rewrite bind_ran.
Qed.

(** ** Documents *)
Definition header : string := "<?xml version=" +:+ quote "1.0" +:+ " ?>".
Lemma declaration_reads enc r : enc <> Legacy -> Declaration_Parse enc (chars header ++ r) = Ran (mkDeclared (chars "1.0") [] [], Some r) false.
Proof. destruct enc; [|..|done]; intros _; (destruct r as [|d r]; vm_compute; reflexivity). Qed.
Lemma identify_header r : Identify (chars header ++ r) = Some Declaration.
Proof. reflexivity. Qed.
Lemma end_of_spaces sp : spaces sp = true -> SkipWhiteSpace UTF8 (Some sp) = None \/ SkipWhiteSpace UTF8 (Some sp) = Some [].
Proof.
  intros Hs. destruct sp as [|c sp]; [by left|right]. unfold SkipWhiteSpace. f_equal. revert Hs. generalize (c :: sp). clear.
  induction l as [|c l IH]; [done|]. cbn. intros [Hc Hl]%andb_true_iff. change (skip_utf8 (c :: l) = []). rewrite skip_space_more by done. by apply IH.
Qed.
Lemma document_ends n sp : spaces sp = true -> document_loop (S n) UTF8 (SkipWhiteSpace UTF8 (Some sp)) = Ran [] false.
Proof. intros Hs. by destruct (end_of_spaces sp Hs) as [->| ->]. Qed.
Lemma document_step n enc l k :
  Identify l = Some k ->
  document_loop (S n) enc (Some l) =
  (r ← document_node n enc k l; x ← document_loop n r.2 (SkipWhiteSpace r.2 r.1.2); mret (r.1.1 :: x)).
Proof. intros H. destruct l as [|c l]; [done|]. cbn [document_loop]. by rewrite H. Qed.
Lemma document_reads enc x s sp sp' :
  enc <> Legacy -> node_text x s -> spaces sp = true -> spaces sp' = true ->
  Document_Parse enc (chars header ++ sp ++ s ++ sp') = Ran [xml_declaration; x] false.
Proof.
  intros He Hx Hs Hs'. set (r := sp ++ s ++ sp'). unfold Document_Parse. replace (initial_encoding enc (chars header ++ r)) with enc by (by destruct enc).
  replace (SkipWhiteSpace enc (Some (chars header ++ r))) with (Some (chars header ++ r)) by (by destruct enc).
  rewrite length_app. change (length (chars header)) with 22%nat. replace (2 * (22 + length r) + 2)%nat with (S (S (S (43 + 2 * length r)))) by lia.
  remember (43 + 2 * length r)%nat as k eqn:Ek. rewrite (document_step _ _ _ Declaration) by apply identify_header.
  cbn [document_node]. rewrite declaration_reads by done. rewrite bind_ran, bind_ret. cbn [fst snd].
  replace (after_declaration enc _) with UTF8 by (by destruct enc). unfold r in *.
  destruct (node_text_shape _ _ Hx) as (n & q & Es & Hn). rewrite Es in *. cbn [app] in *. rewrite skip_spaces by done.
  rewrite (document_step _ _ _ Element) by (rewrite <- app_assoc; by apply identify_element). cbn [document_node].
  change ("<"%char :: (chars n ++ q) ++ sp') with (("<"%char :: chars n ++ q) ++ sp').
  rewrite (proj1 trees_read _ _ Hx) by (rewrite !length_app in *; cbn in *; rewrite ?length_app in *; lia).
  rewrite bind_ran, bind_ret. cbn [fst snd]. rewrite document_ends by done. by rewrite !bind_ran.
Qed.

(** No zero in such a text: what [Parse] is given is the text. *)
Lemma no_nul_mono (f : ascii -> bool) l : (forall c, f c = true -> code c <> 0%nat) -> forallb f l = true -> no_nul l = true.
Proof.
  unfold no_nul. intros Hf. induction l as [|c l IH]; [done|]. cbn. intros [Hc Hl]%andb_true_iff. rewrite IH by done. rewrite andb_true_r.
  apply negb_true_iff, Nat.eqb_neq. by apply Hf.
Qed.
Lemma no_nul_spaces l : spaces l = true -> no_nul l = true.
Proof. apply no_nul_mono. by intros [[] [] [] [] [] [] [] []]; vm_compute. Qed.
Lemma no_nul_name n : plain_name n = true -> no_nul (chars n) = true.
Proof. intros (c & l & -> & _ & H)%name_parts. eapply no_nul_mono; [|exact H]. by intros [[] [] [] [] [] [] [] []]; vm_compute. Qed.
Lemma no_nul_attrs l t : attrs_text l t -> no_nul t = true.
Proof.
  induction 1 as [|q sp n v tv l t Hq Hs Hne Hn Hv Hnl H IH]; [done|]. rewrite no_nul_app, no_nul_spaces, no_nul_app, no_nul_name by done.
  change ("="%char :: q :: tv ++ q :: t) with (["="%char; q] ++ tv ++ [q] ++ t). apply value_no_nul in Hv as [_ Hv].
  rewrite !no_nul_app, Hv, IH. by destruct Hq as [->| ->].
Qed.
Lemma no_nul_text : (forall x s, node_text x s -> no_nul s = true) /\ (forall l s, nodes_text l s -> no_nul s = true).
Proof.
  apply text_ind.
  - intros n l t sp Hn Ht Hs. cbn. change (no_nul (chars n ++ t ++ sp ++ ["/"; ">"]%char) = true).
    by rewrite !no_nul_app, no_nul_name, (no_nul_attrs _ _ Ht), no_nul_spaces by done.
  - intros n l t sp ch body Hn Ht Hs _ IH. cbn. change (no_nul (chars n ++ t ++ sp ++ ">"%char :: body ++ "<"%char :: "/"%char :: chars n ++ [">"%char]) = true).
    rewrite !no_nul_app, no_nul_name, (no_nul_attrs _ _ Ht), no_nul_spaces by done. cbn.
    change (no_nul (body ++ "<"%char :: "/"%char :: chars n ++ [">"%char]) = true). rewrite no_nul_app, IH. cbn.
    change (no_nul (chars n ++ [">"%char]) = true). by rewrite no_nul_app, no_nul_name.
  - apply no_nul_spaces.
  - intros sp x s l t Hs _ IHx _ IHt. by rewrite !no_nul_app, no_nul_spaces, IHx, IHt.
Qed.
(** The whole text of a document. *)
Inductive document_text (x : xnode) : string -> Prop :=
| document_of sp s sp' :
    node_text x s -> spaces sp = true -> spaces sp' = true -> document_text x (header +:+ of_chars (sp ++ s ++ sp')).
Lemma chars_document x sp s sp' :
  node_text x s -> spaces sp = true -> spaces sp' = true ->
  chars (c_text (chars (header +:+ of_chars (sp ++ s ++ sp')))) = chars header ++ sp ++ s ++ sp'.
Proof.
  intros Hx Hs Hs'. rewrite chars_app, chars_of_chars. apply shown_all.
  by rewrite !no_nul_app, (proj1 no_nul_text _ _ Hx), (no_nul_spaces sp), (no_nul_spaces sp').
Qed.
Lemma document_parses x text : document_text x text -> Parse text = Ran [xml_declaration; x] false.
Proof. intros [sp s sp' Hx Hs Hs']. unfold Parse. rewrite (chars_document x) by done. by apply document_reads. Qed.
Lemma normalize_same l : CR ∉ l -> normalize l = l.
Proof.
  induction l as [|c l IH]; [done|]. intros [Hc Hl]%not_elem_of_cons. cbn. destruct (c =c CR) eqn:E.
  - unfold ceqb in E. apply Ascii.eqb_eq in E. congruence.
  - by rewrite IH.
Qed.
Lemma document_loads x text : document_text x text -> CR ∉ chars text -> LoadFile text = Ran [xml_declaration; x] false.
Proof.
  intros [sp s sp' Hx Hs Hs'] Hc. unfold LoadFile. change (header +:+ of_chars (sp ++ s ++ sp')) with (String "<" (drop_str 1 header +:+ of_chars (sp ++ s ++ sp'))) at 1.
  cbn iota. rewrite (chars_document x) by done. rewrite normalize_same.
  - by apply document_reads.
  - by rewrite chars_app, chars_of_chars in Hc.
Qed.
