(* ===== verification/MMessage.v ===== *)
(** * [MstringList] and [MMessage] (minilibs/MMessage.cpp): the messages the
    agents exchange.  A message is a type, a subtype, a priority and a
    [std::map] from field names to values; a value is a single string
    ("Mstring") or a list ("MstringList"). *)
From S2P Require Import Prelude Doubles Hsrv Xml.

(** ** [MstringList] *)
Record MstringList := mkML { mytype : string; items : list string }.

#[export] Instance MstringList_eq_dec : EqDecision MstringList.
Proof. solve_decision. Defined.

Module ML.
Definition empty : MstringList := mkML "MstringList" [].
Definition of_list (v : list string) : MstringList := mkML "MstringList" v.
Definition of_string (v : string) : MstringList := mkML "Mstring" [v].

Definition getString (l : MstringList) : string := nth 0 (items l) "".
Definition getString_at (l : MstringList) (n : nat) : string := nth n (items l) "".

(** The assignment to element 0 needs a first element: see [wf] below. *)
Definition add (l : MstringList) (v : string) : MstringList :=
  if mytype l =s "MstringList" then mkML (mytype l) (items l ++ [v])
  else mkML (mytype l) (<[0%nat := v]> (items l)).
Definition add_list (l : MstringList) (v : list string) : bool * MstringList :=
  if mytype l <>s "MstringList" then (false, l)
  else (true, mkML (mytype l) (items l ++ v)).
Definition getList (l : MstringList) : list string := items l.
Definition hasType (l : MstringList) : string := mytype l.

Fixpoint commas (l : list string) : string :=
  match l with
  | [] => ""
  | [a] => a
  | a :: l' => a +:+ "," +:+ commas l'
  end.
Definition field_tag (name ty : string) : string :=
  "<field name=" +:+ quote name +:+ " type=" +:+ quote ty.
Definition htmlEncode (l : MstringList) (name : string) : string :=
  if mytype l =s "Mlist" then
    field_tag name (mytype l) +:+ "  value=" +:+ quote (getString l) +:+ "/>"
  else name +:+ "={" +:+ commas (items l) +:+ "}".
Definition xmlEncode (l : MstringList) (name : string) : string :=
  if mytype l =s "Mstring" then
    field_tag name (mytype l) +:+ "  value=" +:+ quote (getString l) +:+ "/>"
  else field_tag name (mytype l) +:+ ">" +:+
       sconcat (map (fun v => "<item value=" +:+ quote v +:+ "/>") (items l)) +:+ "</field>".

(** The loop of both [xmlDecode]: stops with [false] at a child that is not an element. *)
Fixpoint decode_items (l : xptr) : bool * list string :=
  match l with
  | [] => (true, [])
  | XOther _ _ :: _ => (false, [])
  | n :: r => let '(ok, vs) := decode_items r in (ok, getAttrbyName [n] "value" :: vs)
  end.
Definition xmlDecode_node (self : MstringList) (desc : xptr) : bool * MstringList :=
  match desc with
  | [] => (false, self)
  | n :: _ => let '(ok, vs) := decode_items (children n) in (ok, mkML (mytype self) vs)
  end.
Definition xmlDecode {XP : XmlParser} (self : MstringList) (xmldesc : string)
    : option (bool * MstringList) :=
  desc ← NextSibling (parse_document xmldesc);
  match desc with
  | [] => Some (false, self)
  | n :: _ =>
      e ← ToElement desc;
      if getAttrbyName e "type" <>s mytype self then Some (false, mkML (mytype self) [])
      else Some (let '(ok, vs) := decode_items (children n) in (ok, mkML (mytype self) vs))
  end.

(** A single string has exactly one element. *)
Definition wf (l : MstringList) : Prop :=
  (mytype l = "Mstring" /\ exists v, items l = [v]) \/ mytype l = "MstringList".

Lemma wf_empty : wf empty.
Proof. by right. Qed.
Lemma wf_of_string v : wf (of_string v).
Proof. left. split; [done|]. by exists v. Qed.
Lemma wf_of_list v : wf (of_list v).
Proof. by right. Qed.
Lemma mlwf_add l v : wf l -> wf (add l v).
Proof.
  intros [[Ht [w Hi]]|Ht]; unfold add; rewrite Ht; simpl.
  - left. split; [done|]. rewrite Hi. by exists v.
  - by right.
Qed.
Lemma mlwf_add_list l v : wf l -> wf (add_list l v).2.
Proof. intros [[Ht H]|Ht]; unfold add_list; rewrite Ht; simpl; [left|right]; auto. Qed.
Lemma wf_xmlDecode_node desc : wf (xmlDecode_node empty desc).2.
Proof. destruct desc as [|n ?]; [apply wf_empty|]. simpl. destruct decode_items. by right. Qed.

Lemma getString_add_single l v : mytype l = "Mstring" -> wf l -> getString (add l v) = v.
Proof. intros Ht [[_ [w Hi]]|Ht']; [|congruence]. unfold add, getString. by rewrite Ht, Hi. Qed.
Lemma mytype_add l v : mytype (add l v) = mytype l.
Proof. unfold add. by destruct (mytype l =s _). Qed.
End ML.
#[export] Hint Resolve ML.wf_empty ML.wf_of_string ML.wf_of_list ML.mlwf_add ML.mlwf_add_list
  ML.wf_xmlDecode_node : hat.
#[export] Hint Rewrite ML.mytype_add : hat.

(** ** [MMessage] *)
Record MMessage := mkMsg {
  mtype : string; msubtype : string; priority : Z; fields : gmap string MstringList }.

#[export] Instance MMessage_eq_dec : EqDecision MMessage.
Proof. solve_decision. Defined.

Module Msg.
Definition mk (t st : string) : MMessage := mkMsg t st 0 ∅.
Definition dummy : MMessage := mk "*" "*".
Definition set_type (m : MMessage) (t : string) : MMessage := mkMsg t (msubtype m) (priority m) (fields m).
Definition set_subtype (m : MMessage) (st : string) : MMessage := mkMsg (mtype m) st (priority m) (fields m).
Definition set_fields (m : MMessage) (f : gmap string MstringList) : MMessage :=
  mkMsg (mtype m) (msubtype m) (priority m) f.
(** [operator[]] assignment of a field *)
Definition assign (m : MMessage) (f : string) (v : MstringList) : MMessage :=
  set_fields m (<[f := v]> (fields m)).
Definition clear (m : MMessage) : MMessage := set_fields m ∅.

Definition add (m : MMessage) (f v : string) : MMessage :=
  match fields m !! f with
  | Some l => assign m f (ML.add l v)
  | None => assign m f (ML.of_string v)
  end.
Definition add_int (m : MMessage) (f : string) (v : Z) : MMessage := add m f (int2a v).
Definition add_double (m : MMessage) (f : string) (v : double) : MMessage := add m f (double2a v).
Definition add_list (m : MMessage) (f : string) (v : list string) : bool * MMessage :=
  match fields m !! f with
  | Some l => let '(ok, l') := ML.add_list l v in (ok, assign m f l')
  | None => (true, assign m f (ML.of_list v))
  end.

Definition getElements (m : MMessage) : gmap string string :=
  omap (fun l => if ML.hasType l =s "Mstring" then Some (ML.getString l) else None) (fields m).
Definition getString (m : MMessage) (f : string) : string :=
  match fields m !! f with Some l => ML.getString l | None => "" end.
Definition getList (m : MMessage) (f : string) : list string :=
  match fields m !! f with
  | Some l => if ML.hasType l =s "MstringList" then ML.getList l else []
  | None => []
  end.
Definition remove (m : MMessage) (f : string) : bool * MMessage :=
  match fields m !! f with
  | Some _ => (true, set_fields m (delete f (fields m)))
  | None => (false, m)
  end.

Section numbers.
Context {P : Platform}.
Definition getInt (m : MMessage) (f : string) : Z :=
  match fields m !! f with Some l => a2int (ML.getString l) | None => 0 end.
Definition getUnsigned (m : MMessage) (f : string) : Z :=
  match fields m !! f with Some l => a2unsigned (ML.getString l) | None => 0 end.
Definition getLong (m : MMessage) (f : string) : Z :=
  match fields m !! f with Some l => a2long (ML.getString l) | None => 0 end.
Definition getDouble (m : MMessage) (f : string) : double :=
  match fields m !! f with Some l => a2double (ML.getString l) | None => d0 end.
End numbers.

Definition htmlEncode (m : MMessage) : string :=
  match fields m !! "body" with
  | Some l => ML.getString l
  | None => "<html><body>" +:+
            sconcat (map (fun kv => ML.htmlEncode kv.2 kv.1 +:+ "<br>") (map_items (fields m))) +:+
            "</body></html>"
  end.
Fixpoint amp_join (l : list string) : string :=
  match l with [] => "" | [a] => a | a :: l' => a +:+ "&" +:+ amp_join l' end.
Definition htmlPostEncode (m : MMessage) : string :=
  match fields m !! "body" with
  | Some l => ML.getString l
  | None => amp_join (map (fun kv => ML.htmlEncode kv.2 kv.1) (map_items (fields m)))
  end.
Definition xml_header : string := "<?xml version=" +:+ quote "1.0" +:+ " ?>".
Definition open_tag (m : MMessage) : string :=
  "<message type=" +:+ quote (mtype m) +:+ " subtype=" +:+ quote (msubtype m) +:+ ">".
Definition xmlEncode (m : MMessage) (md : Z) : string :=
  (if 0 <? md then xml_header else "") +:+ open_tag m +:+
  sconcat (map (fun kv => ML.xmlEncode kv.2 kv.1) (map_items (fields m))) +:+ "</message>".
Definition endl : string := String "010" "".
Definition xmlPrint (m : MMessage) (md : Z) : string :=
  (if 0 <? md then xml_header +:+ endl else "") +:+ open_tag m +:+ endl +:+
  sconcat (map (fun kv => "<field name=" +:+ quote kv.1 +:+ " value=" +:+
                          quote (ML.getString kv.2) +:+ "/>" +:+ endl) (map_items (fields m))) +:+
  "</message>" +:+ endl.

(** *** Decoding *)

(** One child of the message element; [deep] says whether a list is decoded
    from the child itself or from its first child. *)
Definition decode_field (deep : bool) (m : MMessage) (n : xnode) : MMessage :=
  let ndtype := child_attr n "type" in
  let name := child_attr n "name" in
  if ndtype =s "Mstring" then assign m name (ML.of_string (child_attr n "value"))
  else if ndtype =s "MstringList" then
    assign m name (ML.xmlDecode_node ML.empty (if deep then children n else [n])).2
  else m.

(** The overload on a string: the list is decoded from the field element. *)
Definition xmlDecode {XP : XmlParser} (m : MMessage) (xmldesc : string) : option (bool * MMessage) :=
  desc ← NextSibling (parse_document xmldesc);
  match desc with
  | [] => Some (false, m)
  | n :: _ =>
      let st := child_attr n "subtype" in
      let m := clear (set_subtype (set_type m st) st) in
      Some (true, fold_left (decode_field false) (children n) m)
  end.

(** The overload on a [TiXmlNode]: the list is decoded from the first child of the field. *)
Definition xmlDecode_node (m : MMessage) (desc : xptr) : bool * MMessage :=
  match desc with
  | [] => (false, m)
  | n :: _ =>
      let st := child_attr n "subtype" in
      let m := clear (set_subtype (set_type m st) st) in
      (true, fold_left (decode_field true) (children n) m)
  end.

Definition append_field (m : MMessage) (n : xnode) : MMessage :=
  let ndtype := child_attr n "type" in
  let name := child_attr n "name" in
  if (ndtype =s "Mstring") || (ndtype =s "*") then assign m name (ML.of_string (child_attr n "value"))
  else if ndtype =s "MstringList" then
    assign m name (ML.xmlDecode_node ML.empty (children n)).2
  else m.
Definition xmlAppend {XP : XmlParser} (m : MMessage) (xmldesc : string) : option (bool * MMessage) :=
  desc ← NextSibling (parse_document xmldesc);
  match desc with
  | [] => Some (false, m)
  | n :: _ =>
      let m := set_subtype (set_type m (child_attr n "type")) (child_attr n "subtype") in
      Some (true, fold_left append_field (children n) m)
  end.

(** [htmlAppend]: the scan over "name=value&..." *)
Definition html_pair (m : MMessage) (tname tvalue : string) : MMessage :=
  if tname =s "type" then set_type m tvalue
  else if tname =s "subtype" then set_subtype m tvalue
  else assign m tname (ML.of_string tvalue).
Fixpoint html_loop (m : MMessage) (tname tvalue : list ascii) (flag : bool) (l : list ascii) : MMessage :=
  match l with
  | [] =>
      let n := of_chars tname in let v := of_chars tvalue in
      if n =s "type" then set_type m v
      else if n =s "subtype" then set_subtype m v
      else if (n <>s "") && (v <>s "") then assign m n (ML.of_string v) else m
  | c :: l' =>
      if c =c "=" then html_loop m tname tvalue true l'
      else if c =c " " then html_loop m tname tvalue flag l'
      else if c =c "&" then html_loop (html_pair m (of_chars tname) (of_chars tvalue)) [] [] false l'
      else if flag then html_loop m tname (tvalue ++ [c]) flag l'
      else html_loop m (tname ++ [c]) tvalue flag l'
  end%char.
Definition htmlAppend (m : MMessage) (s : string) : MMessage :=
  html_loop (set_subtype m "*") [] [] false (chars s).
End Msg.

(** ** Lemmas on messages *)
Module MsgFacts.
Import Msg.

Lemma getString_assign m f v : getString (assign m f v) f = ML.getString v.
Proof. unfold getString, assign; simpl. by rewrite lookup_insert_eq. Qed.
Lemma getString_assign_ne m f g v : f <> g -> getString (assign m f v) g = getString m g.
Proof. intros H. unfold getString, assign; simpl. by rewrite lookup_insert_ne. Qed.

Lemma getString_add_ne m f g v : f <> g -> getString (add m f v) g = getString m g.
Proof. intros H. unfold add. destruct (fields m !! f); by apply getString_assign_ne. Qed.
Lemma getList_add_ne m f g v : f <> g -> getList (add m f v) g = getList m g.
Proof.
  intros H. unfold add, getList, assign. destruct (fields m !! f); simpl; by rewrite lookup_insert_ne.
Qed.
Lemma getString_add_new m f v : fields m !! f = None -> getString (add m f v) f = v.
Proof. intros H. unfold add. rewrite H. apply getString_assign. Qed.

(** A message whose every value is well formed. *)
Definition wf (m : MMessage) : Prop := map_Forall (fun _ => ML.wf) (fields m).
(** The fields of [m] that are set are single strings: the messages that only
    [add(string, string)] built. *)
Definition flat (m : MMessage) : Prop :=
  map_Forall (fun _ l => mytype l = "Mstring" /\ exists v, items l = [v]) (fields m).

Lemma flat_wf m : flat m -> wf m.
Proof. intros H f l Hl. left. by apply (H f). Qed.
Lemma flat_mk t st : flat (mk t st).
Proof. apply map_Forall_empty. Qed.
Lemma wf_mk t st : wf (mk t st).
Proof. apply flat_wf, flat_mk. Qed.
Lemma wf_assign m f v : wf m -> ML.wf v -> wf (assign m f v).
Proof. intros H Hv. by apply map_Forall_insert_2. Qed.
Lemma wf_add m f v : wf m -> wf (add m f v).
Proof.
  intros H. unfold add. destruct (fields m !! f) eqn:E.
  - apply wf_assign; [done|]. apply ML.mlwf_add. by apply (H f).
  - by apply wf_assign; [|apply ML.wf_of_string].
Qed.
Lemma flat_add m f v : flat m -> flat (add m f v).
Proof.
  intros H. unfold add. destruct (fields m !! f) as [l|] eqn:E; apply map_Forall_insert_2; try done.
  - destruct (H f l E) as [Ht [w Hi]]. rewrite ML.mytype_add. split; [done|].
    unfold ML.add. rewrite Ht, Hi. by exists v.
  - split; [done|]. by exists v.
Qed.
Lemma wf_add_list m f v : wf m -> wf (add_list m f v).2.
Proof.
  intros H. unfold add_list. destruct (fields m !! f) eqn:E.
  - destruct (ML.add_list m0 v) as [ok l'] eqn:El. simpl. apply wf_assign; [done|].
    replace l' with (ML.add_list m0 v).2 by (by rewrite El). apply ML.mlwf_add_list. by apply (H f).
  - by apply wf_assign; [|apply ML.wf_of_list].
Qed.
Lemma wf_set_type m t : wf m -> wf (set_type m t).
Proof. done. Qed.
Lemma wf_set_subtype m t : wf m -> wf (set_subtype m t).
Proof. done. Qed.
Lemma wf_clear m : wf (clear m).
Proof. apply map_Forall_empty. Qed.
Lemma wf_remove m f : wf m -> wf (remove m f).2.
Proof.
  intros H. unfold remove. destruct (fields m !! f); [|done]. simpl. by apply map_Forall_delete.
Qed.

Lemma getString_add_flat m f v : flat m -> getString (add m f v) f = v.
Proof.
  intros H. unfold add. destruct (fields m !! f) as [l|] eqn:E; rewrite getString_assign; [|done].
  destruct (H f l E) as [Ht [w Hi]]. apply ML.getString_add_single; [done|]. left. eauto.
Qed.
Lemma flat_set_type m t : flat m -> flat (set_type m t).
Proof. done. Qed.
Lemma flat_set_subtype m t : flat m -> flat (set_subtype m t).
Proof. done. Qed.
Lemma mtype_add m f v : mtype (add m f v) = mtype m.
Proof. unfold add. by destruct (fields m !! f). Qed.
Lemma msubtype_add m f v : msubtype (add m f v) = msubtype m.
Proof. unfold add. by destruct (fields m !! f). Qed.
Lemma priority_add m f v : priority (add m f v) = priority m.
Proof. unfold add. by destruct (fields m !! f). Qed.

Lemma wf_append_field m n : wf m -> wf (append_field m n).
Proof. intros H. unfold append_field. repeat case_match; auto using wf_assign with hat. Qed.
Lemma wf_decode_field deep m n : wf m -> wf (decode_field deep m n).
Proof. intros H. unfold decode_field. repeat case_match; auto using wf_assign with hat. Qed.
Lemma wf_fold (f : MMessage -> xnode -> MMessage) l m :
  (forall m n, wf m -> wf (f m n)) -> wf m -> wf (fold_left f l m).
Proof. intros Hf. revert m. induction l; simpl; auto. Qed.
Lemma wf_html_pair m n v : wf m -> wf (html_pair m n v).
Proof. intros H. unfold html_pair. repeat case_match; auto using wf_assign with hat. Qed.
Lemma wf_html_loop l m tn tv flag : wf m -> wf (html_loop m tn tv flag l).
Proof.
  revert m tn tv flag. induction l as [|c l IH]; intros m tn tv flag H; simpl.
  - repeat case_match; auto using wf_assign with hat.
  - repeat case_match; auto using wf_html_pair.
Qed.
End MsgFacts.
#[export] Hint Resolve MsgFacts.flat_wf MsgFacts.flat_mk MsgFacts.wf_mk MsgFacts.wf_add
  MsgFacts.flat_add MsgFacts.wf_add_list MsgFacts.wf_clear MsgFacts.flat_set_type
  MsgFacts.flat_set_subtype MsgFacts.wf_assign : hat.
#[export] Hint Rewrite MsgFacts.mtype_add MsgFacts.msubtype_add MsgFacts.priority_add
  MsgFacts.getString_assign : hat.
