(* ===== verification/World.v ===== *)
(** * The world an agent runs in: clock, files, published index, messages sent

    Stateful code is written in the state monad [M]: a function of the world.
    - every call to [gettimeofday] or [time] takes the next reading of [w_clock];
    - [w_files] holds the contents of the regular files and [w_dirs] the directories;
    - [w_index] is the static map [hsrv::index] behind the dynamic pages;
    - [w_trace] lists the calls that leave the component, oldest first:
      [SubjectSet::notify] ([Notified]), [RpcWaitTable::signal] ([RpcSignal]) and
      [checkTimeOut] ([RpcTimeoutCheck]),
      the logger ([Logged]), [ArchiveManager::purge] ([ArchivePurged]),
      [AgentConf::pageRegister] ([Registered]), shell commands ([Command]) and texts written to a
      socket ([Written]).  [Exited] marks the end of the process inside a computation whose type has no
      place for it: what the model computes after this mark does not happen.
    The object a method works on is passed to it and returned with the result.  The second part holds the
    operations of filemanager.cpp on directories and whole trees. *)
From S2P Require Import Prelude Doubles Hsrv Xml MMessage.

Inductive effect :=
| Notified (m : MMessage)
| RpcSignal (m : MMessage)
| RpcTimeoutCheck
| Logged (s : string)
| Exited
| ArchivePurged
| Registered (url : string) (page : MMessage)
| Command (s : string)
| Written (fd : Z) (s : string).

Record world := World {
  w_clock : nat -> timeval;
  w_shell : nat -> string -> string;
  w_writable : string -> bool;
  w_tick : nat;
  w_files : gmap string string;
  w_dirs : gset string;
  w_index : gmap string string;
  w_trace : list effect }.

#[export] Instance world_rebuild : Rebuild world := fun w =>
  World (w_clock w) (w_shell w) (w_writable w) (w_tick w) (w_files w) (w_dirs w) (w_index w) (w_trace w).
Definition set_tick (n : nat) (w : world) : world := w <| w_tick := n |>.
Definition set_files (f : gmap string string) (w : world) : world := w <| w_files := f |>.
Definition set_dirs (d : gset string) (w : world) : world := w <| w_dirs := d |>.
Definition set_index (i : gmap string string) (w : world) : world := w <| w_index := i |>.
Definition set_trace (t : list effect) (w : world) : world := w <| w_trace := t |>.

(** The static configuration of an agent ([hsrv::configdir], ...), read only after start. *)
Class Config := {
  configdir : string;
  homedir : string;
  configurator : string;
  has_rpctab : bool;
  debug : Z }.

Definition M (A : Type) : Type := world -> A * world.
#[export] Instance M_ret : MRet M := fun A a w => (a, w).
#[export] Instance M_bind : MBind M := fun A B k c w => let '(a, w') := c w in k a w'.

Definition result {A} (c : M A) (w : world) : A := (c w).1.
Definition final {A} (c : M A) (w : world) : world := (c w).2.

Definition emit (e : effect) : M unit := fun w => (tt, set_trace (w_trace w ++ [e]) w).
Definition notify (m : MMessage) : M unit := emit (Notified m).
Definition log_info (s : string) : M unit := emit (Logged s).
Definition read_clock : M timeval := fun w => (w_clock w (w_tick w), set_tick (S (w_tick w)) w).

(** [hsrv::publish] and [hsrv::indexClear] *)
Definition publish (name value : string) : M unit :=
  fun w => (tt, set_index (<[name := value]> (w_index w)) w).
Definition indexClear : M bool := fun w => (true, set_index ∅ w).
Definition indexClear_name (name : string) : M bool := fun w =>
  match w_index w !! name with
  | None => (false, w)
  | Some _ => (true, set_index (delete name (w_index w)) w)
  end.

(** [hsrv::rpcNotify]: the answer handed to the RPC table, when there is one. *)
Definition rpc_answer (tag field value : string) : MMessage :=
  Msg.add (Msg.add (Msg.mk "rpc" "answer") "answer_tag" tag) field value.
Definition rpcNotify {C : Config} (tag field value : string) : M bool :=
  if has_rpctab then emit (RpcSignal (rpc_answer tag field value));; mret true else mret false.

Section clock.
Context {P : Platform}.
Definition gettime : M double := tv ← read_clock; mret (gettime_of tv).
Definition getasciitimeday : M string := tv ← read_clock; mret (getasciitimeday_of tv).
Definition getasciitimecompact : M string := tv ← read_clock; mret (getasciitimecompact_of tv).
Definition getday (delta : Z) : M string := tv ← read_clock; mret (getday_of tv delta).
Definition CurrentTime (d : Z) : M (list Z) := tv ← read_clock; mret (CurrentTime_of tv d).
(** [hsrv::mySQLdate]: today as "YYYY-MM-DD", or the given date with dashes.
    One pass more than the underscores of the date is enough (proved in HsrvClaims). *)
Definition mySQLdate (date : string) : M string :=
  if date <>s "" then mret (default date (strReplaceAll (S (String.length date)) date "_" "-"))
  else tv ← read_clock;
       let tc := localtime (tv_sec tv) in
       mret (pad4 (tm_year tc + 1900) +:+ "-" +:+ pad2 (tm_mon tc + 1) +:+ "-" +:+ pad2 (tm_mday tc)).
End clock.

(** [hsrv::cmdExec]: the output of the shell, at most 64999 bytes of it, up to the
    first NUL; with [debug > 1] nothing is run. *)
Fixpoint until_nul (l : list ascii) : list ascii :=
  match l with [] => [] | c :: l' => if c =c nul then [] else c :: until_nul l' end.
Definition MAXB : nat := 65000.
Definition shell_output (command : string) : M string := fun w =>
  (of_chars (until_nul (take (MAXB - 1) (chars (w_shell w (w_tick w) command)))),
   set_tick (S (w_tick w)) w).
Definition cmdExec {C : Config} (command : string) : M string :=
  if 1 <? debug then mret "done"
  else emit (Command command);; shell_output command.

(** ** Files *)

Definition is_file (path : string) : M bool := fun w => (bool_decide (is_Some (w_files w !! path)), w).
Definition read_file (path : string) : M (option string) := fun w => (w_files w !! path, w).
(** Open for writing, write, close: the flag is [is_open()]. *)
Definition write_file (path content : string) : M bool := fun w =>
  if w_writable w path then (true, set_files (<[path := content]> (w_files w)) w) else (false, w).
Definition unlink (path : string) : M bool := fun w =>
  match w_files w !! path with
  | Some _ => if w_writable w path then (true, set_files (delete path (w_files w)) w) else (false, w)
  | None => (false, w)
  end.
Definition rename (old new : string) : M bool := fun w =>
  match w_files w !! old with
  | Some c => if w_writable w new then (true, set_files (<[new := c]> (delete old (w_files w))) w)
              else (false, w)
  | None => (false, w)
  end.

(** [in >> word]: the first whitespace separated word, or "". *)
Fixpoint take_word (l : list ascii) : list ascii :=
  match l with [] => [] | c :: l' => if Ascii.is_space c then [] else c :: take_word l' end.
Definition first_word (s : string) : string := of_chars (take_word (skip_space (chars s))).

(** [hsrv::isfile(name, type)] *)
Definition isfile_type (path ty : string) : M bool :=
  c ← read_file path;
  mret (match c with Some s => contains ty (first_word s) | None => false end).

(** [FileManager::readFile] keeps every word that white space follows: the loop
    drops the last word when it ends at the end of the file. *)
Fixpoint words_followed (cur : list ascii) (l : list ascii) : list ascii :=
  match l with
  | [] => []
  | c :: l' => if Ascii.is_space c then cur ++ words_followed [] l' else words_followed (cur ++ [c]) l'
  end.

Module FM.
Definition path_of (dir name : string) : string := if name <>s "" then dir +:+ "/" +:+ name else dir.
Definition isFile (path : string) : M bool := is_file path.
Definition deleteFile (filepath filename : string) : M bool :=
  let p := path_of filepath filename in
  f ← isFile p;
  if f : bool then
    ok ← unlink p;
    if ok : bool then mret true
    else log_info ("[Filemanager::deleteFile] error deleting file: " +:+ filepath);; mret false
  else mret false.
Definition moveFile (filepath new_filepath new_filename : string) : M bool :=
  f ← isFile filepath;
  if f : bool then
    ok ← rename filepath (path_of new_filepath new_filename);
    if ok : bool then mret true
    else log_info ("[Filemanager::moveFile] error moving file (rename): " +:+ filepath);; mret false
  else log_info ("[Filemanager::moveFile] error moving file (isFile): " +:+ filepath);; mret false.
Definition readFile (name : string) : M string :=
  c ← read_file name;
  mret (match c with Some s => of_chars (words_followed [] (chars s)) | None => "" end).
Definition saveFile (fname content : string) : M bool :=
  ok ← write_file fname (content +:+ Msg.endl);
  if ok : bool then mret true else log_info (fname +:+ " is not accessible");; mret false.
End FM.

(** ** Reasoning in [M] *)

(** A text without a zero is the text up to its end. *)
Lemma until_nul_all l : nul ∉ l -> until_nul l = l.
Proof.
  induction l as [|c l IH]; [done|]. intros H. apply not_elem_of_cons in H as [Hc Hl]. simpl. unfold ceqb.
  destruct (Ascii.eqb_spec c nul) as [->|_]; [done|]. by rewrite IH.
Qed.

Ltac unfold_M := unfold mret, M_ret, mbind, M_bind in *; simpl in *.

Lemma result_ret {A} (a : A) w : result (mret a) w = a.
Proof. done. Qed.
Lemma final_ret {A} (a : A) w : final (mret a) w = w.
Proof. done. Qed.
Lemma run_bind {A B} (c : M A) (k : A -> M B) w : (c ≫= k) w = k (result c w) (final c w).
Proof. unfold result, final, mbind, M_bind. by destruct (c w). Qed.
Lemma result_bind {A B} (c : M A) (k : A -> M B) w :
  result (c ≫= k) w = result (k (result c w)) (final c w).
Proof. unfold result at 1. by rewrite run_bind. Qed.
Lemma final_bind {A B} (c : M A) (k : A -> M B) w :
  final (c ≫= k) w = final (k (result c w)) (final c w).
Proof. unfold final at 1. by rewrite run_bind. Qed.
#[export] Hint Rewrite @result_ret @final_ret @result_bind @final_bind : hat.

(** Loops over a vector, threading the world. *)
Fixpoint iterM {A} (f : A -> M unit) (l : list A) : M unit :=
  match l with
  | [] => mret tt
  | a :: l' => f a;; iterM f l'
  end.
(** Loops that update each element in place. *)
Fixpoint mapM_M {A B} (f : A -> M B) (l : list A) : M (list B) :=
  match l with
  | [] => mret []
  | a :: l' => b ← f a; bs ← mapM_M f l'; mret (b :: bs)
  end.

(** The messages a computation notifies, in order. *)
Definition sent (t : list effect) : list MMessage :=
  omap (fun e => match e with Notified m => Some m | _ => None end) t.
Definition sent_by {A} (c : M A) (w : world) : list MMessage :=
  drop (length (sent (w_trace w))) (sent (w_trace (final c w))).

Lemma sent_app t1 t2 : sent (t1 ++ t2) = sent t1 ++ sent t2.
Proof. apply omap_app. Qed.
#[export] Hint Rewrite sent_app : hat.

Lemma sent_by_trace {A} (c : M A) w t :
  w_trace (final c w) = w_trace w ++ t -> sent_by c w = sent t.
Proof. intros H. unfold sent_by. rewrite H, sent_app. apply drop_app_length. Qed.

(** * Directories and whole-tree operations (minilibs/filemanager.cpp)

    [World] holds the regular files ([w_files]) and the directories ([w_dirs]) under
    their canonical names; [canon] is the resolution of a path name by the operating system,
    which gives two spellings of a path one name.  A directory is listed with
    [opendir] and [readdir]: its entries are the files and directories whose name extends its own by
    one component, in an order the system chooses ([dir_order]).  A call that ends
    the process ([exit]) answers [None]. *)

(** ** Path names, as the operating system resolves them *)
Class PathNames := {
  canon : string -> string;
  dir_order : list (string * bool) -> list (string * bool) }.

(** A name of one component: neither empty, nor "." or "..", nor with a slash. *)
Definition plain (n : string) : Prop := n <> "" /\ n <> "." /\ n <> ".." /\ "/"%char ∉ chars n.
Definition child (d n : string) : string := if d =s "/" then d +:+ n else d +:+ "/" +:+ n.

(** What the code relies on: doubled slashes are one, a component extends the name of
    its directory, and listing a directory omits nothing. *)
Class PathLaws (FS : PathNames) := {
  canon_ne p : canon p <> "";
  canon_slash p : canon (p +:+ "/") = canon p;
  canon_child p n : plain n -> canon (p +:+ "/" +:+ n) = child (canon p) n;
  dir_order_perm l : dir_order l ≡ₚ l }.

(** The resolution of names in a tree without symbolic links, for the witnesses. *)
Module Posix.
Definition resolve (l : list string) : list string :=
  fold_left (fun acc n => if (n =s "") || (n =s ".") then acc
                          else if n =s ".." then removelast acc else acc ++ [n]) l [].
Definition render (l : list string) : string :=
  match l with [] => "/" | _ => sconcat (map (fun n => "/" +:+ n) l) end.
Definition posix_paths : PathNames := {|
  canon := fun p => render (resolve (pieces "/" [] (chars p))); dir_order := fun l => l |}.
End Posix.

(** ** Programs that may end the process *)
Definition bindo {A B} (c : M (option A)) (k : A -> M (option B)) : M (option B) :=
  o ← c; match o with Some a => k a | None => mret None end.
Definition ok {A} (a : A) : M (option A) := mret (Some a).
Definition crash {A} : M (option A) := mret None.
Definition lifto {A} (o : option A) : M (option A) := mret o.
Definition run {A} (c : M A) : M (option A) := a ← c; ok a.
Notation "x ←! c ; k" := (bindo c (fun x => k))
  (at level 20, c at level 100, k at level 200, right associativity) : hat_scope.

Lemma bindo_run {A B} (c : M (option A)) (k : A -> M (option B)) w :
  bindo c k w = match c w with (Some a, w') => k a w' | (None, w') => (None, w') end.
Proof. unfold bindo, mbind, M_bind. by destruct (c w) as [[a|] w']. Qed.
Lemma run_run {A} (c : M A) w : run c w = (Some (result c w), final c w).
Proof. unfold run, mbind, M_bind, result, final. by destruct (c w). Qed.

(** ** The entries of a directory *)
Definition entry_dir (p : string) : string :=
  match FilePath.find_last_of p "/" with
  | Some 0%nat => "/"
  | Some i => take_str i p
  | None => ""
  end.
Definition entry_name (p : string) : string := FilePath.getTail p.
Definition is_entry (d p : string) : bool :=
  (p =s child d (entry_name p)) && (entry_name p <>s "").
Definition entries (d : string) (ps : list string) : list string :=
  map entry_name (List.filter (is_entry d) ps).

Section files.
Context {FS : PathNames}.

(** [readdir] without "." and "..", which every caller skips; the flag is [d_type == DT_DIR]. *)
Definition readdir (dirpath : string) : M (list (string * bool)) := fun w =>
  (dir_order (map (fun n => (n, true)) (entries (canon dirpath) (elements (w_dirs w))) ++
              map (fun n => (n, false)) (entries (canon dirpath) (elements (dom (w_files w))))), w).
Definition opendir (dirpath : string) : M bool := fun w => (bool_decide (canon dirpath ∈ w_dirs w), w).

(** A file is created in an existing directory, under a name that is not a directory. *)
Definition may_create (p : string) (w : world) : bool :=
  bool_decide (entry_dir p ∈ w_dirs w) && negb (bool_decide (p ∈ w_dirs w)) && w_writable w p.
(** [open] for writing, which empties the file; the flag is [is_open()]. *)
Definition open_out (path : string) : M bool := fun w =>
  if may_create (canon path) w
  then (true, set_files (<[canon path := ""]> (w_files w)) w) else (false, w).
(** [open] for appending. *)
Definition open_app (path : string) : M bool := fun w =>
  if may_create (canon path) w
  then (true, set_files (<[canon path := default "" (w_files w !! canon path)]> (w_files w)) w)
  else (false, w).
(** [f << s] on a file that was opened. *)
Definition append (path s : string) : M unit := fun w =>
  (tt, set_files (<[canon path := default "" (w_files w !! canon path) +:+ s]> (w_files w)) w).
Definition contents (path : string) : M (option string) := read_file (canon path).

Definition mkdir (p : string) : M bool := fun w =>
  if may_create (canon p) w && negb (bool_decide (is_Some (w_files w !! canon p)))
  then (true, set_dirs ({[canon p]} ∪ w_dirs w) w) else (false, w).
Definition rmdir (p : string) : M bool := fun w =>
  if bool_decide (canon p ∈ w_dirs w) && bool_decide ((readdir p w).1 = []) && w_writable w (canon p)
  then (true, set_dirs (w_dirs w ∖ {[canon p]}) w) else (false, w).
End files.

Module Dirs.
Section files.
Context {FS : PathNames}.

Definition isFile (filepath : string) : M bool := FM.isFile (canon filepath).
Definition isFile_ext (filepath fileext : string) : M bool :=
  f ← is_file (canon filepath);
  if f : bool then mret (contains fileext filepath)
  else log_info ("[Filemanager::isFile] invalid file: " +:+ filepath);; mret false.
Definition isDir (dirpath : string) : M bool :=
  d ← opendir dirpath;
  if d : bool then mret true
  else log_info ("[Filemanager::isDir] error opening directory: " +:+ dirpath);; mret false.
(** With the flag, a failure ends the process. *)
Definition makeDir (dirpath : string) (perror_flag : bool) : M (option bool) :=
  d ← isDir dirpath;
  if d : bool then ok true
  else m ← mkdir dirpath;
       if m : bool then ok true
       else log_info ("[Filemanager::createDir] error creating dir (mkdir): " +:+ dirpath);;
            if perror_flag then crash else ok false.
Definition deleteFile (filepath filename : string) : M bool :=
  let p := FM.path_of filepath filename in
  f ← isFile p;
  if f : bool then
    u ← unlink (canon p);
    if u : bool then mret true
    else log_info ("[Filemanager::deleteFile] error deleting file: " +:+ filepath);; mret false
  else mret false.

Definition saveFile (fname content : string) : M bool :=
  o ← open_out fname;
  if o : bool then append fname (content +:+ Msg.endl);; mret true
  else log_info (fname +:+ " is not accessible");; mret false.

(** The four loops over [readdir]: counts and lists of the files and of the directories. *)
Definition not_hidden (n : string) : bool := negb (cget n 0 =c ".").
Definition count_entries (what : string) (p : string * bool -> bool) (dirpath : string) : M Z :=
  d ← opendir dirpath;
  if d : bool then es ← readdir dirpath; mret (Z.of_nat (length (List.filter p es)))
  else log_info ("[Filemanager::" +:+ what +:+ "] error opening directory: " +:+ dirpath);; mret (-1).
Definition list_entries (what : string) (p : string * bool -> bool) (dirpath : string)
    (l : list string) : M (Z * list string) :=
  d ← opendir dirpath;
  if d : bool then
    es ← readdir dirpath;
    let found := map fst (List.filter p es) in
    mret (Z.of_nat (length found), l ++ found)
  else log_info ("[Filemanager::" +:+ what +:+ "] error opening directory: " +:+ dirpath);;
       mret (-1, l).
Definition fileCount := count_entries "fileCount" (fun e => negb e.2).
Definition dirCount := count_entries "dirCount" (fun e => e.2).
Definition fileList := list_entries "fileList" (fun e => negb e.2 && not_hidden e.1).
Definition dirList := list_entries "dirList" (fun e => e.2 && not_hidden e.1).

(** The path, passed by reference, is extended with the name. *)
Definition filesize (filepath filename : string) : M (Z * string) :=
  let p := FM.path_of filepath filename in
  f ← isFile p;
  c ← contents p;
  match f, c with
  | true, Some s => mret (Z.of_nat (String.length s), p)
  | _, _ => log_info ("[Filemanager::filesize] invalid file: " +:+ p);; mret (-1, p)
  end.

(** The output is opened, hence emptied, before the size of the input is taken. *)
Definition copyFile (filepath new_filepath new_filename : string) : M bool :=
  let output_filePath := FM.path_of new_filepath new_filename in
  initial ← is_file (canon filepath);
  output ← open_out output_filePath;
  if (initial : bool) && (output : bool) then
    c ← contents filepath; append output_filePath (default "" c);; mret true
  else if negb output then
    log_info ("[Filemanager::copyFile] error copying file (file output problem): " +:+ output_filePath);;
    mret false
  else
    log_info ("[Filemanager::copyFile] error copying file (file input problem): " +:+ filepath);; mret false.
Definition moveFile (filepath new_filepath new_filename : string) : M bool :=
  f ← isFile filepath;
  if f : bool then
    r ← rename (canon filepath) (canon (FM.path_of new_filepath new_filename));
    if r : bool then mret true
    else log_info ("[Filemanager::moveFile] error moving file (rename): " +:+ filepath);; mret false
  else log_info ("[Filemanager::moveFile] error moving file (isFile): " +:+ filepath);; mret false.

(** The common loop of [copyAllFile] and [moveAllFile]: the operation is called with
    the directory where the path of the file is due. *)
Fixpoint all_loop (what verb : string) (op : string -> string -> string -> M bool)
    (dirpath new_dirpath fileext : string) (es : list (string * bool)) : M bool :=
  match es with
  | [] => mret true
  | (filename, true) :: es' => all_loop what verb op dirpath new_dirpath fileext es'
  | (filename, false) :: es' =>
      let complete_filepath := dirpath +:+ "/" +:+ filename in
      let go := r ← op dirpath filename new_dirpath;
                if r : bool then all_loop what verb op dirpath new_dirpath fileext es'
                else log_info ("[Filemanager::" +:+ what +:+ "] error " +:+ verb +:+ " file: " +:+
                               complete_filepath);; mret false in
      if fileext =s "" then go
      else f ← isFile_ext complete_filepath fileext;
           if f : bool then go else all_loop what verb op dirpath new_dirpath fileext es'
  end.
Definition all_files (what verb : string) (op : string -> string -> string -> M bool)
    (dirpath new_dirpath fileext : string) : M bool :=
  d ← opendir dirpath;
  if d : bool then es ← readdir dirpath; all_loop what verb op dirpath new_dirpath fileext es
  else log_info ("[Filemanager::" +:+ what +:+ "] error opening directory: " +:+ dirpath);; mret false.
Definition copyAllFile := all_files "copyAllFile" "copying" copyFile.
Definition moveAllFile := all_files "moveAllFile" "moving" moveFile.

(** The loop of [deleteDir] over the entries, [del] deleting a subdirectory. *)
Fixpoint delete_entries (del : string -> M (option bool)) (dirpath : string)
    (es : list (string * bool)) : M (option bool) :=
  match es with
  | [] => ok true
  | (nm, true) :: es' =>
      let sub := dirpath +:+ "/" +:+ nm in
      r ←! del sub;
      if r : bool then delete_entries del dirpath es'
      else log_info ("[Filemanager::deleteDir] error deleting subdir (FileManager::deleteDir): " +:+ sub);;
           ok false
  | (nm, false) :: es' =>
      r ← deleteFile dirpath nm;
      if r : bool then delete_entries del dirpath es'
      else log_info ("[Filemanager::deleteDir] error deleting file (FileManager::deleteFile): " +:+
                     dirpath +:+ "/" +:+ nm);; ok false
  end.
(** The recursion descends one component per level: [None] without fuel. *)
Fixpoint deleteDir (fuel : nat) (dirpath : string) : M (option bool) :=
  match fuel with
  | O => crash
  | S n =>
      d ← opendir dirpath;
      if d : bool then
        es ← readdir dirpath;
        r ←! delete_entries (deleteDir n) dirpath es;
        if r : bool then
          x ← rmdir dirpath;
          if x : bool then ok true
          else log_info ("[Filemanager::deleteDir] error deleting dir (rmdir): " +:+ dirpath);; ok false
        else ok false
      else log_info ("[Filemanager::deleteDir] error opening dir : " +:+ dirpath);; ok false
  end.
End files.
End Dirs.
