(* ===== verification/XmlPrint.v ===== *)
(** * XML documents written to texts and files (tinyxml/tinyxml.cpp)

    [Print] writes a node to a file, indented by its depth; [TiXmlPrinter] visits a node and appends it to a buffer,
    densely when a node goes to a stream.  A document keeps its children and whether its text began with the byte
    order mark of UTF-8. *)
From S2P Require Import Prelude Doubles Xml TinyFacts MMessage World.

Module TinyPrint.
Import Tiny.

(** ** Nodes *)
Definition has_quote (s : string) : bool := existsb (fun c => c =c DOUBLE_QUOTE) (chars s).
(** [TiXmlAttribute::Print]: single quotes around a value that holds a double one. *)
Definition Attribute_Print (a : string * string) : string :=
  let '(n, v) := a in
  let q := if has_quote v then "'" else String DOUBLE_QUOTE "" in
  EncodeString n +:+ "=" +:+ q +:+ EncodeString v +:+ q.
Definition attributes_text (l : list (string * string)) : string := sconcat (map (fun a => " " +:+ Attribute_Print a) l).
Definition declared_as (name value : string) : string :=
  if value =s "" then "" else name +:+ "=" +:+ quote value +:+ " ".
(** [TiXmlDeclaration::Print] *)
Definition Declaration_Print (v e s : string) : string :=
  "<?xml " +:+ declared_as "version" v +:+ declared_as "encoding" e +:+ declared_as "standalone" s +:+ "?>".
Definition is_text (n : xnode) : bool := match n with XOther TextNode _ | XOther CDataNode _ => true | _ => false end.
Definition spaces_of (depth : nat) : string := sconcat (repeat "    " depth).

(** [Print] to a file, of each kind of node. *)
Definition Text_Print (depth : nat) (cdata : bool) (v : string) : string :=
  if cdata then Msg.endl +:+ spaces_of depth +:+ "<![CDATA[" +:+ v +:+ "]]>" +:+ Msg.endl else EncodeString v.
Definition Comment_Print (depth : nat) (v : string) : string := spaces_of depth +:+ "<!--" +:+ v +:+ "-->".
Definition Unknown_Print (depth : nat) (v : string) : string := spaces_of depth +:+ "<" +:+ v +:+ ">".
Fixpoint Print (depth : nat) (n : xnode) : string :=
  match n with
  | XElement value attrs ch =>
      spaces_of depth +:+ "<" +:+ value +:+ attributes_text attrs +:+
      match ch with
      | [] => " />"
      | [XOther TextNode _ as c] | [XOther CDataNode _ as c] => ">" +:+ Print (S depth) c +:+ "</" +:+ value +:+ ">"
      | _ => ">" +:+ sconcat (map (fun c => (if is_text c then "" else Msg.endl) +:+ Print (S depth) c) ch) +:+
             Msg.endl +:+ spaces_of depth +:+ "</" +:+ value +:+ ">"
      end
  | XOther TextNode v => Text_Print depth false v
  | XOther CDataNode v => Text_Print depth true v
  | XOther CommentNode v => Comment_Print depth v
  | XOther UnknownTag v => Unknown_Print depth v
  | XOther (DeclarationNode v e s) _ => Declaration_Print v e s
  end.

(** ** Class TiXmlPrinter *)
Record printer := mkPrinter { p_depth : nat; simpleTextPrint : bool; p_buffer : string; p_indent : string; lineBreak : string }.
Definition new_printer : printer := mkPrinter 0 false "" "    " Msg.endl.
Definition SetStreamPrinting (p : printer) : printer := mkPrinter (p_depth p) (simpleTextPrint p) (p_buffer p) "" "".
Definition put (s : string) (p : printer) : printer :=
  mkPrinter (p_depth p) (simpleTextPrint p) (p_buffer p +:+ s) (p_indent p) (lineBreak p).
Definition DoIndent (p : printer) : printer := put (sconcat (repeat (p_indent p) (p_depth p))) p.
Definition DoLineBreak (p : printer) : printer := put (lineBreak p) p.
Definition set_simple (b : bool) (p : printer) : printer := mkPrinter (p_depth p) b (p_buffer p) (p_indent p) (lineBreak p).
Definition set_depth (d : nat) (p : printer) : printer := mkPrinter d (simpleTextPrint p) (p_buffer p) (p_indent p) (lineBreak p).
Definition VisitEnter (value : string) (attrs : list (string * string)) (ch : list xnode) (p : printer) : printer :=
  let p := put (attributes_text attrs) (put value (put "<" (DoIndent p))) in
  let p := match ch with
           | [] => DoLineBreak (put " />" p)
           | [XOther TextNode _] => set_simple true (put ">" p)
           | _ => DoLineBreak (put ">" p)
           end in
  set_depth (S (p_depth p)) p.
Definition VisitExit (value : string) (ch : list xnode) (p : printer) : printer :=
  let p := set_depth (pred (p_depth p)) p in
  match ch with
  | [] => p
  | _ => let p := if simpleTextPrint p then set_simple false p else DoIndent p in
         DoLineBreak (put ">" (put value (put "</" p)))
  end.
Definition Visit (k : leaf) (v : string) (p : printer) : printer :=
  match k with
  | CDataNode => DoLineBreak (put ("<![CDATA[" +:+ v +:+ "]]>") (DoIndent p))
  | TextNode => if simpleTextPrint p then put (EncodeString v) p else DoLineBreak (put (EncodeString v) (DoIndent p))
  | DeclarationNode v e s => DoLineBreak (put (Declaration_Print v e s) (DoIndent p))
  | CommentNode => DoLineBreak (put ("<!--" +:+ v +:+ "-->") (DoIndent p))
  | UnknownTag => DoLineBreak (put ("<" +:+ v +:+ ">") (DoIndent p))
  end.
(** [Accept]: no visit of the printer stops the walk. *)
Fixpoint Accept (n : xnode) (p : printer) : printer :=
  match n with
  | XElement value attrs ch =>
      VisitExit value ch (fold_left (fun p c => Accept c p) ch (VisitEnter value attrs ch p))
  | XOther k v => Visit k v p
  end.
(** [out << node] *)
Definition to_stream (n : xnode) : string := p_buffer (Accept n (SetStreamPrinting new_printer)).

(** ** Documents *)
Record Document := mkDocument { doc_nodes : list xnode; useMicrosoftBOM : bool }.
(** What [LoadFile] keeps of a text: its nodes, and the mark only while the encoding is not known. *)
Definition has_mark (text : string) : bool :=
  match chars text with
  | a :: b :: c :: _ => (code a =? 239)%nat && (code b =? 187)%nat && (code c =? 191)%nat
  | _ => false
  end.
Definition loaded {XP : XmlParser} (text : string) : Document := mkDocument (load_document text) (has_mark text).
Definition mark : string := of_chars [ascii_of_nat 239; ascii_of_nat 187; ascii_of_nat 191].
(** [TiXmlDocument::Print] *)
Definition document_Print (l : list xnode) : string := sconcat (map (fun n => Print 0 n +:+ Msg.endl) l).
Definition document_stream (d : Document) : string :=
  p_buffer (fold_left (fun p n => Accept n p) (doc_nodes d) (SetStreamPrinting new_printer)).
Definition saved_text (d : Document) : string :=
  (if useMicrosoftBOM d then mark else "") +:+ document_Print (doc_nodes d).
(** [SaveFile]: false when the file cannot be opened. *)
Definition SaveFile (d : Document) (filename : string) : M bool := write_file filename (saved_text d).
End TinyPrint.

(** ** What is printed is read back *)

(** Trees of elements whose names need no encoding and whose values are printed so that they read back: groups of UTF-8
    bytes without a hexadecimal reference. *)
Definition hex_start (l : list ascii) : bool := Tiny.StringEqual l "&#x".
Fixpoint printable (k : nat) (l : list ascii) : bool :=
  match l with
  | [] => (k =? 0)%nat
  | c :: l' =>
      negb (Tiny.code c =? 0)%nat &&
      match k with
      | S k => (128 <=? Tiny.code c)%nat && printable k l'
      | O => negb (hex_start l) && printable (Tiny.utf8ByteTable c - 1) l'
      end
  end.
Definition attribute_ok (a : string * string) : bool := plain_name a.1 && printable 0 (chars a.2).
Fixpoint good (n : xnode) : bool :=
  match n with
  | XElement v attrs ch =>
      plain_name v && forallb attribute_ok attrs && bool_decide (NoDup attrs.*1) && forallb good ch
  | XOther _ _ => false
  end.

Module PrintFacts.
Import Tiny TinyPrint.
Definition no_cr (l : list ascii) : bool := forallb (fun c => negb (c =c CR)) l.
Lemma no_cr_app a b : no_cr (a ++ b) = no_cr a && no_cr b.
Proof. apply forallb_app. Qed.
Lemma no_cr_spec l : no_cr l = true -> CR ∉ l.
Proof. intros H Hc. apply list_elem_of_In in Hc. by apply (proj1 (forallb_forall _ l) H) in Hc. Qed.

(** *** Values *)
Lemma encode_step c l : hex_start (c :: l) = false -> encode false (c :: l) = encode_char c ++ encode false l.
Proof.
  intros H. cbn [encode andb orb]. replace ((c =c "&") && _) with false; [done|]. symmetry. apply not_true_iff_false.
  intros [Hc Hl]%andb_true_iff. destruct l as [|a [|b l]]; [done..|]. apply andb_true_iff in Hl as [Ha Hb].
  unfold hex_start, StringEqual in H. cbn in H. unfold ceqb in *. rewrite Hc, Ha, Hb in H. by rewrite bool_decide_eq_true_2 in H.
Qed.
Lemma high_start c l : (128 <=? code c)%nat = true -> hex_start (c :: l) = false.
Proof.
  intros Hc. unfold hex_start, StringEqual. cbn. replace (ceqb c "&") with false; [by apply bool_decide_eq_false_2; intros []%is_Some_None|].
  by destruct c as [[] [] [] [] [] [] [] []].
Qed.
Lemma high_char c : (128 <=? code c)%nat = true -> encode_char c = [c] /\ (c =c CR) = false.
Proof. destruct c as [[] [] [] [] [] [] [] []]; vm_compute; try discriminate; by split. Qed.
Lemma encode_tail k l : printable k l = true -> exists a b, l = a ++ b /\ length a = k /\ printable 0 b = true /\
  encode false l = a ++ encode false b /\ no_nul a = true /\ no_cr a = true.
Proof.
  revert l. induction k as [|k IH]; intros l H; [by exists [], l|]. destruct l as [|c l]; [done|]. cbn [printable] in H.
  apply andb_true_iff in H as [Hz [Hc H]%andb_true_iff]. destruct (IH l H) as (a & b & -> & Ha & Hb & He & Hn & Hr).
  exists (c :: a), b. destruct (high_char c Hc) as [Ec Hcr]. rewrite encode_step by (by apply high_start). rewrite Ec, He.
  unfold no_nul, no_cr in *. cbn. rewrite Hz, Hn, Hcr, Hr. split_and!; [done|lia|done..].
Qed.
(** A byte is written as an entity, as a number, or as itself. *)
Lemma char_cases c :
  (exists s, (s, c) ∈ entity /\ encode_char c = chars s /\ utf8ByteTable c = 1%nat) \/
  ((code c <? 32)%nat = true /\ encode_char c = hex_reference c /\ utf8ByteTable c = 1%nat) \/
  (encode_char c = [c] /\ (c =c "&") = false /\ (c =c DOUBLE_QUOTE) = false /\ (c =c SINGLE_QUOTE) = false /\ (c =c CR) = false).
Proof.
  unfold encode_char. destruct (find_entity entity c) as [s|] eqn:E.
  - left. exists s. cbn in E. repeat case_match; simplify_eq; (split; [|split; [done|]]);
      match goal with H : (c =c _) = true |- _ => apply Ascii.eqb_eq in H as -> end; try done; set_solver.
  - right. destruct (code c <? 32)%nat eqn:L.
    + left. split_and!; [done..|]. by destruct c as [[] [] [] [] [] [] [] []].
    + right. cbn in E. repeat case_match; try done. split_and!; try done. by destruct c as [[] [] [] [] [] [] [] []].
Qed.
Lemma entity_no_cr s c : (s, c) ∈ entity -> no_cr (chars s) = true.
Proof. unfold entity. rewrite !elem_of_cons, elem_of_nil. intros Hs. by destruct_or! Hs; injection Hs as -> ->. Qed.
Lemma number_no_cr c : (code c <? 32)%nat = true -> no_cr (hex_reference c) = true.
Proof. by destruct c as [[] [] [] [] [] [] [] []]; vm_compute. Qed.
Lemma printed_value q n l :
  a_quote q -> (length l < n)%nat -> printable 0 l = true -> value_text q l (encode false l) /\ no_cr (encode false l) = true.
Proof.
  intros Hq. revert l. induction n as [|n IH]; intros [|c l] Hn H; [lia..|by split; [constructor|]|]. cbn [printable length] in *.
  apply andb_true_iff in H as [Hz [Hh H]%andb_true_iff]. apply negb_true_iff in Hh, Hz. rewrite encode_step by done.
  destruct (encode_tail _ _ H) as (a & b & -> & Ha & Hb & -> & Hna & Hra). rewrite length_app in Hn.
  destruct (IH b) as [Hv Hr]; [lia|done|]. rewrite !no_cr_app, Hra, Hr.
  destruct (char_cases c) as [(s & Hs & -> & Ht)|[(Hc & -> & Ht)|(-> & Hm & Hd & Hsq & Hcr)]].
  - rewrite Ht in Ha. destruct a; [|done]. rewrite (entity_no_cr s c) by done. by split; [apply value_entity|].
  - rewrite Ht in Ha. destruct a; [|done]. rewrite number_no_cr by done. by split; [apply value_number|].
  - split; [|unfold no_cr; cbn; by rewrite Hcr]. cbn [app]. apply value_group; [by destruct Hq as [->| ->]|done| |done|done].
    unfold no_nul in *. cbn. by rewrite Hz, Hna.
Qed.
Lemma name_char_stays c : name_char c = true -> encode_char c = [c] /\ (c =c "&") = false /\ (c =c CR) = false.
Proof. destruct c as [[] [] [] [] [] [] [] []]; vm_compute; try discriminate; (intros _; by split_and!). Qed.
Lemma name_stays n : plain_name n = true -> EncodeString n = n /\ no_cr (chars n) = true.
Proof.
  intros (c & l & E & _ & H)%name_parts. rewrite <- E in H. unfold EncodeString. rewrite <- (of_chars_chars n) at 2.
  revert H. generalize (chars n). clear. induction l as [|c l IH]; [done|]. cbn [forallb]. intros [Hc [E Hr]%IH]%andb_true_iff.
  destruct (name_char_stays c Hc) as (Ec & Hm & Hcr). cbn [encode andb orb]. rewrite Hm. cbn [andb]. rewrite Ec. cbn. rewrite Hcr.
  split; [by rewrite E|done].
Qed.
(** *** Attributes and trees *)
Lemma printed_attribute a : attribute_ok a = true -> exists q tv,
  a_quote q /\ value_text q (chars a.2) tv /\ no_cr (chars (Attribute_Print a)) = true /\
  chars (Attribute_Print a) = chars a.1 ++ "="%char :: q :: tv ++ [q].
Proof.
  destruct a as [n v]. intros [Hn Hv]%andb_true_iff. cbn [fst snd] in *. destruct (name_stays n Hn) as [En Hr].
  assert (exists q, a_quote q /\ (if has_quote v then "'" else String DOUBLE_QUOTE "") = String q "") as (q & Hq & Eq)
    by (destruct (has_quote v); [exists SINGLE_QUOTE|exists DOUBLE_QUOTE]; split; [by right|done|by left|done]).
  destruct (printed_value q (S (length (chars v))) (chars v) Hq) as [Ht Hr']; [lia|done|].
  exists q, (encode false (chars v)). unfold Attribute_Print. rewrite Eq, En. unfold EncodeString.
  rewrite !chars_app, chars_of_chars. split_and!; [done..| |done]. rewrite !no_cr_app, Hr, Hr'. by destruct Hq as [->| ->].
Qed.
Lemma printed_attributes l : forallb attribute_ok l = true -> NoDup l.*1 ->
  attrs_text l (chars (attributes_text l)) /\ no_cr (chars (attributes_text l)) = true.
Proof.
  unfold attributes_text. induction l as [|[n v] l IH]; [by split; [constructor|]|]. cbn [forallb map]. intros [Ha Hl]%andb_true_iff Hd.
  rewrite fmap_cons in Hd. apply NoDup_cons in Hd as [Hn Hd]. destruct (IH Hl Hd) as [Ht Hr].
  destruct (printed_attribute _ Ha) as (q & tv & Hq & Hv & Hc & E). cbn [sconcat]. rewrite !chars_app.
  split; [|by rewrite !no_cr_app, Hc, Hr]. rewrite E. apply andb_true_iff in Ha as [Hp _]. cbn [fst snd] in *.
  change (chars " ") with [" "%char]. rewrite <- !app_assoc. cbn [app]. rewrite <- !app_assoc. cbn [app].
  by apply (attrs_value q [" "%char]).
Qed.
(** Induction over the children of a node. *)
Lemma tree_ind (P : xnode -> Prop) :
  (forall v l ch, Forall P ch -> P (XElement v l ch)) -> (forall k v, P (XOther k v)) -> forall n, P n.
Proof.
  intros HE HO. fix go 1. intros [v l ch|k v]; [|apply HO]. apply HE. induction ch as [|c ch IH]; constructor; [apply go|exact IH].
Qed.
Lemma good_children ch : forallb good ch = true -> forall c, c ∈ ch -> good c = true /\ is_text c = false.
Proof.
  intros H c Hc. apply list_elem_of_In in Hc. pose proof (proj1 (forallb_forall _ ch) H c Hc) as Hg. by destruct c.
Qed.
Lemma spaces_spaces d : spaces (chars (spaces_of d)) = true /\ no_cr (chars (spaces_of d)) = true.
Proof.
  induction d as [|d [IH1 IH2]]; [done|]. change (spaces_of (S d)) with ("    " +:+ spaces_of d). rewrite chars_app.
  unfold spaces in *. by rewrite forallb_app, no_cr_app, IH1, IH2.
Qed.
(** What [Print] writes after the indentation of an element with children. *)
Definition inner (d : nat) (ch : list xnode) : string :=
  sconcat (map (fun c => Msg.endl +:+ Print (S d) c) ch) +:+ Msg.endl +:+ spaces_of d.
Lemma print_open d v l c ch : good (XElement v l (c :: ch)) = true ->
  Print d (XElement v l (c :: ch)) = spaces_of d +:+ "<" +:+ v +:+ attributes_text l +:+ ">" +:+ inner d (c :: ch) +:+ "</" +:+ v +:+ ">".
Proof.
  cbn [good]. intros [_ Hg]%andb_true_iff. pose proof (good_children _ Hg) as Hc.
  assert (map (fun c => (if is_text c then "" else Msg.endl) +:+ Print (S d) c) (c :: ch) =
          map (fun c => Msg.endl +:+ Print (S d) c) (c :: ch)) as E.
  { apply map_ext_in. intros x Hx. apply list_elem_of_In in Hx. by rewrite (proj2 (Hc x Hx)). }
  unfold inner. rewrite <- E. destruct c as [v' l' ch'|k w]; [|by destruct (Hc (XOther k w)); [left|]].
  cbn [Print]. rewrite !sapp_assoc. by destruct ch.
Qed.
Lemma good_parts v l ch : good (XElement v l ch) = true ->
  plain_name v = true /\ attrs_text l (chars (attributes_text l)) /\ no_cr (chars v) = true /\
  no_cr (chars (attributes_text l)) = true /\ forallb good ch = true.
Proof.
  cbn [good]. intros [[[Hv Hl]%andb_true_iff Hd]%andb_true_iff Hg]%andb_true_iff. apply bool_decide_eq_true in Hd.
  destruct (printed_attributes l Hl Hd) as [Ht Hr]. destruct (name_stays v Hv) as [_ Hn]. by split_and!.
Qed.
Definition printed (x : xnode) : Prop := good x = true -> forall d, exists s,
  chars (Print d x) = chars (spaces_of d) ++ s /\ node_text x s /\ no_cr s = true.
Lemma printed_inner d ch : Forall printed ch -> forallb good ch = true ->
  nodes_text ch (chars (inner d ch)) /\ no_cr (chars (inner d ch)) = true.
Proof.
  destruct (spaces_spaces d) as [Hs Hr]. induction 1 as [|c ch Hc Hch IH].
  - intros _. unfold inner. cbn [map sconcat]. rewrite !chars_app. cbn [chars app]. rewrite !no_cr_app, Hr. split; [|done].
    apply nodes_none. unfold spaces in *. by rewrite forallb_app, Hs.
  - cbn [forallb]. intros [Hg Hgs]%andb_true_iff. destruct (IH Hgs) as [Ht Hr']. destruct (Hc Hg (S d)) as (s & E & Hx & Hrs).
    destruct (spaces_spaces (S d)) as [Hs1 Hr1].
    replace (inner d (c :: ch)) with (Msg.endl +:+ Print (S d) c +:+ inner d ch) by (unfold inner; cbn [map sconcat]; by rewrite !sapp_assoc).
    rewrite !chars_app, E, <- app_assoc, app_assoc, !no_cr_app, Hr1, Hrs, Hr'. split; [|done].
    apply nodes_more; [|done..]. unfold spaces in *. by rewrite forallb_app, Hs1.
Qed.
Lemma printed_trees x : printed x.
Proof.
  induction x as [v l ch IH|k v] using tree_ind; [|done]. intros Hg d. pose proof (good_parts v l ch Hg) as (Hv & Ht & Hr & Hra & Hch).
  destruct ch as [|c ch].
  - exists ("<"%char :: chars v ++ chars (attributes_text l) ++ [" "%char] ++ ["/"; ">"]%char). cbn [Print]. rewrite !chars_app.
    split_and!; [done|by apply node_closed|]. unfold no_cr in *. cbn. rewrite !forallb_app, Hr, Hra. done.
  - destruct (printed_inner d (c :: ch) IH Hch) as [Hi Hri]. rewrite print_open by done.
    exists ("<"%char :: chars v ++ chars (attributes_text l) ++ [] ++ ">"%char :: chars (inner d (c :: ch)) ++ chars "</" ++ chars v ++ [">"%char]).
    rewrite !chars_app. split_and!; [done|by apply node_open|]. unfold no_cr in *. cbn -[inner].
    rewrite !forallb_app, Hr, Hra. cbn -[inner]. rewrite !forallb_app, Hri. cbn. by rewrite forallb_app, Hr.
Qed.

(** *** The dense form *)
Fixpoint dense (n : xnode) : string :=
  match n with
  | XElement v l [] => "<" +:+ v +:+ attributes_text l +:+ " />"
  | XElement v l ch => "<" +:+ v +:+ attributes_text l +:+ ">" +:+ sconcat (map dense ch) +:+ "</" +:+ v +:+ ">"
  | XOther _ _ => ""
  end.
Definition streaming (p : printer) : Prop := p_indent p = "" /\ lineBreak p = "" /\ simpleTextPrint p = false.
Lemma put_nil p : put "" p = p.
Proof. destruct p. unfold put. cbn. by rewrite sapp_nil_r. Qed.
Lemma put_put a b p : put b (put a p) = put (a +:+ b) p.
Proof. unfold put. cbn. by rewrite sapp_assoc. Qed.
Lemma stream_indent p : streaming p -> DoIndent p = p /\ DoLineBreak p = p.
Proof.
  intros (Hi & Hl & _). unfold DoIndent, DoLineBreak. rewrite Hi, Hl, put_nil. split; [|done].
  replace (sconcat (repeat "" (p_depth p))) with "" by (induction (p_depth p); [done|by cbn]). apply put_nil.
Qed.
Lemma stream_exit v c ch s t p : streaming p ->
  VisitExit v (c :: ch) (put s (set_depth (S (p_depth p)) (put t p))) = put (t +:+ s +:+ "</" +:+ v +:+ ">") p.
Proof.
  intros Hp. assert (streaming (put (t +:+ s) p)) as Hq by exact Hp. unfold VisitExit.
  replace (set_depth _ (put s _)) with (put (t +:+ s) p) by (destruct p; unfold put, set_depth; cbn; by rewrite sapp_assoc).
  destruct (stream_indent _ Hq) as [-> _]. destruct Hq as (_ & _ & ->). rewrite !put_put.
  rewrite (proj2 (stream_indent (put _ p) Hp)). by rewrite !sapp_assoc.
Qed.
Definition densely (x : xnode) : Prop := good x = true -> forall p, streaming p -> Accept x p = put (dense x) p.
Lemma dense_children ch p : Forall densely ch -> forallb good ch = true -> streaming p ->
  fold_left (fun p c => Accept c p) ch p = put (sconcat (map dense ch)) p.
Proof.
  intros H. revert p. induction H as [|c ch Hc Hch IH]; intros p Hg Hp; [by rewrite put_nil|]. cbn [forallb fold_left map sconcat] in *.
  apply andb_true_iff in Hg as [Hg Hgs]. rewrite Hc by done. rewrite IH by done. by rewrite put_put.
Qed.
Lemma dense_trees x : densely x.
Proof.
  induction x as [v l ch IH|k v] using tree_ind; [|done]. intros Hg p Hp. pose proof (good_parts v l ch Hg) as (_ & _ & _ & _ & Hch).
  assert (forall s d q, streaming q -> streaming (set_depth d (put s q))) as Hq by (intros s d q Hq; exact Hq).
  destruct (stream_indent p Hp) as [Ei El]. cbn [Accept]. unfold VisitEnter. rewrite Ei. destruct ch as [|c ch].
  - cbn [fold_left]. rewrite !put_put. rewrite (proj2 (stream_indent (put _ p) Hp)). unfold VisitExit. cbn [dense].
    by destruct p.
  - rewrite !put_put. replace (match c with XOther TextNode _ => _ | _ => _ end) with (put ("<" +:+ v +:+ attributes_text l +:+ ">") p).
    2: { destruct c as [v' l' ch'|k w]; [|by cbn in Hch]. by rewrite (proj2 (stream_indent (put _ p) Hp)). }
    rewrite dense_children; [|done..|by apply Hq].
    change (p_depth (put ("<" +:+ v +:+ attributes_text l +:+ ">") p)) with (p_depth p). rewrite stream_exit by done.
    f_equal. cbn [dense]. by rewrite !sapp_assoc.
Qed.
Lemma dense_nodes ch : Forall (fun c => node_text c (chars (dense c)) /\ no_cr (chars (dense c)) = true) ch ->
  nodes_text ch (chars (sconcat (map dense ch))) /\ no_cr (chars (sconcat (map dense ch))) = true.
Proof.
  induction 1 as [|c ch [Hc Hr] Hch [IH Hr']]; [by split; [constructor|]|]. cbn [map sconcat]. rewrite chars_app, no_cr_app, Hr, Hr'.
  split; [|done]. by apply (nodes_more []).
Qed.
Lemma dense_text x : good x = true -> node_text x (chars (dense x)) /\ no_cr (chars (dense x)) = true.
Proof.
  induction x as [v l ch IH|k v] using tree_ind; [|done]. intros Hg. pose proof (good_parts v l ch Hg) as (Hv & Ht & Hr & Hra & Hch).
  destruct ch as [|c ch].
  - cbn [dense]. rewrite !chars_app. split; [by apply (node_closed v l _ [" "%char])|].
    unfold no_cr in *. by rewrite !forallb_app, Hr, Hra.
  - destruct (dense_nodes (c :: ch)) as [Hi Hri].
    { apply list.Forall_forall. intros y Hy. eapply list.Forall_forall in IH; [|done]. by apply IH, (good_children (c :: ch)). }
    cbn [dense]. rewrite !chars_app. split; [by apply (node_open v l _ [])|].
    unfold no_cr in *. by rewrite !forallb_app, Hr, Hra, Hri.
Qed.

(** *** Documents *)
Definition plain_document (d : Document) (x : xnode) : Prop := d = mkDocument [xml_declaration; x] false /\ good x = true.
Lemma saved_document d x : plain_document d x -> exists s,
  node_text x s /\ no_cr s = true /\ saved_text d = header +:+ of_chars (chars Msg.endl ++ s ++ chars Msg.endl).
Proof.
  intros [-> Hg]. destruct (printed_trees x Hg 0%nat) as (s & E & Hx & Hr). exists s. split_and!; [done..|].
  rewrite <- (of_chars_chars (saved_text _)), <- (of_chars_chars (header +:+ _)). f_equal. unfold saved_text. cbn [useMicrosoftBOM doc_nodes map sconcat document_Print]. unfold document_Print. cbn [map sconcat].
  rewrite !chars_app, E, chars_of_chars. change (chars "") with (@nil ascii).
  change (chars (spaces_of 0)) with (@nil ascii). change (chars (Print 0 xml_declaration)) with (chars header).
  cbn [app]. by rewrite app_nil_r, <- app_assoc.
Qed.
(** A document of elements that is saved is loaded again as it was. *)
Lemma saved_loads d x : plain_document d x -> LoadFile (saved_text d) = Ran (doc_nodes d) false.
Proof.
  intros H. pose proof H as [-> _]. destruct (saved_document _ x H) as (s & Hx & Hr & ->).
  apply document_loads; [by apply document_of|]. apply no_cr_spec. by rewrite chars_app, chars_of_chars, !no_cr_app, Hr.
Qed.
(** What a node writes to a stream, after a declaration, is parsed as that node. *)
Lemma streamed_parses x : good x = true -> Parse (header +:+ to_stream x) = Ran [xml_declaration; x] false.
Proof.
  intros Hg. unfold to_stream. rewrite (dense_trees x Hg) by done. apply document_parses.
  change (p_buffer (put (dense x) _)) with (dense x). destruct (dense_text x Hg) as [Hx _].
  rewrite <- (of_chars_chars (dense x)), <- (app_nil_r (chars (dense x))). by apply (document_of _ []).
Qed.
End PrintFacts.
