(* ===== verification/MParams.v ===== *)
(** * Attributes and parameter sets (minilibs/Mattribute.cpp, template.h, agentlib.h)

    [MParams] is a vector of attributes (name, category, value) with the path of
    its configuration file ([path]) and of its saved copy ([pathh]).  The
    constructor also creates the home directory, which the callers that need it model.
    Lookups return the first attribute that matches with a non-empty value; [set] and
    [add] update the first attribute that matches. *)
From S2P Require Import Prelude Doubles Hsrv Xml MMessage World.

Record MAttribute := mkAttr { aname : string; category : string; avalue : string }.

#[export] Instance MAttribute_eq_dec : EqDecision MAttribute.
Proof. solve_decision. Defined.

Module Attr.
Definition mk2 (a b : string) : MAttribute := mkAttr a "generic" b.
Definition mk1 (a : string) : MAttribute := mkAttr a "generic" "ON".
Definition member (a : MAttribute) (n : string) : bool :=
  (n =s aname a) && ((avalue a =s "ON") || (avalue a =s "true")).
Definition xmlEncode (a : MAttribute) (md : Z) : string :=
  (if 0 <? md then Msg.xml_header else "") +:+
  "<attribute name=" +:+ quote (aname a) +:+ " category=" +:+ quote (category a) +:+
  " value=" +:+ quote (avalue a) +:+ "/>".
(** [xmlDecode(TiXmlNode)]: untouched (empty) on a node that is not an element. *)
Definition xmlDecode_node (self : MAttribute) (desc : xptr) : bool * MAttribute :=
  match desc with
  | (XElement _ _ _ as n) :: _ =>
      let c := getAttrbyName [n] "category" in
      (true, mkAttr (getAttrbyName [n] "name") (if c =s "*" then "generic" else c)
                    (getAttrbyName [n] "value"))
  | _ => (false, self)
  end.
Definition of_node (n : xnode) : MAttribute := (xmlDecode_node (mkAttr "" "" "") [n]).2.
(** The element [xmlEncode] writes. *)
Definition node_of (a : MAttribute) : xnode :=
  XElement "attribute" [("name", aname a); ("category", category a); ("value", avalue a)] [].
End Attr.

Record MParams := mkParams { ty : string; path : string; pathh : string; attrs : list MAttribute }.

Module Params.
Implicit Types (p : MParams).

Definition set_attrs p (l : list MAttribute) : MParams := mkParams (ty p) (path p) (pathh p) l.

Section paths.
Context {C : Config}.
Definition mk1 (name : string) : MParams :=
  mkParams name (configdir +:+ "/" +:+ name +:+ ".xml") (homedir +:+ "/" +:+ name +:+ ".xml") [].
Definition mk2 (dir name : string) : MParams :=
  mkParams name (configdir +:+ "/" +:+ dir +:+ "/" +:+ name +:+ ".xml")
                (homedir +:+ "/" +:+ dir +:+ "/" +:+ name +:+ ".xml") [].
End paths.

(** [for(i...; r == ""; i++) if(match) r = value;] *)
Fixpoint get_loop (q : MAttribute -> bool) (l : list MAttribute) : string :=
  match l with
  | [] => ""
  | a :: l' => if q a && (avalue a <>s "") then avalue a else get_loop q l'
  end.
Definition is_named (name cat : string) (a : MAttribute) : bool :=
  (aname a =s name) && (category a =s cat).
Definition get_cat p (name cat : string) : string := get_loop (is_named name cat) (attrs p).
Definition get p (name : string) : string := get_cat p name "generic".
Fixpoint categoryof_loop (name : string) (l : list MAttribute) : string :=
  match l with
  | [] => ""
  | a :: l' => if (aname a =s name) && (category a <>s "") then category a else categoryof_loop name l'
  end.
Definition categoryof p (name : string) : string := categoryof_loop name (attrs p).

Definition set_value (v : string) (a : MAttribute) : MAttribute := mkAttr (aname a) (category a) v.
Definition has p (name cat : string) : bool := existsb (is_named name cat) (attrs p).
Definition set_cat p (name cat value : string) : Z * MParams :=
  (if has p name cat then 1 else 0,
   set_attrs p (update_first (is_named name cat) (set_value value) (attrs p))).
Definition set p (name value : string) : Z * MParams := set_cat p name "generic" value.
Definition add_cat p (name cat value : string) : MParams :=
  if has p name cat then (set_cat p name cat value).2
  else set_attrs p (attrs p ++ [mkAttr name cat value]).
Definition add p (name value : string) : MParams := add_cat p name "generic" value.
(** Both overloads ignore the category. *)
Definition checkValue p (value : string) : bool := existsb (fun a => avalue a =s value) (attrs p).
Definition extractNamed p (name : string) : list MAttribute :=
  List.filter (fun a => aname a =s name) (attrs p).
Definition extractCategory p (cat : string) : list MAttribute :=
  List.filter (fun a => category a =s cat) (attrs p).
Definition member p (n : string) : bool := existsb (fun a => Attr.member a n) (attrs p).

(** [setof<MAttribute>::xmlEncode] and [xmlDecode] *)
Definition xmlEncode p (md : Z) : string :=
  (if 0 <? md then Msg.xml_header else "") +:+
  (if ty p =s "" then "<set>" else "<set type=" +:+ quote (ty p) +:+ ">") +:+
  sconcat (map (fun a => Attr.xmlEncode a 0) (attrs p)) +:+ "</set>".
Definition xmlDecode_node p (desc : xptr) : Z * MParams :=
  match desc with
  | [] => (0, p)
  | n :: _ => (1, mkParams (child_attr n "type") (path p) (pathh p) (map Attr.of_node (children n)))
  end.
Definition node_of p : xnode :=
  XElement "set" (if ty p =s "" then [] else [("type", ty p)]) (map Attr.node_of (attrs p)).

Section files.
Context {XP : XmlParser}.
(** [setof::xmlDecode(string)]: the same null dereference as in [xmlLoad]. *)
Definition xmlDecode p (xmldesc : string) : option (Z * MParams) :=
  xmlDecode_node p <$> NextSibling (parse_document xmldesc).
(** [doc->FirstChild()->NextSibling()] of an empty document is a null dereference. *)
Definition xmlLoad p (name : string) : M (option (Z * MParams)) :=
  f ← isfile_type name "xml";
  if f : bool then
    c ← read_file name;
    let s := default "" c in
    if parse_ok s then mret (xmlDecode_node p <$> NextSibling (load_document s))
    else mret (Some (0, p))
  else mret (Some (0, p)).
Definition load p : M (option (Z * MParams)) :=
  f ← is_file (pathh p);
  if f : bool then xmlLoad p (pathh p) else xmlLoad p (path p).
Definition xmlSave p (name : string) : M bool := write_file name (xmlEncode p 1 +:+ Msg.endl).
Definition save p : M bool := xmlSave p (pathh p).
Definition config p : M bool := xmlSave p (path p).
Definition remove p : M Z :=
  FM.deleteFile (path p) "";; FM.deleteFile (pathh p) "";; mret 1.
(** [MParams::update(MMessage&)]: every attribute the message names, then [save]. *)
Fixpoint update_loop (m : MMessage) (l : list MAttribute) : Z * list MAttribute :=
  match l with
  | [] => (0, [])
  | a :: l' =>
      let '(n, r) := update_loop m l' in
      if Msg.getString m (aname a) <>s "" then (n + 1, set_value (Msg.getString m (aname a)) a :: r)
      else (n, a :: r)
  end.
Definition update p (m : MMessage) : M (Z * MParams) :=
  let '(n, l) := update_loop m (attrs p) in
  save (set_attrs p l);; mret (n, set_attrs p l).
End files.

(** ** Lemmas *)

Lemma is_named_true n c a : is_named n c a = true <-> aname a = n /\ category a = c.
Proof. unfold is_named. by rewrite andb_true_iff, !seqb_true. Qed.

(** Writing through [q]-matching attributes does not change what another name reads. *)
Lemma get_loop_update_ne q q' v l :
  (forall a, q a = true -> q' a = false) -> (forall a, q' (set_value v a) = q' a) ->
  get_loop q' (update_first q (set_value v) l) = get_loop q' l.
Proof.
  intros Hd He. induction l as [|a l IH]; simpl; [done|].
  destruct (q a) eqn:E; simpl; [|by rewrite IH].
  by rewrite He, (Hd a E).
Qed.
Lemma get_loop_update_eq q v l :
  (forall a, q (set_value v a) = q a) -> v <> "" -> existsb q l = true ->
  get_loop q (update_first q (set_value v) l) = v.
Proof.
  intros He Hv Hex. induction l as [|a l IH]; simpl in *; [done|].
  destruct (q a) eqn:E; simpl.
  - by rewrite He, E, seqb_ne.
  - rewrite E. simpl. by apply IH.
Qed.
Lemma get_loop_app_new q a l :
  existsb q l = false -> q a = true -> get_loop q (l ++ [a]) = avalue a.
Proof.
  intros Hl Ha. induction l as [|b l IH]; simpl in *.
  - rewrite Ha. simpl. destruct (avalue a =s "") eqn:E; simpl; [|done].
    by apply seqb_true in E.
  - apply orb_false_iff in Hl as [-> Hl]. simpl. by apply IH.
Qed.
Lemma get_loop_app_other q a l : q a = false -> get_loop q (l ++ [a]) = get_loop q l.
Proof. intros Ha. induction l as [|b l IH]; simpl; [by rewrite Ha|]. by rewrite IH. Qed.

Lemma is_named_set_value n c v a : is_named n c (set_value v a) = is_named n c a.
Proof. done. Qed.
Lemma is_named_disjoint n c n' c' a :
  (n, c) <> (n', c') -> is_named n c a = true -> is_named n' c' a = false.
Proof.
  intros Hne [Hn Hc]%is_named_true. apply not_true_iff_false. rewrite is_named_true.
  naive_solver.
Qed.

Lemma get_cat_add_eq p n c v : v <> "" -> get_cat (add_cat p n c v) n c = v.
Proof.
  intros Hv. unfold get_cat, add_cat. destruct (has p n c) eqn:E; simpl.
  - apply get_loop_update_eq; auto.
  - rewrite get_loop_app_new; [done|done|]. by apply is_named_true.
Qed.
Lemma get_cat_add_ne p n c v n' c' :
  (n, c) <> (n', c') -> get_cat (add_cat p n c v) n' c' = get_cat p n' c'.
Proof.
  intros Hne. unfold get_cat, add_cat. destruct (has p n c) eqn:E; simpl.
  - apply get_loop_update_ne; [|done]. intros a. by apply is_named_disjoint.
  - apply get_loop_app_other. eapply is_named_disjoint; [done|]. by apply is_named_true.
Qed.
Lemma get_add_eq p n v : v <> "" -> get (add p n v) n = v.
Proof. apply get_cat_add_eq. Qed.
Lemma get_add_ne p n v n' : n <> n' -> get (add p n v) n' = get p n'.
Proof. intros H. apply get_cat_add_ne. congruence. Qed.
Lemma get_cat_set_ne p n c v n' c' :
  (n, c) <> (n', c') -> get_cat (set_cat p n c v).2 n' c' = get_cat p n' c'.
Proof.
  intros Hne. apply get_loop_update_ne; [|done]. intros a. by apply is_named_disjoint.
Qed.
Lemma get_cat_set_eq p n c v : v <> "" -> has p n c = true -> get_cat (set_cat p n c v).2 n c = v.
Proof. intros Hv Hh. apply get_loop_update_eq; auto. Qed.
Lemma set_absent p n c v : has p n c = false -> set_cat p n c v = (0, p).
Proof.
  intros H. unfold set_cat. rewrite H. f_equal. destruct p as [t pa ph l]. unfold set_attrs. simpl. f_equal.
  unfold has in H. simpl in H. induction l as [|a l IH]; simpl in *; [done|].
  apply orb_false_iff in H as [-> H]. by rewrite IH.
Qed.
Lemma get_absent p n c : has p n c = false -> get_cat p n c = "".
Proof.
  unfold has, get_cat. induction (attrs p) as [|a l IH]; simpl; [done|].
  intros [-> H]%orb_false_iff. simpl. by apply IH.
Qed.
Lemma paths_add p n v : pathh (add p n v) = pathh p /\ path (add p n v) = path p.
Proof. unfold add, add_cat. by destruct (has _ _ _). Qed.

(** Decoding the element [xmlEncode] writes gives the attributes back. *)
Lemma of_node_of a : category a <> "*" -> Attr.of_node (Attr.node_of a) = a.
Proof. destruct a as [n c v]; simpl; intros H. unfold Attr.of_node. simpl. by rewrite seqb_ne. Qed.
End Params.
#[export] Hint Rewrite Params.get_add_eq using done : hat.
