(* ===== verification/Subjects.v ===== *)
(** * Messages between threads (minilibs/MMessageQueue.h, Subject.cpp, SubjectSet.cpp,
    Observer.cpp, ObserverThread.cpp)

    Every thread has a queue and registers as observer of subjects (type, subtype);
    [SubjectSet::notify] puts a message on the queues of the observers of its
    subject.  Observers are shared objects: subjects hold addresses into
    [observers].  An operation that dereferences a null address is [None]. *)
From S2P Require Import Prelude Doubles Hsrv Xml MMessage World MParams.

(** ** Class MMessageQueue; 0 is no bound *)
Record Queue := mkQ { elems : list MMessage; maxlength : nat }.

Module Q.
Definition empty : Queue := mkQ [] 0.
Definition mk (n : Z) : Queue := mkQ [] (if 0 <? n then Z.to_nat n else 0%nat).
(** The first index that beats all before it, starting from 0: [for(i...) if(better(l[i], l[r])) r = i;] *)
Fixpoint best_from (better : Z -> Z -> bool) (l : list MMessage) (i r : nat) (pr : Z) : nat :=
  match l with
  | [] => r
  | m :: l' => if better (priority m) pr then best_from better l' (S i) i (priority m)
               else best_from better l' (S i) r pr
  end.
Definition best (better : Z -> Z -> bool) (l : list MMessage) : nat :=
  match l with [] => 0%nat | m :: _ => best_from better l 0 0 (priority m) end.
Definition purge (q : Queue) : Z * Queue :=
  if bool_decide (maxlength q = 0%nat) || (length (elems q) <=? maxlength q)%nat then (0, q)
  else (1, mkQ (delete (best Z.ltb (elems q)) (elems q)) (maxlength q)).
Definition send (q : Queue) (m : MMessage) : Queue := (purge (mkQ (elems q ++ [m]) (maxlength q))).2.
Definition reset (q : Queue) : Queue := mkQ [] (maxlength q).
(** [None]: the queue is empty and the caller waits. *)
Definition receive (q : Queue) : option (MMessage * Queue) :=
  let r := best Z.gtb (elems q) in
  match elems q !! r with
  | None => None
  | Some m => Some (m, mkQ (delete r (elems q)) (maxlength q))
  end.
Definition top_priority (q : Queue) : Z := fold_left (fun c m => if c <? priority m then priority m else c) (elems q) (-1).
End Q.

(** ** Observers and subjects *)
Record Observer := mkOb { ob_id : string; target : list string; input_queue : Queue }.
#[export] Instance Observer_rebuild : Rebuild Observer := fun o => mkOb (ob_id o) (target o) (input_queue o).
Record Subject := mkSubject { stype : string; ssubtype : string; sobservers : list (option nat) }.
#[export] Instance Subject_rebuild : Rebuild Subject := fun s => mkSubject (stype s) (ssubtype s) (sobservers s).
Record Bus := mkBus {
  subjects : gmap (string * string) Subject; observers : gmap nat Observer; agent_status : bool }.
#[export] Instance Bus_rebuild : Rebuild Bus := fun b => mkBus (subjects b) (observers b) (agent_status b).

Module Ob.
Definition match_target (o : Observer) (m : MMessage) : bool :=
  let tg := Msg.getList m "target" in
  bool_decide (tg = []) || existsb (NameList.member (target o)) tg.
(** [ObserverThread::notify] *)
Definition notify (o : Observer) (m : MMessage) : Observer :=
  if match_target o m then o <| input_queue := Q.send (input_queue o) m |> else o.
Definition receive_message (o : Observer) : option (MMessage * Observer) :=
  '(m, q) ← Q.receive (input_queue o); Some (m, o <| input_queue := q |>).
End Ob.

Module Sub.
(** The copy constructor copies nothing: the subject stored in the map is blank. *)
Definition copy (s : Subject) : Subject := mkSubject "" "" [].
Definition isNotRegistered (s : Subject) (o : nat) : bool :=
  negb (existsb (fun p => bool_decide (p = Some o)) (sobservers s)).
Definition register_observer (s : Subject) (o : nat) : Subject :=
  if isNotRegistered s o then s <| sobservers := sobservers s ++ [Some o] |> else s.
(** Every match is set to null; the last one is erased. *)
Fixpoint null_matches (q : option nat -> bool) (l : list (option nat)) (i : nat) (pos : option nat)
    : list (option nat) * option nat :=
  match l with
  | [] => ([], pos)
  | p :: l' =>
      if q p then let '(r, pos) := null_matches q l' (S i) (Some i) in (None :: r, pos)
      else let '(r, pos) := null_matches q l' (S i) pos in (p :: r, pos)
  end.
Definition remove_matches (q : option nat -> bool) (s : Subject) : Subject :=
  let '(l, pos) := null_matches q (sobservers s) 0 None in
  s <| sobservers := match pos with Some i => delete i l | None => l end |>.
Definition remove_observer (s : Subject) (o : nat) : Subject :=
  remove_matches (fun p => bool_decide (p = Some o)) s.
(** By name: every address is dereferenced. *)
Definition remove_observer_id (obs : gmap nat Observer) (s : Subject) (id : string) : option Subject :=
  ids ← mapM (fun p => p ≫= fun a => obs !! a) (sobservers s);
  Some (remove_matches (fun p => match p ≫= fun a => obs !! a with Some o => ob_id o =s id | None => false end) s).
Fixpoint notify_list (obs : gmap nat Observer) (l : list (option nat)) (m : MMessage) : option (gmap nat Observer) :=
  match l with
  | [] => Some obs
  | p :: l' =>
      a ← p; o ← obs !! a;
      notify_list (<[a := Ob.notify o m]> obs) l' m
  end.
Definition notify_observers (obs : gmap nat Observer) (s : Subject) (m : MMessage) : option (gmap nat Observer) :=
  notify_list obs (sobservers s) m.
End Sub.

(** ** Class SubjectSet *)
Module SubjSet.
Definition isDummy (subj : string) : bool := contains "*" subj.
(** [std::map::insert] keeps an entry that is already there. *)
Definition add_subject (b : Bus) (type subtype : string) : Bus :=
  let st := if isDummy subtype then "*" else subtype in
  match subjects b !! (type, st) with
  | Some _ => b
  | None => b <| subjects := <[(type, st) := Sub.copy (mkSubject type st [])]> (subjects b) |>
  end.
Definition check_subject (b : Bus) (type subtype : string) : bool :=
  bool_decide (is_Some (subjects b !! (type, subtype))).
Definition register_in (o : nat) (k : string * string) (b : Bus) : Bus :=
  b <| subjects := alter (fun s => Sub.register_observer s o) k (subjects b) |>.
Definition of_type (type : string) (b : Bus) : gmap (string * string) Subject :=
  filter (fun kv => kv.1.1 = type) (subjects b).
(** The key that serves a subject: its own, or "*" of the type. *)
Definition serving (b : Bus) (type subtype : string) : option (string * string) :=
  match subjects b !! (type, subtype) with
  | Some _ => Some (type, subtype)
  | None => match subjects b !! (type, "*") with Some _ => Some (type, "*") | None => None end
  end.
Definition add_observer (b : Bus) (type subtype : string) (o : nat) : bool * Bus :=
  match serving b type subtype with
  | Some k => (true, register_in o k b)
  | None =>
      if isDummy subtype then
        (bool_decide (of_type type b <> ∅),
         b <| subjects := map_imap (fun k s => Some (if k.1 =s type then Sub.register_observer s o else s)) (subjects b) |>)
      else (false, b)
  end.
Definition remove_observer (b : Bus) (o : nat) : bool * Bus :=
  (true, b <| subjects := (fun s => Sub.remove_observer s o) <$> subjects b |>).

(** The loop over the subjects of a type, in key order. *)
Definition subject_le (a b : (string * string) * Subject) : Prop :=
  String.le a.1.1 b.1.1 /\ (a.1.1 = b.1.1 -> String.le a.1.2 b.1.2).
#[export] Instance subject_le_dec : RelDecision subject_le.
Proof. intros a b. unfold subject_le. apply _. Defined.
Definition subject_items (m : gmap (string * string) Subject) : list ((string * string) * Subject) :=
  merge_sort subject_le (map_to_list m).
(** By name: [None] when one of the subjects holds a null address. *)
Definition remove_observer_id (b : Bus) (id : string) : option (bool * Bus) :=
  l ← mapM (fun ks => pair ks.1 <$> Sub.remove_observer_id (observers b) ks.2 id) (subject_items (subjects b));
  Some (true, b <| subjects := list_to_map l |>).
Fixpoint notify_each (obs : gmap nat Observer) (l : list ((string * string) * Subject)) (m : MMessage)
    : option (gmap nat Observer) :=
  match l with
  | [] => Some obs
  | (_, s) :: l' => obs ← Sub.notify_observers obs s m; notify_each obs l' m
  end.
(** [notify(type, subtype, message)].  An agent whose status is OFF delivers nothing.
    The subject "*" serves a subtype that has none, unless the subtype is itself a
    pattern; a pattern with no subject of its own goes to every subject of the type. *)
Definition notify_as (b : Bus) (type subtype : string) (m : MMessage) : option (bool * Bus) :=
  if negb (agent_status b) then Some (false, b) else
  let key := match subjects b !! (type, subtype) with
             | Some s => Some s
             | None => if isDummy subtype then None else subjects b !! (type, "*")
             end in
  match key with
  | Some s => obs ← Sub.notify_observers (observers b) s m; Some (true, b <| observers := obs |>)
  | None =>
      if isDummy subtype then
        obs ← notify_each (observers b) (subject_items (of_type type b)) m;
        Some (bool_decide (of_type type b <> ∅), b <| observers := obs |>)
      else Some (false, b)
  end.
Definition notify (b : Bus) (m : MMessage) : option (bool * Bus) := notify_as b (mtype m) (msubtype m) m.
End SubjSet.

(** ** Class ObserverThread: registration *)
Module OT.
(** The attributes of a category that the thread's file holds are added to [obs]. *)
Definition collect (cat : string) (param : MParams) (obs : MParams) : MParams :=
  fold_left (fun obs a => if category a =s cat then Params.add_cat obs (aname a) (category a) (avalue a) else obs)
    (attrs param) obs.
Definition getObservations (param obs : MParams) : MParams := collect "observe" param obs.
Definition getSubjects (param subj : MParams) : MParams := collect "subject" param subj.
(** [init]: name is the subtype, value the type. *)
Definition init_subjects (b : Bus) (subj : MParams) : Bus :=
  fold_left (fun b a => SubjSet.add_subject b (avalue a) (aname a)) (Params.extractCategory subj "subject") b.
Definition start (b : Bus) (obs : MParams) (o : nat) : Bus :=
  fold_left (fun b a => (SubjSet.add_observer b (avalue a) (aname a) o).2) (Params.extractCategory obs "observe") b.
End OT.
