(* ===== verification/Archive.v ===== *)
(** * The archive (minilibs/ArchiveManager.cpp, ArchiveManager.h)

    Resources live under roots; a root has a time window, the directory that holds it and the
    list of the names that are visible in it.  Resources are written by POST, PUT
    and DELETE requests and read by GET requests; each request is a message whose field
    "url" names the resource.  The operations hold the mutex of the class, so each is one step.
    [None] is the end of the process: an uncaught exception, a null pointer, an element
    of an empty vector or [exit]. *)
From S2P Require Import Prelude Doubles Hsrv Xml MMessage World MParams Subjects.

(** The calendar of boost::gregorian: the number of the day of a date, [None] for
    a year, month or day out of range, where the constructor throws. *)
Class Calendar := { day_number : Z -> Z -> Z -> option Z }.

Record RootDescriptor := mkRoot { temporalWindow : Z; prefix : string; visibility : list string }.
#[export] Instance RootDescriptor_rebuild : Rebuild RootDescriptor := fun r =>
  mkRoot (temporalWindow r) (prefix r) (visibility r).

Record ArchiveManager := mkArchive {
  params : MParams;
  archiveName : string;
  archiveHome : string;
  methods : list string;
  accessInfo : gmap string RootDescriptor }.
#[export] Instance ArchiveManager_rebuild : Rebuild ArchiveManager := fun a =>
  mkArchive (params a) (archiveName a) (archiveHome a) (methods a) (accessInfo a).

Inductive mode := READ | WRITE.
#[export] Instance mode_eq_dec : EqDecision mode.
Proof. solve_decision. Defined.

(** [url.erase(url.begin())] when the first name is empty and is not the only one. *)
Definition drop_blank (l : list string) : list string :=
  match l with
  | a :: b :: l' => if a =s "" then b :: l' else l
  | _ => l
  end.

(** The lines that [while(!f.eof()) getline(f, line)] reads: the text after the last
    newline is a line, even when empty. *)
Definition eof_lines (s : string) : list string := pieces "010" [] (chars s).

Module Arc.
Section archive.
Context {P : Platform} {C : Config} {XP : XmlParser} {FS : PathNames} {K : Calendar}.
Implicit Types (a : ArchiveManager).

(** [ArchiveManager(name)] *)
Definition mk (name : string) : ArchiveManager := mkArchive (Params.mk1 name) name homedir [] ∅.

(** ** Names and dates *)

(** [pos] is 32 bits wide: where there is no slash it differs from [npos], and the
    whole name is returned. *)
Definition getParentDirectory (filename : string) : string :=
  match FilePath.find_last_of filename "/" with
  | Some pos => take_str pos filename
  | None => filename
  end.
Definition isDate (date : string) (separator : ascii) : bool :=
  match NameList.of_string date separator with
  | [_; m; d] =>
      let mm := atoi m in
      let dd := atoi d in
      (0 <? mm) && (mm <=? 12) && (0 <? dd) && (dd <=? 31)
  | _ => false
  end.
Definition date_of (date : string) (separator : ascii) : option Z :=
  match NameList.of_string date separator with
  | y :: m :: d :: _ => day_number (atoi y) (atoi m) (atoi d)
  | _ => None
  end.
(** Both lists are built before the first date. *)
Definition getDateDifference (date1 date2 : string) (separator : ascii) : option Z :=
  now ← date_of date1 separator;
  then_ ← date_of date2 separator;
  Some (now - then_).
(** Today as "yyyymmdd", with the day, the month and the year. *)
Definition getCurrentDay : M (string * (string * string * string)) :=
  tv ← read_clock;
  let lt := localtime (tv_sec tv) in
  let year := int2a (tm_year lt + 1900) in
  let month := (if tm_mon lt <? 9 then "0" else "") +:+ int2a (tm_mon lt + 1) in
  let day := (if tm_mday lt <? 10 then "0" else "") +:+ int2a (tm_mday lt) in
  mret (year +:+ month +:+ day, (day, month, year)).

(** ** Access *)

(** Only called for a root that is known. *)
Definition fullAccess a (name : string) : option bool :=
  d ← accessInfo a !! name;
  v ← head (visibility d);
  Some (v =s "*").
Definition getSubDir a (name : string) : list string :=
  match accessInfo a !! name with None => [] | Some d => visibility d end.
Definition getWindow a (name : string) : Z :=
  match accessInfo a !! name with None => 0 | Some d => temporalWindow d end.
Definition checkPermission a (url : list string) (md : mode) : option bool :=
  match url with
  | [] => None
  | [_] => Some (bool_decide (md = READ))
  | name :: subdir :: _ =>
      match accessInfo a !! name with
      | None => Some false
      | Some d =>
          full ← fullAccess a name;
          Some (if full : bool then true else NameList.member (visibility d) subdir)
      end
  end.

Definition getRootPath a (uri : string) : option string :=
  let nl := NameList.of_string uri "/" in
  match nl with
  | [] => None
  | n :: nl' =>
      rname ← (if n =s "" then head nl' else Some n);
      Some (match accessInfo a !! rname with None => archiveHome a | Some d => prefix d end)
  end.
(** The common part of the GET requests: the directory of the resource, or why there is none. *)
Definition getExec a (m : MMessage) : option string :=
  let url := Msg.getString m "url" in
  root ← getRootPath a url;
  let fullPath := root +:+ "/" +:+ url in
  let nl := NameList.of_string url "/" in
  let resPath := drop_blank nl in
  let archiveName := if (length resPath <? length nl)%nat then default "" (head resPath) else "" in
  let isRoot := (length resPath =? 1)%nat in
  if negb isRoot && bool_decide (accessInfo a !! archiveName = None) then Some "Not Found"
  else
    permission ← checkPermission a resPath READ;
    Some (if negb permission then "Forbidden"
          else match FilePath.find_last_of fullPath "/" with
               | Some pos => take_str pos fullPath
               | None => fullPath
               end).

Definition isValidMethod a (method : string) : bool := existsb (fun x => x =s method) (methods a).
Definition isInstance (pathname : string) : M bool :=
  let dirPath := match FilePath.find_last_of pathname "/" with
                 | Some pos => take_str pos pathname
                 | None => pathname
                 end in
  d ← Dirs.isDir dirPath;
  if d : bool then n ← Dirs.dirCount dirPath; mret (n =? 0) else mret false.

(** ** Installation *)

(** One pass over the attributes of a category ("root", then "conf"): the directories are made and the
    descriptor is registered, unless the name is known.  The list of names is shared by the
    turns, and keeps those of the previous one when the attribute is empty. *)
Fixpoint install_subdirs (rootdir : string) (names : list string) : M (option unit) :=
  match names with
  | [] => ok tt
  | n :: names' =>
      _ ←! Dirs.makeDir (rootdir +:+ "/" +:+ n) true; install_subdirs rootdir names'
  end.
Fixpoint install (home cat : string) a (subdir : list string) (l : list MAttribute)
    : M (option (ArchiveManager * list string)) :=
  match l with
  | [] => ok (a, subdir)
  | r :: l' =>
      let rootdir := home +:+ "/" +:+ aname r in
      _ ←! Dirs.makeDir rootdir true;
      let window := atoi (Params.get_cat (params a) (aname r) "history") in
      let subdir := (NameList.init subdir (Params.get_cat (params a) (aname r) cat) "+").2 in
      vis ←! (if negb (NameList.member subdir "*")
              then _ ←! install_subdirs rootdir subdir; ok subdir
              else ok ["*"]);
      let d := mkRoot window home vis in
      let acc := match accessInfo a !! aname r with
                 | Some _ => accessInfo a
                 | None => <[aname r := d]> (accessInfo a)
                 end in
      install home cat (a <| accessInfo := acc |>) subdir l'
  end.
Definition init a : M (option (bool * ArchiveManager)) :=
  r ←! Params.load (params a);
  let '(loaded, p) := r in
  let a := a <| params := p |> in
  if loaded =? 0 then ok (false, a)
  else
    r ←! install homedir "root" a [] (Params.extractCategory p "root");
    r ←! install configdir "conf" r.1 r.2 (Params.extractCategory p "conf");
    ok (true, r.1 <| methods := methods r.1 ++ ["first"; "last"; "all"] |>).

(** ** Resources *)

(** The directories of every component but the last. *)
Fixpoint make_path (absPath : string) (l : list string) : M (option unit) :=
  match l with
  | [] | [_] => ok tt
  | n :: l' =>
      let absPath := absPath +:+ "/" +:+ n in
      _ ←! Dirs.makeDir absPath true; make_path absPath l'
  end.
Definition one_slash (p : string) : string := (strReplace p "//" "/").2.
Definition addResource a (resPath src : string) (overwrite : bool) : M (option bool) :=
  absPath ←! lifto (getRootPath a resPath);
  let fullPath := archiveHome a +:+ "/" +:+ resPath in
  f ← Dirs.isFile fullPath;
  if f && (src =s "") then ok true
  else
    _ ←! make_path absPath (NameList.of_string resPath "/");
    let fullPath := one_slash fullPath in
    if src =s "" then ok true
    else
      f ← Dirs.isFile fullPath;
      if negb f || overwrite then r ← Dirs.copyFile src fullPath ""; ok r else ok true.
Definition deleteResource a (resPath : string) : M (option bool) :=
  absPath ←! lifto (getRootPath a resPath);
  let nlist := NameList.of_string resPath "/" in
  let nlist := match nlist with n :: l => if n =s "" then l else nlist | [] => [] end in
  name ←! lifto (head nlist);
  match accessInfo a !! name with
  | None => ok false
  | Some d =>
      let data := prefix d <>s configdir in
      let fullPath := absPath +:+ "/" +:+ resPath +:+ (if data then "/data" else "") in
      let nlist := if data then nlist ++ ["data"] else nlist in
      f ← Dirs.isFile fullPath;
      if negb f && (resPath <>s "") then ok false
      else
        permission ←! lifto (checkPermission a nlist WRITE);
        if negb permission then ok false
        else resname ←! lifto (last nlist);
             r ← Dirs.deleteFile (getParentDirectory fullPath) resname; ok r
  end.
(** Nothing is written when the file cannot be opened; the answer is [true]. *)
Definition updateResource a (resPath s : string) : M bool :=
  let fullPath := one_slash (archiveHome a +:+ "/" +:+ resPath) in
  f ← Dirs.isFile fullPath;
  o ← (if f : bool then open_app fullPath else open_out fullPath);
  (if o : bool then append fullPath (s +:+ Msg.endl) else mret tt);; mret true.

(** ** The tree *)

(** The leaves of the tree: one level of recursion per level of directories; the files of a
    directory that has subdirectories are not listed. *)
Fixpoint keep_files (src : string) (noDir : bool) (l : list string) : M (list string) :=
  match l with
  | [] => mret []
  | n :: l' =>
      let fullPath := src +:+ "/" +:+ n in
      f ← Dirs.isFile fullPath;
      if f : bool then r ← keep_files src noDir l'; mret (fullPath :: r)
      else d ← Dirs.isDir fullPath;
           r ← keep_files src noDir l';
           mret (if d && negb noDir then fullPath :: r else r)
  end.
Fixpoint explore_children (explore : string -> M (option (list string))) (src : string)
    (subdir : list string) : M (option (list string)) :=
  match subdir with
  | [] => ok []
  | d :: subdir' =>
      l ←! explore (src +:+ "/" +:+ d);
      l' ←! explore_children explore src subdir'; ok (l ++ l')
  end.
Fixpoint exploreArchive (fuel : nat) (src : string) (noDir : bool) : M (option (list string)) :=
  match fuel with
  | O => crash
  | S n =>
      r ← Dirs.dirList src [];
      match r.2 with
      | [] =>
          fl ← Dirs.fileList src [];
          found ← keep_files src noDir fl.2;
          ok (found ++ if noDir then [] else [src])
      | subdir => explore_children (fun c => exploreArchive n c noDir) src subdir
      end
  end.
(** One level per directory of the file system is enough (ArchiveClaims). *)
Definition explore (src : string) (noDir : bool) : M (option (list string)) :=
  fun w => exploreArchive (S (size (w_dirs w))) src noDir w.
End archive.
End Arc.
