(* ===== verification/Pages.v ===== *)
(** * The published index and the stored item lists (minilibs/hsrv.cpp)

    Agents publish their state under a name in [hsrv::index]; [getDynamicPage]
    serves the whole index or one entry, as XML or JSON.  Item lists are written
    to a temporary file, which the archive of the agent ([hsrv_archive]) copies under the name of the list.  The second part scans a page for
    the names of devices and agents (NameService.cpp). *)
From S2P Require Import Prelude Doubles Hsrv Xml MMessage World Archive.

Definition nl : string := Msg.endl.
Definition has_eq (s : string) : bool := contains "=" s.

Definition xml_item (name value : string) : string :=
  if has_eq value then "<item name=" +:+ quote name +:+ " " +:+ value +:+ "/>" +:+ nl
  else "<item name=" +:+ quote name +:+ " value=" +:+ quote value +:+ "/>" +:+ nl.
Definition xmlIndex_of (index : gmap string string) : string :=
  "<?xml version=" +:+ quote "1.0" +:+ " ?>" +:+ nl +:+ "<list name=" +:+ quote "index" +:+ ">" +:+ nl +:+
  sconcat (map (fun kv => xml_item kv.1 kv.2) (map_items index)) +:+ "</list>" +:+ nl.
Definition xmlIndex_name (index : gmap string string) (name : string) : string :=
  match index !! name with None => "Not Found" | Some v => xml_item name v end.

(** One JSON member per word "a=b" of the value.  [itempair] is not cleared between
    words, but [NameList::init] clears it. *)
Fixpoint json_members (i : nat) (l : list string) : string :=
  match l with
  | [] => ""
  | w :: l' =>
      (if w <>s "" then
         match NameList.of_string w "="%char with
         | [a; b] => (if bool_decide (i = 0%nat) then "{" +:+ String (Ascii.ascii_of_nat 34) "" else "," +:+ String (Ascii.ascii_of_nat 34) "") +:+ a +:+
                     String (Ascii.ascii_of_nat 34) ":" +:+ b
         | _ => ""
         end
       else "") +:+ json_members (S i) l'
  end.
Definition jsonItem (src : string) : string :=
  if has_eq src then json_members 0 (NameList.of_string src " "%char) +:+ "}" else quote src.
Definition json_pair (name value : string) : string := "{" +:+ quote name +:+ ":" +:+ jsonItem value +:+ "}".
Fixpoint json_items (first : bool) (l : list (string * string)) : string :=
  match l with
  | [] => ""
  | kv :: l' => (if first then "   " else "," +:+ nl +:+ "   ") +:+ json_pair kv.1 kv.2 +:+ json_items false l'
  end.
Definition jsonIndex_of (index : gmap string string) : string :=
  "{" +:+ quote "list" +:+ ": [" +:+ nl +:+ json_items true (map_items index) +:+ "  ]" +:+ nl +:+ "}" +:+ nl.
Definition jsonIndex_name (index : gmap string string) (name : string) : string :=
  match index !! name with None => "Not Found" | Some v => json_pair name v +:+ nl end.

(** [hsrv::getDynamicPage]: the last two parts of "…/name.ext". *)
Definition getDynamicPage_of (index : gmap string string) (uri : string) : string :=
  match List.rev (NameList.of_string uri "/"%char) with
  | [] => "Forbidden"
  | page :: _ =>
      match NameList.of_string page "."%char with
      | n :: e :: _ =>
          if (n =s "DynamicPage") && (e =s "xml") then xmlIndex_of index
          else if (n =s "DynamicPage") && (e =s "json") then jsonIndex_of index
          else if (n <>s "DynamicPage") && (e =s "xml") then xmlIndex_name index n
          else if (n <>s "DynamicPage") && (e =s "json") then jsonIndex_name index n
          else "Not Found"
      | _ => "Not Found"
      end
  end.
Definition getDynamicPage (uri : string) : M string := fun w => (getDynamicPage_of (w_index w) uri, w).

(** [hsrv::archive], made when the agent starts. *)
Class Archived := { hsrv_archive : ArchiveManager }.
(** [hsrv::archive->addResource(url, path, true)]: the file is copied into the archive; the answer is not used. *)
Definition addResource {FS : PathNames} {Ar : Archived} (url path : string) : M unit :=
  r ← Arc.addResource hsrv_archive url path true;
  match r with Some _ => mret tt | None => emit Exited end.

Section pages.
Context {P : Platform} {C : Config} {FS : PathNames} {Ar : Archived}.

Definition item_line (kv : string * string) : string :=
  "<attribute name=" +:+ quote kv.1 +:+ " value=" +:+ quote kv.2 +:+ "/>" +:+ nl.
Definition item_page (name : string) (items : list (string * string)) : string :=
  "<set type=" +:+ quote name +:+ ">" +:+ nl +:+ sconcat (map item_line items) +:+ "</set>" +:+ nl.
(** The contents of a file that is written anew; nothing when it cannot be opened. *)
Definition write_out (path s : string) : M unit := o ← open_out path; if o : bool then append path s else mret tt.
(** The agent runs in its home directory, where "tmp.xml" is written. *)
Definition saveItemList (name path : string) (items : list (string * string)) : M bool :=
  let tmp := homedir +:+ "/tmp.xml" in
  write_out tmp (item_page name items);;
  addResource (path +:+ "/" +:+ name +:+ ".xml") tmp;;
  Dirs.deleteFile homedir "tmp.xml";; mret true.
(** The overload on a list of names: every value is "ON". *)
Definition saveItemList_names (name path : string) (items : list string) : M bool :=
  saveItemList name path (map (fun i => (i, "ON")) items).

(** [hsrv::getHostName]: the output of "/bin/hostname" without line ends. *)
Definition getHostName : M string :=
  h ← cmdExec "/bin/hostname";
  mret (of_chars (List.filter (fun c => negb ((c =c "010"%char) || (c =c "013"%char))) (chars h))).

Definition CFWINDOW : Z := 180.
Definition checkConfigureEnabled : M bool :=
  ctime ← gettime;
  if configurator =s "ON" then mret true
  else conftime ← cmdExec "cat /home/horus/CONFIGURE";
       log_info conftime;;
       mret (dgtb (dadd (a2double conftime) (d_of_Z CFWINDOW)) ctime).
End pages.

(** * The name service (minilibs/NameService.cpp): device and agent names found
    in the dynamic page of the web server.  [answer] is the page it received. *)

Module NS.
(** [while(pos < size && body[pos] != c) pos++;] *)
Fixpoint skip_to (c : ascii) (l : list ascii) : list ascii :=
  match l with [] => [] | x :: l' => if x =c c then l else skip_to c l' end.
Fixpoint take_value (l : list ascii) : list ascii :=
  match l with
  | [] => []
  | x :: l' => if (x =c Ascii.ascii_of_nat 34) || (x =c ","%char) then [] else x :: take_value l'
  end.
Definition extractValue (body keyword : string) (sp : nat) : string :=
  match sfind keyword body sp with
  | None => ""
  | Some pos =>
      of_chars (take_value (tail (skip_to (Ascii.ascii_of_nat 34) (skip_to "="%char (chars (drop_str pos body))))))
  end.
Definition is_device (name : string) : bool :=
  (2 <? String.length name)%nat && (cget name 2 =c "_"%char).
(** The loop of [getName], with fuel: each turn moves [pos] at least four characters on.
    The name found and the position left. *)
Fixpoint getName_loop (fuel : nat) (src domain category : string) (pos : nat) : option (string * nat) :=
  match fuel with
  | O => None
  | S n =>
      match sfind "item" src pos with
      | None => Some ("", pos)
      | Some newpos =>
          let pos := (newpos + 4)%nat in
          let name := extractValue src "name" pos in
          if (domain =s "devices") && is_device name then
            if (category =s "") || (category =s "*") || (category =s take_str 2 name) then Some (name, pos)
            else getName_loop n src domain category pos
          else if (domain <>s "devices") && negb (is_device name) then Some (name, pos)
          else getName_loop n src domain category pos
      end
  end.
Definition getName (src domain category : string) (pos : nat) : option (string * nat) :=
  if (src =s "") || (String.length src <? pos)%nat then Some ("", pos)
  else getName_loop (S (String.length src)) src domain category pos.
(** The loop of [getNames]: until the empty name; a name is kept once. *)
Fixpoint names_loop (fuel : nat) (answer tofind category : string) (pos : nat) (tmp : list string) : option (list string) :=
  match fuel with
  | O => None
  | S n =>
      '(name, pos) ← getName answer tofind category pos;
      if name =s "" then Some tmp
      else names_loop n answer tofind category pos (if existsb (seqb name) tmp then tmp else tmp ++ [name])
  end.
Definition getNames_of (answer domain category : string) : option (list string) :=
  names_loop (S (S (String.length answer))) answer (if domain =s "devices" then domain else "agents") category 0 [].
End NS.
