(* ===== verification/Samples.v ===== *)
(** * Concrete instances of the parameters: a platform in UTC, a configuration, an archive
    and a world whose clock ticks once per reading.  The
    witnesses evaluate the models on them.

    [Sends] is a program logic for the messages that a computation notifies and for its result. *)
From S2P Require Import Prelude Doubles Hsrv Xml MMessage World MParams Archive Pages.

(** ** UTC *)
Definition utc (t : Z) : tm :=
  let days := t / 86400 in
  let s := t mod 86400 in
  let z := days + 719468 in
  let era := z / 146097 in
  let doe := z mod 146097 in
  let yoe := (doe - doe / 1460 + doe / 36524 - doe / 146096) / 365 in
  let doy := doe - (365 * yoe + yoe / 4 - yoe / 100) in
  let mp := (5 * doy + 2) / 153 in
  let d := doy - (153 * mp + 2) / 5 + 1 in
  let m := if mp <? 10 then mp + 3 else mp - 9 in
  let y := yoe + era * 400 + (if m <=? 2 then 1 else 0) in
  let leap := ((y mod 4 =? 0) && negb (y mod 100 =? 0)) || (y mod 400 =? 0) in
  let yday := if m <=? 2 then doy - 306 else doy + 59 + (if leap then 1 else 0) in
  Tm (s mod 60) (s / 60 mod 60) (s / 3600) d (m - 1) (y - 1900) ((days + 4) mod 7) yday 0.

Definition utc_platform : Platform := {|
  localtime := utc; indet_double := d0; indet_long := 0; indet_int := 0;
  indet_unsigned := 0; indet_bool := false |}.

Definition sample_config : Config := {|
  configdir := "/etc/hat"; homedir := "/home/hat"; configurator := "configurator"; has_rpctab := true; debug := 0 |}.

(** ** A world: the clock starts at the given second, one second per reading *)
Definition world_at (t : Z) : world :=
  World (fun n => Timeval (t + Z.of_nat n) 0) (fun _ _ => "") (fun _ => true) 0 ∅ ∅ ∅ [].
(** 2021-03-14 07:30:00 UTC, a Sunday. *)
Definition early : Z := 1615707000.
Example early_text : asctime (utc early) = "Sun Mar 14 07:30:00 2021" +:+ Msg.endl.
Proof. vm_compute. reflexivity. Qed.
Lemma clock_at_early n : (n <= 1)%nat -> clock_ok (P := utc_platform) (w_clock (world_at early) n).
Proof.
  intros H. assert (n = 0%nat \/ n = 1%nat) as [-> | ->] by lia;
    (split; vm_compute; split_and!; discriminate || reflexivity).
Qed.
Definition params (l : list (string * string)) : MParams :=
  mkParams "sample" "/etc/hat/sample.xml" "/home/hat/sample.xml" (map (fun kv => Attr.mk2 kv.1 kv.2) l).

(** The archive under the home directory. *)
Definition sample_archive : Archived := {| hsrv_archive := mkArchive (params []) "archive" "/home/hat" [] ∅ |}.

(** Imported where the witnesses are evaluated. *)
Module Instances.
#[export] Existing Instance utc_platform.
#[export] Existing Instance sample_config.
#[export] Existing Instance tinyxml.
#[export] Existing Instance Posix.posix_paths.
#[export] Existing Instance sample_archive.
End Instances.

(** * What a computation sends: a program logic for the messages notified

    [sends c Q]: from every world, [c] only appends to the trace, and its result and the
    messages it notifies, in order, satisfy [Q].  The rules follow the structure of the code. *)

Definition sends {A} (c : M A) (Q : A -> list MMessage -> Prop) : Prop :=
  forall w, exists t, w_trace (final c w) = w_trace w ++ t /\ Q (result c w) (sent t).

Section rules.
Context {A B : Type}.

Lemma sends_conseq (c : M A) Q Q' : sends c Q -> (forall a ms, Q a ms -> Q' a ms) -> sends c Q'.
Proof. intros H HQ w. destruct (H w) as (t & Ht & Hq). exists t. auto. Qed.
Lemma sends_ret (a : A) (Q : A -> list MMessage -> Prop) : Q a [] -> sends (mret a) Q.
Proof. intros H w. exists []. split; [symmetry; apply app_nil_r|exact H]. Qed.
Lemma sends_bind (c : M A) (k : A -> M B) Q Q' :
  sends c Q -> (forall a ms, Q a ms -> sends (k a) (fun b ms' => Q' b (ms ++ ms'))) -> sends (c ≫= k) Q'.
Proof.
  intros Hc Hk w. destruct (Hc w) as (t & Ht & Hq).
  destruct (Hk _ _ Hq (final c w)) as (t' & Ht' & Hq').
  exists (t ++ t'). rewrite final_bind, result_bind, sent_app. split; [|exact Hq'].
  by rewrite Ht', Ht, app_assoc.
Qed.
(** A computation that notifies nothing and whose result is not constrained. *)
Lemma sends_silent (c : M A) (k : A -> M B) Q :
  sends c (fun _ ms => ms = []) -> (forall a, sends (k a) Q) -> sends (c ≫= k) Q.
Proof. intros Hc Hk. eapply sends_bind; [exact Hc|]. intros a ms ->. apply Hk. Qed.
Lemma sends_if (b : bool) (c1 c2 : M A) Q :
  (b = true -> sends c1 Q) -> (b = false -> sends c2 Q) -> sends (if b then c1 else c2) Q.
Proof. destruct b; auto. Qed.
End rules.

Lemma sends_notify {B} m (k : unit -> M B) Q :
  sends (k tt) (fun b ms => Q b (m :: ms)) -> sends (notify m ≫= k) Q.
Proof.
  intros H. eapply (sends_bind _ _ (fun _ ms => ms = [m])).
  - intros w. exists [Notified m]. done.
  - intros [] ms ->. exact H.
Qed.
Lemma sends_notify_last m Q : Q tt [m] -> sends (notify m) Q.
Proof. intros H w. exists [Notified m]. done. Qed.

Notation silent c := (sends c (fun _ ms => ms = [])).
Lemma silent_same {A} (c : M A) : (forall w, w_trace (final c w) = w_trace w) -> silent c.
Proof. intros H w. exists []. split; [by rewrite H, app_nil_r|done]. Qed.
Lemma silent_publish n v : silent (publish n v).
Proof. by apply silent_same. Qed.
Lemma silent_read_clock : silent read_clock.
Proof. by apply silent_same. Qed.
Lemma silent_gettime {P : Platform} : silent gettime.
Proof. by apply silent_same. Qed.
Lemma silent_write_file p c : silent (write_file p c).
Proof. apply silent_same. intros w. unfold write_file, final. by destruct (w_writable w p). Qed.
Lemma silent_save p : silent (Params.save p).
Proof. apply silent_write_file. Qed.
Lemma silent_rpcNotify {C : Config} tag f v : silent (rpcNotify tag f v).
Proof.
  intros w. unfold rpcNotify. destruct has_rpctab; [|exists []; split; [symmetry; apply app_nil_r|done]].
  exists [RpcSignal (rpc_answer tag f v)]. done.
Qed.
Create HintDb silent.
#[export] Hint Resolve silent_publish silent_read_clock silent_gettime silent_write_file silent_save
  silent_rpcNotify : silent.

(** Step over the computation at the head of the goal. *)
Ltac sends_step :=
  lazymatch goal with
  | |- sends (mret _) _ => apply sends_ret
  | |- sends (notify _ ≫= _) _ => apply sends_notify
  | |- sends (notify _) _ => apply sends_notify_last
  | |- sends (_ ≫= _) _ => apply sends_silent; [by eauto with silent|intros ?]
  | |- sends (if _ then _ else _) _ => apply sends_if; intros ?
  end.

(** ** What a computation returns, in every world *)
Definition returns {A} (c : M A) (Q : A -> Prop) : Prop := forall w, Q (result c w).

Section returns_rules.
Context {A B : Type}.
Lemma returns_ret (a : A) (Q : A -> Prop) : Q a -> returns (mret a) Q.
Proof. intros H w. exact H. Qed.
Lemma returns_bind (c : M A) (k : A -> M B) R Q :
  returns c R -> (forall a, R a -> returns (k a) Q) -> returns (c ≫= k) Q.
Proof. intros Hc Hk w. rewrite result_bind. apply Hk, Hc. Qed.
Lemma returns_any (c : M A) (k : A -> M B) Q : (forall a, returns (k a) Q) -> returns (c ≫= k) Q.
Proof. intros H w. rewrite result_bind. apply H. Qed.
Lemma returns_conseq (c : M A) (Q Q' : A -> Prop) : returns c Q -> (forall a, Q a -> Q' a) -> returns c Q'.
Proof. intros H HQ w. apply HQ, H. Qed.
End returns_rules.
Create HintDb returns.

(** Step over the computation at the head of the goal; what a hint says of its result is
    kept, nothing otherwise. *)
Ltac returns_step :=
  lazymatch goal with
  | |- returns (mret _) _ => apply returns_ret
  | |- returns (_ ≫= _) _ =>
      first [eapply returns_bind; [solve [eauto with returns]|intros ? ?] | apply returns_any; intros ?]
  | |- returns (if ?b then _ else _) _ => destruct b eqn:?
  | |- returns (match ?x with _ => _ end) _ => destruct x eqn:?
  end.
