(* ===== verification/MessageClaims.v ===== *)
(** * Properties of the service functions (minilibs/hsrv.cpp, namelist.cpp, filemanager.cpp),
    of messages and parameter sets, and the round trips of what the agents write through the XML parser *)
From S2P Require Import Prelude Doubles Hsrv Xml TinyFacts MMessage World MParams Samples.

(** The text of the current time of day ([getasciitimeday]) read back with
    [string2second] is the second of the day that [daysecond] computes from [CurrentTime],
    for every clock whose calendar fields are in range; it is below 86400. *)
Lemma time_of_day_roundtrip {P : Platform} tv :
  clock_ok tv ->
  string2second (getasciitimeday_of tv) = daysecond (CurrentTime_of tv 0) /\
  0 <= string2second (getasciitimeday_of tv) < 86400.
Proof. intros H. split; [by apply second_of_day|by apply second_of_day_range]. Qed.

(** ** Splitting *)
(** [NameList::init] of names joined with the delimiter gives the names back, in order,
    when none contains the delimiter and the last one is not empty. *)
Lemma namelist_join_init delim a l :
  Forall (fun s => delim ∉ chars s) (a :: l) -> List.last (a :: l) "" <> "" ->
  NameList.init [] (NameList.join delim (a :: l)) delim = (true, a :: l).
Proof.
  intros Hd Hl. unfold NameList.init. rewrite seqb_ne.
  - by rewrite (NameList.init_join delim a l Hd Hl).
  - intros E. apply (NameList.init_join delim a l Hd) in Hl. rewrite E in Hl. discriminate.
Qed.

Lemma split_loop_pieces s sep limit done_ cur l n acc :
  chars s = done_ ++ cur ++ l -> limit <= 0 -> 0 <= n ->
  split_loop s sep limit l (length done_ + length cur) (length done_) n acc = acc ++ pieces sep cur l.
Proof.
  revert done_ cur n acc. induction l as [|c l IH]; intros dn cur n acc Hs Hl Hn; simpl.
  - f_equal. f_equal. rewrite app_nil_r in Hs. rewrite <- (of_chars_chars (drop_str _ s)).
    rewrite drop_str_chars; [|rewrite <- length_chars, Hs, length_app; lia].
    by rewrite Hs, drop_app_length.
  - destruct (c =c sep) eqn:E.
    + rewrite (proj2 (Z.eqb_neq (n + 1) limit)) by lia.
      assert (String.substring (length dn) (length dn + length cur - length dn) s = of_chars cur) as ->.
      { rewrite <- (of_chars_chars (String.substring _ _ s)), substring_chars, Hs, drop_app_length.
        replace (length dn + length cur - length dn)%nat with (length cur) by lia. by rewrite take_app_length. }
      replace (length dn + length cur + 1)%nat with (length (dn ++ cur ++ [c]) + length (@nil ascii))%nat at 1
        by (rewrite !length_app; simpl; lia).
      replace (length dn + length cur + 1)%nat with (length (dn ++ cur ++ [c]))
        by (rewrite !length_app; simpl; lia).
      rewrite IH; [by rewrite <- app_assoc| |done|lia]. rewrite Hs, <- !app_assoc. done.
    + replace (length dn + length cur + 1)%nat with (length dn + length (cur ++ [c]))%nat
        by (rewrite !length_app; simpl; lia).
      apply IH; [|done|done]. by rewrite Hs, <- !app_assoc.
Qed.
Lemma split_pieces s sep limit : limit <= 0 -> split s sep limit = pieces sep [] (chars s).
Proof. intros H. unfold split. apply (split_loop_pieces s sep limit [] [] (chars s) 0 []); [done|done|lia]. Qed.
Lemma pieces_nonempty sep cur l : pieces sep cur l <> [].
Proof. revert cur. induction l as [|c l IH]; intros cur; simpl; [done|]. destruct (c =c sep); [done|apply IH]. Qed.
Lemma pieces_join sep cur l : chars (NameList.join sep (pieces sep cur l)) = cur ++ l.
Proof.
  revert cur. induction l as [|c l IH]; intros cur; simpl.
  { by rewrite sapp_nil_r, chars_of_chars, app_nil_r. }
  destruct (c =c sep) eqn:E; [|by rewrite IH, <- app_assoc].
  apply Ascii.eqb_eq in E as ->. specialize (IH []). unfold NameList.join in *.
  rewrite chars_app, chars_of_chars. f_equal. destruct (pieces sep [] l) as [|b r] eqn:Ep.
  - by apply pieces_nonempty in Ep.
  - cbn [map sconcat]. rewrite chars_app. cbn [chars app]. f_equal. rewrite <- chars_app. exact IH.
Qed.
Lemma pieces_no_sep sep cur l : sep ∉ cur -> Forall (fun s => sep ∉ chars s) (pieces sep cur l).
Proof.
  revert cur. induction l as [|c l IH]; intros cur H; simpl.
  - constructor; [by rewrite chars_of_chars|done].
  - destruct (c =c sep) eqn:E.
    + constructor; [by rewrite chars_of_chars|]. apply IH. set_solver.
    + apply IH. unfold ceqb in E. apply Ascii.eqb_neq in E. set_solver.
Qed.

(** [hsrv::split] without a limit cuts a string at every separator: no piece contains the
    separator, and the pieces joined with it are the string. *)
Lemma split_join s sep limit :
  limit <= 0 ->
  NameList.join sep (split s sep limit) = s /\ Forall (fun p => sep ∉ chars p) (split s sep limit).
Proof.
  intros H. rewrite split_pieces by done. split.
  - rewrite <- (of_chars_chars (NameList.join _ _)), pieces_join. apply of_chars_chars.
  - apply pieces_no_sep. set_solver.
Qed.

(** ** Replacing *)
Lemma sfind_char c s :
  sfind (String c "") s 0 = find_first (fun d => d =c c) (chars s).
Proof.
  unfold sfind. induction s as [|d s IH]; simpl; [done|].
  unfold ceqb. destruct (Ascii.eqb_spec d c) as [->|Hne].
  - destruct (ascii_dec c c); [|done]. by destruct s.
  - destruct (ascii_dec c d); [congruence|]. rewrite IH. by destruct (find_first _ _).
Qed.
Definition swap_char (c d e : ascii) : ascii := if e =c c then d else e.
Lemma find_first_split (p : ascii -> bool) l i :
  find_first p l = Some i -> exists a x b, l = a ++ x :: b /\ length a = i /\ p x = true /\ Forall (fun y => p y = false) a.
Proof.
  revert i. induction l as [|x l IH]; intros i; simpl; [done|]. destruct (p x) eqn:E.
  - intros [= <-]. by exists [], x, l.
  - destruct (find_first p l) as [j|] eqn:Ej; simpl; [|done]. intros [= <-].
    destruct (IH j eq_refl) as (a & y & b & -> & <- & Hy & Ha). exists (x :: a), y, b.
    split_and!; [done|done|done|by constructor].
Qed.
Lemma strReplace_char c d s i :
  find_first (fun e => e =c c) (chars s) = Some i ->
  exists a b, chars s = a ++ c :: b /\ Forall (fun e => (e =c c) = false) a /\
    strReplace s (String c "") (String d "") = (true, of_chars (a ++ d :: b)).
Proof.
  intros H. unfold strReplace. rewrite sfind_char, H.
  destruct (find_first_split _ _ _ H) as (a & x & b & Hs & <- & Hx & Ha).
  apply Ascii.eqb_eq in Hx as ->. exists a, b. split_and!; [done|done|]. f_equal.
  rewrite <- (of_chars_chars (_ +:+ _)). f_equal. rewrite !chars_app. unfold take_str.
  rewrite substring_chars, drop_0, Hs, take_app_length. f_equal. simpl.
  f_equal.
  rewrite drop_str_chars by (rewrite <- length_chars, Hs, length_app; simpl; lia).
  rewrite Hs. replace (length a + 1)%nat with (length (a ++ [c])) by (rewrite length_app; done).
  change (c :: b) with ([c] ++ b). by rewrite app_assoc, drop_app_length.
Qed.
Definition count_char (c : ascii) (l : list ascii) : nat := length (List.filter (fun e => e =c c) l).
Lemma swap_none c d a : Forall (fun e => (e =c c) = false) a -> map (swap_char c d) a = a.
Proof. induction 1 as [|x a Hx Ha IH]; simpl; [done|]. unfold swap_char at 1. by rewrite Hx, IH. Qed.

Lemma strReplaceAll_char c d n s :
  c <> d -> (count_char c (chars s) < n)%nat ->
  strReplaceAll n s (String c "") (String d "") = Some (of_chars (map (swap_char c d) (chars s))).
Proof.
  intros Hcd. revert s. induction n as [|n IH]; intros s Hn; [lia|]. simpl.
  destruct (find_first (fun e => e =c c) (chars s)) as [i|] eqn:E.
  - destruct (strReplace_char c d s i E) as (a & b & Hs & Ha & ->).
    assert ((d =c c) = false) as Hd by (apply Ascii.eqb_neq; congruence).
    rewrite IH; rewrite chars_of_chars.
    + rewrite Hs, !map_app. do 3 f_equal. simpl. unfold swap_char at 1 3. unfold ceqb at 2.
      by rewrite Hd, Ascii.eqb_refl.
    + unfold count_char in *. rewrite Hs in Hn. rewrite !List.filter_app, !length_app in *. simpl in *.
      rewrite Hd. unfold ceqb at 2 in Hn. rewrite Ascii.eqb_refl in Hn. simpl in Hn. lia.
  - unfold strReplace. rewrite sfind_char, E. f_equal. rewrite swap_none; [by rewrite of_chars_chars|].
    rewrite find_first_None in E. apply Forall_forall. exact E.
Qed.

(** The replacement loop [while(strReplace(s, from, to) == 1)] over one character by
    another ends after at most one pass per occurrence and one more, and its result is the
    string with every occurrence replaced; so [hsrv::mySQLdate] of a date is the date with
    dashes for underscores. *)
Lemma replace_loop_terminates {P : Platform} date w :
  date <> "" ->
  strReplaceAll (S (count_char "_" (chars date))) date "_" "-" =
    Some (of_chars (map (swap_char "_" "-") (chars date))) /\
  mySQLdate date w = (of_chars (map (swap_char "_" "-") (chars date)), w).
Proof.
  intros Hd. split; [apply strReplaceAll_char; [done|lia]|].
  unfold mySQLdate. rewrite seqb_ne by done. simpl negb. cbv iota.
  rewrite strReplaceAll_char; [done|done|].
  rewrite <- length_chars. unfold count_char. pose proof (List.filter_length_le (fun e => e =c "_"%char) (chars date)). lia.
Qed.

(** The name of an instance is recovered from its configuration file: the stem of
    "dir/name.xml" is the name, for every name without a slash. *)
Lemma stem_of_config_file dir name :
  "/"%char ∉ chars name -> FilePath.getStem (dir +:+ "/" +:+ name +:+ ".xml") = name.
Proof.
  intros H. assert (FilePath.getTail (dir +:+ "/" +:+ name +:+ ".xml") = name +:+ ".xml") as Ht.
  { unfold FilePath.getTail, FilePath.find_last_of. rewrite chars_app.
    change (chars ("/" +:+ name +:+ ".xml")) with ("/"%char :: chars (name +:+ ".xml")).
    rewrite FilePath.last_index_app by (rewrite chars_app; simpl; set_solver).
    rewrite <- (of_chars_chars (drop_str _ _)), drop_str_chars by (rewrite !length_sapp, length_chars; simpl; lia).
    rewrite !chars_app. change (chars "/") with ["/"%char]. rewrite app_assoc.
    replace (length (chars dir) + 1)%nat with (length (chars dir ++ ["/"%char])) by (rewrite length_app; done).
    by rewrite drop_app_length, of_chars_app, !of_chars_chars. }
  pose proof (FilePath.getStem_xml name H) as Hs. unfold FilePath.getStem in *. rewrite Ht.
  assert (FilePath.getTail (name +:+ ".xml") = name +:+ ".xml") as Hn.
  { unfold FilePath.getTail, FilePath.find_last_of. rewrite FilePath.last_index_None; [apply FilePath.drop_str_0|].
    rewrite chars_app. simpl. set_solver. }
  rewrite Hn in Hs. rewrite !seqb_ne in * by (intros E; apply (f_equal String.length) in E; rewrite length_sapp in E; simpl in E; lia).
  exact Hs.
Qed.

(** ** Witnesses *)
Import Samples.Instances.

(** * Properties of messages and parameter sets (minilibs/MMessage.cpp, Mattribute.cpp, template.h) *)
Import MsgFacts.

(** ** Every message is well formed *)
(** The messages the public operations build. *)
Inductive built {XP : XmlParser} : MMessage -> Prop :=
| built_mk t st : built (Msg.mk t st)
| built_type m t : built m -> built (Msg.set_type m t)
| built_subtype m t : built m -> built (Msg.set_subtype m t)
| built_add m f v : built m -> built (Msg.add m f v)
| built_add_list m f v : built m -> built (Msg.add_list m f v).2
| built_remove m f : built m -> built (Msg.remove m f).2
| built_xmlDecode m s b m' : built m -> Msg.xmlDecode m s = Some (b, m') -> built m'
| built_xmlDecode_node m d : built m -> built (Msg.xmlDecode_node m d).2
| built_xmlAppend m s b m' : built m -> Msg.xmlAppend m s = Some (b, m') -> built m'
| built_htmlAppend m s : built m -> built (Msg.htmlAppend m s).

(** C39: in every message the operations can build, a field is a list or a single string
    with exactly one element, so [MstringList::add] never assigns past the end of an empty
    vector. *)
Theorem built_messages_wf {XP : XmlParser} m : built m -> wf m.
Proof.
  induction 1 as [| | | | |m f H IH|m s b m' H IH Hd|m d H IH|m s b m' H IH Hd|m s H IH]; auto with hat.
  - by apply wf_remove.
  - unfold Msg.xmlDecode in Hd. destruct (NextSibling _) as [[|n r]|]; simplify_eq/=; [done|].
    apply wf_fold; [by intros; apply wf_decode_field|apply wf_clear].
  - destruct d as [|n r]; [done|]. apply wf_fold; [by intros; apply wf_decode_field|apply wf_clear].
  - unfold Msg.xmlAppend in Hd. destruct (NextSibling _) as [[|n r]|]; simplify_eq/=; [done|].
    apply wf_fold; [by intros; apply wf_append_field|done].
  - by apply wf_html_loop.
Qed.

(** In a message of single strings, [add] then [getString] is a map update: the field
    written reads back the last value, every other field is unchanged, and the message keeps
    its type, subtype and shape. *)
Lemma message_add_getString m f v g :
  flat m ->
  Msg.getString (Msg.add m f v) g = (if f =s g then v else Msg.getString m g) /\
  mtype (Msg.add m f v) = mtype m /\ msubtype (Msg.add m f v) = msubtype m /\ flat (Msg.add m f v).
Proof.
  intros H. split_and!; [|apply mtype_add|apply msubtype_add|by apply flat_add].
  destruct (f =s g) eqn:E.
  - apply seqb_true in E as <-. by apply getString_add_flat.
  - apply seqb_false in E. by apply getString_add_ne.
Qed.

(** ** XML round trip *)
(** The element [MstringList::xmlEncode] and [MMessage::xmlEncode] write. *)
Definition item_node (v : string) : xnode := XElement "item" [("value", v)] [].
Definition field_node (kv : string * MstringList) : xnode :=
  if mytype kv.2 =s "Mstring"
  then XElement "field" [("name", kv.1); ("type", mytype kv.2); ("value", ML.getString kv.2)] []
  else XElement "field" [("name", kv.1); ("type", mytype kv.2)] (map item_node (items kv.2)).
Definition message_node (m : MMessage) : xnode :=
  XElement "message" [("type", mtype m); ("subtype", msubtype m)] (map field_node (map_items (fields m))).

(** What each overload makes of a field: the one on a node ([deep]) reads the items of a list
    from the first item, which has none. *)
Definition decoded (deep : bool) (l : MstringList) : MstringList :=
  if deep && (mytype l =s "MstringList") then ML.empty else l.

Lemma decode_item_nodes l : ML.decode_items (map item_node l) = (true, l).
Proof. induction l as [|v l IH]; simpl; [done|]. by rewrite IH. Qed.
Lemma decode_field_node deep m k l :
  ML.wf l -> Msg.decode_field deep m (field_node (k, l)) = Msg.assign m k (decoded deep l).
Proof.
  intros [[Ht [v Hi]]|Ht]; destruct l as [t is_]; simpl in *; subst; unfold field_node, decoded; simpl.
  - by rewrite andb_false_r.
  - unfold Msg.decode_field. simpl. f_equal. destruct deep; simpl.
    + by destruct is_ as [|v r].
    + by rewrite decode_item_nodes.
Qed.
Lemma decode_field_nodes deep l m :
  Forall (fun kv => ML.wf kv.2) l ->
  fold_left (Msg.decode_field deep) (map field_node l) m =
  Msg.set_fields m (fold_left (fun acc kv => <[kv.1 := decoded deep kv.2]> acc) l (fields m)).
Proof.
  revert m. induction l as [|[k v] l IH]; intros m H; simpl; [by destruct m|].
  apply Forall_cons_1 in H as [Hv Hl]. rewrite (decode_field_node deep m k v Hv), IH by done. done.
Qed.
Lemma fold_insert_lookup {V W} (g : V -> W) l (acc : gmap string W) k :
  NoDup l.*1 ->
  fold_left (fun acc kv => <[kv.1 := g kv.2]> acc) l acc !! k =
  match list_to_map (M := gmap string V) l !! k with Some v => Some (g v) | None => acc !! k end.
Proof.
  revert acc. induction l as [|[j v] l IH]; intros acc H; simpl; [by rewrite lookup_empty|].
  apply NoDup_cons in H as [Hj Hl]. rewrite IH by done.
  destruct (decide (j = k)) as [->|Hne].
  - rewrite not_elem_of_list_to_map_1 by done. by rewrite !lookup_insert_eq.
  - by rewrite !lookup_insert_ne.
Qed.
Lemma fold_map_items {V W} (g : V -> W) (f : gmap string V) :
  fold_left (fun acc kv => <[kv.1 := g kv.2]> acc) (map_items f) ∅ = g <$> f.
Proof.
  apply map_eq. intros k. rewrite fold_insert_lookup by apply map_items_NoDup_keys.
  assert (list_to_map (map_items f) = f) as ->.
  { rewrite (list_to_map_proper _ (map_to_list f)); [apply list_to_map_to_list|apply map_items_NoDup_keys|apply map_items_perm]. }
  rewrite lookup_fmap. by destruct (f !! k).
Qed.
Lemma decode_message_node deep m m0 :
  wf m ->
  fold_left (Msg.decode_field deep) (children (message_node m)) (Msg.clear m0) =
  Msg.set_fields m0 (decoded deep <$> fields m).
Proof.
  intros H. unfold message_node. simpl. rewrite decode_field_nodes; simpl.
  - by rewrite fold_map_items.
  - apply Forall_forall. intros [k v] Hk%elem_of_map_items. by apply (H k).
Qed.

(** With a parser that reads back the document [xmlEncode] writes, [xmlDecode] of the text
    of a well-formed message restores all its fields, single strings and lists; the type it
    restores is the subtype of the message, its own type being lost. *)
Lemma message_xml_roundtrip {XP : XmlParser} m m0 decl rest :
  wf m -> parse_document (Msg.xmlEncode m 1) = decl :: message_node m :: rest ->
  Msg.xmlDecode m0 (Msg.xmlEncode m 1) =
  Some (true, mkMsg (msubtype m) (msubtype m) (priority m0) (fields m)).
Proof.
  intros Hwf Hp. unfold Msg.xmlDecode. rewrite Hp. simpl. do 2 f_equal.
  change (map field_node (map_items (fields m))) with (children (message_node m)).
  rewrite decode_message_node by done. unfold Msg.set_fields. simpl. f_equal.
  rewrite <- (map_fmap_id (fields m)) at 2. apply map_fmap_ext. done.
Qed.

(** The overload of [xmlDecode] on a node, used for messages nested in other documents,
    restores the single strings of a well-formed message but empties each of its lists. *)
Lemma node_decode_empties_lists m m0 rest :
  wf m ->
  Msg.xmlDecode_node m0 (message_node m :: rest) =
  (true, mkMsg (msubtype m) (msubtype m) (priority m0)
    ((fun l => if mytype l =s "MstringList" then ML.empty else l) <$> fields m)).
Proof.
  intros Hwf. unfold Msg.xmlDecode_node. f_equal.
  change (child_attr (message_node m) "subtype") with (msubtype m).
  by rewrite decode_message_node.
Qed.

(** ** Parameter sets *)
(** [MParams::add] then [get] is a map update on (name, category): a non-empty value
    reads back, every other parameter is unchanged, and the paths of the set stay. *)
Lemma params_add_get p n c v n' c' :
  v <> "" ->
  Params.get_cat (Params.add_cat p n c v) n' c' =
    (if bool_decide ((n, c) = (n', c')) then v else Params.get_cat p n' c') /\
  path (Params.add_cat p n c v) = path p /\ pathh (Params.add_cat p n c v) = pathh p.
Proof.
  intros Hv. split.
  - case_bool_decide as E; [|by apply Params.get_cat_add_ne]. injection E as <- <-. by apply Params.get_cat_add_eq.
  - unfold Params.add_cat. by destruct (Params.has _ _ _).
Qed.

Section saving.
Context {XP : XmlParser}.

Lemma is_xml_text body : contains "xml" (first_word (Msg.xml_header +:+ body)) = true.
Proof. reflexivity. Qed.
Lemma params_file_is_xml p : contains "xml" (first_word (Params.xmlEncode p 1 +:+ Msg.endl)) = true.
Proof. apply is_xml_text. Qed.

(** A parameter set with a type, saved to its home file and loaded back by a parser that
    reads the document [xmlEncode] writes, has the same type, paths and attributes in the same
    order (categories other than "*", which reads as no category). *)
Lemma params_save_load p w decl rest :
  ty p <> "" -> Forall (fun a => category a <> "*") (attrs p) -> w_writable w (pathh p) = true ->
  parse_ok (Params.xmlEncode p 1 +:+ Msg.endl) = true ->
  load_document (Params.xmlEncode p 1 +:+ Msg.endl) = decl :: Params.node_of p :: rest ->
  result (Params.save p;; Params.load (mkParams (ty p) (path p) (pathh p) [])) w = Some (1, p).
Proof.
  intros Ht Hc Hw Hok Hp. rewrite result_bind. unfold Params.save, Params.xmlSave.
  pose proof (params_file_is_xml p) as Hx. set (txt := Params.xmlEncode p 1 +:+ Msg.endl) in *. clearbody txt.
  unfold write_file, result, final. rewrite Hw. simpl.
  unfold Params.load, is_file, Params.xmlLoad, isfile_type, read_file, mbind, M_bind, mret, M_ret. simpl.
  rewrite !lookup_insert_eq. cbn -[contains first_word]. rewrite lookup_insert_eq, Hx. cbn -[contains].
  rewrite lookup_insert_eq. simpl.
  rewrite Hok, Hp. simpl. f_equal. destruct p as [t pa ph l]. simpl in *. unfold Params.node_of. simpl.
  rewrite seqb_ne by done. simpl. do 2 f_equal.
  rewrite map_map. clear -Hc. induction Hc as [|a l Ha Hl IH]; simpl; [done|]. rewrite Params.of_node_of by done. by rewrite IH.
Qed.
End saving.

(** ** Witnesses *)
Import Samples.Instances.
Definition sample_message : MMessage :=
  (Msg.add_list (Msg.add (Msg.mk "event" "door") "value" "ON") "target" ["siren"; "lamp"]).2.
Lemma sample_message_wf : wf sample_message.
Proof. apply wf_add_list, wf_add, wf_mk. Qed.

Lemma built_messages_wf_witness : wf (Msg.add (Msg.mk "event" "door") "value" "ON").
Proof. apply built_messages_wf. apply built_add, built_mk. Defined.

(** * The texts the agents write, read back by the parser they are linked with (tinyxml, minilibs/MMessage.cpp, template.h) *)
Import MsgFacts.

(** C13: the parser ends on every text and on every file. *)
Theorem xml_parser_ends text : Tiny.Parse text <> NoFuel /\ Tiny.LoadFile text <> NoFuel.
Proof.
  assert (forall enc l, Tiny.Document_Parse enc l <> NoFuel) as H.
  { intros enc l E. pose proof (Document_runs enc l) as Hr. by rewrite E in Hr. }
  split; [apply H|]. unfold Tiny.LoadFile. destruct text; [done|apply H].
Qed.

(** ** Texts of the usual form *)
Definition all_clean (l : list string) : bool := forallb clean_text l.
Definition clean_list (k : string) (l : MstringList) : bool := all_clean (k :: items l).
Definition clean_message (m : MMessage) : Prop :=
  all_clean [mtype m; msubtype m] = true /\ map_Forall (fun k l => clean_list k l = true) (fields m).
Lemma chars_quote s : chars (quote s) = Tiny.DOUBLE_QUOTE :: chars s ++ [Tiny.DOUBLE_QUOTE].
Proof. unfold quote. rewrite chars_app. done. Qed.
Lemma chars_sconcat l : chars (sconcat l) = concat (map chars l).
Proof. induction l as [|s l IH]; [done|]. cbn. by rewrite chars_app, IH. Qed.
(** Attributes, each with the number of spaces less one before it. *)
Definition pair_of (a : nat * string * string) : string * string := (a.1.2, a.2).
Fixpoint attrs_of (l : list (nat * string * string)) : list ascii :=
  match l with
  | [] => []
  | (k, n, v) :: l' => repeat " "%char (S k) ++ chars n ++ "="%char :: Tiny.DOUBLE_QUOTE :: chars v ++ Tiny.DOUBLE_QUOTE :: attrs_of l'
  end.
Definition names_ok (l : list (string * string)) : bool := forallb (fun a => plain_name a.1) l && bool_decide (NoDup l.*1).
Lemma repeat_spaces k : spaces (repeat " "%char k) = true.
Proof. by induction k. Qed.
Lemma attrs_of_text l :
  names_ok (map pair_of l) = true -> all_clean (map snd l) = true -> attrs_text (map pair_of l) (attrs_of l).
Proof.
  intros [Hn Hd%bool_decide_eq_true]%andb_true_iff Hc. induction l as [|[[k n] v] l IH]; [constructor|].
  cbn in Hn, Hc, Hd. apply andb_true_iff in Hn as [Hn Hl]. apply andb_true_iff in Hc as [Hv Hc]. apply NoDup_cons in Hd as [Hd Hnd].
  apply (attrs_more (repeat " "%char (S k)) n v); [apply repeat_spaces|done..|by apply IH].
Qed.
Lemma nodes_text_concat {A} (f : A -> xnode) (t : A -> list ascii) l :
  Forall (fun a => node_text (f a) (t a)) l -> nodes_text (map f l) (concat (map t l)).
Proof. induction 1 as [|a l Ha Hl IH]; cbn; [by constructor|]. by apply (nodes_more []). Qed.

(** The characters of a text that is put together of quoted pieces. *)
Ltac flat_text := rewrite ?chars_app, ?chars_quote; cbn -[header]; repeat (rewrite <- app_assoc; cbn -[header]).

(** ** Messages *)
Lemma text_as x s' s : node_text x s' -> s' = s -> node_text x s.
Proof. by intros H <-. Qed.
Lemma item_text v : clean_text v = true -> node_text (item_node v) (chars ("<item value=" +:+ quote v +:+ "/>")).
Proof.
  intros Hv. apply (text_as _ (chars "<" ++ chars "item" ++ attrs_of [(0%nat, "value", v)] ++ [] ++ chars "/>")).
  - apply (node_closed "item" [("value", v)] (attrs_of [(0%nat, "value", v)]) []); [done| |done].
    apply (attrs_of_text [(0%nat, "value", v)]); [done|]. cbn -[clean_text]. by rewrite Hv.
  - by flat_text.
Qed.
Lemma field_text k l : ML.wf l -> clean_list k l = true -> node_text (field_node (k, l)) (chars (ML.xmlEncode l k)).
Proof.
  intros Hwf [Hk Hc]%andb_true_iff. unfold ML.xmlEncode, field_node, ML.field_tag. cbn [snd fst].
  destruct Hwf as [[Ht [v Hi]]|Ht]; rewrite Ht; destruct l as [t is_]; cbn -[clean_text] in *; subst.
  - cbn -[clean_text] in Hc. rewrite andb_true_r in Hc. rewrite seqb_refl. set (at_ := [(0%nat, "name", k); (0%nat, "type", "Mstring"); (1%nat, "value", v)]).
    apply (text_as _ (chars "<" ++ chars "field" ++ attrs_of at_ ++ [] ++ chars "/>")).
    + apply (node_closed "field" (map pair_of at_) (attrs_of at_)); [done| |done]. apply attrs_of_text; [done|]. cbn -[clean_text]. by rewrite Hk, Hc.
    + by flat_text.
  - rewrite (seqb_ne "MstringList" "Mstring") by done. set (at_ := [(0%nat, "name", k); (0%nat, "type", "MstringList")]).
    set (body := concat (map (fun v => chars ("<item value=" +:+ quote v +:+ "/>")) is_)).
    apply (text_as _ (chars "<" ++ chars "field" ++ attrs_of at_ ++ [] ++ chars ">" ++ body ++ chars "</" ++ chars "field" ++ chars ">")).
    + apply (node_open "field" (map pair_of at_) (attrs_of at_) []); [done| |done|].
      * apply attrs_of_text; [done|]. cbn -[clean_text]. by rewrite Hk.
      * apply nodes_text_concat, Forall_forall. intros v Hv. apply item_text. by apply (proj1 (forallb_forall clean_text is_) Hc), list_elem_of_In.
    + rewrite !chars_app, chars_sconcat, map_map. by flat_text.
Qed.
(** The text of a clean message, whatever white space follows it. *)
Lemma message_document m tail : wf m -> clean_message m -> spaces tail = true -> document_text (message_node m) (Msg.xmlEncode m 1 +:+ of_chars tail).
Proof.
  intros Hwf [Hc Hf] Hs. set (at_ := [(0%nat, "type", mtype m); (0%nat, "subtype", msubtype m)]).
  set (body := concat (map (fun kv => chars (ML.xmlEncode kv.2 kv.1)) (map_items (fields m)))).
  set (s := chars "<" ++ chars "message" ++ attrs_of at_ ++ [] ++ chars ">" ++ body ++ chars "</" ++ chars "message" ++ chars ">").
  assert (Msg.xmlEncode m 1 +:+ of_chars tail = header +:+ of_chars ([] ++ s ++ tail)) as ->.
  { rewrite <- (of_chars_chars (Msg.xmlEncode m 1 +:+ _)), <- (of_chars_chars (header +:+ _)). f_equal.
    unfold Msg.xmlEncode, Msg.open_tag. change (0 <? 1) with true. cbn iota. change Msg.xml_header with header.
    rewrite !chars_app, !chars_of_chars, chars_sconcat, map_map. unfold s. by flat_text. }
  apply document_of; [|done..]. apply (node_open "message" (map pair_of at_) (attrs_of at_) []); [done| |done|].
  - by apply attrs_of_text.
  - apply nodes_text_concat, Forall_forall. intros [k l] Hk%elem_of_map_items. by apply field_text; [apply (Hwf k)|apply (Hf k)].
Qed.
(** C7: a well-formed message whose texts are clean (no quotes, ampersands and zeros, no truncated multi-byte sequence), written
    as XML and read back by the parser of the agents, has all its fields again, single strings and lists; the type it reads is
    its subtype, its own type being lost. *)
Theorem message_text_roundtrip m m0 :
  wf m -> clean_message m ->
  Msg.xmlDecode (XP := tinyxml) m0 (Msg.xmlEncode m 1) =
  Some (true, mkMsg (msubtype m) (msubtype m) (priority m0) (fields m)).
Proof.
  intros Hwf Hc. apply (message_xml_roundtrip (XP := tinyxml) m m0 xml_declaration [] Hwf).
  pose proof (document_parses _ _ (message_document m [] Hwf Hc eq_refl)) as E. rewrite sapp_nil_r in E.
  unfold parse_document, tinyxml. by rewrite E.
Qed.

(** ** Parameter sets *)
Definition clean_attribute (a : MAttribute) : bool := all_clean [aname a; category a; avalue a].
Definition clean_params (p : MParams) : bool := clean_text (ty p) && forallb clean_attribute (attrs p).
Lemma attribute_text a : clean_attribute a = true -> node_text (Attr.node_of a) (chars (Attr.xmlEncode a 0)).
Proof.
  intros Hc. set (at_ := [(0%nat, "name", aname a); (0%nat, "category", category a); (0%nat, "value", avalue a)]).
  apply (text_as _ (chars "<" ++ chars "attribute" ++ attrs_of at_ ++ [] ++ chars "/>")).
  - apply (node_closed "attribute" (map pair_of at_) (attrs_of at_)); [done| |done]. by apply attrs_of_text.
  - unfold Attr.xmlEncode. change (0 <? 0) with false. cbn iota. by flat_text.
Qed.
Lemma params_document p tail :
  ty p <> "" -> clean_params p = true -> spaces tail = true -> document_text (Params.node_of p) (Params.xmlEncode p 1 +:+ of_chars tail).
Proof.
  intros Ht [Hc Hl]%andb_true_iff Hs. unfold Params.node_of. rewrite seqb_ne by done. set (at_ := [(0%nat, "type", ty p)]).
  set (body := concat (map (fun a => chars (Attr.xmlEncode a 0)) (attrs p))).
  set (s := chars "<" ++ chars "set" ++ attrs_of at_ ++ [] ++ chars ">" ++ body ++ chars "</" ++ chars "set" ++ chars ">").
  assert (Params.xmlEncode p 1 +:+ of_chars tail = header +:+ of_chars ([] ++ s ++ tail)) as ->.
  { rewrite <- (of_chars_chars (Params.xmlEncode p 1 +:+ _)), <- (of_chars_chars (header +:+ _)). f_equal.
    unfold Params.xmlEncode. change (0 <? 1) with true. cbn iota. change Msg.xml_header with header. rewrite seqb_ne by done.
    rewrite !chars_app, !chars_of_chars, chars_sconcat, map_map. unfold s. by flat_text. }
  apply document_of; [|done..]. apply (node_open "set" (map pair_of at_) (attrs_of at_) []); [done| |done|].
  - apply attrs_of_text; [done|]. cbn -[clean_text]. by rewrite Hc.
  - apply nodes_text_concat, Forall_forall. intros a Ha. apply attribute_text. by apply (proj1 (forallb_forall clean_attribute (attrs p)) Hl), list_elem_of_In.
Qed.
(** C21: a parameter set with a type, whose texts are clean and without carriage returns and whose categories are not the text
    for none, saved to its file in the home directory and loaded again by the parser of the agents is the same set: type,
    paths and attributes in their order. *)
Theorem saved_parameters_load_back p w :
  ty p <> "" -> clean_params p = true -> Tiny.CR ∉ chars (Params.xmlEncode p 1) ->
  Forall (fun a => category a <> "*") (attrs p) -> w_writable w (pathh p) = true ->
  result (Params.save p;; Params.load (XP := tinyxml) (mkParams (ty p) (path p) (pathh p) [])) w = Some (1, p).
Proof.
  intros Ht Hc Hcr Hcat Hw. pose proof (params_document p [Tiny.LF] Ht Hc eq_refl) as Hd.
  change (of_chars [Tiny.LF]) with Msg.endl in Hd.
  assert (Tiny.LoadFile (Params.xmlEncode p 1 +:+ Msg.endl) = Ran [xml_declaration; Params.node_of p] false) as E.
  { apply document_loads; [done|]. rewrite chars_app. intros [Hx|Hx]%elem_of_app; [done|]. by apply list_elem_of_singleton in Hx. }
  apply (params_save_load (XP := tinyxml) p w xml_declaration []); [done..| |]; unfold parse_ok, load_document, tinyxml; by rewrite E.
Qed.

(** ** Witnesses *)
Import Samples.Instances.
Lemma message_text_roundtrip_witness :
  Msg.xmlDecode Msg.dummy (Msg.xmlEncode sample_message 1) = Some (true, mkMsg "door" "door" 0 (fields sample_message)).
Proof.
  apply (message_text_roundtrip sample_message Msg.dummy sample_message_wf).
  split; [vm_compute; reflexivity|]. apply (bool_decide_unpack _). vm_compute. exact I.
Defined.
Definition network_set : MParams :=
  mkParams "agentnet" "/etc/hat/agentnet.xml" "/home/hat/agentnet.xml" [mkAttr "port" "generic" "8080"; mkAttr ("citt" +:+ String "195" (String "160" "")) "name" "Torino > 1 <2"].
Lemma saved_parameters_load_back_witness :
  result (Params.save network_set;; Params.load (mkParams "agentnet" "/etc/hat/agentnet.xml" "/home/hat/agentnet.xml" [])) (world_at early) = Some (1, network_set).
Proof.
  apply (saved_parameters_load_back network_set (world_at early)).
  - discriminate.
  - vm_compute. reflexivity.
  - apply (bool_decide_unpack _). vm_compute. exact I.
  - by repeat constructor.
  - reflexivity.
Defined.
(** An ampersand that begins no entity is dropped: the round trip needs its condition. *)
Example ampersand_is_dropped :
  Msg.xmlDecode Msg.dummy (Msg.xmlEncode (Msg.add (Msg.mk "event" "door") "name" "A & B") 1) =
  Some (true, Msg.add (Msg.mk "door" "door") "name" "A  B").
Proof. vm_compute. reflexivity. Qed.
