(* ===== verification/EventCounter.v ===== *)
(** * Event counters and boolean conditions (Manager/eventcounter.cpp,
    eventcounterset.cpp, BooleanCondition.cpp, BooleanConditionSet.cpp) *)
From S2P Require Import Prelude Doubles Hsrv Xml MMessage World MParams.

(** ** Class EvList: the recent events of a counter *)
Record Event := mkEvent { etime : double; esource : string; evideo : string }.

Module EvList.
(** [update] erases while it iterates: the element that follows an erased one
    takes its place and the loop steps over it. *)
Fixpoint update (time : double) (l : list Event) : Z * list Event :=
  match l with
  | [] => (0, [])
  | e :: l' =>
      if dltb (etime e) time then
        match l' with
        | [] => (1, [])
        | e2 :: l'' => let '(count, r) := update time l'' in (count + 1, e2 :: r)
        end
      else let '(count, r) := update time l' in (count, e :: r)
  end.
Definition plus_join (f : Event -> string) (l : list Event) : string :=
  fold_left (fun tmp e => (if tmp <>s "" then tmp +:+ "+" else tmp) +:+ f e) l "".
Definition history (l : list Event) : string := plus_join esource l.
Definition video (l : list Event) : string := plus_join evideo l.
End EvList.

(** ** Class DelayQueue: events held back for [delay] seconds *)
Record DelayQueue := mkDQ {
  dq_msgs : list MMessage; dq_delay : double; next_deadline : double; next_message : nat }.

Definition MAXDELAYQSZ : nat := 100.

Module DQ.
Section dq.
Context {P : Platform}.
Definition mk (d : string) : DelayQueue := mkDQ [] (a2double d) d0 0.

Fixpoint deadline_loop (l : list MMessage) (i : nat) (dl : double) (nm : nat) : double * nat :=
  match l with
  | [] => (dl, nm)
  | m :: l' =>
      let t := Msg.getDouble m "time" in
      if dltb t dl then deadline_loop l' (S i) t i else deadline_loop l' (S i) dl nm
  end.
Definition deadlineUpdate (q : DelayQueue) : DelayQueue :=
  let '(dl, nm) := deadline_loop (dq_msgs q) 0 dinf 0 in mkDQ (dq_msgs q) (dq_delay q) dl nm.

(** The message handed out, if any, and the queue left. *)
Definition messageGet (q : DelayQueue) : M (option MMessage * DelayQueue) :=
  if bool_decide (dq_msgs q = []) then mret (None, q) else
  t ← gettime;
  if dgeb t (next_deadline q) then
    let m := nth (next_message q) (dq_msgs q) Msg.dummy in
    t2 ← gettime;
    let m := Msg.add_double m "time" t2 in
    mret (Some m, deadlineUpdate
            (mkDQ (delete (next_message q) (dq_msgs q)) (dq_delay q) (next_deadline q) (next_message q)))
  else mret (None, q).

(** The flag, the queue and the caller's message, which gets its deadline. *)
Definition messageAppend (q : DelayQueue) (m : MMessage) : M (bool * DelayQueue * MMessage) :=
  if (MAXDELAYQSZ <? length (dq_msgs q))%nat then mret (false, q, m) else
  t ← gettime;
  let m := Msg.add m "time" (double2a (dadd t (dq_delay q))) in
  mret (true, deadlineUpdate (mkDQ (dq_msgs q ++ [m]) (dq_delay q) (next_deadline q) (next_message q)), m).

Definition clear (q : DelayQueue) : DelayQueue :=
  mkDQ [] (dq_delay q) (next_deadline q) (next_message q).
End dq.
End DQ.

(** ** Class EventCounter *)
Record EventCounter := mkEC {
  ec_params : MParams; ec_name : string;
  counter : double; dIncrement : double; dDecrement : double; ec_threshold : double;
  ec_alias : list string; ec_values : list string;
  last_time : double; current_time : double;
  ec_history : list Event; ec_comment : string; dq : option DelayQueue }.

#[export] Instance EventCounter_rebuild : Rebuild EventCounter := fun c =>
  mkEC (ec_params c) (ec_name c) (counter c) (dIncrement c) (dDecrement c) (ec_threshold c)
    (ec_alias c) (ec_values c) (last_time c) (current_time c) (ec_history c) (ec_comment c) (dq
    c).

Module EC.
Definition with_params (c : EventCounter) (p : MParams) : EventCounter := c <| ec_params := p |>.
Definition with_dq (c : EventCounter) (q : option DelayQueue) : EventCounter := c <| dq := q |>.
Definition with_counter (c : EventCounter) (v : double) : EventCounter := c <| counter := v |>.
Definition with_times (c : EventCounter) (last cur : double) : EventCounter :=
  c <| last_time := last |> <| current_time := cur |>.
Definition with_history (c : EventCounter) (h : list Event) (cm : string) : EventCounter :=
  c <| ec_history := h |> <| ec_comment := cm |>.

Definition isActive (c : EventCounter) : bool := dgeb (counter c) (ec_threshold c).
Definition getHistory (c : EventCounter) : string := EvList.history (ec_history c).
Definition getVideo (c : EventCounter) : string := EvList.video (ec_history c).
Definition getComment (c : EventCounter) : string := ec_comment c.

Section ec.
Context {P : Platform} {C : Config} {XP : XmlParser}.

(** The constructor: [None] when loading the file dereferences a null node. *)
Definition mk (dir nm : string) : M (option EventCounter) :=
  l ← Params.load (Params.mk2 dir nm);
  match l with
  | None => mret None
  | Some (_, p) =>
      t ← gettime;
      mret (Some (mkEC p (if Params.get p "name" =s "" then nm else Params.get p "name") d0
        (a2double (Params.get p "increment")) (a2double (Params.get p "decrement"))
        (a2double (Params.get p "threshold"))
        (NameList.of_string (Params.get p "alias") "+"%char) (NameList.of_string (Params.get p "accepted_values") "+"%char)
        t t [] ""
        (if Params.get p "delay" <>s "" then Some (DQ.mk (Params.get p "delay")) else None)))
  end.

Definition match_ (c : EventCounter) (m : MMessage) : bool :=
  let name := msubtype m in
  let source := Msg.getString m "source" in
  let value := Msg.getString m "value" in
  if negb (NameList.member (ec_values c) value) then false
  else (name =s ty (ec_params c)) || NameList.member (ec_alias c) name ||
       (Msg.getString m source =s ty (ec_params c)) || NameList.member (ec_alias c) source.

Definition Update (c : EventCounter) (m : MMessage) : M (double * EventCounter) :=
  let name := msubtype m in
  let source := Msg.getString m "source" in
  let cm := Msg.getString m "comment" in
  let video := Msg.getString m "video" in
  let source := if source =s "" then name else source in
  let c := with_counter c (dadd (counter c) (dIncrement c)) in
  t ← gettime;
  let e := if video <>s "" then mkEvent t source video else mkEvent t source "" in
  let c := with_history c (ec_history c ++ [e]) cm in
  mret (counter c, c).

(** The value returned, the counter, and the caller's message. *)
Definition eventUpdate (c : EventCounter) (in_ : MMessage) : M (double * EventCounter * MMessage) :=
  if negb (match_ c in_) then mret (d0, c, in_) else
  match dq c with
  | Some q =>
      '(_, q, in_) ← DQ.messageAppend q in_;
      '(got, q) ← DQ.messageGet q;
      let c := with_dq c (Some q) in
      match got with
      | None => mret (d0, c, in_)
      | Some m => '(v, c) ← Update c m; mret (v, c, in_)
      end
  | None => '(v, c) ← Update c in_; mret (v, c, in_)
  end.

Definition timeUpdate (c : EventCounter) : M (double * EventCounter) :=
  c ← match dq c with
      | None => mret c
      | Some q =>
          '(got, q) ← DQ.messageGet q;
          let c := with_dq c (Some q) in
          match got with
          | None => mret c
          | Some m => '(_, c) ← Update c m; t ← gettime; mret (with_times c t (current_time c))
          end
      end;
  now ← gettime;
  let v := dsub (counter c) (dmul (dsub now (last_time c)) (dDecrement c)) in
  let v := if dltb v d0 then d0 else v in
  let c := with_counter (with_times c now now) v in
  let memory := Params.get (ec_params c) "memory" in
  let memory := if memory =s "" then "10" else memory in
  let c := with_history c (EvList.update (dsub now (a2double memory)) (ec_history c)).2 (ec_comment c) in
  mret (counter c, c).

Definition clearDQ (c : EventCounter) : EventCounter := with_dq c (DQ.clear <$> dq c).

Definition observations (c : EventCounter) (obs : MParams) : MParams :=
  let nn := Params.get (ec_params c) "name" in
  fold_left (fun obs a => if nn <>s a then Params.add_cat obs a "observe" "event" else obs)
    (ec_alias c) (Params.add_cat obs nn "observe" "event").
End ec.
End EC.

(** ** Class EventCounterSet *)
Module ECSet.
Section ecset.
Context {P : Platform} {C : Config} {XP : XmlParser}.
(** The constructor on the list of files [FileManager::fileList] returns. *)
Definition mk (dir : string) (filelist : list string) : M (option (list EventCounter)) :=
  l ← mapM_M (fun f => EC.mk dir (FilePath.getStem f)) filelist; mret (mapM id l).
Fixpoint timeUpdate_loop (l : list EventCounter) (acc : double) : M (double * list EventCounter) :=
  match l with
  | [] => mret (acc, [])
  | c :: l' =>
      '(v, c) ← EC.timeUpdate c;
      '(acc, r) ← timeUpdate_loop l' (dadd acc v);
      mret (acc, c :: r)
  end.
Definition timeUpdate (l : list EventCounter) : M (bool * list EventCounter) :=
  '(v, l) ← timeUpdate_loop l d0; mret (dgtb v d0, l).
Fixpoint eventUpdate_loop (l : list EventCounter) (m : MMessage) (acc : double)
    : M (double * list EventCounter * MMessage) :=
  match l with
  | [] => mret (acc, [], m)
  | c :: l' =>
      '(v, c, m) ← EC.eventUpdate c m;
      '(acc, r, m) ← eventUpdate_loop l' m (dadd acc v);
      mret (acc, c :: r, m)
  end.
Definition eventUpdate (l : list EventCounter) (m : MMessage) : M (bool * list EventCounter * MMessage) :=
  '(_, l) ← timeUpdate l;
  '(v, l, m) ← eventUpdate_loop l m d0;
  mret (dgtb v d0, l, m).
Definition clearDQ (l : list EventCounter) : list EventCounter := map EC.clearDQ l.
Definition observations (l : list EventCounter) (obs : MParams) : MParams :=
  fold_left (fun obs c => EC.observations c obs) l obs.
End ecset.
End ECSet.

(** ** Class BooleanCondition *)
Record BooleanCondition := mkBC {
  bc_params : MParams; bc_name : string; bc_value : double; bc_threshold : double;
  bc_alias : list string; bc_last_time : double }.

#[export] Instance BooleanCondition_rebuild : Rebuild BooleanCondition := fun c =>
  mkBC (bc_params c) (bc_name c) (bc_value c) (bc_threshold c) (bc_alias c) (bc_last_time c).

Module BC.
Definition with_params (c : BooleanCondition) (p : MParams) : BooleanCondition := c <| bc_params := p |>.
Definition with_value (c : BooleanCondition) (v : double) : BooleanCondition := c <| bc_value := v |>.
Definition isActive (c : BooleanCondition) : bool := dgtb (bc_value c) (bc_threshold c).
Definition reset (c : BooleanCondition) : BooleanCondition := with_value c d0.
Section bc.
Context {P : Platform} {C : Config} {XP : XmlParser}.
Definition mk (dir nm : string) : M (option BooleanCondition) :=
  l ← Params.load (Params.mk2 dir nm);
  match l with
  | None => mret None
  | Some (_, p) =>
      t ← gettime;
      mret (Some (mkBC p (if Params.get p "name" =s "" then nm else Params.get p "name") d0
        (a2double (Params.get p "threshold")) (NameList.of_string (Params.get p "alias") "+"%char) t))
  end.
Definition match_ (c : BooleanCondition) (m : MMessage) : bool :=
  let name := msubtype m in
  let source := Msg.getString m "source" in
  (name =s ty (bc_params c)) || NameList.member (bc_alias c) name ||
  (Msg.getString m source =s ty (bc_params c)) || NameList.member (bc_alias c) source.
Definition eventUpdate (c : BooleanCondition) (m : MMessage) : double * BooleanCondition :=
  let c :=
    if match_ c m then
      let tvalue := Msg.getString m "value" in
      if (tvalue =s "ON") || (tvalue =s "On") || (tvalue =s "on") then with_value c d1
      else if (tvalue =s "OFF") || (tvalue =s "Off") || (tvalue =s "off") then with_value c d0
      else with_value c (a2double tvalue)
    else c in
  (bc_value c, c).
Definition observations (c : BooleanCondition) (obs : MParams) : MParams :=
  let nn := Params.get (bc_params c) "name" in
  fold_left (fun obs a => if nn <>s a then Params.add_cat obs a "observe" "event" else obs)
    (bc_alias c) (Params.add_cat obs nn "observe" "event").
End bc.
End BC.

Module BCSet.
Section bcset.
Context {P : Platform} {C : Config} {XP : XmlParser}.
Definition mk (dir : string) (filelist : list string) : M (option (list BooleanCondition)) :=
  l ← mapM_M (fun f => BC.mk dir (FilePath.getStem f)) filelist; mret (mapM id l).
Fixpoint eventUpdate_loop (l : list BooleanCondition) (m : MMessage) (acc : double)
    : double * list BooleanCondition :=
  match l with
  | [] => (acc, [])
  | c :: l' =>
      let '(v, c) := BC.eventUpdate c m in
      let '(acc, r) := eventUpdate_loop l' m (dadd acc v) in (acc, c :: r)
  end.
Definition eventUpdate (l : list BooleanCondition) (m : MMessage) : bool * list BooleanCondition :=
  let '(v, l) := eventUpdate_loop l m d0 in (dgtb v d0, l).
Definition observations (l : list BooleanCondition) (obs : MParams) : MParams :=
  fold_left (fun obs c => BC.observations c obs) l obs.
End bcset.
End BCSet.
