(* ===== verification/EventClaims.v ===== *)
(** * Properties of the event memory and of the delay queue (Manager/eventcounter.cpp) *)
From S2P Require Import Prelude Doubles Hsrv Xml MMessage World MParams Samples EventCounter.

(** ** The events a counter remembers *)
Definition fresh (time : double) (e : Event) : bool := negb (dltb (etime e) time).

(** Rule induction over [update], which may step over one element. *)
Lemma update_ind (Q : list Event -> Prop) :
  Q [] -> (forall e, Q [e]) -> (forall e e2 l, Q l -> Q (e2 :: l) -> Q (e :: e2 :: l)) -> forall l, Q l.
Proof.
  intros H0 H1 H2 l. cut (Q l /\ forall e, Q (e :: l)); [tauto|].
  induction l as [|e l [IH1 IH2]]; auto.
Qed.

(** [EvList::update] never drops an event that is still in memory and never reorders
    events: what remains is a sublist that contains every event not older than the limit,
    and the count returned is the number of events erased. *)
Lemma evlist_update_keeps time l :
  let '(count, l') := EvList.update time l in
  sublist l' l /\ List.filter (fresh time) l' = List.filter (fresh time) l /\
  count = Z.of_nat (length l) - Z.of_nat (length l').
Proof.
  induction l as [|e|e e2 l IH1 IH2] using update_ind.
  - done.
  - simpl. unfold fresh. destruct (dltb (etime e) time) eqn:E; simpl; rewrite ?E; simpl;
      (split_and!; [repeat constructor|done|lia]).
  - assert (fresh time e = negb (dltb (etime e) time)) as Hf by done.
    change (EvList.update time (e :: e2 :: l)) with
      (if dltb (etime e) time then let '(count, r) := EvList.update time l in (count + 1, e2 :: r)
       else let '(count, r) := EvList.update time (e2 :: l) in (count, e :: r)).
    destruct (dltb (etime e) time).
    + destruct (EvList.update time l) as [c r]. destruct IH1 as (H1 & H2 & H3).
      split_and!; [by repeat constructor| |simpl length; lia].
      cbn [List.filter]. by rewrite Hf, H2.
    + destruct (EvList.update time (e2 :: l)) as [c r]. destruct IH2 as (H1 & H2 & H3).
      split_and!; [by constructor| |simpl length in *; lia].
      cbn [List.filter] in *. rewrite Hf. by rewrite H2.
Qed.

(** ** The delay queue *)
Section delay.
Context {P : Platform}.

Definition due (m : MMessage) : double := Msg.getDouble m "time".
(** The cached deadline: in range, the earliest of the queue, and the deadline of the
    cached message unless no deadline is below infinity. *)
Definition dq_ok (q : DelayQueue) : Prop :=
  dq_msgs q <> [] ->
  (exists m, dq_msgs q !! next_message q = Some m /\ (next_deadline q = due m \/ next_deadline q = dinf)) /\
  Forall (fun m => dltb (due m) (next_deadline q) = false) (dq_msgs q).

Lemma deadline_loop_spec l i dl nm :
  let '(dl', nm') := DQ.deadline_loop l i dl nm in
  (dl' = dl /\ nm' = nm \/ dltb dl' dl = true /\ exists k m, l !! k = Some m /\ nm' = (i + k)%nat /\ dl' = due m) /\
  Forall (fun m => dltb (due m) dl' = false) l.
Proof.
  revert i dl nm. induction l as [|m l IH]; intros i dl nm; simpl; [naive_solver|].
  fold (due m). destruct (dltb (due m) dl) eqn:E.
  - specialize (IH (S i) (due m) i). destruct (DQ.deadline_loop l (S i) (due m) i) as [dl' nm'].
    destruct IH as [[[-> ->]|(Hlt & k & m' & Hk & -> & ->)] Hall].
    + split; [|by constructor; [apply dltb_irrefl|]]. right. split; [done|]. exists 0%nat, m. split_and!; done || lia.
    + split; [|constructor; [|done]].
      * right. split; [by eapply dltb_trans|]. exists (S k), m'. split_and!; [done|lia|done].
      * eapply dltb_false_trans; [apply dltb_irrefl|done].
  - specialize (IH (S i) dl nm). destruct (DQ.deadline_loop l (S i) dl nm) as [dl' nm'].
    destruct IH as [[[-> ->]|(Hlt & k & m' & Hk & -> & ->)] Hall].
    + split; [by left|]. by constructor.
    + split; [|constructor; [|done]].
      * right. split; [done|]. exists (S k), m'. split_and!; [done|lia|done].
      * by eapply dltb_false_trans.
Qed.
Lemma deadlineUpdate_ok q : dq_ok (DQ.deadlineUpdate q) /\ dq_msgs (DQ.deadlineUpdate q) = dq_msgs q /\
  dq_delay (DQ.deadlineUpdate q) = dq_delay q.
Proof.
  unfold DQ.deadlineUpdate. pose proof (deadline_loop_spec (dq_msgs q) 0 dinf 0) as H.
  destruct (DQ.deadline_loop (dq_msgs q) 0 dinf 0) as [dl nm]. split; [|done]. intros Hne. simpl in *.
  destruct H as [[[-> ->]|(Hlt & k & m & Hk & -> & ->)] Hall]; (split; [|done]).
  - destruct (dq_msgs q) as [|m l]; [done|]. exists m. auto.
  - exists m. auto.
Qed.

(** [DelayQueue::messageAppend] and [messageGet] keep the cached deadline right: it is
    in range and no held message is due earlier. *)
Lemma delay_queue_deadline_invariant q m w :
  (forall d, dq_ok (DQ.mk d)) /\
  (dq_ok q -> dq_ok (result (DQ.messageAppend q m) w).1.2 /\ dq_ok (result (DQ.messageGet q) w).2 /\ dq_ok (DQ.clear q)).
Proof.
  split; [by intros d []|]. intros Hq. split_and!.
  - unfold DQ.messageAppend. case_match; [done|]. rewrite result_bind, result_ret. apply deadlineUpdate_ok.
  - unfold DQ.messageGet. case_match; [done|]. rewrite result_bind. case_match; [|done].
    rewrite result_bind, result_ret. apply deadlineUpdate_ok.
  - by intros [].
Qed.

(** [DelayQueue::messageGet] on a queue whose cached deadline is right releases a message
    only when the clock has reached its deadline, releases one no other message precedes, and
    takes exactly that message out of the queue; otherwise the queue is unchanged. *)
Lemma delay_queue_release q w m q' :
  dq_ok q -> result (DQ.messageGet q) w = (Some m, q') ->
  exists i m0 t2,
    dq_msgs q !! i = Some m0 /\ m = Msg.add_double m0 "time" t2 /\ dq_msgs q' = delete i (dq_msgs q) /\
    dgeb (gettime_of (w_clock w (w_tick w))) (next_deadline q) = true /\
    (next_deadline q = due m0 \/ next_deadline q = dinf) /\
    Forall (fun m' => dltb (due m') (next_deadline q) = false) (dq_msgs q).
Proof.
  intros Hq. unfold DQ.messageGet. case_bool_decide as He; [done|].
  destruct (Hq He) as [(m0 & Hm0 & Hd) Hall]. rewrite result_bind.
  change (result gettime w) with (gettime_of (w_clock w (w_tick w))).
  destruct (dgeb _ (next_deadline q)) eqn:E; [|by intros [=]].
  rewrite result_bind, result_ret. intros [= <- <-].
  exists (next_message q), m0. eexists. split_and!; [done| | |done|done|done].
  - by rewrite (nth_lookup_Some _ _ _ _ Hm0).
  - by rewrite (proj1 (proj2 (deadlineUpdate_ok _))).
Qed.
End delay.

(** ** Witnesses *)
Import Samples.Instances.
Definition held (t : string) : MMessage := Msg.add (Msg.mk "event" "door") "time" t.
Definition sample_queue : DelayQueue := DQ.deadlineUpdate (mkDQ [held "9"; held "4"; held "7"] (d_of_Z 2) d0 0).

