(* ===== verification/Rule.v ===== *)
(** * Event rules (Manager/rule.cpp, ruleset.cpp)

    A rule fires when its program condition, its enabling conditions and enough
    of its event counters agree; firing appends an alarm message and one command
    per enabled action to the caller's vector.  The second part models timed rules
    (timedrule.cpp, timedruleset.cpp), which follow the clock. *)
From S2P Require Import Prelude Doubles Hsrv Xml MMessage World MParams EventCounter.

Record Rule := mkRule {
  r_params : MParams; r_name : string; r_alias : string; status : bool;
  condition : list string; enabling_true_condition : list string;
  enabling_false_condition : list string; action : list string;
  latentUntil : double; from : Z; to : Z; midnight : Z;
  mine_t_cond : Z; mine_f_cond : Z; mincond : Z;
  cycle : Z; reftime : Z; nextcyclestart : Z; cycleactive : bool;
  behavior : string;
  prcondition : bool; tcondition : bool; fcondition : bool; evcondition : bool;
  prcondition_time : double; tcondition_time : double; fcondition_time : double;
  evcondition_time : double }.

#[export] Instance Rule_rebuild : Rebuild Rule := fun r =>
  mkRule (r_params r) (r_name r) (r_alias r) (status r) (condition r) (enabling_true_condition
    r) (enabling_false_condition r) (action r) (latentUntil r) (from r) (to r) (midnight r)
    (mine_t_cond r) (mine_f_cond r) (mincond r) (cycle r) (reftime r) (nextcyclestart r)
    (cycleactive r) (behavior r) (prcondition r) (tcondition r) (fcondition r) (evcondition r)
    (prcondition_time r) (tcondition_time r) (fcondition_time r) (evcondition_time r).

(** The loop [while(next < reftime) next += cycle;] with fuel. *)
Fixpoint catch_up (fuel : nat) (next reftime cycle : Z) : Z :=
  match fuel with
  | O => next
  | S n => if next <? reftime then catch_up n (next + cycle) reftime cycle else next
  end.
Definition catch_up_fuel (next reftime : Z) : nat := S (Z.to_nat (reftime - next)).

(** The loop ends within its fuel at the first [next + k * cycle] that is not
    before [reftime]. *)
Lemma catch_up_spec fuel next reft cyc :
  0 < cyc -> (Z.to_nat (reft - next) < fuel)%nat ->
  let r := catch_up fuel next reft cyc in
  reft <= r /\ (exists k, 0 <= k /\ r = next + k * cyc) /\ (next < reft -> r < reft + cyc) /\
  (reft <= next -> r = next).
Proof.
  intros Hc. revert next. induction fuel as [|n IH]; intros next Hf; [lia|]. simpl.
  destruct (Z.ltb_spec next reft).
  - destruct (IH (next + cyc) ltac:(lia)) as (H1 & (k & Hk & H2) & H3 & H4).
    split; [done|]. split; [exists (k + 1); lia|]. split; [|lia]. intros _.
    destruct (Z.lt_ge_cases (next + cyc) reft); [by apply H3|]. rewrite H4 by done. lia.
  - split; [done|]. split; [exists 0; lia|]. split; lia.
Qed.

Module RuleM.
Definition with_params (r : Rule) (p : MParams) : Rule := r <| r_params := p |>.
Definition with_lists (r : Rule) (c et ef a : list string) : Rule :=
  r <| condition := c |> <| enabling_true_condition := et |> <| enabling_false_condition := ef |>
    <| action := a |>.
Definition with_mins (r : Rule) (t f c : Z) : Rule :=
  r <| mine_t_cond := t |> <| mine_f_cond := f |> <| mincond := c |>.
Definition with_validity (r : Rule) (f t m : Z) : Rule :=
  r <| from := f |> <| to := t |> <| midnight := m |>.
Definition with_cycle (r : Rule) (ref next : Z) (act : bool) : Rule :=
  r <| reftime := ref |> <| nextcyclestart := next |> <| cycleactive := act |>.
Definition with_pr (r : Rule) (b : bool) (t : double) : Rule :=
  r <| prcondition := b |> <| prcondition_time := t |>.
Definition with_t (r : Rule) (b : bool) (t : double) : Rule :=
  r <| tcondition := b |> <| tcondition_time := t |>.
Definition with_f (r : Rule) (b : bool) (t : double) : Rule :=
  r <| fcondition := b |> <| fcondition_time := t |>.
Definition with_ev (r : Rule) (b : bool) (t : double) : Rule :=
  r <| evcondition := b |> <| evcondition_time := t |>.
Definition with_latent (r : Rule) (l : double) (act : bool) : Rule :=
  r <| latentUntil := l |> <| cycleactive := act |>.

Definition get (r : Rule) (n : string) : string := Params.get (r_params r) n.

(** "ALL" in any of the three spellings the code accepts. *)
Definition is_all (a : string) : bool := (a =s "ALL") || (a =s "All") || (a =s "all").

Section rule.
Context {P : Platform} {C : Config} {XP : XmlParser}.

(** Initialise the name lists and the minimum counts.  As in the source, a
    value of "min_enabling_false_conditions" goes to [mine_t_cond]. *)
Definition init (r : Rule) : Rule :=
  let r := with_lists r (NameList.init (condition r) (get r "clause") "+"%char).2
             (NameList.init (enabling_true_condition r) (get r "enabling_true_condition") "+"%char).2
             (NameList.init (enabling_false_condition r) (get r "enabling_false_condition") "+"%char).2
             (NameList.init (action r) (get r "action") "+"%char).2 in
  let tmp := get r "min_enabling_true_conditions" in
  let mt := if tmp =s "" then Z.of_nat (length (enabling_true_condition r)) else a2int tmp in
  let tmp := get r "min_enabling_false_conditions" in
  let '(mt, mf) := if tmp =s "" then (mt, Z.of_nat (length (enabling_false_condition r)))
                   else (a2int tmp, mine_f_cond r) in
  let tmp := get r "min_conditions" in
  let mc := if (tmp =s "") || bool_decide (length (condition r) = 0%nat)
            then Z.of_nat (length (condition r)) else a2int tmp in
  with_mins r mt mf mc.

(** [setValidityTime(asfrom, asto)] *)
Definition setValidityTime (r : Rule) (asfrom asto : string) : M (bool * Rule) :=
  let tfrom := string2second asfrom in
  let tto := string2second asto in
  let r := with_validity r (from r) (to r) (string2second "24:00:00") in
  if (0 <=? tfrom) && (tfrom <? midnight r) && (0 <? tto) && (tto <=? midnight r) then
    let p := Params.add (Params.add (r_params r) "from" asfrom) "to" asto in
    let r := with_params (with_validity r tfrom tto (midnight r)) p in
    Params.save p;; mret (true, r)
  else mret (false, r).
(** [setValidityTime()]: the bounds of the configuration. *)
Definition setValidityTime_conf (r : Rule) : M (bool * Rule) :=
  let asfrom := get r "from" in
  let asto := get r "to" in
  let asfrom := if (asfrom =s "") || (asfrom =s "-INF") then "00:00:00" else asfrom in
  let asto := if (asto =s "") || (asto =s "INF") then "24:00:00" else asto in
  setValidityTime r asfrom asto.

Definition trunc_time (t : double) : Z := default indet_long (Z_of_d t).

(** The constructor; the members it leaves unset hold indeterminate values. *)
Definition mk (dir nm : string) : M (option Rule) :=
  l ← Params.load (Params.mk2 dir nm);
  match l with
  | None => mret None
  | Some (_, p) =>
      t ← gettime;
      let name := if Params.get p "name" =s "" then nm else Params.get p "name" in
      let r := mkRule p name "" false [] [] [] [] d0 (-1) (-1) (-1) indet_int indet_int indet_int
                 indet_long (trunc_time t) (-1) indet_bool "" false false indet_bool indet_bool
                 d0 d0 d0 indet_double in
      '(_, r) ← setValidityTime_conf r;
      let tmp := get r "cycle" in
      let cyc := if (tmp =s "INF") || (tmp =s "") then -1 else a2int tmp in
      let st := get r "status" =s "ON" in
      let bh := get r "mode" in
      let bh := if bh =s "" then "always" else bh in
      let al := get r "alias" in
      let al := if al =s "" then get r "action" +:+ "_" +:+ name else al in
      mret (Some (mkRule (r_params r) name al st [] [] [] [] d0 (from r) (to r) (midnight r)
                    indet_int indet_int indet_int cyc (reftime r) (-1) indet_bool bh
                    false false indet_bool indet_bool d0 d0 d0 indet_double))
  end.

(** [cycleUpdate]: due when the clock passes the next multiple of the cycle
    counted from midnight. *)
Definition cycleUpdate (r : Rule) : M (bool * Rule) :=
  t ← gettime;
  let ref := trunc_time t in
  if cycle r <=? 0 then mret (false, with_cycle r ref (nextcyclestart r) false)
  else if nextcyclestart r <? 0 then
    asc_time ← getasciitimeday;
    let start := ref - string2second asc_time in
    let next := catch_up (catch_up_fuel start ref) start ref (cycle r) in
    mret (false, with_cycle r ref next false)
  else if nextcyclestart r <=? ref then
    mret (true, with_cycle r ref (nextcyclestart r + cycle r) true)
  else mret (cycleactive r, with_cycle r ref (nextcyclestart r) (cycleactive r)).
Definition timeUpdate (r : Rule) : M (bool * Rule) := cycleUpdate r.

Definition isNotMember (r : Rule) (s : string) (active : list string) : bool :=
  if (behavior r =s "always") || (behavior r =s "programoff") then false
  else negb (existsb (fun a => (s =s a) || is_all a) active).
Definition isRuleActive (r : Rule) (active : list string) : bool :=
  if existsb is_all active then true
  else if existsb (fun c => isNotMember r c active) (condition r) then false
  else negb (isNotMember r (get r "alarm") active).

(** How many conditions of the given truth value are enabling ones. *)
Definition count_conditions (b : bool) (names : list string) (cnd : list BooleanCondition) : Z :=
  Z.of_nat (length (List.filter (fun c => Bool.eqb (BC.isActive c) b &&
    (0 <=? NameList.find names (Params.get (bc_params c) "name"))) cnd)).

(** The loop over the event counters: count, source, video and comment. *)
Definition scan_counters (r : Rule) (ec : list EventCounter) : Z * string * string * string :=
  fold_left (fun '(n, source, video, comment) c =>
    if EC.isActive c && (0 <=? NameList.find (condition r) (Params.get (ec_params c) "name")) then
      let source := if source <>s "" then source +:+ "+" else source in
      let comment := if comment <>s "" then comment +:+ ";" else comment in
      (n + 1, source +:+ EC.getHistory c, video +:+ EC.getVideo c, comment +:+ EC.getComment c)
    else (n, source, video, comment)) ec (0, "", "", "").

(** [answer[i].add(f, v)]; the index is always in range, the vector having
    at least [i + 1] elements after the push. *)
Definition add_at (i : nat) (f v : string) (answer : list MMessage) : list MMessage :=
  alter (fun m => Msg.add m f v) i answer.

(** The messages of a rule that fires.  [i] counts from 0 whatever the vector
    already holds, as in the source. *)
Fixpoint push_actions (r : Rule) (active : list string) (source comment : string)
    (acts : list string) (i : nat) (answer : list MMessage) : list MMessage :=
  match acts with
  | [] => answer
  | a :: acts' =>
      if negb (isNotMember r a active) then
        let answer := answer ++ [Msg.mk "rlcmd" "todo"] in
        let answer := add_at i "action" a answer in
        let answer := add_at i "value" "ON" answer in
        let answer := add_at i "source" source answer in
        let answer := add_at i "comment" comment answer in
        push_actions r active source comment acts' (S i) answer
      else push_actions r active source comment acts' i answer
  end.
Definition push_answer (r : Rule) (active : list string) (source video comment : string)
    (answer : list MMessage) : list MMessage :=
  let answer := answer ++ [Msg.mk "alarm" (get r "alarm")] in
  let answer := add_at 0 "alarm" (get r "alarm") answer in
  let answer := add_at 0 "source" source answer in
  let answer := if video <>s "" then add_at 0 "video" video answer else answer in
  let answer := add_at 0 "comment" comment answer in
  push_actions r active source comment (action r) 1 answer.

(** The guards before the event counters: [inl] a rule that stops there,
    [inr] a rule whose program and enabling conditions hold. *)
Definition program_guard (now : double) (active : list string) (prgstatus : bool) (r : Rule) : Rule + Rule :=
  if negb (status r) then inl r
  else if (behavior r =s "programon") && negb (isRuleActive r active) then
    inl (if negb prgstatus then with_pr r false (prcondition_time r) else r)
  else if (behavior r =s "programon") && negb prgstatus then inl (with_pr r false (prcondition_time r))
  else if (behavior r =s "programoff") && prgstatus then inl (with_pr r false (prcondition_time r))
  else inr (if negb (prcondition r) then with_pr r true now else r).
Definition true_guard (now : double) (cnd : option (list BooleanCondition)) (r : Rule) : Rule + Rule :=
  let short := match cnd with
               | Some l => (0 <? length (enabling_true_condition r))%nat &&
                           (count_conditions true (enabling_true_condition r) l <? mine_t_cond r)
               | None => false
               end in
  if short then inl (with_t r false (tcondition_time r))
  else inr (if negb (tcondition r) then with_t r true now else r).
Definition false_guard (now : double) (cnd : option (list BooleanCondition)) (r : Rule) : Rule + Rule :=
  let short := match cnd with
               | Some l => (0 <? length (enabling_false_condition r))%nat &&
                           (count_conditions false (enabling_false_condition r) l <? mine_f_cond r)
               | None => false
               end in
  if short then inl (with_f r false (fcondition_time r))
  else inr (if negb (fcondition r) then with_f r true now else r).

(** The decision after the counters have been scanned. *)
Definition fire (now : double) (active : list string) (ec : list EventCounter) (r : Rule)
    (answer : list MMessage) : bool * Rule * list MMessage :=
  let '(n, source, video, comment) := scan_counters r ec in
  let r := if mincond r <=? n then with_ev r true now else with_ev r false (evcondition_time r) in
  if negb (evcondition r) && negb (cycleactive r) then (false, r, answer)
  else if (0 <? mincond r) && dltb now (latentUntil r) then (false, r, answer)
  else if (mincond r =? 0) && negb (cycleactive r) && dltb (prcondition_time r) now &&
          dltb (tcondition_time r) now && dltb (fcondition_time r) now then (false, r, answer)
  else
    let latency := get r "latency" in
    let lat := if (0 <? mincond r) && (cycle r <=? 0) && (latency <>s "")
               then dadd now (d_of_Z (a2int latency)) else latentUntil r in
    let r := with_latent r lat false in
    (true, r, push_answer r active source video comment answer).

Definition match_at (now : double) (active : list string) (prgstatus : bool)
    (ec : list EventCounter) (cnd : option (list BooleanCondition)) (r : Rule)
    (answer : list MMessage) : bool * Rule * list MMessage :=
  match program_guard now active prgstatus r with
  | inl r => (false, r, answer)
  | inr r =>
      match true_guard now cnd r with
      | inl r => (false, r, answer)
      | inr r =>
          match false_guard now cnd r with
          | inl r => (false, r, answer)
          | inr r => fire now active ec r answer
          end
      end
  end.
Definition match_ (active : list string) (prgstatus : bool) (ec : list EventCounter)
    (cnd : option (list BooleanCondition)) (r : Rule) (answer : list MMessage)
    : M (bool * Rule * list MMessage) :=
  now ← gettime; mret (match_at now active prgstatus ec cnd r answer).

Definition subjects (r : Rule) (subj : MParams) : MParams :=
  Params.add_cat subj (get r "alarm") "subject" "alarm".

(** [setStatus] changes the parameters and their file, not the member [status]. *)
Definition setStatus (r : Rule) (rstatus : string) : M (bool * Rule) :=
  let p := Params.add (r_params r) "status" (if rstatus =s "ON" then rstatus else "OFF") in
  Params.save p;; mret (true, with_params r p).

Definition isActive (r : Rule) : M (bool * Rule) :=
  '(_, r) ← (if (to r <? 0) || (from r <? 0) then setValidityTime_conf r else mret (true, r));
  if (from r <? 0) || (to r <? 0) then mret (true, r)
  else if (from r =? 0) && (to r =? midnight r) then mret (true, r)
  else
    asc_time ← getasciitimeday;
    let c_time := string2second asc_time in
    mret ((if from r <? to r then (from r <=? c_time) && (c_time <=? to r)
           else ((from r <=? c_time) && (c_time <=? midnight r)) ||
                ((0 <=? c_time) && (c_time <=? to r))), r).
End rule.
End RuleM.

(** ** Class RuleSet *)
Record RuleSet := mkRS { rules : list Rule; wait_until : double; wforbid : double }.
#[export] Instance RuleSet_rebuild : Rebuild RuleSet := fun s =>
  mkRS (rules s) (wait_until s) (wforbid s).

Module RS.
Definition with_rules (s : RuleSet) (l : list Rule) : RuleSet := s <| rules := l |>.
Section rs.
Context {P : Platform} {C : Config} {XP : XmlParser}.

(** The second loop of the constructor: each rule is loaded again and initialised. *)
Definition reload (r : Rule) : M (option Rule) :=
  l ← Params.load (r_params r);
  mret ((fun '(_, p) => RuleM.init (RuleM.with_params r p)) <$> l).
(** The constructor on the list of files [FileManager::fileList] returns; it
    leaves [wforbid] unset. *)
Definition mk (dir : string) (filelist : list string) : M (option RuleSet) :=
  l ← mapM_M (fun f => RuleM.mk dir (FilePath.getStem f)) filelist;
  match mapM id l with
  | None => mret None
  | Some l =>
      l ← mapM_M reload l;
      t ← gettime;
      mret ((fun l => mkRS l t indet_double) <$> mapM id l)
  end.

Fixpoint match_loop (l : list Rule) (active : list string) (prg : bool) (ec : list EventCounter)
    (cnd : option (list BooleanCondition)) (counter : Z) (action : list MMessage)
    : M (Z * list Rule * list MMessage) :=
  match l with
  | [] => mret (counter, [], action)
  | r :: l' =>
      '(b, r, action) ← RuleM.match_ active prg ec cnd r action;
      '(counter, l', action) ← match_loop l' active prg ec cnd (if b : bool then counter + 1 else counter) action;
      mret (counter, r :: l', action)
  end.
Definition match_ (s : RuleSet) (ec : list EventCounter) (cnd : option (list BooleanCondition))
    (action : list MMessage) (active : list string) (program_status : bool)
    : M (Z * RuleSet * list MMessage) :=
  '(n, l, action) ← match_loop (rules s) active program_status ec cnd 0 action;
  mret (n, with_rules s l, action).

Definition isNotMember (s : string) (active : list string) : bool := negb (existsb (seqb s) active).
Definition isAntecedentOn (r : Rule) (active : list string) : bool :=
  forallb (fun a => negb (isNotMember a active)) (NameList.of_string (RuleM.get r "clause") "+"%char).
Definition isON (s : RuleSet) (r : Rule) (active : list string) (program_status : bool) : M (bool * Rule) :=
  '(act, r) ← RuleM.isActive r;
  if negb act then mret (false, r)
  else if RuleM.get r "status" <>s "ON" then mret (false, r)
  else if RuleM.get r "mode" =s "always" then mret (true, r)
  else if RuleM.get r "mode" =s "program" then mret (program_status, r)
  else if negb program_status then mret (false, r)
  else
    waiting ← (if RuleM.get r "mode" =s "program_wait" then t ← gettime; mret (dltb t (wait_until s))
               else mret false);
    if waiting : bool then mret (false, r)
    else if bool_decide (active = []) then mret (false, r)
    else if existsb RuleM.is_all active then mret (true, r)
    else if isNotMember (RuleM.get r "alarm") active then mret (false, r)
    else mret (isAntecedentOn r active, r).

Definition setWait (s : RuleSet) : M (double * RuleSet) :=
  t ← gettime; mret (t, mkRS (rules s) t t).
Definition setWait1 (s : RuleSet) (wt : string) : M (double * RuleSet) :=
  t ← gettime;
  let w := dadd (a2double wt) t in mret (w, mkRS (rules s) w w).
Definition setWait2 (s : RuleSet) (wt wf : string) : M (double * RuleSet) :=
  t ← gettime;
  if dltb t (wforbid s) then mret (d0, s)
  else
    t ← gettime;
    let w := dadd (a2double wt) t in
    let f := if (wf <>s "") && (wf <>s "-1") then dadd w (a2double wf) else dadd w dinf in
    mret (w, mkRS (rules s) w f).

Definition subjects (s : RuleSet) (subj : MParams) : MParams :=
  fold_left (fun subj r => RuleM.subjects r subj) (rules s) subj.

(** Apply [f] to the first rule with that name or alias. *)
Fixpoint on_first (f : Rule -> M (bool * Rule)) (name : string) (l : list Rule) : M (bool * list Rule) :=
  match l with
  | [] => mret (false, [])
  | r :: l' =>
      if (r_name r =s name) || (r_alias r =s name) then
        '(b, r) ← f r; mret (b, r :: l')
      else '(b, l') ← on_first f name l'; mret (b, r :: l')
  end.
Definition setStatus (s : RuleSet) (name rstatus : string) : M (bool * RuleSet) :=
  '(b, l) ← on_first (fun r => RuleM.setStatus r rstatus) name (rules s); mret (b, with_rules s l).
Definition setValidityTime (s : RuleSet) (name from to : string) : M (bool * RuleSet) :=
  '(b, l) ← on_first (fun r => RuleM.setValidityTime r from to) name (rules s); mret (b, with_rules s l).
Definition timeUpdate (s : RuleSet) : M (bool * RuleSet) :=
  l ← mapM_M (fun r => '(_, r) ← RuleM.timeUpdate r; mret r) (rules s);
  mret (true, with_rules s l).
End rs.
End RS.

(** * Timed rules (Manager/timedrule.cpp, timedruleset.cpp)

    A timed rule switches its "set" actions on inside a daily interval and its
    "reset" actions when the interval, the program or a condition ends; a cyclic
    rule repeats its "set" actions.  [active] and [exec] are flags of the class. *)

Record TimedRule := mkTR {
  tr_params : MParams; tr_name : string; tr_alias : string;
  tr_status : bool; enabling_condition : list string; tr_behavior : string;
  tr_reftime : Z; c_time : Z; tr_from : Z; tr_to : Z; tr_cycle : Z;
  tr_nextcyclestart : Z; tr_midnight : Z; tr_active : bool; tr_exec : bool }.
#[export] Instance TimedRule_rebuild : Rebuild TimedRule := fun r =>
  mkTR (tr_params r) (tr_name r) (tr_alias r) (tr_status r) (enabling_condition r)
    (tr_behavior r) (tr_reftime r) (c_time r) (tr_from r) (tr_to r) (tr_cycle r)
    (tr_nextcyclestart r) (tr_midnight r) (tr_active r) (tr_exec r).

Module TR.
Definition get (r : TimedRule) (n : string) : string := Params.get (tr_params r) n.

Definition isInRange (t from to : Z) : bool :=
  if (from <? t) && (to <? 0) then true else (from <=? t) && (t <=? to).

Definition is_none (a : string) : bool := (a =s "none") || (a =s "NONE") || (a =s "None").
Definition action_message (r : TimedRule) (a : string) : MMessage :=
  Msg.add (Msg.add (Msg.add (Msg.add (Msg.mk "rlcmd" "todo") "action" a) "source" "timer")
    "value" "ON") "comment" (get r "comment").
(** [makeAction(mode, res)] *)
Definition makeAction (r : TimedRule) (mode : bool) (res : list MMessage) : list MMessage :=
  let actions := NameList.of_string (get r (if mode then "set" else "reset")) "+"%char in
  res ++ map (action_message r) (List.filter (fun a => negb (is_none a)) actions).

(** [cflag[k]] is set by an active condition whose name is first found at [k]. *)
Definition flag_set (names : list string) (cnd : list BooleanCondition) (i : nat) : bool :=
  existsb (fun c => BC.isActive c &&
    (NameList.find names (Params.get (bc_params c) "name") =? Z.of_nat i)) cnd.
Definition checkCondition (r : TimedRule) (cnd : option (list BooleanCondition)) : bool :=
  match cnd with
  | None => true
  | Some l => forallb (flag_set (enabling_condition r) l) (seq 0 (length (enabling_condition r)))
  end.

Definition checkProgramName (r : TimedRule) (program_name : string) : bool :=
  let program := get r "active_for_program" in
  (program =s "") || (program =s "ALL") || (program =s program_name).

Definition is_timed (r : TimedRule) : bool := (tr_behavior r =s "timed") || (tr_behavior r =s "program_timed").
Definition is_cyclic (r : TimedRule) : bool := (tr_behavior r =s "cyclic") || (tr_behavior r =s "program_cyclic").
Definition init (r : TimedRule) : TimedRule :=
  r <| enabling_condition := (NameList.init (enabling_condition r) (get r "enabling_condition") "&"%char).2 |>.

Section tr.
Context {P : Platform} {C : Config} {XP : XmlParser}.

(** [cycleUpdate]: the value of the paths that return one; its caller ignores it.
    The second block is reached when the first falls through. *)
Definition cycleUpdate (r : TimedRule) : M (option bool * TimedRule) :=
  t ← gettime;
  let r := r <| tr_reftime := RuleM.trunc_time t |> in
  if is_timed r && (0 <? tr_cycle r) then
    if tr_nextcyclestart r <? 0 then
      mret (Some true, r <| tr_nextcyclestart := tr_reftime r + tr_cycle r |> <| tr_exec := true |>)
    else if tr_nextcyclestart r <? tr_reftime r then
      mret (Some true, r <| tr_nextcyclestart := tr_nextcyclestart r + tr_cycle r |> <| tr_exec := true |>)
    else mret (None, r)
  else if is_cyclic r && (0 <? tr_cycle r) then
    if tr_nextcyclestart r <? 0 then
      asc_time ← getasciitimeday;
      let start := tr_reftime r - string2second asc_time in
      mret (Some false, r <| tr_nextcyclestart := catch_up (catch_up_fuel start (tr_reftime r)) start (tr_reftime r) (tr_cycle r) |>
                          <| tr_exec := false |>)
    else if tr_nextcyclestart r <? tr_reftime r then
      mret (Some true, r <| tr_nextcyclestart := tr_nextcyclestart r + tr_cycle r |> <| tr_exec := true |>)
    else mret (None, r)
  else mret (None, r).

(** The two modes with a state: on while [hold], off otherwise. *)
Definition switch (r : TimedRule) (hold : bool) (res : list MMessage) : TimedRule * list MMessage :=
  if hold then
    if tr_exec r || negb (tr_active r) then (r <| tr_active := true |>, makeAction r true res)
    else (r, res)
  else if tr_active r then (r <| tr_active := false |>, makeAction r false res)
  else (r, res).

(** The rest of [timeUpdate], after the clock, [exec] and the status are set. *)
Definition decide_at (r : TimedRule) (program_name : string) (program : bool)
    (cnd : option (list BooleanCondition)) (res : list MMessage) : bool * TimedRule * list MMessage :=
  let in_range := isInRange (c_time r) (tr_from r) (tr_to r) in
  if negb (tr_status r) then
    let '(r, res) := switch r false res in (false, r, res)
  else if tr_behavior r =s "timed" then
    let '(r, res) := switch r (in_range && checkCondition r cnd) res in (true, r, res)
  else if tr_behavior r =s "program_timed" then
    let '(r, res) := switch r (checkProgramName r program_name && program && in_range && checkCondition r cnd) res in
    (true, r, res)
  else if (tr_behavior r =s "cyclic") && checkCondition r cnd && (tr_exec r && in_range) then
    (true, r, makeAction r true res)
  else if (tr_behavior r =s "program_cyclic") && checkCondition r cnd &&
          (checkProgramName r program_name && tr_exec r && program && in_range) then
    (true, r, makeAction r true res)
  else (false, r, res).

Definition timeUpdate (r : TimedRule) (program_name : string) (program : bool)
    (cnd : option (list BooleanCondition)) (res : list MMessage) : M (bool * TimedRule * list MMessage) :=
  asc_time ← getasciitimeday;
  let s := string2second asc_time in
  '(_, r) ← cycleUpdate (r <| tr_reftime := s |> <| c_time := s |> <| tr_exec := false |>);
  let r := r <| tr_status := get r "status" =s "ON" |> in
  mret (decide_at r program_name program cnd res).

Definition setStatus (r : TimedRule) (rstatus : string) : M (bool * TimedRule) :=
  let p := Params.add (tr_params r) "status" (if rstatus =s "ON" then rstatus else "OFF") in
  Params.save p;; mret (true, r <| tr_params := p |>).

Definition setValidityTime (r : TimedRule) (asfrom asto : string) : M (bool * TimedRule) :=
  let tfrom := string2second asfrom in
  let tto := string2second asto in
  let r := r <| tr_midnight := string2second "24:00:00" |> in
  if (0 <=? tfrom) && (tfrom <? tr_midnight r) && (0 <? tto) && (tto <=? tr_midnight r) then
    let p := Params.add (Params.add (tr_params r) "from" asfrom) "to" asto in
    let r := r <| tr_from := tfrom |> <| tr_to := tto |> <| tr_params := p |> in
    Params.save p;;
    log_info (get r "name" +:+ " VTIME: " +:+ int2a tfrom +:+ " " +:+ int2a tto);;
    mret (true, r)
  else mret (false, r).
Definition setValidityTime_conf (r : TimedRule) : M (bool * TimedRule) :=
  let asfrom := get r "from" in
  let asto := get r "to" in
  let asfrom := if (asfrom =s "") || (asfrom =s "-INF") then "00:00:00" else asfrom in
  let asto := if (asto =s "") || (asto =s "INF") then "24:00:00" else asto in
  setValidityTime r asfrom asto.
Definition setActionList (r : TimedRule) (setlist resetlist : string) : M (bool * TimedRule) :=
  let p := tr_params r in
  let p := if setlist <>s "" then Params.add p "set" setlist else p in
  let p := if resetlist <>s "" then Params.add p "reset" resetlist else p in
  Params.save p;; mret (true, r <| tr_params := p |>).

(** The constructor.  [from], [to] and [midnight] are indeterminate until
    [setValidityTime] accepts the bounds. *)
Definition mk (dir nm : string) : M (option TimedRule) :=
  l ← Params.load (Params.mk2 dir nm);
  match l with
  | None => mret None
  | Some (_, p) =>
      let name := if Params.get p "name" =s "" then nm else Params.get p "name" in
      let al := Params.get p "alias" in
      let al := if al =s "" then Params.get p "set" +:+ "_" +:+ Params.get p "reset" else al in
      let r := mkTR p name al indet_bool [] (Params.get p "mode") indet_long indet_int indet_int indet_int
                 indet_long indet_long indet_int indet_bool indet_bool in
      '(_, r) ← setValidityTime_conf r;
      let tmp := get r "cycle" in
      let cyc := if (tmp =s "INF") || (tmp =s "") then -1 else a2int tmp in
      asc_time ← getasciitimeday;
      t ← gettime;
      mret (Some (init (r <| tr_cycle := cyc |> <| tr_status := get r "status" =s "ON" |>
        <| c_time := string2second asc_time |> <| tr_reftime := RuleM.trunc_time t |>
        <| tr_active := false |> <| tr_nextcyclestart := -1 |> <| tr_exec := false |>)))
  end.
(** [subjects] adds nothing. *)
Definition subjects (r : TimedRule) (subj : MParams) : MParams := subj.
End tr.
End TR.

(** ** Class TimedRuleSet *)
Module TRSet.
Section trset.
Context {P : Platform} {C : Config} {XP : XmlParser}.
(** The constructor on the list of files [FileManager::fileList] returns. *)
Definition mk (dir : string) (filelist : list string) : M (option (list TimedRule)) :=
  l ← mapM_M (fun f => TR.mk dir (FilePath.getStem f)) filelist;
  mret (mapM id l).
Fixpoint timeUpdate_loop (l : list TimedRule) (program_name : string) (program : bool)
    (cnd : option (list BooleanCondition)) (res : list MMessage) : M (list TimedRule * list MMessage) :=
  match l with
  | [] => mret ([], res)
  | r :: l' =>
      '(_, r, res) ← TR.timeUpdate r program_name program cnd res;
      '(l', res) ← timeUpdate_loop l' program_name program cnd res;
      mret (r :: l', res)
  end.
Definition timeUpdate (l : list TimedRule) (program_name : string) (program : bool)
    (cnd : option (list BooleanCondition)) (res : list MMessage) : M (bool * list TimedRule * list MMessage) :=
  match l with
  | [] => mret (false, l, res)
  | _ => '(l, res') ← timeUpdate_loop l program_name program cnd res;
         mret ((length res <? length res')%nat, l, res')
  end.
Fixpoint on_first (q : TimedRule -> bool) (f : TimedRule -> M (bool * TimedRule)) (l : list TimedRule)
    : M (bool * list TimedRule) :=
  match l with
  | [] => mret (false, [])
  | r :: l' =>
      if q r then '(b, r) ← f r; mret (b, r :: l')
      else '(b, l') ← on_first q f l'; mret (b, r :: l')
  end.
Definition by_name (name : string) (r : TimedRule) : bool := (tr_name r =s name) || (tr_alias r =s name).
Definition setStatus (l : list TimedRule) (name rstatus : string) : M (bool * list TimedRule) :=
  on_first (by_name name) (fun r => TR.setStatus r rstatus) l.
Definition setValidityTime (l : list TimedRule) (name from to : string) : M (bool * list TimedRule) :=
  on_first (by_name name) (fun r => TR.setValidityTime r from to) l.
Definition setActionList (l : list TimedRule) (name setlist resetlist : string) : M (bool * list TimedRule) :=
  on_first (fun r => tr_name r =s name) (fun r => TR.setActionList r setlist resetlist) l.
Definition subjects (l : list TimedRule) (subj : MParams) : MParams :=
  fold_left (fun s r => TR.subjects r s) l subj.
End trset.
End TRSet.
