(* ===== verification/RuleClaims.v ===== *)
(** * What the rules guarantee: when a rule fires, what it sends, and its timetable *)
From S2P Require Import Prelude Doubles Hsrv Xml MMessage World MParams Samples EventCounter Rule.

(** ** The messages of one firing *)
Definition alarm_message (alarm source video comment : string) : MMessage :=
  let m := Msg.add (Msg.add (Msg.mk "alarm" alarm) "alarm" alarm) "source" source in
  Msg.add (if video <>s "" then Msg.add m "video" video else m) "comment" comment.
Definition command_message (a source comment : string) : MMessage :=
  Msg.add (Msg.add (Msg.add (Msg.add (Msg.mk "rlcmd" "todo") "action" a) "value" "ON") "source" source)
    "comment" comment.
Definition enabled_actions (r : Rule) (active : list string) : list string :=
  List.filter (fun a => negb (RuleM.isNotMember r a active)) (action r).

Section firing.
Context {P : Platform}.

Lemma add_at_last f v (l : list MMessage) m :
  RuleM.add_at (length l) f v (l ++ [m]) = l ++ [Msg.add m f v].
Proof. unfold RuleM.add_at. induction l as [|x l IH]; [done|]. simpl. f_equal. exact IH. Qed.

Lemma push_actions_app r active source comment acts l :
  RuleM.push_actions r active source comment acts (length l) l =
  l ++ map (fun a => command_message a source comment)
         (List.filter (fun a => negb (RuleM.isNotMember r a active)) acts).
Proof.
  revert l. induction acts as [|a acts IH]; intros l; simpl; [by rewrite app_nil_r|].
  destruct (RuleM.isNotMember r a active); simpl; [apply IH|].
  rewrite !add_at_last.
  replace (S (length l)) with (length (l ++ [command_message a source comment]))
    by (rewrite length_app; simpl; lia).
  change (Msg.add (Msg.add (Msg.add (Msg.add (Msg.mk "rlcmd" "todo") "action" a) "value" "ON") "source" source)
    "comment" comment) with (command_message a source comment).
  rewrite IH. by rewrite <- app_assoc.
Qed.

Lemma push_answer_empty r active source video comment :
  RuleM.push_answer r active source video comment [] =
  alarm_message (RuleM.get r "alarm") source video comment ::
  map (fun a => command_message a source comment) (enabled_actions r active).
Proof.
  unfold RuleM.push_answer, enabled_actions. simpl.
  unfold alarm_message. destruct (video <>s "");
    apply (push_actions_app r active source comment (action r) [_]).
Qed.

(** ** When a rule fires: a reference definition *)

Definition program_ok (active : list string) (prgstatus : bool) (r : Rule) : bool :=
  status r &&
  negb ((behavior r =s "programon") && (negb (RuleM.isRuleActive r active) || negb prgstatus)) &&
  negb ((behavior r =s "programoff") && prgstatus).
Definition enough (b : bool) (names : list string) (min : Z) (cnd : option (list BooleanCondition)) : bool :=
  match cnd with
  | Some l => bool_decide (names = []) || (min <=? RuleM.count_conditions b names l)
  | None => true
  end.
(** The time since which a condition holds, once the guards have passed. *)
Definition since (held : bool) (t now : double) : double := if held then t else now.
Definition events_matched (r : Rule) (ec : list EventCounter) : Z := (RuleM.scan_counters r ec).1.1.1.
(** A rule without event conditions fires when one of the others has just become true. *)
Definition just_enabled (now : double) (r : Rule) : bool :=
  negb (dltb (since (prcondition r) (prcondition_time r) now) now &&
        dltb (since (tcondition r) (tcondition_time r) now) now &&
        dltb (since (fcondition r) (fcondition_time r) now) now).
Definition fires (now : double) (active : list string) (prgstatus : bool) (ec : list EventCounter)
    (cnd : option (list BooleanCondition)) (r : Rule) : bool :=
  program_ok active prgstatus r &&
  enough true (enabling_true_condition r) (mine_t_cond r) cnd &&
  enough false (enabling_false_condition r) (mine_f_cond r) cnd &&
  ((mincond r <=? events_matched r ec) || cycleactive r) &&
  negb ((0 <? mincond r) && dltb now (latentUntil r)) &&
  (negb (mincond r =? 0) || cycleactive r || just_enabled now r).

Lemma short_enough (b : bool) names min cnd :
  match cnd with
  | Some l => (0 <? length names)%nat && (RuleM.count_conditions b names l <? min)
  | None => false
  end = negb (enough b names min cnd).
Proof.
  destruct cnd as [l|]; [|done]. unfold enough. rewrite negb_orb, <- Z.ltb_antisym.
  f_equal. by destruct names.
Qed.

Lemma program_guard_spec now active prg r :
  exists r', RuleM.program_guard now active prg r = (if program_ok active prg r then inr r' else inl r') /\
  (program_ok active prg r = true ->
   r' = r <| prcondition := true |> <| prcondition_time := since (prcondition r) (prcondition_time r) now |>).
Proof.
  unfold RuleM.program_guard, program_ok.
  destruct (status r); simpl; [|by eexists; split].
  destruct (behavior r =s "programon"), (behavior r =s "programoff"), (RuleM.isRuleActive r active), prg;
    simpl; eexists; (split; [reflexivity|]); try done; intros _; unfold since, RuleM.with_pr;
    destruct r as [? ? ? ? ? ? ? ? ? ? ? ? ? ? ? ? ? ? ? ? pr]; destruct pr; reflexivity.
Qed.

Lemma true_guard_spec now cnd r :
  exists r', RuleM.true_guard now cnd r =
    (if enough true (enabling_true_condition r) (mine_t_cond r) cnd then inr r' else inl r') /\
  (enough true (enabling_true_condition r) (mine_t_cond r) cnd = true ->
   r' = r <| tcondition := true |> <| tcondition_time := since (tcondition r) (tcondition_time r) now |>).
Proof.
  unfold RuleM.true_guard. rewrite short_enough.
  destruct (enough _ _ _ _); simpl; eexists; (split; [reflexivity|]); [|done]. intros _.
  unfold since, RuleM.with_t. destruct r as [? ? ? ? ? ? ? ? ? ? ? ? ? ? ? ? ? ? ? ? ? tc]; destruct tc; reflexivity.
Qed.
Lemma false_guard_spec now cnd r :
  exists r', RuleM.false_guard now cnd r =
    (if enough false (enabling_false_condition r) (mine_f_cond r) cnd then inr r' else inl r') /\
  (enough false (enabling_false_condition r) (mine_f_cond r) cnd = true ->
   r' = r <| fcondition := true |> <| fcondition_time := since (fcondition r) (fcondition_time r) now |>).
Proof.
  unfold RuleM.false_guard. rewrite short_enough.
  destruct (enough _ _ _ _); simpl; eexists; (split; [reflexivity|]); [|done]. intros _.
  unfold since, RuleM.with_f. destruct r as [? ? ? ? ? ? ? ? ? ? ? ? ? ? ? ? ? ? ? ? ? ? fc]; destruct fc; reflexivity.
Qed.

(** The messages appended by a firing, whatever the fields the guards changed. *)
Definition answer_of (r : Rule) (active : list string) (ec : list EventCounter) (answer : list MMessage) : list MMessage :=
  let '(_, source, video, comment) := RuleM.scan_counters r ec in
  RuleM.push_answer r active source video comment answer.

Lemma push_actions_ext r r' active source comment acts i answer :
  behavior r = behavior r' ->
  RuleM.push_actions r active source comment acts i answer =
  RuleM.push_actions r' active source comment acts i answer.
Proof.
  intros Hb. revert i answer. induction acts as [|a acts IH]; intros i answer; simpl; [done|].
  assert (RuleM.isNotMember r a active = RuleM.isNotMember r' a active) as ->
    by (unfold RuleM.isNotMember; by rewrite Hb).
  by rewrite !IH.
Qed.
Lemma push_answer_ext r r' active source video comment answer :
  r_params r = r_params r' -> behavior r = behavior r' -> action r = action r' ->
  RuleM.push_answer r active source video comment answer = RuleM.push_answer r' active source video comment answer.
Proof.
  intros Hp Hb Ha. unfold RuleM.push_answer, RuleM.get. rewrite Hp, Ha.
  by apply push_actions_ext.
Qed.

(** The last step, on a rule whose guards have passed. *)
Lemma rule_fire_spec now active ec r answer :
  let go := ((mincond r <=? events_matched r ec) || cycleactive r) &&
            negb ((0 <? mincond r) && dltb now (latentUntil r)) &&
            (negb (mincond r =? 0) || cycleactive r ||
             negb (dltb (prcondition_time r) now && dltb (tcondition_time r) now && dltb (fcondition_time r) now)) in
  (RuleM.fire now active ec r answer).1.1 = go /\
  (RuleM.fire now active ec r answer).2 = if go then answer_of r active ec answer else answer.
Proof.
  unfold RuleM.fire, events_matched, answer_of.
  destruct (RuleM.scan_counters r ec) as [[[n source] video] comment]; simpl.
  destruct (mincond r <=? n); simpl.
  - destruct ((0 <? mincond r) && dltb now (latentUntil r)); simpl; [done|].
    destruct (mincond r =? 0), (cycleactive r), (dltb (prcondition_time r) now), (dltb (tcondition_time r) now),
      (dltb (fcondition_time r) now); simpl; (split; [done|]); try done; by apply push_answer_ext.
  - destruct (cycleactive r); simpl; [|done].
    destruct ((0 <? mincond r) && dltb now (latentUntil r)); simpl; [done|].
    rewrite andb_false_r, orb_true_r. simpl. split; [done|]. by apply push_answer_ext.
Qed.

(** The rule after its guards have passed: only the times of its conditions changed. *)
Definition guards_ok (active : list string) (prg : bool) (cnd : option (list BooleanCondition)) (r : Rule) : bool :=
  program_ok active prg r && enough true (enabling_true_condition r) (mine_t_cond r) cnd &&
  enough false (enabling_false_condition r) (mine_f_cond r) cnd.
Definition passed (now : double) (r : Rule) : Rule :=
  r <| prcondition := true |> <| prcondition_time := since (prcondition r) (prcondition_time r) now |>
    <| tcondition := true |> <| tcondition_time := since (tcondition r) (tcondition_time r) now |>
    <| fcondition := true |> <| fcondition_time := since (fcondition r) (fcondition_time r) now |>.

Lemma match_at_guards now active prg ec cnd r answer :
  if guards_ok active prg cnd r
  then RuleM.match_at now active prg ec cnd r answer = RuleM.fire now active ec (passed now r) answer
  else exists r', RuleM.match_at now active prg ec cnd r answer = (false, r', answer).
Proof.
  unfold RuleM.match_at, guards_ok.
  destruct (program_guard_spec now active prg r) as (r1 & -> & H1).
  destruct (program_ok active prg r); simpl; [|by eexists]. rewrite (H1 eq_refl); clear H1 r1.
  set (r1 := r <| prcondition := true |> <| prcondition_time := _ |>).
  destruct (true_guard_spec now cnd r1) as (r2 & -> & H2).
  change (enabling_true_condition r1) with (enabling_true_condition r) in *.
  change (mine_t_cond r1) with (mine_t_cond r) in *.
  destruct (enough true _ _ cnd); simpl; [|by eexists]. rewrite (H2 eq_refl); clear H2 r2.
  set (r2 := r1 <| tcondition := true |> <| tcondition_time := _ |>).
  destruct (false_guard_spec now cnd r2) as (r3 & -> & H3).
  change (enabling_false_condition r2) with (enabling_false_condition r) in *.
  change (mine_f_cond r2) with (mine_f_cond r) in *.
  destruct (enough false _ _ cnd); simpl; [|by eexists]. rewrite (H3 eq_refl).
  change (fcondition r2) with (fcondition r). change (fcondition_time r2) with (fcondition_time r).
  unfold r2. change (tcondition r1) with (tcondition r). by change (tcondition_time r1) with (tcondition_time r).
Qed.

Lemma match_at_spec now active prg ec cnd r answer :
  (RuleM.match_at now active prg ec cnd r answer).1.1 = fires now active prg ec cnd r /\
  (RuleM.match_at now active prg ec cnd r answer).2 =
    if fires now active prg ec cnd r then answer_of r active ec answer else answer.
Proof.
  pose proof (match_at_guards now active prg ec cnd r answer) as H. unfold fires, guards_ok in *.
  destruct (program_ok active prg r && _ && _); simpl; [|by destruct H as [r' ->]]. rewrite H; clear H.
  destruct (rule_fire_spec now active ec (passed now r) answer) as [Hb Ha].
  split; [exact Hb|]. rewrite Ha. unfold just_enabled, events_matched, answer_of. simpl.
  change (RuleM.scan_counters _ ec) with (RuleM.scan_counters r ec).
  destruct (RuleM.scan_counters r ec) as [[[n source] video] comment]; simpl.
  match goal with |- (if ?b then _ else _) = (if ?c then _ else _) => change c with b; destruct b end; [|done].
  by apply push_answer_ext.
Qed.

(** What a firing changes in the rule: the time until which it is latent. *)
Lemma fire_state now active ec r answer :
  (RuleM.fire now active ec r answer).1.1 = true ->
  let r' := (RuleM.fire now active ec r answer).1.2 in
  mincond r' = mincond r /\ r_params r' = r_params r /\ cycle r' = cycle r /\ cycleactive r' = false /\
  latentUntil r' = if (0 <? mincond r) && (cycle r <=? 0) && (RuleM.get r "latency" <>s "")
                   then dadd now (d_of_Z (a2int (RuleM.get r "latency"))) else latentUntil r.
Proof.
  unfold RuleM.fire. destruct (RuleM.scan_counters r ec) as [[[n source] video] comment].
  destruct (mincond r <=? n); simpl.
  - repeat (case_match; simpl; [done|]). done.
  - destruct (cycleactive r); simpl; [|done]. repeat (case_match; simpl; [done|]). done.
Qed.
End firing.

(** * Properties of the rules (Manager/rule.cpp, ruleset.cpp): firing, latency, timetable, validity *)

Section rules.
Context {P : Platform} {C : Config} {XP : XmlParser}.

(** C1: [Rule::match] on an empty answer vector fires exactly when the reference
    condition [fires] holds (program mode, enabling conditions, enough events or an
    active cycle, no latency, edge of a rule without events), and then answers the
    alarm message followed by one "rlcmd" command per enabled action, in order;
    otherwise it answers nothing. *)
Theorem rule_match_answer now active prg ec cnd r :
  let '(b, _, answer) := RuleM.match_at now active prg ec cnd r [] in
  b = fires now active prg ec cnd r /\
  answer = if b then
             let '(_, source, video, comment) := RuleM.scan_counters r ec in
             alarm_message (RuleM.get r "alarm") source video comment ::
             map (fun a => command_message a source comment) (enabled_actions r active)
           else [].
Proof.
  destruct (match_at_spec now active prg ec cnd r []) as [Hb Ha].
  destruct (RuleM.match_at now active prg ec cnd r []) as [[b r'] answer]. simpl in Hb, Ha.
  split; [done|]. rewrite Ha, Hb. destruct (fires _ _ _ _ _ _); [|done].
  unfold answer_of. destruct (RuleM.scan_counters r ec) as [[[n source] video] comment].
  apply push_answer_empty.
Qed.

(** After a rule with events and without a cycle has fired, it does not fire again
    before its configured latency has elapsed, whatever the events, the conditions and
    the program. *)
Lemma rule_latency now active prg ec cnd r answer :
  fires now active prg ec cnd r = true ->
  0 < mincond r -> cycle r <= 0 -> RuleM.get r "latency" <> "" ->
  let r' := (RuleM.match_at now active prg ec cnd r answer).1.2 in
  forall now' active' prg' ec' cnd' answer',
    dltb now' (dadd now (d_of_Z (a2int (RuleM.get r "latency")))) = true ->
    (RuleM.match_at now' active' prg' ec' cnd' r' answer').1.1 = false.
Proof.
  intros Hf Hm Hc Hl r' now' active' prg' ec' cnd' answer' Hlt.
  assert (mincond r' = mincond r /\ latentUntil r' = dadd now (d_of_Z (a2int (RuleM.get r "latency")))) as [Hm' Hu].
  { destruct (match_at_spec now active prg ec cnd r answer) as [Hb _]. rewrite Hf in Hb.
    pose proof (match_at_guards now active prg ec cnd r answer) as H. subst r'.
    destruct (guards_ok active prg cnd r); [|destruct H as [r1 H]; by rewrite H in Hb].
    rewrite H in *. destruct (fire_state _ _ _ _ _ Hb) as (H1 & _ & _ & _ & H5).
    split; [exact H1|]. rewrite H5. cbn [passed update_field].
    change (RuleM.get (passed now r) "latency") with (RuleM.get r "latency").
    change (mincond (passed now r)) with (mincond r). change (cycle (passed now r)) with (cycle r).
    rewrite seqb_ne by done. by rewrite (proj2 (Z.ltb_lt _ _) Hm), (proj2 (Z.leb_le _ _) Hc). }
  rewrite (proj1 (match_at_spec _ _ _ _ _ _ _)). unfold fires. rewrite Hm', Hu, Hlt.
  rewrite (proj2 (Z.ltb_lt _ _) Hm). simpl. by rewrite andb_false_r.
Qed.

(** [Rule::match] writes the alarm into element 0 of the vector whatever it already
    holds: when an earlier rule has answered, the fields of its message grow by this
    rule's alarm, and the alarm message of this rule is sent with no field at all. *)
Lemma second_alarm_is_blank now active prg ec cnd r m0 rest :
  fires now active prg ec cnd r = true -> enabled_actions r active = [] ->
  exists m0',
    (RuleM.match_at now active prg ec cnd r (m0 :: rest)).2 =
      m0' :: rest ++ [Msg.mk "alarm" (RuleM.get r "alarm")].
Proof.
  intros Hf He. destruct (match_at_spec now active prg ec cnd r (m0 :: rest)) as [_ ->]. rewrite Hf.
  unfold answer_of. destruct (RuleM.scan_counters r ec) as [[[n source] video] comment].
  assert (forall acts i l, List.filter (fun a => negb (RuleM.isNotMember r a active)) acts = [] ->
    RuleM.push_actions r active source comment acts i l = l) as Hnone.
  { induction acts as [|a acts IH]; intros i l; simpl; [done|].
    destruct (RuleM.isNotMember r a active); simpl; [apply IH|done]. }
  unfold RuleM.push_answer. rewrite Hnone by exact He.
  destruct (video <>s ""); by eexists.
Qed.

Lemma match_run active prg ec cnd r ans w :
  RuleM.match_ active prg ec cnd r ans w =
  (RuleM.match_at (gettime_of (w_clock w (w_tick w))) active prg ec cnd r ans, set_tick (S (w_tick w)) w).
Proof. done. Qed.
Definition fire_flags (w : world) (k : nat) (active : list string) (prg : bool) (ec : list EventCounter)
    (cnd : option (list BooleanCondition)) (l : list Rule) : list bool :=
  zip_with (fun i r => fires (gettime_of (w_clock w i)) active prg ec cnd r) (seq k (length l)) l.

Lemma match_loop_counts active prg ec cnd l counter ans w n l' ans' w' :
  RS.match_loop l active prg ec cnd counter ans w = (n, l', ans', w') ->
  n = counter + Z.of_nat (length (List.filter (fun b : bool => b) (fire_flags w (w_tick w) active prg ec cnd l))) /\
  length l' = length l /\ w' = set_tick (w_tick w + length l) w.
Proof.
  revert counter ans w n l' ans' w'. induction l as [|r l IH]; intros counter ans w n l' ans' w'.
  { intros [= <- <- <- <-]. simpl. rewrite Nat.add_0_r. split_and!; [lia|done|by destruct w]. }
  simpl. rewrite run_bind. unfold result, final. rewrite match_run.
  destruct (match_at_spec (gettime_of (w_clock w (w_tick w))) active prg ec cnd r ans) as [Hb _].
  destruct (RuleM.match_at _ active prg ec cnd r ans) as [[b r'] ans1]. simpl in Hb |- *. subst b.
  rewrite run_bind. unfold result, final.
  destruct (RS.match_loop l active prg ec cnd _ ans1 _) as [[[n1 l1] ans2] w1] eqn:E.
  apply IH in E as (-> & Hl & ->). intros [= <- <- <- <-]. simpl.
  split_and!; [|by rewrite Hl|unfold set_tick; simpl; f_equal; lia].
  unfold fire_flags. simpl.
  destruct (fires _ _ _ _ _ r); cbn [length]; lia.
Qed.

(** [RuleSet::match] offers the message vector to the rules in order, each with its
    own reading of the clock, and returns the number of rules that fire; no rule is
    lost. *)
Lemma ruleset_match_counts s ec cnd action active prg w :
  let '(n, s', _, w') := RS.match_ s ec cnd action active prg w in
  n = Z.of_nat (length (List.filter (fun b : bool => b) (fire_flags w (w_tick w) active prg ec cnd (rules s)))) /\
  length (rules s') = length (rules s) /\ w' = set_tick (w_tick w + length (rules s)) w.
Proof.
  unfold RS.match_. rewrite run_bind. unfold result, final.
  destruct (RS.match_loop _ _ _ _ _ _ _ w) as [[[n l] ans] w'] eqn:E.
  apply match_loop_counts in E. exact E.
Qed.

(** ** Validity interval *)
Definition day : Z := 86400.
(** Both bounds are times of the day, and [midnight] is set. *)
Definition valid (r : Rule) : Prop := 0 <= from r < day /\ 0 < to r <= day /\ midnight r = day.
(** Length of the interval from [f] to [t] on the 24 hour dial, "24:00:00" being the last
    second of the day. *)
Definition window_length (f t : Z) : Z := if f <? t then Z.min t (day - 1) - f else t - f + day.

Lemma midnight_24 : string2second "24:00:00" = day.
Proof. reflexivity. Qed.

(** [Rule::setValidityTime] accepts exactly the intervals whose start is in
    [00:00:00, 24:00:00) and end in (00:00:00, 24:00:00]; then the rule is valid with
    these bounds and, for two non-empty texts, they are its parameters; a refused interval
    changes neither bounds nor parameters, and no file is written. *)
Lemma setValidityTime_spec r f t w :
  let '(ok, r', w') := RuleM.setValidityTime r f t w in
  ok = bool_decide (0 <= string2second f < day /\ 0 < string2second t <= day) /\
  (if ok : bool then
     valid r' /\ from r' = string2second f /\ to r' = string2second t /\
     (f <> "" -> RuleM.get r' "from" = f) /\ (t <> "" -> RuleM.get r' "to" = t) /\
     w' = final (Params.save (r_params r')) w
   else from r' = from r /\ to r' = to r /\ r_params r' = r_params r /\ w' = w).
Proof.
  unfold RuleM.setValidityTime. rewrite midnight_24. cbn [midnight RuleM.with_validity update_field].
  match goal with |- context [if ?b then _ else _] =>
    assert (b = bool_decide (0 <= string2second f < day /\ 0 < string2second t <= day)) as -> end.
  { apply eq_true_iff_eq. rewrite bool_decide_eq_true, !andb_true_iff, !Z.leb_le, !Z.ltb_lt. simpl. lia. }
  case_bool_decide as H; [|done]. unfold mbind, M_bind, mret, M_ret, final.
  destruct (Params.save _ w) as [b w1] eqn:E. split; [done|]. split_and!; try done; simpl.
  - split_and!; simpl; [lia..|done].
  - intros Hf. unfold RuleM.get. simpl. rewrite Params.get_add_ne by done. by apply Params.get_add_eq.
  - intros Ht. unfold RuleM.get. simpl. by apply Params.get_add_eq.
  - exact (eq_sym (f_equal snd E)).
Qed.

(** A valid rule is active exactly while the time of day lies on the arc of the 24 hour
    dial that goes from its start to its end, across midnight when the end precedes the
    start (an arc with equal ends is the whole day). *)
Lemma rule_active_window r w :
  valid r -> clock_ok (w_clock w (w_tick w)) ->
  let now := string2second (getasciitimeday_of (w_clock w (w_tick w))) in
  result (RuleM.isActive r) w = (bool_decide ((now - from r) mod day <= window_length (from r) (to r)), r).
Proof.
  intros (Hf & Ht & Hm) Hc now. pose proof (second_of_day_range _ Hc) as Hn. fold now in Hn.
  assert (forall x, - day <= x < day -> x mod day = if x <? 0 then x + day else x) as Hmod.
  { unfold day. intros x Hx. destruct (Z.ltb_spec x 0).
    - symmetry. apply (Z.mod_unique_pos _ _ (-1)); lia.
    - apply Z.mod_small. lia. }
  unfold result, RuleM.isActive.
  replace ((to r <? 0) || (from r <? 0)) with false by (destruct (Z.ltb_spec (to r) 0), (Z.ltb_spec (from r) 0); simpl; lia || done).
  unfold mbind, M_bind, mret, M_ret. simpl.
  replace ((from r <? 0) || (to r <? 0)) with false by (destruct (Z.ltb_spec (to r) 0), (Z.ltb_spec (from r) 0); simpl; lia || done).
  rewrite Hm, Hmod by (unfold day in *; lia). unfold window_length.
  destruct ((from r =? 0) && (to r =? day)) eqn:E; simpl; f_equal.
  { apply andb_true_iff in E as [E1%Z.eqb_eq E2%Z.eqb_eq]. symmetry. apply bool_decide_eq_true.
    rewrite E1, E2. unfold day in *. destruct (Z.ltb_spec (now - 0) 0), (Z.ltb_spec 0 86400); lia. }
  fold now. apply eq_true_iff_eq. rewrite bool_decide_eq_true. unfold day in *.
  destruct (Z.ltb_spec (from r) (to r)), (Z.ltb_spec (now - from r) 0);
    rewrite ?orb_true_iff, !andb_true_iff, !Z.leb_le; lia.
Qed.

(** ** The cycle of a rule *)
(** The next start is a whole number of cycles after [base]. *)
Definition on_grid (base : Z) (r : Rule) : Prop :=
  nextcyclestart r < 0 \/ exists k, 0 <= k /\ nextcyclestart r = base + k * cycle r.

(** The first [cycleUpdate] of a cyclic rule does not fire it; it sets the next start to
    the first multiple of the cycle, counted from local midnight, that is not in the past. *)
Lemma cycle_first_start r w ref :
  0 < cycle r -> nextcyclestart r < 0 ->
  Z_of_d (gettime_of (w_clock w (w_tick w))) = Some ref ->
  clock_ok (w_clock w (S (w_tick w))) ->
  let start := ref - string2second (getasciitimeday_of (w_clock w (S (w_tick w)))) in
  let '(due, r') := result (RuleM.cycleUpdate r) w in
  due = false /\ reftime r' = ref /\ ref <= nextcyclestart r' /\
  (nextcyclestart r' < ref + cycle r \/ nextcyclestart r' = start) /\
  exists k, 0 <= k /\ nextcyclestart r' = start + k * cycle r.
Proof.
  intros Hc Hn Hr Hk start. pose proof (second_of_day_range _ Hk) as Hd.
  unfold result, RuleM.cycleUpdate. rewrite run_bind. unfold result, final. simpl.
  unfold RuleM.trunc_time. rewrite Hr. simpl.
  rewrite (proj2 (Z.leb_gt _ _) Hc), (proj2 (Z.ltb_lt _ _) Hn). simpl.
  fold start. destruct (catch_up_spec (catch_up_fuel start ref) start ref (cycle r)) as (H1 & (k & Hk0 & H2) & H3 & H4);
    [done|unfold catch_up_fuel; lia|].
  split_and!; [done|done|exact H1| |by exists k].
  destruct (Z.lt_ge_cases start ref); [left; by apply H3|right; by apply H4].
Qed.

(** Once started, a cyclic rule is due exactly when the clock has reached its next
    start; the start then moves on by one cycle, and otherwise stays: it never leaves the
    grid of its first start. *)
Lemma cycle_next_start r w ref base :
  0 < cycle r -> 0 <= nextcyclestart r -> on_grid base r ->
  Z_of_d (gettime_of (w_clock w (w_tick w))) = Some ref ->
  let '(due, r') := result (RuleM.cycleUpdate r) w in
  (nextcyclestart r <= ref -> due = true /\ cycleactive r' = true /\ nextcyclestart r' = nextcyclestart r + cycle r) /\
  (ref < nextcyclestart r -> due = cycleactive r /\ nextcyclestart r' = nextcyclestart r) /\ on_grid base r'.
Proof.
  intros Hc Hn [?|(k & Hk & Hg)] Hr; [lia|].
  unfold result, RuleM.cycleUpdate. rewrite run_bind. unfold result, final. simpl.
  unfold RuleM.trunc_time. rewrite Hr. simpl.
  rewrite (proj2 (Z.leb_gt _ _) Hc), (proj2 (Z.ltb_ge _ _) Hn).
  destruct (Z.leb_spec (nextcyclestart r) ref); simpl; (split_and!; [by intros; try lia..|]); right.
  - exists (k + 1). simpl. lia.
  - exists k. simpl. lia.
Qed.
End rules.

(** ** Witnesses *)
Import Samples.Instances.

(** A rule on the event "door": 10 seconds of latency, no cycle, active from 22:00 to 06:00. *)
Definition night_rule : Rule :=
  mkRule (params [("alarm", "burglar"); ("latency", "10")]) "night" "night" true ["door"] [] [] []
    d0 79200 21600 86400 0 0 1 (-1) 0 (-1) false "always" false false false false d0 d0 d0 d0.
Definition cyclic_rule : Rule := night_rule <| cycle := 3600 |>.
Definition door : EventCounter :=
  mkEC (params [("name", "door")]) "door" d1 d1 d1 d1 [] [] d0 d0 [mkEvent d1 "door" ""] "open" None.





