(* ===== verification/Engines.v ===== *)
(** * The rule engines of the Manager agent (Manager/RuleEngine.cpp, TimedRuleEngine.cpp)

    Each engine is a thread that takes one message at a time from its queue; its
    handler is the body of the loop of [do_work].  [Configured] is what the engines
    need of the objects they configure: a name and a parameter set. *)
From S2P Require Import Prelude Doubles Hsrv Xml MMessage World MParams EventCounter Pages Rule.

(** ** Objects with a name and parameters *)
Class Configured (T : Type) := {
  c_name : T -> string;
  c_params : T -> MParams;
  c_with_params : T -> MParams -> T }.
#[export] Instance EventCounter_conf : Configured EventCounter :=
  {| c_name := ec_name; c_params := ec_params; c_with_params := EC.with_params |}.
#[export] Instance BooleanCondition_conf : Configured BooleanCondition :=
  {| c_name := bc_name; c_params := bc_params; c_with_params := BC.with_params |}.
#[export] Instance Rule_conf : Configured Rule :=
  {| c_name := r_name; c_params := r_params; c_with_params := RuleM.with_params |}.
#[export] Instance TimedRule_conf : Configured TimedRule :=
  {| c_name := tr_name; c_params := tr_params; c_with_params := fun r p => r <| tr_params := p |> |}.

Section configured.
Context {T : Type} `{Configured T} {C : Config}.
Definition c_get (x : T) (n : string) : string := Params.get (c_params x) n.
(** [x.set("status", v); x.save();] *)
Definition set_status (x : T) (v : string) : M T :=
  let p := (Params.set (c_params x) "status" v).2 in
  Params.save p;; mret (c_with_params x p).
(** The loops of the "set..." and "reset..." commands. *)
Definition set_all (msg : MMessage) (l : list T) : M (list T) :=
  mapM_M (fun x => if Msg.getString msg (c_name x) <>s "" then set_status x (Msg.getString msg (c_name x))
                   else mret x) l.
Definition reset_all (l : list T) : M (list T) := mapM_M (fun x => set_status x "ON") l.
Definition status_items (l : list T) : list (string * string) := map (fun x => (c_name x, c_get x "status")) l.
End configured.

Definition notify_all (l : list MMessage) : M unit := iterM notify l.
Definition is_msg (m : MMessage) (t st : string) : bool := (mtype m =s t) && (msubtype m =s st).

(** ** Class RuleEngine *)
Record RuleEngine := mkRE {
  wait_after_on : string; wait_forbidden : string; event_counter : list EventCounter;
  re_condition : option (list BooleanCondition); re_rule : RuleSet; re_program : MMessage;
  alarm_on : bool; re_active : list string }.
#[export] Instance RuleEngine_rebuild : Rebuild RuleEngine := fun e =>
  mkRE (wait_after_on e) (wait_forbidden e) (event_counter e) (re_condition e) (re_rule e)
    (re_program e) (alarm_on e) (re_active e).

Module RE.
Section re.
Context {P : Platform} {C : Config} {XP : XmlParser} {FS : PathNames} {Ar : Archived}.

Definition rule_entry (r : Rule) : string :=
  "alias=" +:+ quote (r_alias r) +:+ " status=" +:+ quote (RuleM.get r "status") +:+ " from=" +:+
  quote (RuleM.get r "from") +:+ " to=" +:+ quote (RuleM.get r "to").
Definition makeRulePage (s : RuleSet) : M bool :=
  iterM (fun r => publish (r_name r) (rule_entry r)) (rules s);;
  saveItemList "rules" "status" (status_items (rules s));; mret true.
Definition makeEventcounterPage (l : list EventCounter) : M bool :=
  saveItemList "eventcounters" "status" (status_items l);; mret true.
Definition makeConditionPage (l : list BooleanCondition) : M bool :=
  saveItemList "conditions" "status" (status_items l);; mret true.
(** The first pair is pushed twice. *)
Definition makeParameterPage (wf wt : string) : M bool :=
  saveItemList "parameters" "status" [("wait_after_on", wt); ("wait_after_on", wt)];; mret true.

(** Match every rule, then notify what they produced. *)
Definition match_and_notify (e : RuleEngine) : M RuleEngine :=
  '(_, rs, action_todo) ← RS.match_ (re_rule e) (event_counter e) (re_condition e) [] (re_active e) (alarm_on e);
  notify_all action_todo;; mret (e <| re_rule := rs |>).

Definition on_eventupdate (e : RuleEngine) : M RuleEngine :=
  '(b, ec) ← ECSet.timeUpdate (event_counter e);
  let e := e <| event_counter := ec |> in
  '(b, rs) ← (if b : bool then mret (true, re_rule e) else RS.timeUpdate (re_rule e));
  let e := e <| re_rule := rs |> in
  if b : bool then match_and_notify e else mret e.
(** "_SWITCH" and "_ON" become a "setprogram" command. *)
Definition switch_command (msg : MMessage) : MMessage :=
  let msg := Msg.set_type msg "cmd" in
  let msg := Msg.add msg "program" (msubtype msg) in
  Msg.set_subtype msg "setprogram".
Definition on_switch (e : RuleEngine) (msg : MMessage) : M RuleEngine :=
  let e := e <| event_counter := ECSet.clearDQ (event_counter e) |> in
  notify (switch_command msg);; mret e.
Definition on_event (e : RuleEngine) (msg : MMessage) : M RuleEngine :=
  '(_, ec) ← ECSet.timeUpdate (event_counter e);
  let cond := (fun l => (BCSet.eventUpdate l msg).2) <$> re_condition e in
  '(_, ec, _) ← ECSet.eventUpdate ec msg;
  match_and_notify (e <| event_counter := ec |> <| re_condition := cond |>).
Definition on_prgstatus (e : RuleEngine) (msg : MMessage) : M RuleEngine :=
  let e := e <| re_program := msg |> in
  let e := e <| alarm_on := Msg.getString (re_program e) "status" <>s "OFF" |> in
  let e := e <| re_active := Msg.getList msg "active" |> in
  '(_, rs) ← RS.setWait1 (re_rule e) (wait_after_on e);
  mret (e <| re_rule := rs |> <| event_counter := ECSet.clearDQ (event_counter e) |>).
Definition on_waitfor (e : RuleEngine) (msg : MMessage) : M RuleEngine :=
  '(_, rs) ← (if Msg.getString msg "wait" <>s "" then RS.setWait1 (re_rule e) (Msg.getString msg "wait")
              else RS.setWait2 (re_rule e) (wait_after_on e) (wait_forbidden e));
  mret (e <| re_rule := rs |>).
Definition on_setrulemode (e : RuleEngine) (msg : MMessage) : M RuleEngine :=
  let name := Msg.getString msg "name" in
  let rstatus := Msg.getString msg "status" in
  let from := Msg.getString msg "from" in
  let to := Msg.getString msg "to" in
  '(_, rs) ← (if (rstatus =s "ON") || (rstatus =s "OFF") then RS.setStatus (re_rule e) name rstatus
              else mret (false, re_rule e));
  '(_, rs) ← (if (from <>s "") && (to <>s "") then RS.setValidityTime rs name from to else mret (false, rs));
  makeRulePage rs;; mret (e <| re_rule := rs |>).

(** The body of the loop of [do_work]. *)
Definition handle (e : RuleEngine) (msg : MMessage) : M RuleEngine :=
  if is_msg msg "trigger" "eventupdate" then on_eventupdate e
  else if (mtype msg =s "event") && ((msubtype msg =s "_SWITCH") || (msubtype msg =s "_ON")) then on_switch e msg
  else if mtype msg =s "event" then on_event e msg
  else if is_msg msg "program" "prgstatus" then on_prgstatus e msg
  else if is_msg msg "cmd" "setwait" then
    let e := e <| wait_after_on := Msg.getString msg "wait" |> in
    makeParameterPage (wait_after_on e) (wait_forbidden e);; mret e
  else if is_msg msg "cmd" "waitfor" then on_waitfor e msg
  else if is_msg msg "cmd" "seteventcounters" then
    l ← set_all msg (event_counter e);
    makeEventcounterPage l;; mret (e <| event_counter := l |>)
  else if is_msg msg "cmd" "reseteventcounters" then
    l ← reset_all (event_counter e);
    makeEventcounterPage l;; mret (e <| event_counter := l |>)
  else if is_msg msg "cmd" "setconditions" && bool_decide (is_Some (re_condition e)) then
    l ← set_all msg (default [] (re_condition e));
    makeConditionPage l;; mret (e <| re_condition := Some l |>)
  else if is_msg msg "cmd" "resetconditions" && bool_decide (is_Some (re_condition e)) then
    l ← reset_all (default [] (re_condition e));
    makeConditionPage l;; mret (e <| re_condition := Some l |>)
  else if is_msg msg "cmd" "setrulemode" then on_setrulemode e msg
  else if is_msg msg "cmd" "setrules" then
    l ← set_all msg (rules (re_rule e));
    let rs := RS.with_rules (re_rule e) l in
    makeRulePage rs;; mret (e <| re_rule := rs |>)
  else if is_msg msg "cmd" "setvaliditytime" then
    '(_, rs) ← RS.setValidityTime (re_rule e) (Msg.getString msg "rule") (Msg.getString msg "from") (Msg.getString msg "to");
    mret (e <| re_rule := rs |>)
  else if is_msg msg "cmd" "resetrules" then
    l ← reset_all (rules (re_rule e));
    let rs := RS.with_rules (re_rule e) l in
    makeRulePage rs;; mret (e <| re_rule := rs |>)
  else mret e.
(** The pages built before the loop. *)
Definition start (e : RuleEngine) : M unit :=
  makeEventcounterPage (event_counter e);; makeRulePage (re_rule e);;
  makeParameterPage (wait_after_on e) (wait_forbidden e);; mret tt.
Fixpoint run (e : RuleEngine) (msgs : list MMessage) : M RuleEngine :=
  match msgs with [] => mret e | m :: ms => e ← handle e m; run e ms end.

(** The constructor, on the files of the three directories ([None] when there is no
    directory of conditions).  The second parameter file is named with its extension,
    to which [MParams] appends another. *)
Definition first_set (a b : string) : string := if a =s "" then b else a.
Definition mk (n : string) (ec_files : list string) (cond_files : option (list string))
    (rule_files : list string) : M (option RuleEngine) :=
  p ← Params.load (Params.mk1 ("threads/" +:+ n));
  t ← Params.load (Params.mk1 "params/wait_times.xml");
  match p, t with
  | Some (_, params), Some (_, timeparams) =>
      ec ← ECSet.mk "eventcounters" ec_files;
      cond ← match cond_files with
             | Some l => c ← BCSet.mk "conditions" l; mret (Some <$> c)
             | None => mret (Some None)
             end;
      rs ← RS.mk "rules" rule_files;
      mret (ec ≫= fun ec => cond ≫= fun cond => rs ≫= fun rs => Some (mkRE
        (first_set (Params.get timeparams "wait_after_on") (Params.get params "wait_after_on"))
        (first_set (Params.get timeparams "wait_forbidden") (Params.get params "wait_forbidden"))
        ec cond rs Msg.dummy false []))
  | _, _ => mret None
  end.
(** What [ObserverThread] loads from the thread's file is passed in. *)
Definition getObservations (e : RuleEngine) (obs : MParams) : MParams :=
  let obs := ECSet.observations (event_counter e) obs in
  match re_condition e with Some l => BCSet.observations l obs | None => obs end.
Definition getSubjects (e : RuleEngine) (subj : MParams) : MParams :=
  RS.subjects (re_rule e) (Params.add_cat subj "todo" "subject" "rlcmd").
End re.
End RE.

(** ** Class TimedRuleEngine *)
Record TimedRuleEngine := mkTRE {
  timed_rule : list TimedRule; tre_condition : option (list BooleanCondition);
  tre_program : MMessage; tre_alarm_on : bool; tre_active : list string }.
#[export] Instance TimedRuleEngine_rebuild : Rebuild TimedRuleEngine := fun e =>
  mkTRE (timed_rule e) (tre_condition e) (tre_program e) (tre_alarm_on e) (tre_active e).

Module TRE.
Section tre.
Context {P : Platform} {C : Config} {XP : XmlParser} {FS : PathNames} {Ar : Archived}.

Definition timed_entry (r : TimedRule) : string :=
  "alias=" +:+ quote (tr_alias r) +:+ " status=" +:+ quote (TR.get r "status") +:+ " from=" +:+
  quote (TR.get r "from") +:+ " to=" +:+ quote (TR.get r "to") +:+ " cycle=" +:+ quote (TR.get r "cycle").
Definition makeTimedRulePage (l : list TimedRule) : M bool :=
  iterM (fun r => publish (tr_name r) (timed_entry r)) l;;
  saveItemList "timedrules" "status" (status_items l);; mret true.
Definition makeConditionPage (l : list BooleanCondition) : M bool :=
  saveItemList "tr_conditions" "status" (status_items l);; mret true.

Definition on_prgstatus (e : TimedRuleEngine) (msg : MMessage) : TimedRuleEngine :=
  let e := e <| tre_program := msg |> <| tre_active := Msg.getList msg "active" |> in
  e <| tre_alarm_on := (Msg.getString (tre_program e) "status" <>s "OFF") &&
                       (0 <? length (tre_active e))%nat |>.
Definition on_update (e : TimedRuleEngine) : M TimedRuleEngine :=
  '(_, l, todo) ← TRSet.timeUpdate (timed_rule e) (Msg.getString (tre_program e) "status")
                    (tre_alarm_on e) (tre_condition e) [];
  iterM (fun m => notify m;; log_info ("TMUPDATE: " +:+ Msg.xmlEncode m 1)) todo;;
  mret (e <| timed_rule := l |>).
Definition on_mode (e : TimedRuleEngine) (msg : MMessage) : M TimedRuleEngine :=
  let name := Msg.getString msg "name" in
  let rstatus := Msg.getString msg "status" in
  let from := Msg.getString msg "from" in
  let to := Msg.getString msg "to" in
  '(_, l) ← (if (rstatus =s "ON") || (rstatus =s "OFF") then TRSet.setStatus (timed_rule e) name rstatus
             else mret (false, timed_rule e));
  '(_, l) ← (if (from <>s "") && (to <>s "") then TRSet.setValidityTime l name from to else mret (false, l));
  mret (e <| timed_rule := l |>).

Definition dispatch (e : TimedRuleEngine) (msg : MMessage) : M TimedRuleEngine :=
  if is_msg msg "program" "prgstatus" then mret (on_prgstatus e msg)
  else if (mtype msg =s "event") && bool_decide (is_Some (tre_condition e)) then
    mret (e <| tre_condition := (fun l => (BCSet.eventUpdate l msg).2) <$> tre_condition e |>)
  else if is_msg msg "trigger" "timedruleupdate" then on_update e
  else if is_msg msg "cmd" "settimedrules" then
    l ← set_all msg (timed_rule e);
    makeTimedRulePage l;; mret (e <| timed_rule := l |>)
  else if is_msg msg "cmd" "resettimedrules" then
    l ← reset_all (timed_rule e); mret (e <| timed_rule := l |>)
  else if is_msg msg "cmd" "settrconditions" && bool_decide (is_Some (tre_condition e)) then
    l ← set_all msg (default [] (tre_condition e));
    makeConditionPage l;; mret (e <| tre_condition := Some l |>)
  else if is_msg msg "cmd" "resettrconditions" && bool_decide (is_Some (tre_condition e)) then
    l ← reset_all (default [] (tre_condition e));
    makeConditionPage l;; mret (e <| tre_condition := Some l |>)
  else if is_msg msg "cmd" "settrrulemode" then on_mode e msg
  else if is_msg msg "cmd" "settrvaliditytime" then
    '(_, l) ← TRSet.setValidityTime (timed_rule e) (Msg.getString msg "rule") (Msg.getString msg "from") (Msg.getString msg "to");
    mret (e <| timed_rule := l |>)
  else if is_msg msg "cmd" "settractions" then
    '(_, l) ← TRSet.setActionList (timed_rule e) (Msg.getString msg "rule") (Msg.getString msg "set") (Msg.getString msg "reset");
    mret (e <| timed_rule := l |>)
  else mret e.
(** The body of the loop: the message, then the page. *)
Definition handle (e : TimedRuleEngine) (msg : MMessage) : M TimedRuleEngine :=
  e ← dispatch e msg; makeTimedRulePage (timed_rule e);; mret e.
Fixpoint run (e : TimedRuleEngine) (msgs : list MMessage) : M TimedRuleEngine :=
  match msgs with [] => mret e | m :: ms => e ← handle e m; run e ms end.
Definition mk (rule_files : list string) (cond_files : option (list string)) : M (option TimedRuleEngine) :=
  l ← TRSet.mk "timedrules" rule_files;
  cond ← match cond_files with
         | Some f => c ← BCSet.mk "tr_conditions" f; mret (Some <$> c)
         | None => mret (Some None)
         end;
  mret (l ≫= fun l => cond ≫= fun cond => Some (mkTRE l cond Msg.dummy false [])).
Definition getObservations (e : TimedRuleEngine) (obs : MParams) : MParams :=
  match tre_condition e with Some l => BCSet.observations l obs | None => obs end.
Definition getSubjects (e : TimedRuleEngine) (subj : MParams) : MParams :=
  TRSet.subjects (timed_rule e) (Params.add_cat subj "todo" "subject" "rlcmd").
End tre.
End TRE.
