(* ===== verification/ProgramEngine.v ===== *)
(** * Weekly programs (minilibs/program.cpp, dayprogram.cpp, period.cpp)

    A program is a map from day keys "year_month_day_weekday" ("*" for any) to
    day programs, each a list of periods with the alarms active in it.  A
    pointer dereferenced while it is null makes the loading operations [None].
    [doc] is the document that is held. *)
From S2P Require Import Prelude Doubles Hsrv Xml MMessage World XmlPrint MParams Pages Engines.

(** ** Class Period *)
Record Period := mkPeriod { pname : string; t0 : string; t1 : string; event : list string }.

Definition node_value (n : xnode) : string := match n with XElement v _ _ => v | XOther _ v => v end.

Module Per.
Definition getEvents (desc : xptr) : option (list string) :=
  match desc with [] => None | n :: _ => Some (map (fun c => child_attr c "name") (children n)) end.
Definition mk (n : xnode) : option Period :=
  mkPeriod (node_value n) (child_attr n "from") (child_attr n "to") <$> getEvents (children n).
Definition isActive (p : Period) (t : Z) : option (list string) :=
  if (string2second (t0 p) <=? t) && (t <=? string2second (t1 p)) && (0 <? length (event p))%nat
  then Some (event p) else None.
Definition printstring (p : Period) : string :=
  "  " +:+ pname p +:+ "(" +:+ t0 p +:+ ", " +:+ t1 p +:+ ");  events:" +:+
  sconcat (map (fun e => " " +:+ e) (event p)) +:+ Msg.endl.
End Per.

(** ** Class DayProgram *)
Record DayProgram := mkDay { dyear : string; dday : string; dmonth : string; dweek : string; periods : list Period;
  xmldesc : xnode }.

Module Day.
Definition mk (yy : string) (n : xnode) : option DayProgram :=
  c ← FirstChild (children n);
  ps ← mapM Per.mk c;
  Some (mkDay yy (child_attr n "day_number") (child_attr n "month_number") (child_attr n "weekday") ps n).
Fixpoint active_loop (t : Z) (l : list Period) : option (list string) :=
  match l with
  | [] => None
  | p :: l' => match Per.isActive p t with Some e => Some e | None => active_loop t l' end
  end.
Definition isActive (d : DayProgram) (t : Z) : option (list string) := active_loop t (periods d).
Definition printstring (d : DayProgram) : string :=
  "Day: " +:+ dday d +:+ ", month: " +:+ dmonth d +:+ ", weekday: " +:+ dweek d +:+ ", year: " +:+ dyear d +:+ Msg.endl +:+
  sconcat (map Per.printstring (periods d)).
Definition xmlprint (d : DayProgram) : string := TinyPrint.to_stream (xmldesc d).
End Day.

(** ** Class Program *)
Record Program := mkProgram {
  prg_name : string; year : string; version : string; doc : option TinyPrint.Document; current : string;
  days : gmap string DayProgram }.
#[export] Instance Program_rebuild : Rebuild Program := fun p =>
  mkProgram (prg_name p) (year p) (version p) (doc p) (current p) (days p).

Module Prg.
Definition empty : Program := mkProgram "" "" "" None "" ∅.
Definition currentProgram (p : Program) : string := current p.

(** The loop over the days of a document. *)
Definition day_key (yy : string) (n : xnode) : string :=
  yy +:+ "_" +:+ child_attr n "month_number" +:+ "_" +:+ child_attr n "day_number" +:+ "_" +:+
  child_attr n "weekday".
Fixpoint load_days (yy : string) (l : list xnode) (m : gmap string DayProgram) : option (gmap string DayProgram) :=
  match l with
  | [] => Some m
  | n :: l' => d ← Day.mk yy n; load_days yy l' (<[day_key yy n := d]> m)
  end.
(** The document of a loaded file: the second top-level node. *)
Definition of_document (p : Program) (d : xptr) : option (Z * Program) :=
  prg ← NextSibling d;
  match prg with
  | [] => None
  | n :: _ =>
      let yy := child_attr n "year" in
      m ← load_days yy (children n) (days p);
      Some (1, p <| year := yy |> <| version := child_attr n "version" |> <| days := m |>)
  end.

Definition mkaccesskey (tm : list Z) : list string :=
  let g i := int2a (nth i tm 0) in
  [ g 5%nat +:+ "_" +:+ g 4%nat +:+ "_" +:+ g 3%nat +:+ "_" +:+ g 6%nat;
    "*_" +:+ g 4%nat +:+ "_" +:+ g 3%nat +:+ "_" +:+ g 6%nat;
    "*_*_*_" +:+ g 6%nat;
    "*_" +:+ g 4%nat +:+ "_*_*";
    "*_*_*_*" ].
Fixpoint getDay (p : Program) (k : list string) : option DayProgram :=
  match k with
  | [] => None
  | key :: k' => match days p !! key with Some d => Some d | None => getDay p k' end
  end.
Definition isActive_at (p : Program) (tm : list Z) : option (list string) :=
  d ← getDay p (mkaccesskey tm); Day.isActive d (daysecond tm).

(** [plistSort]: the swap of elements [k] and [i]. *)
Definition swap (k i : nat) (l : list string) : list string :=
  <[i := nth k l ""]> (<[k := nth i l ""]> l).
Fixpoint swap_loop (q : string -> bool) (k : nat) (js : list nat) (l : list string) (flag : bool) : list string * bool :=
  match js with
  | [] => (l, flag)
  | i :: js => if q (nth i l "") then swap_loop q k js (swap k i l) true else swap_loop q k js l flag
  end.
Definition is_on (s : string) : bool := (s =s "ON") || (s =s "on") || (s =s "On").
Definition is_off (s : string) : bool := (s =s "OFF") || (s =s "off") || (s =s "Off").
Definition is_default (s : string) : bool := (s =s "DEFAULT") || (s =s "default") || (s =s "Default").
Definition plistSort (pl : list string) : list string :=
  let idx := seq 0 (length pl) in
  let '(pl, f1) := swap_loop is_on 0 idx pl false in
  let k := if f1 then 1%nat else 0%nat in
  let '(pl, f2) := swap_loop is_off k idx pl false in
  let k := if f2 then S k else k in
  (swap_loop is_default k idx pl false).1.
Definition mkxmlplist (p : Program) (pl : list string) : string :=
  sconcat (map (fun n => "<program><name>" +:+ n +:+ "</name>" +:+
    "<status>" +:+ (if n =s current p then "1" else "0") +:+ "</status></program>" +:+ Msg.endl) (plistSort pl)).

(** [map::insert] keeps an entry that is already there. *)
Definition insert_new {A} (k : string) (v : A) (m : gmap string A) : gmap string A :=
  match m !! k with Some _ => m | None => <[k := v]> m end.
Definition getProgramsList (p : Program) (programs : list string) (m : gmap string string) : gmap string string :=
  fold_left (fun m n => insert_new n (if n =s current p then "ON" else "OFF") m) programs m.

(** [readattr]: skip to the first '>', then the text up to the next one.  At the end
    of the file the last character read is appended once more. *)
Fixpoint skip_gt (l : list ascii) : option (list ascii) :=
  match l with [] => None | c :: l' => if c =c ">"%char then Some l' else skip_gt l' end.
Fixpoint word_to_gt (last : ascii) (l : list ascii) : list ascii :=
  match l with
  | [] => if last =c nul then [] else [last]
  | c :: l' => if c =c ">"%char then []
               else (if c =c nul then [] else [c]) ++ word_to_gt c l'
  end.
Fixpoint from_quote (l : list ascii) : option (list ascii) :=
  match l with [] => None | c :: l' => if c =c Ascii.ascii_of_nat 34 then Some l else from_quote l' end.
Definition readattr_text (content name : string) : string :=
  match skip_gt (chars content) with
  | None => "*"
  | Some l =>
      let word := of_chars (word_to_gt nul l) in
      match sfind name word 0 with
      | None => "*"
      | Some i => match from_quote (chars (drop_str i word)) with None => "*" | Some q => of_chars q end
      end
  end.
(** On a file that cannot be opened the first loop never ends: [None]. *)
Definition readattr (f name : string) : M (option string) :=
  c ← read_file f; mret (flip readattr_text name <$> c).

Section prg.
Context {P : Platform} {C : Config} {XP : XmlParser}.

Definition load_name (p : Program) (fname : string) : M (option (Z * Program)) :=
  let p := p <| current := fname |> <| prg_name := "" |> in
  let name := homedir +:+ "/programs/" +:+ fname in
  let p := match doc p with Some _ => p <| days := ∅ |> <| doc := None |> | None => p end in
  f ← isfile_type name "xml";
  if f : bool then
    c ← read_file name;
    let s := default "" c in
    let p := p <| doc := Some (TinyPrint.loaded s) |> in
    if parse_ok s then mret (of_document p (load_document s)) else mret (Some (0, p))
  else mret (Some (0, p)).
(** [load()]: the program named by the first word of CURRENTP. *)
Definition load (p : Program) : M (option (Z * Program)) :=
  c ← read_file (homedir +:+ "/CURRENTP");
  load_name p (match c with Some s => first_word s | None => "OFF" end).

Definition isActive (p : Program) : M (option (list string)) :=
  tm ← CurrentTime 0; mret (isActive_at p tm).
(** [save]: to a path; the document is dereferenced. *)
Definition save (p : Program) (fname : string) : M (option Z) :=
  match doc p with Some d => TinyPrint.SaveFile d fname;; ok 1 | None => mret None end.
Definition printstring (p : Program) : string :=
  "--- Program Begin" +:+ Msg.endl +:+ sconcat (map (fun kd => Day.printstring kd.2) (map_items (days p))) +:+
  "--- Program End" +:+ Msg.endl.
(** The days of this week; each reads the clock. *)
Fixpoint print_week (p : Program) (today : Z) (is_ : list Z) : M string :=
  match is_ with
  | [] => mret ""
  | i :: is_ =>
      ctm ← CurrentTime (i - today);
      let dd := getDay p (mkaccesskey ctm) in
      rest ← print_week p today is_;
      mret (match dd with Some d => Day.xmlprint d | None => "" end +:+ rest)
  end.
Definition WEEK : Z := 1.
Definition week_days : list Z := [1; 2; 3; 4; 5; 6; 7].
(** [xmlprint]: the result and what is written; a document has a first child or none. *)
Definition xmlprint (p : Program) (md : Z) : M (Z * string) :=
  match doc p with
  | None => mret (0, "")
  | Some d =>
      if md =? 0 then
        mret (match TinyPrint.doc_nodes d with _ :: prg :: _ => (1, TinyPrint.to_stream prg) | _ => (0, "") end)
      else if md =? WEEK then
        tm ← CurrentTime 0;
        week ← print_week p (nth 6 tm 0) week_days;
        mret (1, "<?xml version=" +:+ quote "1.0" +:+ " ?>" +:+ Msg.endl +:+
                 "<programs year=" +:+ quote (year p) +:+ " version=" +:+ quote (version p) +:+ ">" +:+ week +:+ "</programs>" +:+ Msg.endl)
      else mret (1, "")
  end.
Definition isalarmon (p : Program) : M string :=
  a ← isActive p;
  mret (match a with Some (_ :: _) => "YES" | _ => "NO" end).

Definition version_of (name : string) : M (option string) :=
  v ← readattr ("./programs/" +:+ name) "version";
  mret (v ≫= fun v => strReplaceAll (S (String.length v)) v (String (Ascii.ascii_of_nat 34) "") "").
(** [prgversions], the names of the programs being given. *)
Fixpoint prgversions (programs : list string) : M (option string) :=
  match programs with
  | [] => ok ""
  | n :: l =>
      v ← readattr ("./programs/" +:+ n) "version";
      match v with
      | None => mret None
      | Some v => rest ← prgversions l; mret ((fun r => "<program name=" +:+ quote n +:+ " version=" +:+ v +:+ " />" +:+ r) <$> rest)
      end
  end.
Fixpoint getProgramsVersions (programs : list string) (m : gmap string string) : M (option (gmap string string)) :=
  match programs with
  | [] => mret (Some m)
  | n :: l =>
      v ← version_of n;
      match v with None => mret None | Some v => getProgramsVersions l (insert_new n v m) end
  end.

(** [install]: the files that are missing; [isFile] opens for reading and writing. *)
Definition can_open (path : string) : M bool := fun w =>
  (bool_decide (is_Some (w_files w !! path)) && w_writable w path, w).
Definition xml10 : string := "<?xml version=" +:+ quote "1.0" +:+ " ?>" +:+ Msg.endl.
Definition whole_day : string := " from=" +:+ quote "00:00:00" +:+ " to=" +:+ quote "23:59:00" +:+ ">".
Definition off_program : string :=
  xml10 +:+ "<programs name=" +:+ quote "OFF" +:+ " version=" +:+ quote "0" +:+ "> <day> <periods> <P0" +:+
  whole_day +:+ " <alarms /> </P0> </periods> </day> </programs>" +:+ Msg.endl.
Definition all_program (tag name : string) : string :=
  xml10 +:+ tag +:+ quote name +:+ " version=" +:+ quote "0" +:+ "><day><periods><P0" +:+ whole_day +:+
  "<alarms><alarm name=" +:+ quote "ALL" +:+ " /></alarms></P0></periods></day></programs>" +:+ Msg.endl.
Definition install_file (path content : string) : M unit :=
  f ← can_open path; if f : bool then mret tt else write_file path content;; mret tt.
Definition install {FS : PathNames} (prg : string) : M Z :=
  let path := homedir +:+ "/programs" in
  d ← opendir path;
  (if d : bool then mret tt else emit (Command ("mkdir " +:+ path));; mkdir path;; mret tt);;
  install_file (path +:+ "/OFF") off_program;;
  install_file (path +:+ "/MANUAL") (all_program "<programs name=" "MANUAL");;
  install_file (path +:+ "/ON") (all_program "<programs  name=" "ON");;
  install_file (path +:+ "/AUTO") (all_program "<programs  name=" "AUTO");;
  f ← can_open (homedir +:+ "/CURRENTP");
  (if f : bool then mret tt else
     write_file (homedir +:+ "/CURRENTP") ((if prg =s "" then "OFF" else prg) +:+ Msg.endl);;
     write_file (homedir +:+ "/PREVIOUSP") ("NULL" +:+ Msg.endl);; mret tt);;
  mret 1.
End prg.
End Prg.

(** * Actions and programs of the Manager agent (Manager/action.cpp, actionset.cpp,
    ActionEngine.cpp, ProgramEngine.cpp) *)

(** ** Class Action *)
Record Action := mkAction { act_params : MParams; act_name : string }.
#[export] Instance Action_rebuild : Rebuild Action := fun a => mkAction (act_params a) (act_name a).

Module Act.
Section act.
Context {P : Platform} {C : Config} {XP : XmlParser}.
Definition get (a : Action) (n : string) : string := Params.get (act_params a) n.
Definition mk (dir nm : string) : M (option Action) :=
  l ← Params.load (Params.mk2 dir nm);
  mret ((fun '(_, p) => mkAction p (if Params.get p "name" =s "" then nm else Params.get p "name")) <$> l).
Definition setStatus (a : Action) (value : string) : M (bool * Action) :=
  let p := (Params.set (act_params a) "status" value).2 in
  Params.save p;; mret (true, a <| act_params := p |>).
Definition command (a : Action) : MMessage :=
  Msg.add (Msg.set_subtype (Msg.set_type Msg.dummy "cmd") (get a "cmd")) "value" (get a "value").
Definition exec (a : Action) : M bool :=
  if get a "status" <>s "ON" then mret false else notify (command a);; mret true.
Definition subjects (a : Action) (subj : MParams) : MParams := Params.add_cat subj (get a "cmd") "subject" "cmd".
Definition observations (a : Action) (obs : MParams) : MParams := Params.add_cat obs (get a "name") "observe" "rlcmd".
Definition member (a : Action) (n : string) : bool := get a "name" =s n.
End act.
End Act.

(** ** Class ActionSet *)
Module ActSet.
Section actset.
Context {P : Platform} {C : Config} {XP : XmlParser}.
(** Built, then loaded once more. *)
Definition mk_one (dir name : string) : M (option Action) :=
  a ← Act.mk dir name;
  match a with
  | None => mret None
  | Some a => l ← Params.load (act_params a); mret ((fun '(_, p) => a <| act_params := p |>) <$> l)
  end.
(** The constructor on the files of the two directories: a timed action is taken
    when no file of the first list has its name without the extension. *)
Definition mk (dir tr_dir : string) (filelist trfilelist : list string) : M (option (list Action)) :=
  l1 ← mapM_M (fun f => mk_one dir (FilePath.getStem f)) filelist;
  l2 ← mapM_M (fun f => mk_one tr_dir (FilePath.getStem f))
         (List.filter (fun f => negb (NameList.member filelist (FilePath.getStem f))) trfilelist);
  mret (mapM id (l1 ++ l2)).
Fixpoint setStatus (l : list Action) (name value : string) : M (bool * list Action) :=
  match l with
  | [] => mret (false, [])
  | a :: l' =>
      if Act.get a "name" =s name then '(b, a) ← Act.setStatus a value; mret (b, a :: l')
      else '(b, l') ← setStatus l' name value; mret (b, a :: l')
  end.
Definition isActive (l : list Action) (n : string) : bool :=
  existsb (fun a => (Act.get a "name" =s n) && (Act.get a "status" =s "ON")) l.
Fixpoint exec (l : list Action) (name : string) : M bool :=
  match l with
  | [] => mret false
  | a :: l' => if Act.get a "name" =s name then Act.exec a else exec l' name
  end.
Definition member (l : list Action) (n : string) : bool := existsb (fun a => Act.member a n) l.
Definition subjects (l : list Action) (subj : MParams) : MParams := fold_left (fun s a => Act.subjects a s) l subj.
Definition observations (l : list Action) (obs : MParams) : MParams := fold_left (fun s a => Act.observations a s) l obs.
End actset.
End ActSet.

(** ** Class ActionEngine *)
Record ActionEngine := mkAE { actions : list Action; ae_program : MMessage }.
#[export] Instance ActionEngine_rebuild : Rebuild ActionEngine := fun e => mkAE (actions e) (ae_program e).

Module AE.
Section ae.
Context {P : Platform} {C : Config} {XP : XmlParser} {FS : PathNames} {Ar : Archived}.
Definition makeActionPage (l : list Action) : M bool :=
  saveItemList "actions" "status" (map (fun a => (Act.get a "name", Act.get a "status")) l);; mret true.
Definition is_all0 (active : list string) : bool :=
  match active with a :: _ => (a =s "ALL") || (a =s "all") || (a =s "All") | [] => false end.
Definition really_active (l : list Action) (active : list string) : list string :=
  if is_all0 active then map (fun a => Act.get a "name") (List.filter (fun a => Act.get a "status" =s "ON") l)
  else List.filter (ActSet.isActive l) active.
Definition makeActiveActionPage (l : list Action) (p : MMessage) : M bool :=
  saveItemList "activeactions" "status" (map (fun n => (n, "ON")) (really_active l (Msg.getList p "active")));;
  mret true.
Definition set_one (msg : MMessage) (a : Action) : M Action :=
  let v := Msg.getString msg (Act.get a "name") in
  if (v =s "ON") || (v =s "OFF") then '(_, a) ← Act.setStatus a v; mret a else mret a.
(** The body of the loop of [do_work]. *)
Definition handle (e : ActionEngine) (msg : MMessage) : M ActionEngine :=
  if is_msg msg "cmd" "setactions" then
    l ← mapM_M (set_one msg) (actions e);
    makeActionPage l;; makeActiveActionPage l (ae_program e);; mret (e <| actions := l |>)
  else if is_msg msg "cmd" "resetactions" then
    l ← mapM_M (fun a => '(_, a) ← Act.setStatus a "ON"; mret a) (actions e);
    makeActionPage l;; makeActiveActionPage l (ae_program e);; mret (e <| actions := l |>)
  else if is_msg msg "program" "prgstatus" then
    let e := e <| ae_program := msg |> in
    makeActiveActionPage (actions e) (ae_program e);; mret e
  else if (mtype msg =s "rlcmd") && ActSet.member (actions e) (Msg.getString msg "action") then
    ActSet.exec (actions e) (Msg.getString msg "action");; mret e
  else mret e.
Fixpoint run (e : ActionEngine) (msgs : list MMessage) : M ActionEngine :=
  match msgs with [] => mret e | m :: ms => e ← handle e m; run e ms end.
Definition getSubjects (e : ActionEngine) (subj : MParams) : MParams := ActSet.subjects (actions e) subj.
End ae.
End AE.

(** ** Class ProgramEngine.  [pe_mod] is the local flag of [do_work]. *)
Record ProgramEngine := mkPE {
  pe_program : Program; previous_program : string; pe_active : list string; pe_mod : bool }.
#[export] Instance ProgramEngine_rebuild : Rebuild ProgramEngine := fun e =>
  mkPE (pe_program e) (previous_program e) (pe_active e) (pe_mod e).

Module PE.
Section pe.
Context {P : Platform} {C : Config} {XP : XmlParser}.
Definition currentp : string := homedir +:+ "/CURRENTP".
Definition swapped : string := homedir +:+ "/SWAPPEDOUT".

(** Save the current program's file, write the new one, load it.  [None] when the
    load dereferences a null node. *)
Definition load_into (e : ProgramEngine) (prog : string) : M (option ProgramEngine) :=
  l ← Prg.load_name (pe_program e) prog;
  mret ((fun '(_, p) => e <| pe_program := p |>) <$> l).
Definition change_current (prog : string) : M unit :=
  FM.moveFile currentp homedir "PREVIOUSP";; FM.saveFile currentp prog;; mret tt.
(** Back from OFF to the program swapped out, or to "MANUAL". *)
Definition switch_on (e : ProgramEngine) (swapped_program : string) : M (option (bool * ProgramEngine)) :=
  let prog := if (swapped_program <>s "") && negb (Prg.is_off swapped_program) then swapped_program else "MANUAL" in
  change_current prog;; FM.deleteFile swapped "";;
  r ← load_into e prog; mret (pair true <$> r).
Definition switch_off (e : ProgramEngine) (active_program : string) : M (option (bool * ProgramEngine)) :=
  change_current "OFF";; FM.saveFile swapped active_program;;
  r ← load_into e "OFF"; mret (pair true <$> r).
Definition read_swapped : M string :=
  f ← FM.isFile swapped; if f : bool then FM.readFile swapped else mret "".
(** Any other program: it must be one of the files of the program directory. *)
Definition choose (e : ProgramEngine) (programs : list string) (prog : string) : M (option (bool * ProgramEngine)) :=
  if (prog <>s "") && existsb (fun n => n =s prog) programs then
    r ← load_into e prog;
    match r with
    | None => mret None
    | Some e => change_current prog;; FM.deleteFile swapped "";; mret (Some (true, e))
    end
  else mret (Some (false, e)).
(** [setprogram], on the files of the program directory. *)
Definition setprogram (e : ProgramEngine) (programs : list string) (m : MMessage) : M (option (bool * ProgramEngine)) :=
  let prog := Msg.getString m "program" in
  let prog := if prog =s "" then Msg.getString m "value" else prog in
  if prog =s "_SWITCH" then
    active_program ← FM.readFile currentp;
    swapped_program ← read_swapped;
    if negb (Prg.is_off active_program) then switch_off e active_program else switch_on e swapped_program
  else if prog =s "_ON" then
    active_program ← FM.readFile currentp;
    swapped_program ← read_swapped;
    if Prg.is_off active_program then switch_on e swapped_program else choose e programs prog
  else choose e programs prog.

(** [*tal != al] or the list emptied; the new list if it changed. *)
Definition refresh (tal : option (list string)) (al : list string) : option (list string) :=
  match tal with
  | None => if (0 <? length al)%nat then Some [] else None
  | Some t => if bool_decide (t = al) then None else Some t
  end.
(** The message of [program_notify] once something has changed. *)
Definition status_message (m : MMessage) (cur : string) (al : list string) (now : double) : MMessage :=
  let m := Msg.add m "program" cur in
  let m := Msg.add m "status" cur in
  let m := (Msg.add_list m "active" al).2 in
  let m := Msg.add m "program_active" (if (cur <>s "OFF") && (0 <? length al)%nat then "true" else "false") in
  Msg.add_double m "time" now.
Definition announce (e : ProgramEngine) (m : MMessage) (al : list string) : M (bool * ProgramEngine) :=
  let cur := current (pe_program e) in
  now ← gettime;
  let m := status_message m cur al now in
  notify m;;
  publish "prgstatus" ("program=" +:+ quote cur +:+ " active=" +:+ quote (Msg.getString m "program_active"));;
  mret (true, e <| pe_active := al |> <| previous_program := cur |>).
Definition program_notify (e : ProgramEngine) (change : bool) : M (bool * ProgramEngine) :=
  let cur := current (pe_program e) in
  let m := Msg.mk "program" "prgstatus" in
  if change then
    let m := Msg.add m "program" cur in
    if Prg.is_off cur then announce e (Msg.add m "status" "OFF") []
    else
      tal ← Prg.isActive (pe_program e);
      if previous_program e <>s cur then announce e m (default [] tal)
      else match refresh tal (pe_active e) with Some al => announce e m al | None => mret (false, e) end
  else
    tal ← Prg.isActive (pe_program e);
    match refresh tal (pe_active e) with Some al => announce e m al | None => mret (false, e) end.

(** The two pages, on the files of the program directory. *)
Definition makeStatusPage (e : ProgramEngine) (programs : list string) : M bool :=
  let page := Msg.add Msg.dummy "active_program" (current (pe_program e)) in
  let page := (Msg.add_list page "active_actions" (pe_active e)).2 in
  let page := (Msg.add_list page "available_programs"
                 (map fst (map_items (Prg.getProgramsList (pe_program e) programs ∅)))).2 in
  let page := Msg.add page "language" "xml" in
  emit (Registered "/programstatus.xml" page);;
  let page := Msg.add page "language" "html" in
  emit (Registered "/programstatus" page);; mret true.
Definition makeVersionPage (programs : list string) : M (option bool) :=
  v ← Prg.getProgramsVersions programs ∅;
  match v with
  | None => mret None
  | Some v =>
      let page := fold_left (fun m kv => Msg.add m kv.1 kv.2) (map_items v) Msg.dummy in
      let page := Msg.add page "language" "xml" in
      emit (Registered "/programversions.xml" page);;
      let page := Msg.add page "language" "html" in
      emit (Registered "/programversions" page);; mret (Some true)
  end.
Definition program_info (m : MMessage) (agentname : string) : M bool :=
  let pname := Msg.getString m "program" in
  let o := Msg.set_subtype (Msg.set_type Msg.dummy "program") "setprogram" in
  notify (Msg.add (Msg.add (Msg.add o "value" pname) "source" agentname) "mode" pname);; mret true.

(** The body of the loop.  The pages are rebuilt only on a "checkcycle" trigger:
    the test of [mod] is the statement of the last [else if]. *)
Definition handle (e : ProgramEngine) (programs : list string) (msg : MMessage) : M (option ProgramEngine) :=
  if is_msg msg "trigger" "prgupdate" then
    '(b, e) ← program_notify e false; mret (Some (e <| pe_mod := b |>))
  else if is_msg msg "cmd" "setprogram" then
    r ← setprogram e programs msg;
    match r with
    | None => mret None
    | Some (_, e) =>
        (if Msg.getString msg "tag" <>s "" then
           rpcNotify (Msg.getString msg "tag") "value" ("value=" +:+ current (pe_program e))
         else mret false);;
        '(b, e) ← program_notify e true; mret (Some (e <| pe_mod := b |>))
    end
  else if is_msg msg "trigger" "checkcycle" then
    if pe_mod e then
      makeStatusPage e programs;;
      v ← makeVersionPage programs;
      mret ((fun _ => e) <$> v)
    else mret (Some e)
  else mret (Some e).
(** The constructor and the start of [do_work]. *)
Definition mk {FS : PathNames} : M (option ProgramEngine) :=
  g ← Params.load (Params.mk1 "/global");
  match g with
  | None => mret None
  | Some (_, g) =>
      Prg.install (Params.get g "startprogram");;
      l ← Prg.load Prg.empty;
      mret ((fun '(_, p) => mkPE p "" [] false) <$> l)
  end.
Definition start (e : ProgramEngine) (programs : list string) : M (option ProgramEngine) :=
  '(_, e) ← program_notify e true;
  makeStatusPage e programs;;
  v ← makeVersionPage programs;
  mret ((fun _ => e) <$> v).
End pe.
End PE.
