(* ===== verification/EngineClaims.v ===== *)
(** * Properties of the engines of the Manager agent (Manager/RuleEngine.cpp, timedrule.cpp,
    ProgramEngine.cpp) *)
From S2P Require Import Prelude Doubles Hsrv Xml TinyFacts MMessage World XmlPrint MParams Samples EventCounter Pages Rule RuleClaims Engines ProgramEngine.

(** ** Counters and conditions send nothing *)
Section counters.
Context {P : Platform} {C : Config} {XP : XmlParser}.
(** Follow the code of a computation that only reads the clock. *)
Ltac quiet :=
  repeat first
    [ sends_step; try done
    | case_match; simpl
    | match goal with |- sends (mbind _ _) _ => eapply sends_silent; [solve [eauto with silent]|intros] end ].
Lemma silent_messageGet q : silent (DQ.messageGet q).
Proof. unfold DQ.messageGet. quiet. Qed.
Lemma silent_messageAppend q m : silent (DQ.messageAppend q m).
Proof. unfold DQ.messageAppend. quiet. Qed.
Lemma silent_Update c m : silent (EC.Update c m).
Proof. unfold EC.Update. quiet. Qed.
#[local] Hint Resolve silent_messageGet silent_messageAppend silent_Update : silent.
Lemma silent_EC_timeUpdate c : silent (EC.timeUpdate c).
Proof.
  unfold EC.timeUpdate. apply sends_silent; [|intros ?; quiet]. destruct (dq c); quiet.
Qed.
Lemma silent_EC_eventUpdate c m : silent (EC.eventUpdate c m).
Proof. unfold EC.eventUpdate. quiet. Qed.
#[local] Hint Resolve silent_EC_timeUpdate silent_EC_eventUpdate : silent.
Lemma silent_timeUpdate_loop l acc : silent (ECSet.timeUpdate_loop l acc).
Proof. revert acc. induction l as [|c l IH]; intros acc; cbn [ECSet.timeUpdate_loop]; quiet. Qed.
Lemma silent_eventUpdate_loop l m acc : silent (ECSet.eventUpdate_loop l m acc).
Proof. revert m acc. induction l as [|c l IH]; intros m acc; cbn [ECSet.eventUpdate_loop]; quiet. Qed.
#[local] Hint Resolve silent_timeUpdate_loop silent_eventUpdate_loop : silent.
Lemma silent_ECSet_timeUpdate l : silent (ECSet.timeUpdate l).
Proof. unfold ECSet.timeUpdate. quiet. Qed.
#[local] Hint Resolve silent_ECSet_timeUpdate : silent.
Lemma silent_ECSet_eventUpdate l m : silent (ECSet.eventUpdate l m).
Proof. unfold ECSet.eventUpdate. quiet. Qed.
End counters.

(** ** The rule engine *)
Section rule_engine.
Context {P : Platform} {C : Config} {XP : XmlParser} {FS : PathNames} {Ar : Archived}.

(** The messages of all the rules that fire, in order, rule number [i] seeing the clock
    reading [k + i]; each rule extends the vector the earlier ones left. *)
Fixpoint answers (w : world) (k : nat) (active : list string) (prg : bool) (ec : list EventCounter)
    (cnd : option (list BooleanCondition)) (l : list Rule) (ans : list MMessage) : list MMessage :=
  match l with
  | [] => ans
  | r :: l' => answers w (S k) active prg ec cnd l'
                 (if fires (gettime_of (w_clock w k)) active prg ec cnd r then answer_of r active ec ans else ans)
  end.
Lemma answers_tick w n active prg ec cnd l k ans :
  answers (set_tick n w) k active prg ec cnd l ans = answers w k active prg ec cnd l ans.
Proof. revert k ans. induction l as [|x l IH]; intros k ans; simpl; [done|]. apply IH. Qed.
Lemma match_loop_answers active prg ec cnd l counter ans w n l' ans' w' :
  RS.match_loop l active prg ec cnd counter ans w = (n, l', ans', w') ->
  ans' = answers w (w_tick w) active prg ec cnd l ans.
Proof.
  revert counter ans w n l' ans' w'. induction l as [|r l IH]; intros counter ans w n l' ans' w'; simpl.
  { by intros [= <- <- <- <-]. }
  rewrite run_bind. unfold result, final. rewrite match_run.
  destruct (match_at_spec (gettime_of (w_clock w (w_tick w))) active prg ec cnd r ans) as [_ Ha].
  destruct (RuleM.match_at _ active prg ec cnd r ans) as [[b r'] ans1]. simpl in Ha |- *. subst ans1.
  rewrite run_bind. unfold result, final.
  destruct (RS.match_loop l active prg ec cnd _ _ _) as [[[n1 l1] ans2] w1] eqn:E.
  apply IH in E as ->. intros [= <- <- <- <-]. clear.
  apply answers_tick.
Qed.

Lemma notify_all_trace l w : w_trace (final (notify_all l) w) = w_trace w ++ map Notified l.
Proof.
  unfold notify_all. revert w. induction l as [|m l IH]; intros w; cbn [iterM map]; [symmetry; apply app_nil_r|].
  rewrite final_bind, IH. change (w_trace (final (notify m) w)) with (w_trace w ++ [Notified m]). by rewrite <- app_assoc.
Qed.
Lemma sent_map_notified l : sent (map Notified l) = l.
Proof. induction l as [|m l IH]; [done|]. change (m :: sent (map Notified l) = m :: l). by rewrite IH. Qed.

Lemma match_and_notify_sends e w :
  w_trace (final (RE.match_and_notify e) w) =
  w_trace w ++ map Notified (answers w (w_tick w) (re_active e) (alarm_on e) (event_counter e) (re_condition e) (rules (re_rule e)) []).
Proof.
  unfold RE.match_and_notify. rewrite final_bind. unfold result at 1, final at 2.
  unfold RS.match_. rewrite run_bind. unfold result, final at 3.
  destruct (RS.match_loop (rules (re_rule e)) (re_active e) (alarm_on e) (event_counter e) (re_condition e) 0 [] w)
    as [[[n l] ans] w'] eqn:E. simpl.
  pose proof (match_loop_answers _ _ _ _ _ _ _ _ _ _ _ _ E) as ->.
  apply match_loop_counts in E as (_ & _ & ->).
  rewrite final_bind, final_ret, notify_all_trace. done.
Qed.

(** C30: on an event the rule engine first ages its counters, then gives the event to the
    counters and to the conditions, and then notifies exactly the messages of the rules that
    fire on the updated counters, in the order of the rules, and nothing else. *)
Theorem engine_event_answers e msg w :
  mtype msg = "event" -> msubtype msg <> "_SWITCH" -> msubtype msg <> "_ON" ->
  let '(_, ec, w1) := ECSet.timeUpdate (event_counter e) w in
  let '(_, ec', _, w2) := ECSet.eventUpdate ec msg w1 in
  let cnd := (fun l => (BCSet.eventUpdate l msg).2) <$> re_condition e in
  sent_by (RE.handle e msg) w = answers w2 (w_tick w2) (re_active e) (alarm_on e) ec' cnd (rules (re_rule e)) [].
Proof.
  intros Ht H1 H2.
  assert (RE.handle e msg = RE.on_event e msg) as ->.
  { unfold RE.handle, is_msg. rewrite Ht. simpl. by rewrite !seqb_ne by done. }
  destruct (silent_ECSet_timeUpdate (event_counter e) w) as (t1 & Ht1 & Hs1).
  destruct (ECSet.timeUpdate (event_counter e) w) as [[b ec] w1] eqn:E1.
  destruct (silent_ECSet_eventUpdate ec msg w1) as (t2 & Ht2 & Hs2).
  destruct (ECSet.eventUpdate ec msg w1) as [[[b' ec'] m'] w2] eqn:E2.
  unfold final in Ht1, Ht2. rewrite E1 in Ht1. rewrite E2 in Ht2. simpl in Ht1, Ht2.
  assert (w_trace (final (RE.on_event e msg) w) = w_trace w ++ (t1 ++ t2 ++
    map Notified (answers w2 (w_tick w2) (re_active e) (alarm_on e) ec'
      ((fun l => (BCSet.eventUpdate l msg).2) <$> re_condition e) (rules (re_rule e)) []))) as Htr.
  { unfold RE.on_event. rewrite final_bind. unfold result, final at 2. rewrite E1. simpl.
    rewrite final_bind. unfold result, final at 2. rewrite E2. simpl.
    rewrite match_and_notify_sends. simpl. by rewrite Ht2, Ht1, <- !app_assoc. }
  rewrite (sent_by_trace _ _ _ Htr), !sent_app, Hs1, Hs2. simpl. apply sent_map_notified.
Qed.
End rule_engine.

(** ** Timed rules *)
Section timed_rules.
Context {P : Platform} {C : Config} {XP : XmlParser}.

(** Whether the rule should be on at the second [now] of the day. *)
Definition holds (now : Z) (r : TimedRule) (program_name : string) (program : bool)
    (cnd : option (list BooleanCondition)) : bool :=
  (TR.get r "status" =s "ON") && TR.isInRange now (tr_from r) (tr_to r) && TR.checkCondition r cnd &&
  ((tr_behavior r =s "timed") || (TR.checkProgramName r program_name && program)).

Lemma switch_edge r hold res :
  tr_exec r = false ->
  TR.switch r hold res = (r <| tr_active := hold |>,
    res ++ (if Bool.eqb hold (tr_active r) then [] else TR.makeAction r hold [])).
Proof.
  intros He. unfold TR.switch, TR.makeAction. rewrite He.
  destruct r as [? ? ? ? ? ? ? ? ? ? ? ? ? act ?], hold, act; simpl; rewrite ?app_nil_r; done.
Qed.

(** A timed rule without a cycle sends its "set" actions exactly when it turns on and its
    "reset" actions exactly when it turns off, where it is on while its status is ON, the time
    of day is in its interval, its conditions hold and, for "program_timed", the program it is
    bound to is active; while nothing changes it sends nothing. *)
Lemma timed_rule_edges r program_name program cnd res w :
  (tr_behavior r = "timed" \/ tr_behavior r = "program_timed") -> tr_cycle r <= 0 ->
  let now := string2second (getasciitimeday_of (w_clock w (w_tick w))) in
  let on := holds now r program_name program cnd in
  let '(_, r', res') := result (TR.timeUpdate r program_name program cnd res) w in
  tr_active r' = on /\ tr_params r' = tr_params r /\ tr_behavior r' = tr_behavior r /\
  res' = res ++ (if Bool.eqb on (tr_active r) then [] else TR.makeAction r on []).
Proof.
  intros Hb Hc now on. unfold TR.timeUpdate. rewrite result_bind.
  change (result getasciitimeday w) with (getasciitimeday_of (w_clock w (w_tick w))). fold now.
  unfold TR.cycleUpdate. rewrite result_bind. unfold result at 2. rewrite run_bind.
  unfold TR.is_timed, TR.is_cyclic. simpl. rewrite (proj2 (Z.ltb_ge 0 (tr_cycle r))), !andb_false_r by lia. simpl.
  unfold TR.decide_at. simpl. subst on. unfold holds.
  change (TR.get ?x "status" =s "ON") with (TR.get r "status" =s "ON").
  set (st := TR.get _ "status" =s "ON"). change (TR.get r "status" =s "ON") with st.
  destruct st; simpl.
  - destruct Hb as [-> | ->]; simpl; rewrite switch_edge by done; simpl.
    + rewrite !andb_true_r. split_and!; done.
    + split_and!; try done; [by destruct (TR.isInRange _ _ _), (TR.checkCondition _ _), (TR.checkProgramName _ _), program|].
      f_equal. by destruct (TR.isInRange _ _ _), (TR.checkCondition _ _), (TR.checkProgramName _ _), program.
  - destruct (tr_active r) eqn:Ea; simpl; [|by rewrite app_nil_r]. done.
Qed.
End timed_rules.

(** ** Switching the program off and back on *)
(** Words without white space are what [saveFile] then [readFile] keep. *)
Definition word (s : string) : Prop := Forall (fun c => Ascii.is_space c = false) (chars s).
Lemma words_followed_word cur l :
  Forall (fun c => Ascii.is_space c = false) l -> words_followed cur (l ++ ["010"%char]) = cur ++ l.
Proof.
  intros H. revert cur. induction H as [|c l Hc Hl IH]; intros cur; simpl; [done|].
  rewrite Hc, IH. by rewrite <- app_assoc.
Qed.
Lemma sapp_inj_l a b c : a +:+ b = a +:+ c -> b = c.
Proof. induction a as [|x a IH]; [done|]. rewrite !sapp_cons. intros [= H]. auto. Qed.

Section files.
Lemma run_readFile w f s : w_files w !! f = Some (s +:+ Msg.endl) -> word s -> FM.readFile f w = (s, w).
Proof.
  intros Hf Hs. unfold FM.readFile. rewrite run_bind. unfold result, final, read_file. simpl. rewrite Hf.
  rewrite chars_app, words_followed_word by done. simpl. unfold mret, M_ret. by rewrite of_chars_chars.
Qed.
Lemma run_saveFile w f s :
  w_writable w f = true -> FM.saveFile f s w = (true, set_files (<[f := s +:+ Msg.endl]> (w_files w)) w).
Proof. intros H. unfold FM.saveFile. rewrite run_bind. unfold result, final, write_file. by rewrite H. Qed.
Lemma run_moveFile w f d n c :
  w_files w !! f = Some c -> w_writable w (FM.path_of d n) = true ->
  FM.moveFile f d n w = (true, set_files (<[FM.path_of d n := c]> (delete f (w_files w))) w).
Proof.
  intros Hf Hw. unfold FM.moveFile, FM.isFile. rewrite run_bind. unfold result, final, is_file.
  rewrite Hf. simpl. rewrite run_bind. unfold result, final, rename. by rewrite Hf, Hw.
Qed.
Lemma run_deleteFile w f :
  w_writable w f = true ->
  FM.deleteFile f "" w = (bool_decide (is_Some (w_files w !! f)), set_files (delete f (w_files w)) w).
Proof.
  intros Hw. unfold FM.deleteFile, FM.isFile. change (FM.path_of f "") with f.
  rewrite run_bind. unfold result, final, is_file. cbn [fst snd].
  destruct (w_files w !! f) as [c|] eqn:E.
  - rewrite !bool_decide_true by (by eexists). rewrite run_bind. unfold result, final, unlink. by rewrite E, Hw.
  - rewrite !bool_decide_false by (by intros []). rewrite delete_id by done. by destruct w.
Qed.
End files.

Section programs.
Context {P : Platform} {C : Config} {XP : XmlParser}.
Definition program_file (name : string) : string := homedir +:+ "/programs/" +:+ name.
(** A program file that is there parses to a document with a program. *)
Definition loadable (w : world) (name : string) : Prop :=
  forall s p, w_files w !! program_file name = Some s -> parse_ok s = true ->
  is_Some (Prg.of_document p (load_document s)).
Lemma of_document_current p d r q : Prg.of_document p d = Some (r, q) -> current q = current p.
Proof.
  unfold Prg.of_document. destruct (NextSibling d) as [[|n l]|]; simpl; [done| |done].
  destruct (Prg.load_days _ _ _); simpl; [|done]. by intros [= <- <-].
Qed.
Lemma run_load_into e name w :
  loadable w name -> exists e', PE.load_into e name w = (Some e', w) /\ current (pe_program e') = name.
Proof.
  intros Hl. unfold PE.load_into, Prg.load_name. rewrite !run_bind.
  set (p := match doc _ with Some _ => _ | None => _ end). assert (current p = name) as Hp by (subst p; simpl; by case_match). clearbody p.
  unfold result, final. rewrite run_bind.
  unfold isfile_type, read_file, result, final, mbind, M_bind, mret, M_ret, fmap. fold (program_file name).
  cbn -[Prg.of_document contains first_word program_file].
  destruct (w_files w !! program_file name) as [s|] eqn:E; cbn -[Prg.of_document contains first_word program_file].
  2:{ eexists. split; [reflexivity|]. done. }
  destruct (contains "xml" (first_word s)); rewrite ?E; cbn -[Prg.of_document program_file].
  2:{ eexists. split; [reflexivity|]. done. }
  destruct (parse_ok s) eqn:Ep; cbn -[Prg.of_document program_file].
  2:{ eexists. split; [reflexivity|]. done. }
  destruct (Hl s (p <| doc := Some (TinyPrint.loaded s) |>) E Ep) as [[r q] Hq].
  cbn -[Prg.of_document] in Hq. rewrite Hq. eexists. split; [reflexivity|]. simpl.
  apply of_document_current in Hq. by rewrite Hq.
Qed.

(** *** Programs saved *)
(** A program is the one its document describes. *)
Definition of_its_document (p : Program) : Prop := exists d p0,
  doc p = Some d /\ Prg.of_document Prg.empty (TinyPrint.doc_nodes d) = Some (1, p0) /\
  year p = year p0 /\ version p = version p0 /\ days p = days p0.
Lemma of_document_days p d q : Prg.of_document p d = Some (1, q) -> forall p', days p' = days p ->
  exists q', Prg.of_document p' d = Some (1, q') /\ year q' = year q /\ version q' = version q /\ days q' = days q /\ doc q' = doc p'.
Proof.
  unfold Prg.of_document. intros H p' Hp. destruct (NextSibling d) as [[|n l]|]; simpl in *; [done| |done]. rewrite Hp.
  destruct (Prg.load_days _ _ _); simpl in *; [|done]. injection H as <-. eexists. split; [reflexivity|done].
Qed.
(** A program of elements that is saved under the name of another is loaded as the same days, year and version. *)
Lemma saved_program_loads_back p q x d f w :
  of_its_document p -> doc p = Some d -> PrintFacts.plain_document d x -> w_writable w (program_file f) = true ->
  (doc q = None -> days q = ∅) ->
  let w1 := final (Prg.save p (program_file f)) w in
  result (Prg.save p (program_file f)) w = Some 1 /\
  exists q', Prg.load_name (XP := tinyxml) q f w1 = (Some (1, q'), w1) /\
    year q' = year p /\ version q' = version p /\ days q' = days p /\ doc q' = doc p /\ current q' = f.
Proof.
  intros (d' & p0 & Hd' & H0 & Hy & Hv & Hds) Hd Hx Hw Hq. rewrite Hd in Hd'. injection Hd' as <-.
  pose proof (PrintFacts.saved_loads d x Hx) as Hl. destruct (PrintFacts.saved_document d x Hx) as (s & _ & _ & Es).
  unfold Prg.save. rewrite Hd. unfold TinyPrint.SaveFile, write_file, result, final, mbind, M_bind, ok. rewrite Hw. cbv zeta. cbn [fst snd].
  split; [done|]. set (text := TinyPrint.saved_text d) in *. unfold Prg.load_name.
  set (q0 := match doc _ with Some _ => _ | None => _ end).
  assert (days q0 = ∅ /\ current q0 = f) as [Hq0 Hcq] by (subst q0; simpl; destruct (doc q) eqn:E; simpl; auto).
  clearbody q0. unfold isfile_type, read_file, mbind, M_bind, mret, M_ret, fmap. fold (program_file f).
  cbn -[Prg.of_document contains first_word program_file TinyPrint.loaded]. rewrite lookup_insert_eq. cbn -[Prg.of_document contains first_word program_file TinyPrint.loaded].
  assert (contains "xml" (first_word text) = true) as -> by (rewrite Es; by vm_compute). cbn -[Prg.of_document program_file TinyPrint.loaded].
  rewrite lookup_insert_eq. cbn -[Prg.of_document program_file TinyPrint.loaded]. rewrite Hl. cbn -[Prg.of_document program_file TinyPrint.loaded].
  set (q1 := q0 <| doc := Some (TinyPrint.loaded (XP := tinyxml) text) |>).
  destruct (of_document_days _ _ _ H0 q1 Hq0) as (q' & Hq' & H1 & H2 & H3 & H4).
  exists q'. split; [f_equal; exact Hq'|]. rewrite Hy, Hv, Hds. split_and!; [done..| |].
  - rewrite H4. unfold q1, TinyPrint.loaded. cbn. rewrite Hl. destruct Hx as [-> _]. by rewrite Es.
  - apply of_document_current in Hq'. by rewrite Hq'.
Qed.

Definition previousp : string := FM.path_of homedir "PREVIOUSP".
Lemma paths_apart : PE.currentp <> PE.swapped /\ PE.currentp <> previousp /\ PE.swapped <> previousp /\
  (forall n, program_file n <> PE.currentp) /\ (forall n, program_file n <> PE.swapped) /\ (forall n, program_file n <> previousp).
Proof. split_and!; intros; intros H%sapp_inj_l; discriminate. Qed.
Lemma loadable_files w w' name :
  loadable w name -> w_files w' !! program_file name = w_files w !! program_file name -> loadable w' name.
Proof. intros H E s p Hs. rewrite E in Hs. by apply H. Qed.
Lemma run_change_current w c prog :
  (forall p, w_writable w p = true) -> w_files w !! PE.currentp = Some c ->
  exists w', PE.change_current prog w = (tt, w') /\ w_writable w' = w_writable w /\
    w_files w' = <[PE.currentp := prog +:+ Msg.endl]> (<[previousp := c]> (w_files w)).
Proof.
  intros Hw Hc. unfold PE.change_current. rewrite run_bind. unfold result, final.
  rewrite (run_moveFile w PE.currentp homedir "PREVIOUSP" c) by auto. cbn [fst snd].
  rewrite run_bind. unfold result, final. rewrite run_saveFile by apply Hw. eexists. split; [reflexivity|]. split; [done|].
  unfold set_files. simpl. fold previousp. apply map_eq. intros k. destruct paths_apart as (_ & H & _).
  destruct (decide (k = PE.currentp)) as [->|H1]; [by rewrite !lookup_insert_eq|]. rewrite !(lookup_insert_ne _ PE.currentp) by done.
  destruct (decide (k = previousp)) as [->|H2]; [by rewrite !lookup_insert_eq|].
  by rewrite !(lookup_insert_ne _ previousp), lookup_delete_ne by done.
Qed.
(** The value of the swapped-out program that [setprogram] reads. *)
Lemma run_read_swapped w s : w_files w !! PE.swapped = Some (s +:+ Msg.endl) -> word s -> PE.read_swapped w = (s, w).
Proof.
  intros H Hs. unfold PE.read_swapped, FM.isFile. rewrite run_bind. unfold result, final, is_file. cbn [fst snd].
  rewrite bool_decide_true by (rewrite H; by eexists). by apply run_readFile.
Qed.
Definition switch_msg : MMessage := Msg.add (Msg.mk "cmd" "setprogram") "program" "_SWITCH".

(** Switching off a running program. *)
Lemma run_switch_off e programs w prog :
  (forall p, w_writable w p = true) -> w_files w !! PE.currentp = Some (prog +:+ Msg.endl) -> word prog ->
  Prg.is_off prog = false -> loadable w "OFF" ->
  exists e' w', PE.setprogram e programs switch_msg w = (Some (true, e'), w') /\ current (pe_program e') = "OFF" /\
    w_writable w' = w_writable w /\
    w_files w' = <[PE.swapped := prog +:+ Msg.endl]> (<[PE.currentp := "OFF" +:+ Msg.endl]> (<[previousp := prog +:+ Msg.endl]> (w_files w))).
Proof.
  intros Hw Hc Hp Ho Hl. unfold PE.setprogram. change (Msg.getString switch_msg "program") with "_SWITCH".
  cbv zeta. change ("_SWITCH" =s "") with false. cbv iota. change ("_SWITCH" =s "_SWITCH") with true. cbv iota.
  rewrite run_bind. unfold result, final. rewrite (run_readFile w _ prog Hc Hp). cbn [fst snd].
  rewrite run_bind. destruct (PE.read_swapped w) as [sw w0] eqn:Es. unfold result, final. rewrite Es. cbn [fst snd].
  assert (w0 = w) as ->.
  { unfold PE.read_swapped, FM.isFile, FM.readFile in Es. rewrite run_bind in Es. unfold result, final, is_file in Es. cbn in Es.
    destruct (bool_decide _) in Es; [rewrite run_bind in Es|]; by injection Es. }
  rewrite Ho. cbn [negb]. unfold PE.switch_off. rewrite run_bind. unfold result, final.
  destruct (run_change_current w _ "OFF" Hw Hc) as (w1 & -> & Hw1 & Hf1). cbn [fst snd].
  rewrite run_bind. unfold result, final. rewrite run_saveFile by (rewrite Hw1; apply Hw). cbn [fst snd].
  set (w2 := set_files _ w1). rewrite run_bind.
  assert (loadable w2 "OFF") as Hl2.
  { apply (loadable_files w); [done|]. unfold w2. simpl. destruct paths_apart as (_ & _ & _ & H4 & H5 & H6).
    by rewrite Hf1, !lookup_insert_ne by done. }
  destruct (run_load_into e "OFF" w2 Hl2) as (e' & He & Hcur). unfold result, final. rewrite He.
  exists e', w2. split_and!; [done|done|done|]. unfold w2. simpl. by rewrite Hf1.
Qed.
(** Switching on again the program that was swapped out. *)
Lemma run_switch_on e programs w prog :
  (forall p, w_writable w p = true) -> w_files w !! PE.currentp = Some ("OFF" +:+ Msg.endl) ->
  w_files w !! PE.swapped = Some (prog +:+ Msg.endl) -> word prog -> prog <> "" -> Prg.is_off prog = false -> loadable w prog ->
  exists e' w', PE.setprogram e programs switch_msg w = (Some (true, e'), w') /\ current (pe_program e') = prog /\
    w_files w' = delete PE.swapped (<[PE.currentp := prog +:+ Msg.endl]> (<[previousp := "OFF" +:+ Msg.endl]> (w_files w))).
Proof.
  intros Hw Hc Hs Hp Hne Ho Hl. unfold PE.setprogram. change (Msg.getString switch_msg "program") with "_SWITCH".
  cbv zeta. change ("_SWITCH" =s "") with false. cbv iota. change ("_SWITCH" =s "_SWITCH") with true. cbv iota.
  assert (word "OFF") as Hoff by (repeat constructor).
  rewrite run_bind. unfold result, final. rewrite (run_readFile w _ "OFF" Hc Hoff). cbn [fst snd].
  rewrite run_bind. unfold result, final. rewrite (run_read_swapped w prog Hs Hp). cbn [fst snd].
  change (negb (Prg.is_off "OFF")) with false. cbv iota. unfold PE.switch_on. rewrite (seqb_ne prog "") by done. rewrite Ho. cbn [negb andb].
  rewrite run_bind. unfold result, final.
  destruct (run_change_current w _ prog Hw Hc) as (w1 & -> & Hw1 & Hf1). cbn [fst snd].
  rewrite run_bind. unfold result, final. rewrite run_deleteFile by (rewrite Hw1; apply Hw). cbn [fst snd].
  set (w2 := set_files _ w1). rewrite run_bind.
  assert (loadable w2 prog) as Hl2.
  { apply (loadable_files w); [done|]. unfold w2. simpl. destruct paths_apart as (_ & _ & _ & H4 & H5 & H6).
    by rewrite lookup_delete_ne, Hf1, !lookup_insert_ne by done. }
  destruct (run_load_into e prog w2 Hl2) as (e' & He & Hcur). unfold result, final. rewrite He.
  exists e', w2. split_and!; [done|done|]. unfold w2. simpl. by rewrite Hf1.
Qed.

(** "_SWITCH" sent twice to the program engine is a round trip: the first turns the running
    program OFF and keeps its name aside, the second makes the same program current again,
    both in memory and on disk, and forgets the name kept aside; only the file of the previous
    program differs. *)
Lemma program_switch_roundtrip e programs w prog :
  (forall p, w_writable w p = true) -> w_files w !! PE.currentp = Some (prog +:+ Msg.endl) ->
  word prog -> prog <> "" -> Prg.is_off prog = false -> loadable w "OFF" -> loadable w prog ->
  w_files w !! PE.swapped = None ->
  exists e1 w1 e2 w2,
    PE.setprogram e programs switch_msg w = (Some (true, e1), w1) /\ current (pe_program e1) = "OFF" /\
    PE.setprogram e1 programs switch_msg w1 = (Some (true, e2), w2) /\ current (pe_program e2) = prog /\
    w_files w2 = <[previousp := "OFF" +:+ Msg.endl]> (w_files w).
Proof.
  intros Hw Hc Hp Hne Ho Hl Hlp Hs.
  destruct paths_apart as (H1 & H2 & H3 & H4 & H5 & H6).
  destruct (run_switch_off e programs w prog Hw Hc Hp Ho Hl) as (e1 & w1 & E1 & C1 & W1 & F1).
  destruct (run_switch_on e1 programs w1 prog) as (e2 & w2 & E2 & C2 & F2); try done.
  - intros p. rewrite W1. apply Hw.
  - by rewrite F1, lookup_insert_ne, lookup_insert_eq by done.
  - by rewrite F1, lookup_insert_eq.
  - apply (loadable_files w); [done|]. by rewrite F1, !lookup_insert_ne by done.
  - exists e1, w1, e2, w2. split_and!; try done. rewrite F2, F1. apply map_eq. intros k.
    destruct (decide (k = PE.swapped)) as [->|K1]; [by rewrite lookup_delete_eq, lookup_insert_ne by done|].
    rewrite lookup_delete_ne by done.
    destruct (decide (k = PE.currentp)) as [->|K2]; [by rewrite lookup_insert_eq, lookup_insert_ne by done|].
    rewrite lookup_insert_ne by done.
    destruct (decide (k = previousp)) as [->|K3]; [by rewrite !lookup_insert_eq|].
    by rewrite !lookup_insert_ne by done.
Qed.
End programs.

(** ** Witnesses *)
Import Samples.Instances.
(** A counter that one "door" event makes active, and the rule of the night. *)
Definition door_counter : EventCounter :=
  mkEC (mkParams "door" "" "" [Attr.mk2 "name" "door"]) "door" d0 d1 d0 d1 [] ["ON"] d0 d0 [] "" None.
Definition sample_engine : RuleEngine :=
  mkRE "10" "10" [door_counter] None (mkRS [night_rule] d0 d0) Msg.dummy true [].
Definition door_event : MMessage := Msg.add (Msg.mk "event" "door") "value" "ON".
Lemma engine_event_answers_witness :
  (let '(_, ec, w1) := ECSet.timeUpdate [door_counter] (world_at early) in
   let '(_, ec', _, w2) := ECSet.eventUpdate ec door_event w1 in
   sent_by (RE.handle sample_engine door_event) (world_at early) =
   answers w2 (w_tick w2) [] true ec' None [night_rule] []) /\
  length (sent_by (RE.handle sample_engine door_event) (world_at early)) = 1%nat.
Proof.
  split; [|vm_compute; reflexivity].
  exact (engine_event_answers sample_engine door_event (world_at early) eq_refl ltac:(discriminate) ltac:(discriminate)).
Defined.

Definition evening : TimedRule :=
  mkTR (params [("status", "ON"); ("set", "lamp_on"); ("reset", "lamp_off")]) "evening" "evening" true [] "timed"
    0 0 25200 32400 (-1) (-1) 86400 false false.

Definition running_world : world :=
  World (fun n => Timeval early 0) (fun _ _ => "") (fun _ => true) 0 {[ "/home/hat/CURRENTP" := "AUTO" +:+ Msg.endl ]} ∅ ∅ [].
