(* ===== verification/ArchiveOps.v ===== *)
(** * Requests on the archive (minilibs/ArchiveManager.cpp)

    The requests that write (POST, PUT, configuration files and logs), those that read (first, last,
    all, lists, time ranges), and the periodic purge.  The bus is the registry of
    [Subjects]: a request is announced when somebody observes its type. *)
From S2P Require Import Prelude Doubles Hsrv Xml MMessage World MParams Subjects Archive.

(** The order [<=] of [std::string]. *)
Definition str_leb (a b : string) : bool := bool_decide (String.le a b).

(** boost::property_tree: parsing JSON, the child of a name, the string and the
    number of a name and the children in order; [None] where the library throws. *)
Class PropertyTree := {
  ptree : Type;
  read_json : string -> option ptree;
  get_child : ptree -> string -> option ptree;
  get_string : ptree -> string -> option string;
  get_float : ptree -> string -> option spec_float;
  ptree_children : ptree -> list ptree }.

(** [s.substr(pos, n)]: out of range past the end. *)
Definition substr (s : string) (pos n : nat) : option string :=
  if (pos <=? String.length s)%nat then Some (String.substring pos n s) else None.

Module Req.
Section requests.
Context {P : Platform} {C : Config} {XP : XmlParser} {FS : PathNames} {K : Calendar}.
Implicit Types (a : ArchiveManager) (m : MMessage).

(** ** Addresses *)

(** The url of the message is made relative to the archive, completed with its type and
    subtype for the messages, and ends with "data" except for configuration files. *)
Definition restify a m (conf : bool) : MMessage :=
  let urlstr := Msg.getString m "url" in
  let urlstr := if urlstr =s "" then "/message" else urlstr in
  let url := drop_blank (NameList.of_string urlstr "/") in
  let subs := if bool_decide (url = []) then List.filter (fun s => s =s mtype m) (Arc.getSubDir a "message") else [] in
  let msgSub := negb (bool_decide (subs = [])) in
  let urlstr := urlstr +:+ sconcat (map (fun _ => "/message/") subs) in
  let '(m, urlstr) :=
    if (default "" (head url) =s "message") || msgSub then
      if (mtype m <>s "*") && (msubtype m <>s "*")
      then (m, urlstr +:+ "/" +:+ mtype m +:+ "/" +:+ msubtype m)
      else
        let m := if (mtype m =s "*") && (1 <? length url)%nat then Msg.set_type m (nth 1 url "") else m in
        let m := if (msubtype m =s "*") && (2 <? length url)%nat then Msg.set_subtype m (nth 2 url "") else m in
        (m, urlstr)
    else (m, urlstr) in
  let urlstr := if (default "" (last url) <>s "data") && negb conf then urlstr +:+ "/data" else urlstr in
  Msg.add m "url" urlstr.

Definition observed (b : Bus) (t st : string) : bool :=
  SubjSet.check_subject b t st || SubjSet.check_subject b t "*".
(** The observers learn the method and the url. *)
Definition announce (b : Bus) (t st method url : string) m : M MMessage :=
  if observed b t st then
    let m := Msg.add (Msg.add m "method" method) "url" url in notify m;; mret m
  else mret m.
Definition answer (field value : string) : MMessage :=
  Msg.add (Msg.set_type Msg.dummy "answer") field value.

(** The part the five requests share: the url of the message, which is removed from it, and the permission
    to write there.  [isDir] is not called on a forbidden url. *)
Definition admit_write a (fullPath : string) (url : string) : M (option bool) :=
  permission ←! lifto (Arc.checkPermission a (drop_blank (NameList.of_string url "/")) WRITE);
  if permission : bool then d ← Dirs.isDir fullPath; ok (negb d) else ok false.
Definition erase_url m : MMessage := (Msg.remove m "url").2.

Definition postExec a (b : Bus) m : M (option (MMessage * MMessage)) :=
  let m := restify a m false in
  let url := Msg.getString m "url" in
  let m := erase_url m in
  let fullPath := archiveHome a +:+ "/" +:+ url in
  allowed ←! admit_write a fullPath url;
  if allowed : bool then
    _ ←! Arc.addResource a url "" true;
    let body := Msg.xmlEncode m 0 in
    f ← Dirs.isFile fullPath;
    o ← (if f : bool then open_app fullPath else open_out fullPath);
    m ← announce b (mtype m) (msubtype m) "POST" url m;
    (if o : bool then append fullPath (body +:+ Msg.endl) else mret tt);;
    ok (answer "body" "OK", m)
  else ok (answer "body" "Forbidden", m).
Definition putExec a (b : Bus) m : M (option (MMessage * MMessage)) :=
  let m := restify a m false in
  let url := Msg.getString m "url" in
  let m := erase_url m in
  let fullPath := archiveHome a +:+ "/" +:+ url in
  allowed ←! admit_write a fullPath url;
  if allowed : bool then
    _ ←! Arc.addResource a url "" true;
    let data := Msg.xmlEncode m 0 in
    o ← open_out fullPath;
    m ← announce b (mtype m) (msubtype m) "PUT" url m;
    (if o : bool then append fullPath (data +:+ Msg.endl) else mret tt);;
    ok (answer "result" "OK", m)
  else ok (answer "result" "Forbidden", m).

(** [{"response":{"message":"ok","upload":u}}] *)
Definition json_upload (u : string) : string :=
  "{" +:+ quote "response" +:+ ":{" +:+ quote "message" +:+ ":" +:+ quote "ok" +:+ "," +:+
  quote "upload" +:+ ":" +:+ quote u +:+ "}}".
Definition cmd_putConf m : MMessage := Msg.set_subtype (Msg.set_type m "cmd") "putConf".

Definition putConf a (b : Bus) m : M (option (MMessage * MMessage)) :=
  let m := restify a m true in
  let url := Msg.getString m "url" in
  let m := cmd_putConf (erase_url m) in
  root ←! lifto (Arc.getRootPath a url);
  let fullPath := root +:+ "/" +:+ url in
  let json := FilePath.getExt fullPath =s "json" in
  allowed ←! admit_write a fullPath url;
  if allowed : bool then
    _ ←! Arc.addResource a url "" true;
    o ← open_out fullPath;
    if o : bool then
      append fullPath (Msg.getString m "body" +:+ Msg.endl);;
      m ← announce b "cmd" "putConf" "PUT" url m;
      ok (answer "body" (if json then json_upload "true" else "OK"), m)
    else ok (answer "body" "Forbidden", m)
  else ok (answer "body" (if json then json_upload "false" else "Forbidden"), m).
Definition putLog a (b : Bus) m : M (option (MMessage * MMessage)) :=
  let m := restify a m false in
  let url := Msg.getString m "url" in
  let m := cmd_putConf (erase_url m) in
  root ←! lifto (Arc.getRootPath a url);
  let fullPath := root +:+ "/" +:+ url in
  allowed ←! admit_write a fullPath url;
  if allowed : bool then
    added ←! Arc.addResource a url "" true;
    if negb added then ok (answer "body" "Forbidden", m)
    else
      o ← open_out fullPath;
      if o : bool then
        append fullPath (Msg.getString m "body" +:+ Msg.endl);;
        m ← announce b "cmd" "putConf" "PUT" url m;
        ok (answer "body" "OK", m)
      else ok (answer "body" "Forbidden", m)
  else ok (answer "body" "Forbidden", m).
(** A resource that cannot be added is noted in the answer, and the writing goes on. *)
Definition postLog a (b : Bus) m : M (option (MMessage * MMessage)) :=
  let m := restify a m false in
  let url := Msg.getString m "url" in
  let m := cmd_putConf (erase_url m) in
  root ←! lifto (Arc.getRootPath a url);
  let fullPath := root +:+ "/" +:+ url in
  allowed ←! admit_write a fullPath url;
  if allowed : bool then
    added ←! Arc.addResource a url "" true;
    let response := Msg.set_type Msg.dummy "answer" in
    let response := if added : bool then response else Msg.add response "body" "Forbidden" in
    f ← Dirs.isFile fullPath;
    o ← (if f : bool then open_app fullPath else open_out fullPath);
    if o : bool then
      append fullPath (Msg.getString m "body" +:+ Msg.endl);;
      m ← announce b "cmd" "putConf" "POST" url m;
      ok (Msg.add response "body" "OK", m)
    else ok (Msg.add response "body" "Forbidden", m)
  else ok (answer "body" "Forbidden", m).

(** ** The purge *)

(** The home directory loses its first doubled slash on the way. *)
Definition getRelativePath a (path : string) : string * ArchiveManager :=
  let a := a <| archiveHome := Arc.one_slash (archiveHome a) |> in
  let relPath := if contains (archiveHome a) path
                 then drop_str (String.length (archiveHome a)) path else "" in
  (if cget relPath 0 =c "/" then drop_str 1 relPath else relPath, a).

(** The element after the XML declaration, when there is one. *)
Definition line_element (line : string) : option xptr :=
  NextSibling (parse_document ("<?xml version=" +:+ quote "1.0" +:+ " ?>" +:+ line)).
(** Delete the files that the lines of an expired file name. *)
Fixpoint clear_loop a (l : list string) : M (option unit) :=
  match l with
  | [] => ok tt
  | line :: l' =>
      desc ←! lifto (line_element line);
      (match desc with
       | [] => mret tt
       | n :: _ =>
           let url := archiveHome a +:+ "/" +:+ child_attr n "url" in
           Dirs.deleteFile (Arc.getParentDirectory url) (FilePath.getTail url);; mret tt
       end);; clear_loop a l'
  end.
Definition clear a (filename : string) : M (option unit) :=
  c ← contents filename;
  match c with None => ok tt | Some s => clear_loop a (eof_lines s) end.

(** What precedes the first dot of the last name of a path, "" without a dot. *)
Definition before_dot (tail : string) : string :=
  match sfind "." tail 0 with Some pos => take_str pos tail | None => "" end.
Definition is_data (filename : string) : bool :=
  let tail := FilePath.getTail filename in (tail =s "data") || (before_dot tail =s "data").
Definition purge_file a (datestr filename : string) : M (option ArchiveManager) :=
  let ext := FilePath.getExt filename in
  let '(rel, a) := getRelativePath a filename in
  root ←! lifto (head (NameList.of_string rel "/"));
  let timeWin := Arc.getWindow a root in
  if (timeWin <? 0) || negb (is_data filename) then ok a
  else if negb (Arc.isDate ext "_") then
    Dirs.moveFile filename (filename +:+ "." +:+ datestr) "";; ok a
  else
    age ←! lifto (Arc.getDateDifference datestr ext "_");
    if timeWin <? age then
      _ ←! clear a filename;
      Dirs.deleteFile (Arc.getParentDirectory filename) (FilePath.getTail filename);; ok a
    else ok a.
Fixpoint purge_loop a (datestr : string) (l : list string) : M (option ArchiveManager) :=
  match l with
  | [] => ok a
  | f :: l' => a ←! purge_file a datestr f; purge_loop a datestr l'
  end.
Definition purge a : M (option ArchiveManager) :=
  datestr ← getday (-60);
  archiveFiles ←! Arc.explore (archiveHome a) true;
  purge_loop a datestr archiveFiles.

(** ** Reading *)

Definition refused (resPath : string) : bool := (resPath =s "Not Found") || (resPath =s "Forbidden").

Definition getAll a m : M (option string) :=
  resPath ←! lifto (Arc.getExec a m);
  if refused resPath then ok resPath
  else c ← contents (resPath +:+ "/data");
       match c with
       | None => ok "Not Found"
       | Some s => ok (sconcat (map (fun line => line +:+ Msg.endl) (eof_lines s)))
       end.
Definition getFile a m : M (option string) :=
  resPath ←! lifto (Arc.getExec a m);
  if refused resPath then ok resPath
  else c ← contents (resPath +:+ "/" +:+ tailof (Msg.getString m "url")); ok (default "Not Found" c).

(** The file a line of format "video" refers to, or the line; with the extension of the file. *)
Definition follow_video a (data filetype : string) : M (option (string * string)) :=
  desc ←! lifto (line_element data);
  match desc with
  | [] => ok (data, filetype)
  | n :: _ =>
      if child_attr n "format" =s "video" then
        let url := child_attr n "url" in
        c ← contents (archiveHome a +:+ url); ok (default "" c, FilePath.getExt url)
      else ok (data, filetype)
  end.
Definition getFirst a m (filetype : string) : M (option (string * string)) :=
  resPath ←! lifto (Arc.getExec a m);
  if refused resPath then ok (resPath, filetype)
  else c ← contents (resPath +:+ "/data");
       match c with
       | None => ok ("Not Found", filetype)
       | Some s => follow_video a (default "" (head (eof_lines s))) filetype
       end.
(** Today's data, or the first in the order of names of the files of the past. *)
Definition getLatestData (dir : string) : M string :=
  f ← Dirs.isFile (dir +:+ "/data");
  if f : bool then mret (dir +:+ "/data")
  else
    r ← Dirs.fileList dir [];
    let l := List.filter (fun n => contains "data." n) r.2 in
    mret (match head (merge_sort String.le l) with
          | None => "Not Found"
          | Some n => dir +:+ "/" +:+ n
          end).
(** The last line before the first empty one. *)
Fixpoint last_line (acc : string) (l : list string) : string :=
  match l with
  | [] => acc
  | x :: l' => if x =s "" then acc else last_line x l'
  end.
Definition getLast a m (filetype : string) : M (option (string * string)) :=
  resDir ←! lifto (Arc.getExec a m);
  filePath ← getLatestData resDir;
  if refused filePath then ok (filePath, filetype)
  else c ← contents filePath;
       match c with
       | None => ok ("Not Found", filetype)
       | Some s => follow_video a (last_line "" (eof_lines s)) filetype
       end.

Definition name_item (n : string) : string := "{" +:+ quote "name" +:+ ":" +:+ quote n +:+ "}".
Definition getDir a m : M (option string) :=
  resPath ←! lifto (Arc.getExec a m);
  if refused resPath then ok resPath
  else
    let fullpath := resPath +:+ "/" +:+ FilePath.getStem (tailof (Msg.getString m "url")) in
    r ← Dirs.fileList fullpath [];
    files ← (match r.2 with [] => r ← Dirs.dirList fullpath []; mret r.2 | l => mret l end);
    ok ("{" +:+ quote "response" +:+ ": {" +:+ quote "message" +:+ ":" +:+ quote "ok" +:+ "," +:+
        quote "files" +:+ ":[" +:+ ML.commas (map name_item files) +:+ "]}}" +:+ Msg.endl).

(** *** The tree under a url *)
Definition relative_to (rootP p : string) : string :=
  if contains rootP p then
    let p := drop_str (String.length rootP) p in if cget p 0 =c "/" then drop_str 1 p else p
  else p.
(** What is kept, and the paths of the methods of the instances, which come last. *)
Fixpoint list_paths a (src : string) (l : list string) : option (list string * list string) :=
  match l with
  | [] => Some ([], [])
  | p :: l' =>
      let nl := NameList.of_string p "/" in
      permission ← Arc.checkPermission a nl READ;
      '(kept, insts) ← list_paths a src l';
      Some (if negb permission || (archiveHome a +:+ "/" +:+ p =s src) then (kept, insts)
            else if default "" (last nl) =s "data" then
              (kept, map (fun x => Arc.getParentDirectory p +:+ "/" +:+ x) (methods a) ++ insts)
            else (p :: kept, insts))
  end.
Definition getSubPaths a (src : string) : M (option (list string)) :=
  n ←! lifto (if src =s "" then None else Some (String.length src - 1)%nat);
  let src := if cget src n =c "/" then take_str n src else src in
  rootP ←! lifto (Arc.getRootPath a src);
  let src := Arc.one_slash (rootP +:+ "/" +:+ src) in
  l ←! Arc.explore src true;
  r ←! lifto (list_paths a src (map (relative_to rootP) l));
  ok (r.1 ++ r.2).
Definition getList a m : M (option string) :=
  let url := Msg.getString m "url" in
  root ←! lifto (Arc.getRootPath a url);
  let fullPath := root +:+ "/" +:+ url in
  let nl := NameList.of_string url "/" in
  let resPath := drop_blank nl in
  let archiveName := if (length resPath <? length nl)%nat then default "" (head resPath) else "" in
  let isRoot := (length resPath =? 1)%nat in
  d ← Dirs.isDir fullPath;
  if negb d then ok "Not Found"
  else if negb isRoot && bool_decide (accessInfo a !! archiveName = None) then ok "Not Found"
  else
    permission ←! lifto (Arc.checkPermission a resPath READ);
    if negb permission then ok "Forbidden"
    else l ←! getSubPaths a url; ok (sconcat (map (fun x => "<item>" +:+ x +:+ "</item>") l)).
End requests.
End Req.
