(* ===== verification/ArchiveQueries.v ===== *)
(** * Queries over ranges of time (minilibs/ArchiveManager.cpp)

    The data of a day is in the file "data"; the purge renames it to "data.yyyy_mm_dd".
    [getSubSet] collects the XML lines of the cameras, [getSubLog] the JSON lines of a log, whose times are
    in the window that the body of the request describes. *)
From S2P Require Import Prelude Doubles Hsrv Xml MMessage World MParams Subjects Archive ArchiveOps.

Module Query.
Section queries.
Context {P : Platform} {C : Config} {XP : XmlParser} {FS : PathNames} {PT : PropertyTree}.
Implicit Types (a : ArchiveManager) (m : MMessage).

(** A time without its century gets it: "yymmddhhmm.." and "20yymmddhhmm.." are the same. *)
Definition normalizeDateTime (tt : string) : string :=
  if (tt =s "") || (String.length tt <? 10)%nat then tt
  else
    let t := if take_str 2 tt =s "20" then drop_str 2 tt else tt in
    "20" +:+ String.substring 0 2 t +:+ String.substring 2 2 t +:+ String.substring 4 2 t +:+
    String.substring 6 2 t +:+ String.substring 8 2 t.

(** The name of a file of data ends with the day it holds; names without a dot always
    qualify.  [None] when fewer than three numbers follow the dot. *)
Definition evalDescriptor (start_ end_ desc : string) : option bool :=
  match sfind "." desc 0 with
  | None => Some true
  | Some pos =>
      match NameList.of_string (drop_str (pos + 1) desc) "_" with
      | y :: m :: d :: _ =>
          let dday := y +:+ m +:+ d in
          Some (str_leb (take_str 8 start_) dday && str_leb dday (take_str 8 end_))
      | _ => None
      end
  end.

(** The names under "select" of the body, which must be JSON. *)
Definition getCategoriesJson (body : string) (category : list string) : option (bool * list string) :=
  rpt ← read_json body;
  if negb (contains "select" body) then Some (false, category)
  else
    pt ← get_child rpt "select";
    cats ← mapM (fun v => get_string v "name") (ptree_children pt);
    Some (true, category ++ List.filter (fun c => c <>s "") cats).
(** Dates are "ddmmyyyy" and times "hh:mm". *)
Definition date_key (date time : string) : option string :=
  d ← substr date 0 2; m ← substr date 2 2; y ← substr date 4 4;
  h ← substr time 0 2; min ← substr time 3 5;
  Some (y +:+ m +:+ d +:+ h +:+ min).
Definition getTimeRangeFromJson (body : string) : option (string * string) :=
  rpt ← read_json body;
  pt ← (if contains "window" body then get_child rpt "window" else Some rpt);
  start_date ← get_string pt "start_date";
  start_time ← get_string pt "start_time";
  end_date ← get_string pt "end_date";
  end_time ← get_string pt "end_time";
  s ← date_key start_date start_time;
  e ← date_key end_date end_time;
  Some (s, e).

(** *** The lines of the cameras *)
Fixpoint select_lines (start_ end_ : string) (l : list string) : option string :=
  match l with
  | [] => Some ""
  | line :: l' =>
      desc ← Req.line_element line;
      rest ← select_lines start_ end_ l';
      Some (match desc with
            | [] => rest
            | n :: _ =>
                let timestamp := normalizeDateTime (child_attr n "time") in
                if str_leb start_ timestamp && str_leb timestamp end_ then line +:+ rest else rest
            end)
  end%nat.
Fixpoint subset_files (start_ end_ camdir : string) (l : list string) : M (option string) :=
  match l with
  | [] => ok ""
  | f :: l' =>
      let tail := FilePath.getTail f in
      if Req.before_dot tail <>s "data" then subset_files start_ end_ camdir l'
      else
        good ←! lifto (if tail =s "data" then Some true else evalDescriptor start_ end_ f);
        c ← contents (camdir +:+ "/" +:+ f);
        match good, c with
        | true, Some s =>
            here ←! lifto (select_lines start_ end_ (eof_lines s));
            rest ←! subset_files start_ end_ camdir l'; ok (here +:+ rest)
        | _, _ => subset_files start_ end_ camdir l'
        end
  end.
Fixpoint subset_cameras (start_ end_ rootPath : string) (cameras : list string) : M (option string) :=
  match cameras with
  | [] => ok ""
  | cam :: cameras' =>
      r ← Dirs.fileList (rootPath +:+ cam) [];
      here ←! subset_files start_ end_ (rootPath +:+ cam) r.2;
      rest ←! subset_cameras start_ end_ rootPath cameras'; ok (here +:+ rest)
  end.
Definition getSubSet a m : M (option string) :=
  let rootPath := archiveHome a +:+ "/archive/" in
  range ←! lifto (getTimeRangeFromJson (Msg.getString m "body"));
  r ← Dirs.dirList rootPath [];
  subset_cameras range.1 range.2 rootPath r.2.

(** *** The lines of a log *)
Definition log_selects (start_ end_ : string) (category : list string) (line : string) : option bool :=
  if (String.length line <? 10)%nat then Some false
  else
    pt ← read_json line;
    timestamp ← get_string pt "time";
    let timestamp := normalizeDateTime timestamp in
    cat ← get_string pt "type";
    Some (((timestamp =s "") || (negb (str_leb timestamp start_) && str_leb timestamp end_)) &&
          (bool_decide (category = []) || NameList.member category cat)).
Fixpoint log_lines (start_ end_ : string) (category l : list string) : option (list string) :=
  match l with
  | [] => Some []
  | line :: l' =>
      good ← log_selects start_ end_ category line;
      rest ← log_lines start_ end_ category l';
      Some (if good : bool then line :: rest else rest)
  end.
Fixpoint log_files (start_ end_ : string) (category : list string) (rootPath : string) (l : list string)
    : M (option (list string)) :=
  match l with
  | [] => ok []
  | f :: l' =>
      let tail := FilePath.getTail f in
      if FilePath.getStem tail <>s "data" then log_files start_ end_ category rootPath l'
      else
        good ←! lifto (if tail =s "data" then Some true else evalDescriptor start_ end_ f);
        c ← contents (rootPath +:+ "/" +:+ f);
        match good, c with
        | true, Some s =>
            here ←! lifto (log_lines start_ end_ category (eof_lines s));
            rest ←! log_files start_ end_ category rootPath l'; ok (here ++ rest)
        | _, _ => log_files start_ end_ category rootPath l'
        end
  end.
Definition getSubLog a m : M (option string) :=
  let rootPath := archiveHome a +:+ Msg.getString m "url" in
  let body := Msg.getString m "body" in
  range ←! lifto (getTimeRangeFromJson body);
  cats ←! lifto (getCategoriesJson body []);
  r ← Dirs.fileList rootPath [];
  l ←! log_files range.1 range.2 cats.2 rootPath r.2;
  ok ("[" +:+ ML.commas l +:+ "]").
End queries.
End Query.

(** * Reports of the power meters (minilibs/ArchiveManager.cpp, PMStat.h)

    A meter logs one JSON line per sample; the archive summarises them by day, month and
    year.  The lines are scanned by hand ([scanLine]), the numbers are single precision. *)

(** ** Class PMStat *)
Record PMStat := mkStat { stime : string; senergy : float; svalue : float }.
#[export] Instance PMStat_rebuild : Rebuild PMStat := fun s => mkStat (stime s) (senergy s) (svalue s).

(** [{"k1":"v1","k2":"v2"}] *)
Definition pair_text (kv : string * string) : string := quote kv.1 +:+ ":" +:+ quote kv.2.
Definition json_object (l : list (string * string)) : string := "{" +:+ ML.commas (map pair_text l) +:+ "}".

Module Stat.
(** The mode is not used. *)
Definition getJsonString (s : PMStat) : string :=
  json_object [("time", stime s); ("energy", print_float (senergy s)); ("value", print_float (svalue s))].
Definition update (s : PMStat) (e : float) (t : string) : PMStat :=
  if SFltb (senergy s) e then s <| senergy := e |> <| stime := t |> else s.
End Stat.

(** The lines of [while(getline(input, line))]: without the empty text after the last newline. *)
Fixpoint drop_last_empty (l : list string) : list string :=
  match l with
  | [] => []
  | [x] => if x =s "" then [] else [x]
  | x :: l' => x :: drop_last_empty l'
  end.
Definition std_lines (s : string) : list string := drop_last_empty (eof_lines s).

(** ** [scanLine] *)
Record Sample := mkSample { apower : float; ipower : float; energy : float; stamp : string; value : float }.

Fixpoint to_quote (l : list ascii) : list ascii :=
  match l with [] => [] | c :: l' => if c =c Ascii.ascii_of_nat 34 then [] else c :: to_quote l' end.
(** The text between the quotes that follow a key and a colon. *)
Definition field_text (key line : string) : option string :=
  let match_ := key +:+ String (Ascii.ascii_of_nat 34) ":" +:+ String (Ascii.ascii_of_nat 34) "" in
  (fun pos => of_chars (to_quote (drop (pos + String.length match_) (chars line)))) <$> sfind match_ line 0.

Module Report.
Section report.
Context {P : Platform} {C : Config} {FS : PathNames} {PT : PropertyTree}.
Implicit Types (a : ArchiveManager) (m : MMessage).

Definition field_float (key line : string) : float :=
  match field_text key line with Some number => f_of_d (a2double number) | None => f0 end.
Definition scanLine (line : string) : Sample :=
  mkSample (field_float "Apower" line) (field_float "Ipower" line) (field_float "energy" line)
           (default "" (field_text "timeofday" line)) (field_float "value" line).

(** ** The log of the energy *)
Definition energy_item (s : Sample) : string :=
  json_object [("Apower", print_float (apower s)); ("Ipower", print_float (ipower s));
               ("energy", print_float (energy s)); ("time", stamp s)].
(** The clock is read once per line. *)
Fixpoint energy_loop (start_ end_ setdata : string) (l : list string) : M string :=
  match l with
  | [] => mret setdata
  | line :: l' =>
      let s := scanLine line in
      let timestamp := Query.normalizeDateTime (stamp s) in
      let setdata := if str_leb start_ timestamp && str_leb timestamp end_
                     then setdata +:+ energy_item s +:+ "," else setdata in
      read_clock;; energy_loop start_ end_ setdata l'
  end.
Definition blank_last_comma (s : string) : string :=
  match FilePath.find_last_of s "," with
  | Some pos => take_str pos s +:+ " " +:+ drop_str (pos + 1) s
  | None => s
  end.
Definition getEnergyData a m : M (option string) :=
  resPath ←! lifto (Arc.getExec a m);
  if Req.refused resPath then ok resPath
  else
    c ← contents (resPath +:+ "/" +:+ tailof (Msg.getString m "url"));
    match c with
    | None => ok "Not Found"
    | Some s =>
        setdata ← energy_loop (Msg.getString m "start") (Msg.getString m "end") "" (std_lines s);
        ok (blank_last_comma setdata)
    end.

(** ** A day, a month, a year *)

(** The device of a url: its last name up to the first dot. *)
Definition device_of (url : string) : option string :=
  devname ← last (NameList.of_string url "/");
  Some (match sfind "." devname 0 with Some pos => take_str pos devname | None => devname end).
Definition event_dir a (devname : string) m : option string :=
  Arc.getExec a (Msg.add m "url" ("/event/" +:+ devname)).
Fixpoint join_with (sep : string) (l : list string) : string :=
  match l with
  | [] => ""
  | [x] => x
  | x :: l' => x +:+ sep +:+ join_with sep l'
  end.
Definition comma_line : string := "," +:+ Msg.endl.

Definition getPMDaily a m : M (option string) :=
  devname ←! lifto (device_of (Msg.getString m "url"));
  today ← Arc.getCurrentDay;
  pt ←! lifto (read_json (Msg.getString m "body"));
  date ←! lifto (get_string pt "date");
  respath ←! lifto (event_dir a devname m);
  fullpath ←! lifto (
    if date =s today.1 then Some (respath +:+ "/" +:+ devname +:+ "/data")
    else y ← substr date 0 4; mm ← substr date 4 2; d ← substr date 6 2;
         Some (respath +:+ "/" +:+ devname +:+ "/data." +:+ y +:+ "_" +:+ mm +:+ "_" +:+ d));
  c ← contents fullpath;
  match c with
  | None => ok ""
  | Some s =>
      let stat line := let x := scanLine line in mkStat (stamp x) (energy x) (value x) in
      ok (join_with comma_line (map (fun line => Stat.getJsonString (stat line)) (std_lines s)))
  end.
(** The greatest sample of a file of data, under its day. *)
Definition getPMDaySummary (datafile : string) : M (option string) :=
  c ← contents datafile;
  match c with
  | None => ok "Not Found"
  | Some s =>
      let fname := tailof datafile in
      day ←! (if fname =s "data" then today ← Arc.getCurrentDay; ok (today.2.1.1)
              else lifto (last (NameList.of_string fname "_")));
      ok (Stat.getJsonString
            (fold_left (fun st line => Stat.update st (energy (scanLine line)) day) (std_lines s)
                       (mkStat "0" f0 f0)))
  end.
(** The summaries of the files of the month "yyyymm" of [b]; a file whose name has fewer than three
    parts is out of range. *)
Fixpoint month_days a (devname d mm y b start_ end_ : string) m (descriptors : list string)
    : M (option (list string)) :=
  match descriptors with
  | [] => ok []
  | n :: l =>
      let data := n =s "data" in
      _ ←! lifto (if data then Some "" else NameList.of_string n "_" !! 2%nat);
      month ←! lifto (substr b 4 2);
      year ←! lifto (substr b 0 4);
      good ←! lifto (if data then Some ((mm =s month) && (y =s year)) else Query.evalDescriptor start_ end_ n);
      if good : bool then
        respath ←! lifto (event_dir a devname m);
        s ←! getPMDaySummary (respath +:+ "/" +:+ devname +:+ "/" +:+ n);
        rest ←! month_days a devname d mm y b start_ end_ m l; ok (s :: rest)
      else month_days a devname d mm y b start_ end_ m l
  end.
Definition getMonth a (field : string) m : M (option (string * list string)) :=
  today ← Arc.getCurrentDay;
  let '(d, mm, y) := today.2 in
  pt ←! lifto (read_json (Msg.getString m "body"));
  b ←! lifto (get_string pt field);
  year ←! lifto (substr b 0 4);
  month ←! lifto (substr b 4 2);
  devname ←! lifto (device_of (Msg.getString m "url"));
  root ←! lifto (Arc.getRootPath a "event");
  descriptors ← Dirs.fileList (root +:+ "/event/" +:+ devname) [];
  l ←! month_days a devname d mm y b (year +:+ month +:+ "01") (year +:+ month +:+ "31") m descriptors.2;
  ok (month, l).
Definition getPMMonthly a m : M (option string) :=
  r ←! getMonth a "date" m;
  match merge_sort String.le r.2 with
  | [] => ok ""
  | dayarray => ok (join_with comma_line dayarray +:+ Msg.endl)
  end.

(** [sscanf(day, "{\"time\":\"%d\",\"energy\":\"%f\"", ..)]: the energy, when the text reaches it. *)
Fixpoint expect (pat l : list ascii) : option (list ascii) :=
  match pat, l with
  | [], _ => Some l
  | c :: pat', d :: l' => if c =c d then expect pat' l' else None
  | _ :: _, [] => None
  end.
Definition scan_energy (day : string) : option float :=
  l ← expect (chars ("{" +:+ quote "time" +:+ ":" +:+ String (Ascii.ascii_of_nat 34) "")) (chars day);
  let '(_, l) := scan_sign (skip_space l) in
  let '(_, n, l) := scan_digits 0 0 l in
  if bool_decide (n = 0%nat) then None
  else
    l ← expect (chars (String (Ascii.ascii_of_nat 34) "," +:+ quote "energy" +:+ ":" +:+
                       String (Ascii.ascii_of_nat 34) "")) l;
    scan_float l.
(** A day that cannot be scanned counts again what the one before it did. *)
Fixpoint sum_days (acc tenergy : float) (l : list string) : float :=
  match l with
  | [] => acc
  | day :: l' =>
      let tenergy := default tenergy (scan_energy day) in sum_days (fadd acc tenergy) tenergy l'
  end.
Definition getPMMonthlySummary a m : M (option string) :=
  r ←! getMonth a "time" m;
  let energy := sum_days f0 (f_of_d indet_double) r.2 in
  ok (if SFltb f0 energy
      then json_object [("time", r.1); ("energy", double2a (d_of_f energy))]
      else "").
Fixpoint annual_loop a (url b : string) (months : list Z) (setdata : string) : M (option string) :=
  match months with
  | [] => ok setdata
  | i :: months' =>
      let ym := b +:+ (if i <? 10 then "0" else "") +:+ int2a i in
      let mreq := Msg.add (Msg.add Msg.dummy "url" url) "body" (json_object [("time", ym)]) in
      mdata ←! getPMMonthlySummary a mreq;
      annual_loop a url b months'
        (if mdata =s "" then setdata
         else if setdata =s "" then mdata else setdata +:+ comma_line +:+ mdata)
  end.
Definition getPMAnnual a m : M (option string) :=
  Arc.getCurrentDay;;
  pt ←! lifto (read_json (Msg.getString m "body"));
  b ←! lifto (get_string pt "date");
  r ←! annual_loop a (Msg.getString m "url") b [1; 2; 3; 4; 5; 6; 7; 8; 9; 10; 11; 12] "";
  ok (r +:+ Msg.endl).

Definition getPMLog a m : M (option string) :=
  pt ←! lifto (read_json (Msg.getString m "body"));
  mode ←! lifto (get_string pt "report");
  setdata ←! (if mode =s "DAILY" then getPMDaily a m
              else if mode =s "MONTHLY" then getPMMonthly a m else getPMAnnual a m);
  devname ←! lifto (device_of (Msg.getString m "url"));
  ok ("{" +:+ quote "response" +:+ ":{" +:+ quote "message" +:+ ":" +:+ quote "ok" +:+ "," +:+
      quote "device" +:+ ":{" +:+ quote "name" +:+ ":" +:+ quote devname +:+ "," +:+
      quote "energy_parameters" +:+ ":[" +:+ Msg.endl +:+ setdata +:+ "]}}}").
End report.
End Report.
