(* ===== verification/ArchiveFacts.v ===== *)
(** * Lemmas on directories and files

    [quiet] computations change neither files nor directories; the log lines and the clock
    are all they touch.  [outcome] states what a computation returns, when it returns.  [posix_paths] (World), the
    resolution of names in a tree without symbolic links, satisfies the laws of [PathLaws]. *)
From S2P Require Import Prelude Doubles Hsrv Xml MMessage World MParams Subjects Archive ArchiveOps.

(** ** Names *)

Lemma getTail_slash p i :
  FilePath.find_last_of p "/" = Some i -> FilePath.getTail p = drop_str (i + 1) p.
Proof. intros H. unfold FilePath.getTail. by rewrite H. Qed.

Lemma pieces_app c cur l r : pieces c cur (l ++ c :: r) = pieces c cur l ++ pieces c [] r.
Proof.
  revert cur; induction l as [|d l IH]; intros cur; simpl.
  - unfold ceqb. by rewrite Ascii.eqb_refl.
  - destruct (d =c c); simpl; [by rewrite IH|apply IH].
Qed.
Lemma pieces_plain c cur l : c ∉ l -> pieces c cur l = [of_chars (cur ++ l)].
Proof.
  revert cur; induction l as [|d l IH]; intros cur; simpl; [by rewrite app_nil_r|].
  intros [Hd Hl]%not_elem_of_cons. unfold ceqb. destruct (Ascii.eqb_spec d c); [congruence|].
  rewrite IH by done. by rewrite <- app_assoc.
Qed.

(** ** Resolution of names without symbolic links *)
Import Posix.
#[export] Existing Instance posix_paths.

Lemma resolve_snoc l n :
  resolve (l ++ [n]) = if (n =s "") || (n =s ".") then resolve l
                       else if n =s ".." then removelast (resolve l) else resolve l ++ [n].
Proof. unfold resolve. by rewrite fold_left_app. Qed.
Lemma resolve_ne l : Forall (fun n => n <> "") (resolve l).
Proof.
  induction l as [|n l IH] using rev_ind; [by apply Forall_nil|]. rewrite resolve_snoc.
  destruct ((n =s "") || (n =s ".")) eqn:E; [done|]. destruct (n =s ".."); bool_hyps.
  - destruct (resolve l) as [|x r _] using rev_ind; [done|]. rewrite removelast_last.
    by apply Forall_app in IH as [? _].
  - apply Forall_app. split; [done|]. apply Forall_singleton. naive_solver.
Qed.
Lemma render_snoc l n : Forall (fun n => n <> "") l -> render (l ++ [n]) = child (render l) n.
Proof.
  intros Hl. unfold child. destruct l as [|x l].
  { simpl. by rewrite sapp_nil_r. }
  inversion Hl; subst.
  rewrite seqb_ne.
  - unfold render. simpl. rewrite map_app, sconcat_app. simpl. by rewrite sapp_nil_r, !sapp_assoc.
  - unfold render. simpl. destruct x; [done|]. simpl. by injection.
Qed.
#[export] Instance posix_laws : PathLaws posix_paths.
Proof.
  split.
  - intros p. simpl. by destruct (resolve (pieces "/" [] (chars p))).
  - intros p. simpl. rewrite chars_app. simpl. rewrite pieces_app. simpl.
    by rewrite resolve_snoc.
  - intros p n (Hne & Hd & Hdd & Hs). simpl. rewrite chars_app. simpl.
    rewrite pieces_app, (pieces_plain _ [] (chars n)) by done. simpl.
    rewrite of_chars_chars, resolve_snoc, !seqb_ne by done. simpl.
    apply render_snoc, resolve_ne.
  - done.
Qed.

(** ** Entries *)
Lemma child_length d n : n <> "" -> (String.length d < String.length (child d n))%nat.
Proof.
  intros Hn. unfold child. destruct n; [done|].
  destruct (d =s "/"); rewrite !length_sapp; simpl; lia.
Qed.
Lemma child_ne d n : n <> "" -> child d n <> d.
Proof. intros Hn E. pose proof (child_length d n Hn) as H. rewrite E in H. lia. Qed.

Lemma chars_drop i s : chars (drop_str i s) = drop i (chars s).
Proof.
  unfold drop_str. revert i. induction s as [|c s IH]; intros i; simpl; [by destruct i|].
  destruct i as [|i]; simpl; [|apply IH].
  f_equal. specialize (IH 0%nat). rewrite Nat.sub_0_r in IH. by rewrite IH, drop_0.
Qed.
Lemma last_index_absent c l : FilePath.last_index c l = None -> c ∉ l.
Proof.
  induction l as [|e l IH]; simpl; [by intros _ ?%not_elem_of_nil|].
  destruct (FilePath.last_index c l); [done|].
  unfold ceqb. destruct (Ascii.eqb_spec e c); [done|].
  intros _ [->|H]%elem_of_cons; [done|]. by apply IH.
Qed.
Lemma last_index_drop c l i : FilePath.last_index c l = Some i -> c ∉ drop (S i) l.
Proof.
  revert i; induction l as [|d l IH]; intros i; simpl; [done|].
  destruct (FilePath.last_index c l) as [j|] eqn:E.
  - intros [= <-]. by apply IH.
  - destruct (d =c c); [|done]. intros [= <-]. rewrite drop_0. by apply last_index_absent.
Qed.
Lemma getTail_plain p : "/"%char ∉ chars (FilePath.getTail p).
Proof.
  unfold FilePath.getTail, FilePath.find_last_of.
  destruct (FilePath.last_index "/" (chars p)) as [i|] eqn:E; rewrite chars_drop.
  - rewrite Nat.add_1_r. by apply last_index_drop.
  - by apply last_index_absent.
Qed.

Lemma elem_of_entries d ps n :
  n ∈ entries d ps -> n <> "" /\ "/"%char ∉ chars n /\ child d n ∈ ps.
Proof.
  unfold entries. intros (p & -> & Hp)%list_elem_of_fmap.
  apply list_elem_of_In, filter_In in Hp as [Hp He].
  unfold is_entry in He. bool_hyps. destruct He as [He Hn]. bool_hyps.
  split; [done|]. split; [apply getTail_plain|]. rewrite <- He. by apply list_elem_of_In.
Qed.
Lemma not_hidden_plain n : n <> "" -> "/"%char ∉ chars n -> Dirs.not_hidden n = true -> plain n.
Proof.
  intros Hn Hs Hh. split; [done|].
  split; [by intros ->|]. split; [by intros ->|]. done.
Qed.

(** ** Computations that leave the file system alone *)
Definition same_fs (w w' : world) : Prop :=
  w_files w' = w_files w /\ w_dirs w' = w_dirs w /\ w_writable w' = w_writable w.
#[export] Instance same_fs_equiv : Equivalence same_fs.
Proof.
  split.
  - by intros w.
  - intros w w' (? & ? & ?). by split_and!.
  - intros w1 w2 w3 (? & ? & ?) (? & ? & ?). split_and!; congruence.
Qed.
Definition quiet {A} (c : M A) : Prop := forall w, same_fs w (final c w).

Create HintDb quiet.
Section quiet.
Context {FS : PathNames}.

Lemma quiet_ret {A} (a : A) : quiet (mret a).
Proof. by intros w. Qed.
Lemma quiet_bind {A B} (c : M A) (k : A -> M B) : quiet c -> (forall a, quiet (k a)) -> quiet (c ≫= k).
Proof. intros Hc Hk w. rewrite final_bind. etransitivity; [apply Hc|apply Hk]. Qed.
Lemma quiet_bindo {A B} (c : M (option A)) (k : A -> M (option B)) :
  quiet c -> (forall a, quiet (k a)) -> quiet (bindo c k).
Proof. intros Hc Hk. apply quiet_bind; [done|]. intros [a|]; [apply Hk|apply quiet_ret]. Qed.
Lemma quiet_log s : quiet (log_info s).
Proof. by intros w. Qed.
Lemma quiet_isFile p : quiet (Dirs.isFile p).
Proof. by intros w. Qed.
Lemma quiet_contents p : quiet (contents p).
Proof. by intros w. Qed.
Lemma quiet_opendir p : quiet (opendir p).
Proof. by intros w. Qed.
Lemma quiet_readdir p : quiet (readdir p).
Proof. by intros w. Qed.
End quiet.
#[export] Hint Resolve quiet_ret quiet_bind quiet_bindo quiet_log quiet_isFile quiet_contents
  quiet_opendir quiet_readdir : quiet.

Ltac quiet_steps :=
  repeat (first [ apply quiet_bind; [|intros ?] | apply quiet_bindo; [|intros ?]
                | solve [eauto 3 with quiet] | split_match ]).

Section directories.
Context {FS : PathNames}.

Lemma quiet_isDir p : quiet (Dirs.isDir p).
Proof. unfold Dirs.isDir. quiet_steps. Qed.
Lemma quiet_list_entries what q p l : quiet (Dirs.list_entries what q p l).
Proof. unfold Dirs.list_entries. quiet_steps. Qed.
Lemma quiet_dirList p l : quiet (Dirs.dirList p l).
Proof. apply quiet_list_entries. Qed.
Lemma quiet_fileList p l : quiet (Dirs.fileList p l).
Proof. apply quiet_list_entries. Qed.
End directories.
#[export] Hint Resolve quiet_isDir quiet_dirList quiet_fileList : quiet.

Section listings.
Context {FS : PathNames} {PL : PathLaws FS}.

Lemma result_isDir p w : result (Dirs.isDir p) w = bool_decide (canon p ∈ w_dirs w).
Proof. unfold Dirs.isDir. rewrite result_bind. unfold opendir, result at 2. simpl. by case_bool_decide. Qed.

(** The directories listed are directories one component below. *)
Lemma dirList_spec p w n :
  n ∈ (result (Dirs.dirList p []) w).2 ->
  plain n /\ canon (p +:+ "/" +:+ n) ∈ w_dirs w /\
  (String.length (canon p) < String.length (canon (p +:+ "/" +:+ n)))%nat.
Proof.
  unfold Dirs.dirList, Dirs.list_entries. rewrite result_bind. unfold result at 2.
  unfold final at 1. simpl. case_bool_decide; [|by intros ?%not_elem_of_nil].
  unfold result, readdir. simpl. intros (e & -> & He)%list_elem_of_fmap.
  apply list_elem_of_In, filter_In in He as [He Hh].
  apply list_elem_of_In in He. rewrite dir_order_perm in He.
  apply andb_true_iff in Hh as [He2 Hh].
  apply elem_of_app in He as [(x & -> & Hx)%list_elem_of_fmap|(x & -> & Hx)%list_elem_of_fmap]; [|done].
  simpl in *. apply elem_of_entries in Hx as (Hn & Hs & Hx).
  assert (Hp : plain x) by by apply not_hidden_plain. split; [done|].
  rewrite canon_child by done. split; [by apply elem_of_elements|]. by apply child_length.
Qed.
End listings.

(** ** What a computation returns, when it returns *)
Definition outcome {A} (Q : A -> Prop) (c : M (option A)) : Prop := forall w a w', c w = (Some a, w') -> Q a.
Lemma outcome_ok {A} (Q : A -> Prop) a : Q a -> outcome Q (ok a).
Proof. intros H w b w' [= <- _]. done. Qed.
Lemma outcome_crash {A} (Q : A -> Prop) : outcome Q crash.
Proof. intros w b w' [=]. Qed.
Lemma outcome_bindo {A B} (Q : A -> Prop) (R : B -> Prop) c k :
  outcome Q c -> (forall a, Q a -> outcome R (k a)) -> outcome R (bindo c k).
Proof.
  intros Hc Hk w b w'. rewrite bindo_run. destruct (c w) as [[a|] w1] eqn:E; [|done]. intros H.
  exact (Hk a (Hc w a w1 E) w1 b w' H).
Qed.
Lemma outcome_any {A} (c : M (option A)) : outcome (fun _ => True) c.
Proof. done. Qed.
Lemma outcome_lifto {A} (o : option A) (Q : A -> Prop) : (forall a, o = Some a -> Q a) -> outcome Q (lifto o).
Proof. intros H w a w' [= -> _]. by apply H. Qed.
Lemma outcome_bind {A B} (R : B -> Prop) (c : M A) (k : A -> M (option B)) :
  (forall a, outcome R (k a)) -> outcome R (c ≫= k).
Proof. intros Hk w b w'. rewrite run_bind. apply Hk. Qed.

(** * Lemmas on the resources of the archive

    A resource under a root is addressed by a url "/root/name/.../name"; [path_of] spells it, and
    [descend] is the canonical name it leads to.  [ready] says that nothing stands in the way of
    writing it. *)

Definition path_of (l : list string) : string := sconcat (map (fun n => "/" +:+ n) l).
Definition descend (d : string) (l : list string) : string := fold_left child l d.
(** The directories on the way down. *)
Fixpoint stairs (d : string) (l : list string) : list string :=
  match l with [] => [] | n :: l' => child d n :: stairs (child d n) l' end.

Lemma path_of_app l1 l2 : path_of (l1 ++ l2) = path_of l1 +:+ path_of l2.
Proof. unfold path_of. by rewrite map_app, sconcat_app. Qed.
Lemma descend_snoc d l n : descend d (l ++ [n]) = child (descend d l) n.
Proof. apply fold_left_app. Qed.

Lemma init_loop_plain c cur l r :
  c ∉ l -> NameList.init_loop c cur (l ++ c :: r) = of_chars (cur ++ l) :: NameList.init_loop c [] r.
Proof.
  revert cur; induction l as [|d l IH]; intros cur Hl; simpl.
  - unfold ceqb. by rewrite Ascii.eqb_refl, app_nil_r.
  - apply not_elem_of_cons in Hl as [Hd Hl]. unfold ceqb. destruct (Ascii.eqb_spec d c); [congruence|].
    rewrite IH by done. by rewrite <- app_assoc.
Qed.
Lemma init_loop_last c cur l :
  c ∉ l -> cur ++ l <> [] -> NameList.init_loop c cur l = [of_chars (cur ++ l)].
Proof.
  revert cur; induction l as [|d l IH]; intros cur Hl Hne; simpl.
  - rewrite app_nil_r in *. by rewrite bool_decide_false.
  - apply not_elem_of_cons in Hl as [Hd Hl]. unfold ceqb. destruct (Ascii.eqb_spec d c); [congruence|].
    rewrite IH; [by rewrite <- app_assoc|done|]. rewrite <- app_assoc. by destruct cur.
Qed.
Lemma plain_chars n : plain n -> chars n <> [].
Proof. intros (Hn & _). by destruct n. Qed.
Lemma init_loop_path n l :
  plain n -> Forall plain l -> NameList.init_loop "/" [] (chars (n +:+ path_of l)) = n :: l.
Proof.
  intros Hn Hl. revert n Hn. induction Hl as [|x l Hx Hl IH]; intros n Hn.
  - simpl. rewrite sapp_nil_r, init_loop_last; simpl; [by rewrite of_chars_chars| |by apply plain_chars].
    apply Hn.
  - change (path_of (x :: l)) with (("/" +:+ x) +:+ path_of l).
    rewrite sapp_assoc, sapp_cons, sapp_nil_l, chars_app.
    change (chars (String "/" (x +:+ path_of l))) with ("/"%char :: chars (x +:+ path_of l)).
    rewrite init_loop_plain by apply Hn. simpl. rewrite of_chars_chars, IH by done. done.
Qed.
(** Splitting the spelling of a path gives back its names, after an empty one. *)
Lemma split_path n l :
  plain n -> Forall plain l -> NameList.of_string (path_of (n :: l)) "/" = "" :: n :: l.
Proof.
  intros Hn Hl. unfold NameList.of_string, NameList.init. simpl.
  change ((String "/" n) +:+ path_of l) with (String "/" (n +:+ path_of l)).
  f_equal. by apply init_loop_path.
Qed.

Section resources.
Context {FS : PathNames} {PL : PathLaws FS}.

Lemma canon_path p l : Forall plain l -> canon (p +:+ path_of l) = descend (canon p) l.
Proof.
  induction l as [|n l IH] using rev_ind; intros Hl; [by rewrite sapp_nil_r|].
  apply Forall_app in Hl as [Hl Hn]. inversion Hn; subst.
  rewrite path_of_app, descend_snoc, <- sapp_assoc, <- IH by done.
  change (path_of [n]) with (("/" +:+ n) +:+ ""). rewrite sapp_nil_r. by apply canon_child.
Qed.
Lemma canon_home_path p l : Forall plain l -> canon (p +:+ "/" +:+ path_of l) = descend (canon p) l.
Proof. intros Hl. rewrite <- sapp_assoc, canon_path, canon_slash by done. done. Qed.

Lemma find_last_slash d n :
  "/"%char ∉ chars n -> FilePath.find_last_of (d +:+ "/" +:+ n) "/" = Some (String.length d).
Proof.
  intros Hn. unfold FilePath.find_last_of. rewrite chars_app, sapp_cons, sapp_nil_l. simpl.
  rewrite FilePath.last_index_app by done. by rewrite length_chars.
Qed.
Lemma entry_dir_child d n : d <> "" -> plain n -> entry_dir (child d n) = d.
Proof.
  intros Hd (_ & _ & _ & Hn). unfold child, entry_dir. destruct (d =s "/") eqn:E.
  - apply seqb_true in E as ->. pose proof (find_last_slash "" n Hn) as H.
    rewrite sapp_nil_l in H. by rewrite H.
  - rewrite find_last_slash by done. destruct (String.length d) eqn:L; [by destruct d|].
    rewrite <- L. apply take_str_app.
Qed.

Lemma mkdir_child d n w :
  d ∈ w_dirs w -> d <> "" -> plain n -> w_writable w (child d n) = true ->
  w_files w !! child d n = None -> forall p, canon p = child d n -> child d n ∉ w_dirs w ->
  mkdir p w = (true, set_dirs ({[child d n]} ∪ w_dirs w) w).
Proof.
  intros Hd Hne Hn Hw Hf p Hp Hnd. unfold mkdir, may_create. rewrite Hp, entry_dir_child by done.
  rewrite bool_decide_true, bool_decide_false, Hw, Hf by done. done.
Qed.

(** Files are unchanged, directories are added, permissions are kept. *)
Definition adds_dirs (ds : list string) (w w' : world) : Prop :=
  w_files w' = w_files w /\ w_dirs w' = list_to_set ds ∪ w_dirs w /\ w_writable w' = w_writable w.
Lemma adds_dirs_trans ds1 ds2 w1 w2 w3 :
  adds_dirs ds1 w1 w2 -> adds_dirs ds2 w2 w3 -> adds_dirs (ds1 ++ ds2) w1 w3.
Proof.
  intros (F1 & D1 & W1) (F2 & D2 & W2). unfold adds_dirs. split_and!; [congruence| |congruence].
  rewrite D2, D1, list_to_set_app_L. set_solver.
Qed.

Definition all_writable (w : world) : Prop := forall p, w_writable w p = true.
Lemma makeDir_ok p d n w b :
  canon p = child d n -> d ∈ w_dirs w -> d <> "" -> plain n -> all_writable w ->
  w_files w !! child d n = None ->
  exists w', Dirs.makeDir p b w = (Some true, w') /\ adds_dirs [child d n] w w'.
Proof.
  intros Hp Hd Hne Hn Hw Hf. unfold Dirs.makeDir. rewrite run_bind, result_isDir.
  pose proof (quiet_isDir p w) as (F & D & W). set (w1 := final (Dirs.isDir p) w) in *.
  rewrite Hp. case_bool_decide as Hc.
  - exists w1. split; [done|]. unfold adds_dirs. rewrite D. split_and!; [done| |done]. simpl. set_solver.
  - rewrite run_bind. rewrite <- D in Hd. unfold result, final.
    rewrite (mkdir_child d n w1) by (try done; congruence).
    simpl. eexists. split; [done|]. unfold adds_dirs. simpl. rewrite D. split_and!; [done| |done]. set_solver.
Qed.
Lemma makeDir_known p w b : canon p ∈ w_dirs w ->
  exists w', Dirs.makeDir p b w = (Some true, w') /\ same_fs w w'.
Proof.
  intros Hp. unfold Dirs.makeDir. rewrite run_bind, result_isDir, bool_decide_true by done.
  eexists. split; [done|]. apply quiet_isDir.
Qed.

Lemma child_not_nil d n : d <> "" -> child d n <> "".
Proof. intros Hd. unfold child. destruct (d =s "/"); by destruct d. Qed.
Lemma make_path_ok l x p w :
  Forall plain l -> canon p ∈ w_dirs w -> all_writable w ->
  (forall q, q ∈ stairs (canon p) l -> w_files w !! q = None) ->
  exists w', Arc.make_path p (l ++ [x]) w = (Some tt, w') /\ adds_dirs (stairs (canon p) l) w w'.
Proof.
  intros Hl. revert p w. induction Hl as [|n l Hn Hl IH]; intros p w Hp Hw Hf.
  { exists w. split; [done|]. split_and!; [done| |done]. simpl. set_solver. }
  assert (Hc : canon (p +:+ "/" +:+ n) = child (canon p) n) by by apply canon_child.
  destruct (makeDir_ok (p +:+ "/" +:+ n) (canon p) n w true) as (w1 & E1 & A1); try done.
  { apply canon_ne. }
  { apply Hf. simpl. set_solver. }
  pose proof A1 as (F1 & D1 & W1).
  destruct (IH (p +:+ "/" +:+ n) w1) as (w2 & E2 & A2); rewrite ?Hc in *.
  { rewrite D1. simpl. set_solver. }
  { intros q. by rewrite W1. }
  { intros q Hq. rewrite F1. apply Hf. simpl. set_solver. }
  exists w2. split; [|by apply (adds_dirs_trans [child (canon p) n] _ w w1 w2)].
  simpl. destruct (l ++ [x]) as [|y l'] eqn:El; [by destruct l|].
  rewrite bindo_run, E1. by apply E2.
Qed.
End resources.

(** ** One resource *)
Lemma stairs_app d l n : stairs d (l ++ [n]) = stairs d l ++ [descend d (l ++ [n])].
Proof. revert d; induction l as [|x l IH]; intros d; simpl; [done|]. by rewrite IH. Qed.
Lemma stairs_descend d l : descend d l = d \/ descend d l ∈ stairs d l.
Proof.
  destruct l as [|n l _] using rev_ind; [by left|]. right. rewrite stairs_app. set_solver.
Qed.
Lemma stairs_length d l q :
  Forall plain l -> q ∈ stairs d l -> (String.length q <= String.length (descend d l))%nat.
Proof.
  induction l as [|n l IH] using rev_ind; intros Hl; [by intros ?%not_elem_of_nil|].
  apply Forall_app in Hl as [Hl Hn]. inversion Hn as [|? ? [Hne _] _]; subst.
  rewrite stairs_app. intros [Hq|Hq]%elem_of_app.
  - specialize (IH Hl Hq). rewrite descend_snoc. pose proof (child_length (descend d l) n Hne). lia.
  - apply list_elem_of_singleton in Hq as ->. done.
Qed.
Lemma leaf_not_stair d l n : Forall plain l -> plain n -> descend d (l ++ [n]) ∉ stairs d l.
Proof.
  intros Hl [Hn _] H%stairs_length; [|done]. rewrite descend_snoc in H.
  pose proof (child_length (descend d l) n Hn). lia.
Qed.
Lemma descend_ne d l : d <> "" -> descend d l <> "".
Proof.
  intros Hd. induction l as [|n l IH] using rev_ind; [done|]. rewrite descend_snoc. by apply child_not_nil.
Qed.

Definition leaf {FS : PathNames} (home : string) (names : list string) : string :=
  descend (canon home) (names ++ ["data"]).
Record ready {FS : PathNames} (home : string) (names : list string) (w : world) : Prop := Ready {
  ready_home : canon home ∈ w_dirs w;
  ready_writable : all_writable w;
  ready_stairs : forall q, q ∈ stairs (canon home) names -> w_files w !! q = None;
  ready_leaf : leaf home names ∉ w_dirs w;
  ready_tree : is_Some (w_files w !! leaf home names) -> descend (canon home) names ∈ w_dirs w }.

Lemma data_plain : plain "data".
Proof. split_and!; try done. by apply (bool_decide_unpack _). Qed.

Section resource.
Context {FS : PathNames} {PL : PathLaws FS}.
Variables (home : string) (names : list string).
Hypothesis names_plain : Forall plain names.
#[local] Abbreviation target := (leaf home names).
#[local] Abbreviation is_ready := (ready home names).

(** The directories are made, and the resource can be opened. *)
Record opened (w w' : world) : Prop := Opened {
  opened_files : w_files w' = w_files w;
  opened_ready : is_ready w';
  opened_create : may_create target w' = true }.

Lemma may_create_leaf w :
  is_ready w -> descend (canon home) names ∈ w_dirs w -> may_create target w = true.
Proof.
  intros [_ Hw _ Hl _] Hd. unfold may_create. rewrite Hw, (bool_decide_false (target ∈ _)) by done.
  unfold leaf. rewrite descend_snoc, entry_dir_child.
  - by rewrite bool_decide_true.
  - apply descend_ne, canon_ne.
  - apply data_plain.
Qed.
Lemma same_fs_ready w w' : same_fs w w' -> is_ready w -> is_ready w'.
Proof.
  intros (F & D & W) [H1 H2 H3 H4 H5].
  split; unfold all_writable in *; rewrite ?F, ?D, ?W in *; auto.
Qed.

Lemma quiet_opened w w1 w2 : same_fs w w1 -> opened w1 w2 -> opened w w2.
Proof. intros (F & _) [H1 H2 H3]. split; congruence. Qed.

Lemma make_resource w :
  is_ready w -> exists w', Arc.make_path home ("" :: names ++ ["data"]) w = (Some tt, w') /\ opened w w'.
Proof.
  intros R. pose proof R as [Hh Hw Hs Hl _].
  assert (Hc : canon (home +:+ "/" +:+ "") = canon home) by (rewrite sapp_nil_r; apply canon_slash).
  destruct (makeDir_known (home +:+ "/" +:+ "") w true) as (w1 & E1 & Q); [by rewrite Hc|].
  pose proof (same_fs_ready _ _ Q R) as R1. pose proof R1 as [Hh1 Hw1 Hs1 Hl1 _].
  destruct (make_path_ok names "data" (home +:+ "/" +:+ "") w1) as (w2 & E2 & (F2 & D2 & W2)); rewrite ?Hc; auto.
  rewrite Hc in D2. exists w2. split.
  - change ("" :: names ++ ["data"]) with ("" :: (names ++ ["data"])). simpl.
    destruct (names ++ ["data"]) as [|x l] eqn:En; [by destruct names|]. by rewrite bindo_run, E1.
  - assert (R2 : is_ready w2).
    { split.
      - rewrite D2. set_solver.
      - intros p. by rewrite W2.
      - intros q Hq. rewrite F2. by apply Hs1.
      - rewrite D2, elem_of_union, elem_of_list_to_set. intros [H|H]; [|done].
        by apply (leaf_not_stair (canon home) names "data") in H; [|done|apply data_plain].
      - intros _. rewrite D2. destruct (stairs_descend (canon home) names) as [E|E]; [rewrite E|]; set_solver. }
    split; [destruct Q as (F & _); congruence|done|]. apply may_create_leaf; [done|].
    rewrite D2. destruct (stairs_descend (canon home) names) as [E|E]; [rewrite E|]; set_solver.
Qed.

(** Writing the resource keeps it is_ready. *)
Lemma ready_write w s :
  is_ready w -> may_create target w = true -> is_ready (set_files (<[target := s]> (w_files w)) w).
Proof.
  intros [H1 H2 H3 H4 H5] Hc. split; simpl; auto.
  - intros q Hq. rewrite lookup_insert_ne; [auto|]. intros <-.
    by apply (leaf_not_stair (canon home) names "data") in Hq; [|done|apply data_plain].
  - intros _. unfold may_create in Hc. bool_hyps. destruct Hc as [[Hd _] _].
    apply bool_decide_eq_true in Hd. unfold leaf in Hd.
    rewrite descend_snoc, entry_dir_child in Hd; [done| |apply data_plain].
    apply descend_ne, canon_ne.
Qed.
End resource.

(** ** Requests on one resource *)
Lemma contains_slash s : s = "Not Found" \/ s = "Forbidden" -> "/"%char ∉ chars s.
Proof. intros [-> | ->]; by apply (bool_decide_unpack _). Qed.
Lemma not_refused s : "/"%char ∈ chars s -> Req.refused s = false.
Proof.
  intros H. unfold Req.refused. rewrite !seqb_ne; [done| |]; intros E;
    apply (contains_slash s); auto.
Qed.

(** Reading every line and writing it back with its newline adds one newline. *)
Lemma pieces_lines cur l :
  sconcat (map (fun x => x +:+ Msg.endl) (pieces "010" cur l)) = of_chars (cur ++ l) +:+ Msg.endl.
Proof.
  revert cur; induction l as [|c l IH]; intros cur; simpl.
  - by rewrite sapp_nil_r, app_nil_r.
  - unfold ceqb. destruct (Ascii.eqb_spec c "010") as [->|Hc]; simpl.
    + rewrite IH, !of_chars_app. simpl. by rewrite !sapp_assoc.
    + rewrite IH. by rewrite <- app_assoc.
Qed.
Lemma eof_lines_join s : sconcat (map (fun x => x +:+ Msg.endl) (eof_lines s)) = s +:+ Msg.endl.
Proof. unfold eof_lines. rewrite pieces_lines. simpl. by rewrite of_chars_chars. Qed.

Inductive write := PUT | POST.
Section exec.
Context {P : Platform} {C : Config} {XP : XmlParser} {FS : PathNames}.
Definition exec (k : write) (a : ArchiveManager) (b : Bus) (m : MMessage) : M (option (MMessage * MMessage)) :=
  match k with PUT => Req.putExec a b m | POST => Req.postExec a b m end.
End exec.
Definition file_of (home : string) (names : list string) : string :=
  home +:+ "/" +:+ path_of (names ++ ["data"]).
Arguments file_of : simpl never.
(** What a resource holds after a request: the text of the message, in place of what it held or
    after it. *)
Definition text_of (m : MMessage) : string := Msg.xmlEncode (Req.erase_url m) 0 +:+ Msg.endl.
Definition write_text (k : write) (old : string) (m : MMessage) : string :=
  match k with PUT => text_of m | POST => old +:+ text_of m end.
Definition accepted (k : write) : MMessage :=
  Req.answer (match k with PUT => "result" | POST => "body" end) "OK".

Section requests.
Context {P : Platform} {C : Config} {XP : XmlParser} {FS : PathNames} {PL : PathLaws FS}.
Variables (a : ArchiveManager) (b : Bus) (root sub : string) (rest : list string) (d : RootDescriptor).
Let names := root :: sub :: rest.
Hypothesis names_plain : Forall plain names.
Hypothesis not_messages : root <> "message".
Hypothesis not_data : last names <> Some "data".
Hypothesis known : accessInfo a !! root = Some d.
Hypothesis here : prefix d = archiveHome a.
Hypothesis visible : head (visibility d) = Some "*" \/ (visibility d <> [] /\ sub ∈ visibility d).

Lemma admitted l md : Arc.checkPermission a (names ++ l) md = Some true.
Proof.
  simpl. rewrite known. unfold Arc.fullAccess. rewrite known. simpl.
  destruct visible as [Hv|[Hv Hs]].
  - rewrite Hv. simpl. done.
  - destruct (visibility d) as [|v vs] eqn:E; [done|]. simpl.
    destruct (v =s "*"); [done|]. f_equal.
    by apply (NameList.member_elem (v :: vs)).
Qed.
Lemma split_url l : Forall plain l ->
  NameList.of_string (path_of (names ++ l)) "/" = "" :: names ++ l.
Proof.
  intros Hl. inversion names_plain as [|? ? Hr Hs]; subst.
  apply (split_path root ((sub :: rest) ++ l)); [done|]. by apply Forall_app.
Qed.
Lemma split_names : NameList.of_string (path_of names) "/" = "" :: names.
Proof. inversion names_plain; subst. by apply split_path. Qed.
Lemma rootPath l : Forall plain l -> Arc.getRootPath a (path_of (names ++ l)) = Some (archiveHome a).
Proof. intros Hl. unfold Arc.getRootPath. rewrite split_url by done. simpl. by rewrite known, here. Qed.

(** A message that addresses the resource. *)
Definition addresses (m : MMessage) : Prop :=
  fields m !! "url" = Some (ML.of_string (path_of names)).
Lemma restify_url m : addresses m ->
  Msg.getString (Req.restify a m false) "url" = path_of (names ++ ["data"]) /\
  Req.erase_url (Req.restify a m false) = Req.erase_url m.
Proof.
  intros Hm. assert (Hu : Msg.getString m "url" = path_of names) by (unfold Msg.getString; by rewrite Hm).
  unfold Req.restify. rewrite Hu.
  rewrite (seqb_ne (path_of names)) by done.
  rewrite split_names. simpl drop_blank.
  rewrite (bool_decide_false (root :: sub :: rest = [])) by done.
  simpl negb. simpl head. simpl default. rewrite (seqb_ne root) by done. simpl orb. cbv iota beta zeta.
  assert (Hl : (default "" (last names) =s "data") = false).
  { apply seqb_ne. intros E. destruct (last names) eqn:El; simpl in E; [congruence|done]. }
  simpl sconcat. rewrite sapp_nil_r.
  change (last (sub :: rest)) with (last names). rewrite Hl. simpl negb. simpl andb. cbv iota.
  unfold Msg.add. rewrite Hm. split.
  - unfold Msg.getString, Msg.assign. simpl fields. rewrite lookup_insert_eq.
    by rewrite path_of_app.
  - unfold Req.erase_url, Msg.remove, Msg.assign. simpl fields. rewrite lookup_insert_eq, Hm. simpl.
    unfold Msg.set_fields. simpl. by rewrite delete_insert_eq.
Qed.

#[local] Abbreviation home := (archiveHome a).
#[local] Abbreviation full := (file_of (archiveHome a) names).
Lemma names_data_plain : Forall plain (names ++ ["data"]).
Proof. apply Forall_app. split; [done|]. apply Forall_singleton, data_plain. Qed.
Lemma canon_full : canon full = leaf home names.
Proof. apply canon_home_path, names_data_plain. Qed.

Lemma admit_ready w : ready home names w ->
  exists w', Req.admit_write a full (path_of (names ++ ["data"])) w = (Some true, w') /\ same_fs w w'.
Proof.
  intros [_ _ _ Hl _]. unfold Req.admit_write.
  rewrite split_url by apply Forall_singleton, data_plain. 
  change (drop_blank ("" :: names ++ ["data"])) with (names ++ ["data"]).
  rewrite admitted. unfold lifto. rewrite bindo_run. unfold mret, M_ret. cbv iota beta.
  rewrite run_bind, result_isDir, canon_full, bool_decide_false by done.
  eexists. split; [done|]. apply quiet_isDir.
Qed.
Lemma addResource_ready w : ready home names w ->
  exists w', Arc.addResource a (path_of (names ++ ["data"])) "" true w = (Some true, w') /\
             opened home names w w'.
Proof.
  intros R. unfold Arc.addResource. rewrite rootPath by apply Forall_singleton, data_plain.
  unfold lifto. rewrite bindo_run. unfold mret, M_ret. cbv iota beta zeta. rewrite run_bind.
  fold (file_of home names). unfold Dirs.isFile, FM.isFile, is_file. rewrite canon_full.
  unfold result at 1, final at 1. cbv [fst snd]. case_bool_decide as Hf.
  - exists w. split; [done|]. split; [done|done|]. apply may_create_leaf; [done|]. by apply R.
  - rewrite andb_false_l. rewrite bindo_run. rewrite split_url by apply Forall_singleton, data_plain.
    destruct (make_resource home names names_plain w R) as (w' & E & O). exists w'. by rewrite E.
Qed.

Lemma announce_quiet t st mth url m : quiet (Req.announce b t st mth url m).
Proof. unfold Req.announce. intros w. by destruct (Req.observed b t st). Qed.

Lemma open_out_leaf w : may_create (leaf home names) w = true ->
  open_out full w = (true, set_files (<[leaf home names := ""]> (w_files w)) w).
Proof. intros Hc. unfold open_out. by rewrite canon_full, Hc. Qed.
Lemma open_app_leaf w : may_create (leaf home names) w = true ->
  open_app full w = (true, set_files (<[leaf home names := default "" (w_files w !! leaf home names)]> (w_files w)) w).
Proof. intros Hc. unfold open_app. by rewrite canon_full, Hc. Qed.

(** The end of both requests: the file was opened, the observers are told, the text is written. *)
Lemma write_end w old t st mth url m s f :
  ready home names w -> may_create (leaf home names) w = true ->
  exists w', (m ← Req.announce b t st mth url m; append full s;; ok (Req.answer f "OK", m))
               (set_files (<[leaf home names := old]> (w_files w)) w) =
             (Some (Req.answer f "OK", result (Req.announce b t st mth url m) (set_files (<[leaf home names := old]> (w_files w)) w)), w')
             /\ ready home names w' /\ w_files w' !! leaf home names = Some (old +:+ s).
Proof.
  intros R Hc. rewrite run_bind.
  set (w0 := set_files _ w).
  assert (R0 : ready home names w0) by by apply ready_write.
  pose proof (announce_quiet t st mth url m w0) as Q.
  set (w1 := final (Req.announce b t st mth url m) w0) in *.
  pose proof (same_fs_ready home names w0 w1 Q R0) as R1. destruct Q as (F & D & W).
  eexists. split; [done|]. split.
  - unfold final, append. simpl. rewrite canon_full. apply ready_write; [done|done|].
    unfold may_create in *. rewrite D, W. exact Hc.
  - simpl. rewrite canon_full, lookup_insert_eq. do 2 f_equal.
    rewrite F. unfold w0. simpl. by rewrite lookup_insert_eq.
Qed.

Lemma exec_ready k m w :
  addresses m -> ready home names w ->
  exists m' w', exec k a b m w = (Some (accepted k, m'), w') /\ ready home names w' /\
    w_files w' !! leaf home names = Some (write_text k (default "" (w_files w !! leaf home names)) m).
Proof.
  intros Hm R. destruct (restify_url m Hm) as [Hu He].
  destruct (admit_ready w R) as (w1 & E1 & Q1).
  destruct (addResource_ready w1 (same_fs_ready _ _ _ _ Q1 R)) as (w2 & E2 & O).
  pose proof (quiet_opened _ _ w w1 w2 Q1 O) as [F R2 Hc]. clear Q1 O.
  destruct k; unfold exec, Req.putExec, Req.postExec; rewrite Hu, He; cbv zeta; fold (file_of home names);
    rewrite bindo_run, E1, bindo_run, E2, run_bind; unfold result at 1, final at 1.
  - rewrite open_out_leaf by done. simpl fst. simpl snd. cbv iota.
    destruct (write_end w2 "" (mtype (Req.erase_url m)) (msubtype (Req.erase_url m)) "PUT"
      (path_of (names ++ ["data"])) (Req.erase_url m) (text_of m) "result" R2 Hc) as (w3 & E3 & R3 & F3).
    eauto.
  - destruct (write_end w2 (default "" (w_files w2 !! leaf home names)) (mtype (Req.erase_url m))
      (msubtype (Req.erase_url m)) "POST"
      (path_of (names ++ ["data"])) (Req.erase_url m) (text_of m) "body" R2 Hc) as (w3 & E3 & R3 & F3).
    unfold Dirs.isFile, FM.isFile, is_file. simpl. rewrite canon_full, run_bind.
    assert (Ho : (if bool_decide (is_Some (w_files w2 !! leaf home names)) then open_app full else open_out full) w2
      = (true, set_files (<[leaf home names := default "" (w_files w2 !! leaf home names)]> (w_files w2)) w2)).
    { case_bool_decide as Hs; [by apply open_app_leaf|]. rewrite open_out_leaf by done.
      by destruct (w_files w2 !! leaf home names) eqn:El; [destruct Hs; eexists|]. }
    unfold result at 1, final at 1. rewrite Ho. simpl fst. simpl snd. cbv iota.
    rewrite F in *. eauto.
Qed.

Lemma getExec_resource req x :
  plain x -> Msg.getString req "url" = path_of (names ++ [x]) ->
  Arc.getExec a req = Some (home +:+ "/" +:+ path_of names).
Proof.
  intros Hx Hu. unfold Arc.getExec. rewrite Hu, rootPath, split_url by by apply Forall_singleton.
  change (drop_blank ("" :: names ++ [x])) with (names ++ [x]).
  rewrite admitted. simpl. rewrite (proj2 (Nat.ltb_lt _ _)) by lia.
  rewrite bool_decide_false by by rewrite known.
  change (root :: sub :: rest ++ [x]) with (names ++ [x]).
  assert (E : home +:+ "/" +:+ path_of (names ++ [x]) = (home +:+ "/" +:+ path_of names) +:+ "/" +:+ x).
  { rewrite path_of_app. change (path_of [x]) with (("/" +:+ x) +:+ "").
    rewrite sapp_nil_r, !sapp_assoc. done. }
  rewrite E, find_last_slash by apply Hx. f_equal. apply take_str_app.
Qed.
Lemma getAll_resource req x w s :
  plain x -> Msg.getString req "url" = path_of (names ++ [x]) -> w_files w !! leaf home names = Some s ->
  result (Req.getAll a req) w = Some (s +:+ Msg.endl).
Proof.
  intros Hx Hu Hs. unfold Req.getAll. rewrite (getExec_resource req x) by done.
  unfold lifto, result. rewrite bindo_run. unfold mret, M_ret. cbv iota beta.
  rewrite not_refused.
  2:{ rewrite !chars_app. simpl. set_solver. }
  rewrite run_bind. unfold contents, read_file, result, final. cbv [fst snd].
  assert (E : (home +:+ "/" +:+ path_of names) +:+ "/data" = full).
  { unfold file_of. rewrite path_of_app, !sapp_assoc. done. }
  rewrite E, canon_full, Hs. unfold ok, mret, M_ret. by rewrite eof_lines_join.
Qed.
End requests.
