(* ===== verification/ArchiveClaims.v ===== *)
(** * Claims on the archive and the file manager *)
From S2P Require Import Prelude Doubles Hsrv Xml MMessage World MParams Samples Subjects Archive ArchiveOps ArchiveQueries ArchiveFacts.

Section explore.
Context {FS : PathNames} {PL : PathLaws FS}.

Lemma quiet_keep_files src noDir l : quiet (Arc.keep_files src noDir l).
Proof. induction l; simpl; quiet_steps. Qed.
#[local] Hint Resolve quiet_keep_files : quiet.
Lemma quiet_explore_children f src l :
  (forall c, quiet (f c)) -> quiet (Arc.explore_children f src l).
Proof. intros Hf. induction l; simpl; quiet_steps. Qed.
Lemma quiet_exploreArchive n src noDir : quiet (Arc.exploreArchive n src noDir).
Proof.
  revert src; induction n as [|n IH]; intros src; simpl; [apply quiet_ret|].
  quiet_steps. by apply quiet_explore_children.
Qed.

(** The directories that are longer than a path: those a descent from it can still visit. *)
Definition deeper (dirs : gset string) (p : string) : gset string :=
  filter (fun d => String.length (canon p) < String.length d)%nat dirs.
Lemma deeper_child dirs p c :
  canon c ∈ dirs -> (String.length (canon p) < String.length (canon c))%nat ->
  (size (deeper dirs c) < size (deeper dirs p))%nat.
Proof.
  intros Hc Hl. apply subset_size. split.
  - intros d. unfold deeper. rewrite !elem_of_filter. intros [? ?]. split; [lia|done].
  - intros H. specialize (H (canon c)). unfold deeper in H. rewrite !elem_of_filter in H.
    destruct H; [by split|lia].
Qed.

Lemma explore_children_total f src l w :
  (forall c, quiet (f c)) ->
  (forall n w', n ∈ l -> same_fs w w' -> is_Some (result (f (src +:+ "/" +:+ n)) w')) ->
  is_Some (result (Arc.explore_children f src l) w).
Proof.
  intros Hq Hf. assert (Hw : same_fs w w) by done. revert Hw. generalize w at 2 3. intros w'.
  revert w'. induction l as [|n l IH]; intros w' Hw; simpl; [by eexists|].
  unfold result. rewrite bindo_run.
  destruct (Hf n w' (list_elem_of_here _ _) Hw) as [l1 E].
  pose proof (Hq (src +:+ "/" +:+ n) w') as Hq'. unfold result, final in *.
  destruct (f (src +:+ "/" +:+ n) w') as [o w1]. simpl in *. subst o. rewrite bindo_run.
  destruct (IH (fun n' w'' Hn Hw' => Hf n' w'' (list_elem_of_further _ _ _ Hn) Hw') w1) as [l2 E2].
  { by transitivity w'. }
  destruct (Arc.explore_children f src l w1) as [o w2]. simpl in *. subst o. by eexists.
Qed.

Lemma explore_total fuel src noDir w :
  (size (deeper (w_dirs w) src) < fuel)%nat -> is_Some (result (Arc.exploreArchive fuel src noDir) w).
Proof.
  revert src w; induction fuel as [|n IH]; intros src w Hf; [lia|]. simpl. rewrite result_bind.
  pose proof (quiet_dirList src [] w) as (_ & Hd & _).
  pose proof (fun x => dirList_spec src w x) as Hspec.
  set (w' := final (Dirs.dirList src []) w) in *.
  destruct (result (Dirs.dirList src []) w) as [z l]; simpl in *. destruct l as [|s l].
  - rewrite !result_bind. by eexists.
  - change (is_Some (result (Arc.explore_children (fun c => Arc.exploreArchive n c noDir) src (s :: l)) w')).
    apply explore_children_total; [intros c; apply quiet_exploreArchive|].
    intros x w'' Hx (_ & Hd' & _). apply IH. rewrite Hd', Hd.
    destruct (Hspec x Hx) as (_ & Hc & Hl).
    pose proof (deeper_child (w_dirs w) src _ Hc Hl). lia.
Qed.
End explore.

Section terminates.
Context {FS : PathNames} {PL : PathLaws FS}.

(** C32: exploring the archive ends: the recursion visits at most one level per directory
    of the file system, so the fuel given to it is never exhausted, and neither files nor
    directories change. *)
Theorem explore_terminates src noDir w :
  exists l, result (Arc.explore src noDir) w = Some l /\ same_fs w (final (Arc.explore src noDir) w).
Proof.
  destruct (explore_total (S (size (w_dirs w))) src noDir w) as [l Hl].
  { apply Nat.lt_succ_r, subseteq_size. unfold deeper. set_solver. }
  exists l. split; [done|]. apply quiet_exploreArchive.
Qed.
End terminates.

(** ** Resources *)
Section resources.
Context {P : Platform} {C : Config} {XP : XmlParser} {FS : PathNames} {PL : PathLaws FS}.
Variables (a : ArchiveManager) (b : Bus) (root sub : string) (rest : list string) (d : RootDescriptor).

(** Requests on one resource, one after the other, with their answers. *)
Fixpoint exec_all (ops : list (write * MMessage)) : M (option (list MMessage)) :=
  match ops with
  | [] => ok []
  | (k, m) :: ops' => r ←! exec k a b m; rs ←! exec_all ops'; ok (r.1 :: rs)
  end.

(** A resource is a log of messages: after any sequence of PUT and POST requests, each answered
    with OK, reading the resource gives the texts of the messages since the last PUT, each on its line,
    and an empty line; whatever the requests before it, and whoever observes the bus. *)
Lemma resource_log w ops req x old :
  Forall plain (root :: sub :: rest) -> root <> "message" -> last (root :: sub :: rest) <> Some "data" ->
  accessInfo a !! root = Some d -> prefix d = archiveHome a ->
  head (visibility d) = Some "*" \/ (visibility d <> [] /\ sub ∈ visibility d) ->
  ready (archiveHome a) (root :: sub :: rest) w ->
  w_files w !! leaf (archiveHome a) (root :: sub :: rest) = Some old ->
  Forall (fun km => addresses root sub rest km.2) ops ->
  plain x -> Msg.getString req "url" = path_of (root :: sub :: rest ++ [x]) ->
  exists w', exec_all ops w = (Some (map (fun km => accepted km.1) ops), w') /\
    result (Req.getAll a req) w' =
      Some (fold_left (fun s km => write_text km.1 s km.2) ops old +:+ Msg.endl).
Proof.
  intros Hp Hm Hd Hk Hh Hv R Hold Hops Hx Hreq.
  revert w old R Hold. induction Hops as [|[k m] ops Ha Hops IH]; intros w old R Hold.
  - exists w. split; [done|]. by eapply getAll_resource.
  - destruct (exec_ready a b root sub rest d) with (k := k) (m := m) (w := w) as (m' & w1 & E1 & R1 & F1); [done..|].
    rewrite Hold in F1. destruct (IH w1 _ R1 F1) as (w2 & E2 & Hg).
    exists w2. split; [|done]. simpl. by rewrite bindo_run, E1, bindo_run, E2.
Qed.

End resources.

(** ** Purge *)
Section purge.
Context {P : Platform} {C : Config} {XP : XmlParser} {FS : PathNames} {K : Calendar}.
Variables (a : ArchiveManager).
Hypothesis home_normal : Arc.one_slash (archiveHome a) = archiveHome a.

(** The files that the lines of a text name. *)
Definition named_by (line : string) : list string :=
  match Req.line_element line with
  | Some (n :: _) =>
      let url := archiveHome a +:+ "/" +:+ child_attr n "url" in
      [canon (FM.path_of (Arc.getParentDirectory url) (FilePath.getTail url))]
  | _ => []
  end.
Definition named_in (s : string) : list string := concat (map named_by (eof_lines s)).

(** What the purge does with one file of the archive. *)
Inductive fate := Kept | Dated | Expired.
Definition fate_of (datestr f : string) : fate :=
  let window := Arc.getWindow a (default "" (head (NameList.of_string (Req.getRelativePath a f).1 "/"))) in
  if (window <? 0) || negb (Req.is_data f) then Kept
  else if negb (Arc.isDate (FilePath.getExt f) "_") then Dated
  else match Arc.getDateDifference datestr (FilePath.getExt f) "_" with
       | Some age => if window <? age then Expired else Kept
       | None => Kept
       end.
Definition touched (datestr f : string) : list string :=
  match fate_of datestr f with
  | Kept => []
  | Dated => [canon f; canon (f +:+ "." +:+ datestr)]
  | Expired => [canon (FM.path_of (Arc.getParentDirectory f) (FilePath.getTail f))]
  end.

Section keeps.
Variable p : string.

(** No text of the file system names [p]. *)
Definition unnamed (w : world) : Prop := forall q s, w_files w !! q = Some s -> p ∉ named_in s.
Definition keeps {A} (c : M A) : Prop :=
  forall w, unnamed w -> w_files (final c w) !! p = w_files w !! p /\ unnamed (final c w).

Lemma keeps_quiet {A} (c : M A) : quiet c -> keeps c.
Proof. intros Hq w Hw. destruct (Hq w) as (F & _ & _). unfold unnamed. by rewrite F. Qed.
Lemma keeps_bind {A B} (c : M A) (k : A -> M B) : keeps c -> (forall x, keeps (k x)) -> keeps (c ≫= k).
Proof.
  intros Hc Hk w Hw. rewrite final_bind. destruct (Hc w Hw) as [E1 U1].
  destruct (Hk (result c w) _ U1) as [E2 U2]. by rewrite E2.
Qed.
Lemma keeps_bindo {A B} (c : M (option A)) (k : A -> M (option B)) :
  keeps c -> (forall x, keeps (k x)) -> keeps (bindo c k).
Proof. intros Hc Hk. apply keeps_bind; [done|]. intros [x|]; [apply Hk|apply keeps_quiet, quiet_ret]. Qed.
Lemma keeps_contents {B} f (k : option string -> M B) :
  (forall o, (forall s, o = Some s -> p ∉ named_in s) -> keeps (k o)) -> keeps (contents f ≫= k).
Proof.
  intros Hk w Hw. rewrite final_bind. unfold final at 2 4, result, contents, read_file. cbv [fst snd].
  apply Hk; [|done]. intros s. apply Hw.
Qed.
Lemma keeps_deleteFile x y : canon (FM.path_of x y) <> p -> keeps (Dirs.deleteFile x y).
Proof.
  intros Hp. unfold Dirs.deleteFile. apply keeps_bind; [apply keeps_quiet, quiet_isFile|].
  intros [|]; [|apply keeps_quiet, quiet_ret]. apply keeps_bind.
  - intros w Hw. unfold final, unlink. destruct (w_files w !! _) as [c|] eqn:E; [|done].
    destruct (w_writable w _); [|done]. simpl. rewrite lookup_delete_ne by done. split; [done|].
    intros q s. simpl. intros [_ H]%lookup_delete_Some. by apply (Hw q).
  - intros [|]; apply keeps_quiet; quiet_steps.
Qed.
Lemma keeps_moveFile x y : canon x <> p -> canon y <> p -> keeps (Dirs.moveFile x y "").
Proof.
  intros Hx Hy. unfold Dirs.moveFile. apply keeps_bind; [apply keeps_quiet, quiet_isFile|].
  intros [|]; [|apply keeps_quiet; quiet_steps]. apply keeps_bind.
  - change (FM.path_of y "") with y. intros w Hw. unfold final, rename.
    destruct (w_files w !! canon x) as [c|] eqn:E; [|done].
    destruct (w_writable w (canon y)); [|done]. simpl.
    rewrite lookup_insert_ne, lookup_delete_ne by done. split; [done|].
    intros q s. simpl. intros [[<- <-]|[_ [_ H]%lookup_delete_Some]]%lookup_insert_Some.
    + by apply (Hw (canon x)).
    + by apply (Hw q).
  - intros [|]; apply keeps_quiet; quiet_steps.
Qed.

Lemma keeps_lifto {A B} (o : option A) (k : A -> M (option B)) :
  (forall x, o = Some x -> keeps (k x)) -> keeps (bindo (lifto o) k).
Proof. destruct o; intros H; [by apply H|apply keeps_quiet, quiet_ret]. Qed.
Lemma keeps_clear_loop l : p ∉ concat (map named_by l) -> keeps (Req.clear_loop a l).
Proof.
  induction l as [|x l IH]; intros Hp; [by apply keeps_quiet, quiet_ret|].
  simpl in *. apply not_elem_of_app in Hp as [Hx Hl]. unfold named_by in Hx.
  apply keeps_lifto. intros e Ee. rewrite Ee in Hx.
  apply keeps_bind; [|intros _; by apply IH].
  destruct e as [|n e]; [apply keeps_quiet, quiet_ret|].
  apply keeps_bind; [|intros _; apply keeps_quiet, quiet_ret]. apply keeps_deleteFile. set_solver.
Qed.
Lemma keeps_clear f : keeps (Req.clear a f).
Proof.
  apply keeps_contents. intros [s|] Hs; [|apply keeps_quiet, quiet_ret].
  apply keeps_clear_loop. by apply Hs.
Qed.
Lemma getRelativePath_home f : (Req.getRelativePath a f).2 = a.
Proof. unfold Req.getRelativePath. simpl. rewrite home_normal. by destruct a. Qed.
Lemma keeps_purge_file datestr f : p ∉ touched datestr f -> keeps (Req.purge_file a datestr f).
Proof.
  unfold touched, fate_of. intros Hp. unfold Req.purge_file.
  pose proof (getRelativePath_home f) as Ea.
  destruct (Req.getRelativePath a f) as [rel a']. simpl in *. subst a'.
  apply keeps_lifto. intros root Hr. rewrite Hr in Hp. simpl in Hp.
  destruct ((Arc.getWindow a root <? 0) || negb (Req.is_data f)); [apply keeps_quiet, quiet_ret|].
  destruct (negb (Arc.isDate (FilePath.getExt f) "_")).
  - apply keeps_bind; [apply keeps_moveFile; set_solver|]. intros _. apply keeps_quiet, quiet_ret.
  - apply keeps_lifto. intros age Hage. rewrite Hage in Hp.
    destruct (Arc.getWindow a root <? age); [|apply keeps_quiet, quiet_ret].
    apply keeps_bindo; [apply keeps_clear|]. intros _.
    apply keeps_bind; [apply keeps_deleteFile; set_solver|]. intros _. apply keeps_quiet, quiet_ret.
Qed.
Lemma purge_file_archive datestr f w a' : result (Req.purge_file a datestr f) w = Some a' -> a' = a.
Proof.
  unfold Req.purge_file. pose proof (getRelativePath_home f) as Ea.
  destruct (Req.getRelativePath a f) as [rel b]. simpl in *. subst b.
  unfold result, lifto. rewrite bindo_run. unfold mret, M_ret.
  destruct (head _) as [root|]; [|done].
  destruct ((Arc.getWindow a root <? 0) || negb (Req.is_data f)); [by intros [= <-]|].
  destruct (negb (Arc.isDate (FilePath.getExt f) "_")).
  { rewrite run_bind. by intros [= <-]. }
  rewrite bindo_run. destruct (Arc.getDateDifference _ _ _) as [age|]; [|done].
  destruct (Arc.getWindow a root <? age); [|by intros [= <-]].
  rewrite bindo_run. destruct (Req.clear a f w) as [[?|] w1]; [|done].
  rewrite run_bind. by intros [= <-].
Qed.
Lemma keeps_purge_loop datestr l :
  (forall f, f ∈ l -> p ∉ touched datestr f) -> keeps (Req.purge_loop a datestr l).
Proof.
  induction l as [|f l IH]; intros Hl; [apply keeps_quiet, quiet_ret|].
  intros w Hw. simpl. unfold final. rewrite bindo_run.
  destruct (keeps_purge_file datestr f (Hl f (list_elem_of_here _ _)) w Hw) as [E1 U1].
  pose proof (purge_file_archive datestr f w) as Ha. unfold result, final in *.
  destruct (Req.purge_file a datestr f w) as [[a'|] w1]; simpl in *; [|done].
  rewrite (Ha a' eq_refl). destruct (IH (fun g Hg => Hl g (list_elem_of_further _ _ _ Hg)) w1 U1) as [E2 U2].
  unfold final in *. by rewrite E2.
Qed.
End keeps.

(** C9: the purge of the archive spares every file that is not due: a file keeps its contents unless
    it is a data file without a date (which is renamed), the file a data file is renamed to, a dated file
    older than the window of its root, or named by a line of some file. Files of a root with a negative
    window, files that hold no data and dated files within the window are never touched. *)
Theorem purge_spares w p files :
  let w0 := final (getday (-60)) w in
  result (Arc.explore (archiveHome a) true) w0 = Some files ->
  (forall f, f ∈ files -> p ∉ touched (result (getday (-60)) w) f) -> unnamed p w ->
  w_files (final (Req.purge a) w) !! p = w_files w !! p.
Proof.
  intros w0 Hf Hp Hn. unfold Req.purge. rewrite final_bind. fold w0.
  pose proof (quiet_exploreArchive (S (size (w_dirs w0))) (archiveHome a) true w0) as (F & _).
  unfold final at 1. rewrite bindo_run. unfold result, final in Hf, F.
  change (Arc.exploreArchive (S (size (w_dirs w0))) (archiveHome a) true w0) with
    (Arc.explore (archiveHome a) true w0) in F.
  destruct (Arc.explore (archiveHome a) true w0) as [o w1]. simpl in *. subst o.
  rewrite <- F.
  apply (keeps_purge_loop p _ files Hp w1). unfold unnamed. rewrite F. exact Hn.
Qed.

(** The purge files a data file without a date under the day of the purge: the contents move to the
    dated name, and whatever that name held is lost. *)
Lemma purge_dates_the_file w f datestr c :
  fate_of datestr f = Dated -> NameList.of_string (Req.getRelativePath a f).1 "/" <> [] ->
  w_files w !! canon f = Some c -> w_writable w (canon (f +:+ "." +:+ datestr)) = true ->
  canon f <> canon (f +:+ "." +:+ datestr) ->
  let w' := final (Req.purge_file a datestr f) w in
  w_files w' !! canon f = None /\ w_files w' !! canon (f +:+ "." +:+ datestr) = Some c.
Proof.
  intros Hf Hne Hc Hw Hd w'. assert (E : w_files w' =
    <[canon (f +:+ "." +:+ datestr) := c]> (delete (canon f) (w_files w))).
  { unfold w', fate_of, Req.purge_file in *. pose proof (getRelativePath_home f) as Ea.
    destruct (Req.getRelativePath a f) as [rel a']. simpl in *. subst a'.
    destruct (NameList.of_string rel "/") as [|root l]; [done|]. simpl in *.
    destruct ((Arc.getWindow a root <? 0) || negb (Req.is_data f)) eqn:Ew; [done|].
    destruct (negb (Arc.isDate (FilePath.getExt f) "_")).
    - unfold final, lifto. rewrite bindo_run. unfold mret, M_ret. cbv iota beta. rewrite Ew.
      rewrite run_bind. unfold final, Dirs.moveFile.
      rewrite run_bind. unfold result, final, Dirs.isFile, FM.isFile, is_file. simpl.
      rewrite bool_decide_true by by rewrite Hc. rewrite run_bind. unfold result, final, rename.
      change (FM.path_of (f +:+ "." +:+ datestr) "") with (f +:+ "." +:+ datestr). by rewrite Hc, Hw.
    - destruct (Arc.getDateDifference _ _ _) as [age|]; [|done]. by destruct (_ <? age). }
  rewrite E. split; [|apply lookup_insert_eq]. by rewrite lookup_insert_ne, lookup_delete_eq.
Qed.
End purge.

(** ** Access *)
Lemma bindo_lifto {A B} (x : A) (k : A -> M (option B)) : bindo (lifto (Some x)) k = k x.
Proof. reflexivity. Qed.

Section access.
Context {P : Platform} {C : Config} {XP : XmlParser} {FS : PathNames}.
Implicit Types (a : ArchiveManager).

Inductive request := Post | Put | PutConf | PutLog | PostLog.
Definition serve (r : request) a (b : Bus) (m : MMessage) : M (option (MMessage * MMessage)) :=
  match r with
  | Post => Req.postExec a b m | Put => Req.putExec a b m | PutConf => Req.putConf a b m
  | PutLog => Req.putLog a b m | PostLog => Req.postLog a b m
  end.
Definition address (r : request) a (m : MMessage) : list string :=
  drop_blank (NameList.of_string
    (Msg.getString (Req.restify a m (match r with PutConf => true | _ => false end)) "url") "/").

Lemma admit_refused a full url w :
  Arc.checkPermission a (drop_blank (NameList.of_string url "/")) WRITE = Some false ->
  Req.admit_write a full url w = (Some false, w).
Proof. intros E. unfold Req.admit_write. by rewrite E. Qed.

(** C29: a request to write where it may not changes nothing: no file, no directory, no log line, no
    message to the observers; and it is not answered with OK. *)
Theorem forbidden_write_changes_nothing r a b m w :
  Arc.checkPermission a (address r a m) WRITE = Some false ->
  final (serve r a b m) w = w /\
  forall ans m', result (serve r a b m) w = Some (ans, m') ->
    Msg.getString ans "body" <> "OK" /\ Msg.getString ans "result" <> "OK".
Proof.
  intros Hp. destruct r; unfold address in Hp; cbv iota in Hp;
    unfold serve, Req.postExec, Req.putExec, Req.putConf, Req.putLog, Req.postLog, result, final; cbv zeta.
  1,2: rewrite bindo_run, (admit_refused _ _ _ _ Hp); cbv [ok mret M_ret fst snd];
    split; [reflexivity|]; intros ? ? [= <- <-]; done.
  all: destruct (Arc.getRootPath a _) as [root|];
    [rewrite bindo_lifto, bindo_run, (admit_refused _ _ _ _ Hp)|by split].
  all: cbv [ok mret M_ret fst snd]; split; [reflexivity|]; intros ? ? [= <- <-]; try done.
  by destruct (_ =s "json").
Qed.

(** The names under a root are open exactly when the root is known and its list starts with the star or
    holds the name; the root itself can only be read. *)
Lemma permission_spec a root l md :
  (forall r d, accessInfo a !! r = Some d -> visibility d <> []) ->
  Arc.checkPermission a (root :: l) md = Some true <->
  match l with
  | [] => md = READ
  | sub :: _ => exists d, accessInfo a !! root = Some d /\
                  (head (visibility d) = Some "*" \/ sub ∈ visibility d)
  end.
Proof.
  intros Hne. destruct l as [|sub l]; simpl.
  - split; [intros [= H]; by apply bool_decide_eq_true in H|by intros ->].
  - unfold Arc.fullAccess. destruct (accessInfo a !! root) as [d|] eqn:E; simpl; [|naive_solver].
    specialize (Hne root d E). destruct (visibility d) as [|v vs] eqn:Ev; [done|]. simpl.
    destruct (v =s "*") eqn:Es; bool_hyps.
    + split; [|done]. intros _. exists d. split; [done|]. left. rewrite Ev. simpl. congruence.
    + transitivity (NameList.member (visibility d) sub = true).
      { rewrite Ev. split; [intros [= H]; exact H|intros H; f_equal; exact H]. }
      rewrite NameList.member_elem. split; [naive_solver|]. intros (? & [= <-] & [H|H]); [|done].
      rewrite Ev in H. simpl in H. congruence.
Qed.
End access.

(** ** Reading the past *)
Section latest.
Context {FS : PathNames}.

(** Without data of today, the file answered as the latest is the first in the order of names among
    the files of the past: as the names end with the date, it is the oldest. *)
Lemma latest_is_the_oldest dir w :
  w_files w !! canon (dir +:+ "/data") = None ->
  let past := List.filter (fun n => contains "data." n) (result (Dirs.fileList dir []) w).2 in
  past <> [] ->
  exists n, n ∈ past /\ (forall n', n' ∈ past -> String.le n n') /\
    result (Req.getLatestData dir) w = dir +:+ "/" +:+ n.
Proof.
  intros Hf past Hne. unfold Req.getLatestData. rewrite result_bind.
  unfold result at 2, Dirs.isFile, FM.isFile, is_file. cbv [fst].
  rewrite Hf, bool_decide_false by (by intros [? ?]).
  change (final _ w) with w. rewrite result_bind. fold past.
  pose proof (merge_sort_Permutation String.le past) as Hp.
  pose proof (StronglySorted_merge_sort String.le past) as Hs.
  destruct (merge_sort String.le past) as [|n l].
  { by apply Permutation_nil_l in Hp. }
  exists n. split; [rewrite <- Hp; set_solver|]. split; [|done].
  intros n' Hn'. rewrite <- Hp in Hn'. apply elem_of_cons in Hn' as [->|Hn']; [done|].
  inversion Hs as [|? ? _ Hall]; subst. rewrite Forall_forall in Hall. by apply Hall.
Qed.

(** Moving the files of a directory moves nothing: the loop hands the directory itself to the
    operation, which is not a file; the answer is success only when no file qualifies. *)
Lemma moveAllFile_moves_nothing dirpath new_dirpath w :
  w_files w !! canon dirpath = None -> canon dirpath ∈ w_dirs w ->
  same_fs w (final (Dirs.moveAllFile dirpath new_dirpath "") w) /\
  result (Dirs.moveAllFile dirpath new_dirpath "") w =
    bool_decide (Forall (fun e => e.2 = true) (result (readdir dirpath) w)).
Proof.
  intros Hf Hd. unfold Dirs.moveAllFile, Dirs.all_files. rewrite result_bind, final_bind.
  assert (Eo : result (opendir dirpath) w = true) by by apply bool_decide_eq_true.
  rewrite Eo. change (final (opendir dirpath) w) with w. rewrite result_bind, final_bind. change (final (readdir dirpath) w) with w.
  generalize (result (readdir dirpath) w). intros es.
  induction es as [|[n [|]] es IH]; simpl.
  - done.
  - destruct IH as [Q R]. split; [exact Q|]. rewrite R. apply bool_decide_ext. rewrite Forall_cons. naive_solver.
  - assert (Em : Dirs.moveFile dirpath n new_dirpath w = (false, final
      (log_info ("[Filemanager::moveFile] error moving file (isFile): " +:+ dirpath)) w)).
    { unfold Dirs.moveFile. rewrite run_bind. unfold result, final, Dirs.isFile, FM.isFile, is_file. simpl.
      by rewrite Hf. }
    rewrite result_bind, final_bind. unfold result, final. rewrite Em. simpl.
    by split.
Qed.
End latest.

(** ** A sample archive *)
Import Samples.Instances.

(** Days from 0000-03-01 in the Gregorian calendar, for the years boost accepts. *)
Definition leap (y : Z) : bool := ((y mod 4 =? 0) && negb (y mod 100 =? 0)) || (y mod 400 =? 0).
Definition month_days (y m : Z) : Z :=
  if m =? 2 then (if leap y then 29 else 28)
  else if (m =? 4) || (m =? 6) || (m =? 9) || (m =? 11) then 30 else 31.
#[export] Instance gregorian : Calendar := {|
  day_number := fun y m d =>
    if (1400 <=? y) && (y <=? 9999) && (1 <=? m) && (m <=? 12) && (1 <=? d) && (d <=? month_days y m)
    then let y' := if m <=? 2 then y - 1 else y in
         let m' := if m <=? 2 then m + 9 else m - 3 in
         Some (365 * y' + y' / 4 - y' / 100 + y' / 400 + (153 * m' + 2) / 5 + d)
    else None |}.

Definition sample_archive : ArchiveManager :=
  mkArchive (Samples.params []) "archive" "/home/hat" ["first"; "last"; "all"]
    {[ "event" := mkRoot 30 "/home/hat" ["*"]; "film" := mkRoot (-1) "/home/hat" ["door"; "gate"] ]}.
Definition sample_files : gmap string string :=
  {[ "/home/hat/event/lamp/data" := "<today/>" +:+ Msg.endl;
     "/home/hat/event/lamp/data.2021_03_01" := "<recent/>";
     "/home/hat/event/lamp/data.2020_12_24" := "<old/>";
     "/home/hat/film/door/data.2019_01_01" := "<film/>";
     "/etc/shadow" := "root:secret" ]}.
Definition sample_dirs : gset string :=
  {[ "/"; "/home"; "/home/hat"; "/home/hat/event"; "/home/hat/event/lamp"; "/home/hat/film";
     "/home/hat/film/door"; "/etc" ]}.
Definition archive_world : world := set_dirs sample_dirs (set_files sample_files (world_at early)).
Definition to_lamp (t : string) : MMessage := Msg.add (Msg.mk t "lamp") "url" "/event/lamp".
Definition nobody : Bus := mkBus ∅ ∅ true.

Lemma archive_ready : ready "/home/hat" ["event"; "lamp"] archive_world.
Proof.
  split.
  - apply (bool_decide_unpack _). vm_compute. exact I.
  - done.
  - intros q Hq. vm_compute in Hq. repeat (apply elem_of_cons in Hq as [->|Hq]; [by vm_compute|]).
    by apply not_elem_of_nil in Hq.
  - apply (bool_decide_unpack _). vm_compute. exact I.
  - intros _. apply (bool_decide_unpack _). vm_compute. exact I.
Qed.

(** A root whose names are all visible shows any file of the machine: ".." in the url climbs out of
    the archive, and the permission only looks at the name after the root. *)
Lemma visible_root_escapes :
  result (Req.getFile sample_archive (Msg.add (Msg.mk "httprequest" "*") "url" "/event/../../../etc/shadow"))
    archive_world = Some "root:secret".
Proof. vm_compute. reflexivity. Qed.

Lemma explore_terminates_witness :
  exists l, result (Arc.explore "/home/hat" true) archive_world = Some l /\
    same_fs archive_world (final (Arc.explore "/home/hat" true) archive_world).
Proof. apply explore_terminates. Defined.

Example log_of_the_lamp :
  exists w', exec_all sample_archive nobody [(POST, to_lamp "event"); (PUT, to_lamp "set"); (POST, to_lamp "cmd")]
               archive_world = (Some [accepted POST; accepted PUT; accepted POST], w') /\
    result (Req.getAll sample_archive (Msg.add (Msg.mk "get" "*") "url" "/event/lamp/all")) w' =
      Some ((text_of (to_lamp "set") +:+ text_of (to_lamp "cmd")) +:+ Msg.endl).
Proof.
  refine (resource_log sample_archive nobody "event" "lamp" [] (mkRoot 30 "/home/hat" ["*"])
    archive_world [(POST, to_lamp "event"); (PUT, to_lamp "set"); (POST, to_lamp "cmd")]
    (Msg.add (Msg.mk "get" "*") "url" "/event/lamp/all") "all" ("<today/>" +:+ Msg.endl)
    _ _ _ _ _ _ archive_ready _ _ _ _).
  - repeat constructor; try done; apply (bool_decide_unpack _); vm_compute; exact I.
  - done.
  - done.
  - by vm_compute.
  - done.
  - by left.
  - by vm_compute.
  - repeat constructor.
  - split_and!; try done; apply (bool_decide_unpack _); vm_compute; exact I.
  - done.
Qed.

(** The recent data and the film, which is kept for ever, survive the purge; the old data does not. *)
Definition kept_film : string := "/home/hat/film/door/data.2019_01_01".
Lemma purge_spares_witness :
  w_files (final (Req.purge sample_archive) archive_world) !! kept_film = Some "<film/>".
Proof.
  rewrite (purge_spares sample_archive) with (files :=
    ["/home/hat/event/lamp/data.2021_03_01"; "/home/hat/event/lamp/data.2020_12_24";
     "/home/hat/event/lamp/data"; kept_film]).
  - by vm_compute.
  - by vm_compute.
  - vm_compute. reflexivity.
  - apply (Forall_forall (fun f => kept_film ∉ touched sample_archive _ f)).
    apply (bool_decide_unpack _). vm_compute. exact I.
  - intros q s. revert q s.
    apply (map_Forall_lookup (fun _ s => kept_film ∉ named_in sample_archive s)).
    apply (bool_decide_unpack _). vm_compute. exact I.
Defined.

(** *** Boundary behaviour of the queries *)

(** A compact time of 2020 loses its year: its first two digits are taken for the century. *)
Example compact_time_of_2020 :
  getasciitimecompact_of (Timeval 1592224245 0) = "200615123045" /\
  Query.normalizeDateTime "200615123045" = "200615123045" /\
  Query.normalizeDateTime "210314073000" = "202103140730".
Proof. by vm_compute. Qed.

(** The query on the cameras skips the data of today. *)
Lemma subset_skips_today {PT : PropertyTree} start_ end_ camdir l :
  Query.subset_files start_ end_ camdir ("data" :: l) = Query.subset_files start_ end_ camdir l.
Proof. reflexivity. Qed.

Lemma forbidden_write_changes_nothing_witness :
  let m := Msg.add (Msg.mk "event" "x") "url" "/film/roof" in
  final (serve Put sample_archive nobody m) archive_world = archive_world /\
  forall ans m', result (serve Put sample_archive nobody m) archive_world = Some (ans, m') ->
    Msg.getString ans "body" <> "OK" /\ Msg.getString ans "result" <> "OK".
Proof. apply forbidden_write_changes_nothing. vm_compute. reflexivity. Defined.
Definition past_world : world :=
  set_dirs sample_dirs (set_files (delete "/home/hat/event/lamp/data" sample_files) (world_at early)).
Definition past_names : list string :=
  List.filter (fun n => contains "data." n) (result (Dirs.fileList "/home/hat/event/lamp" []) past_world).2.
Example oldest_of_two : result (Req.getLatestData "/home/hat/event/lamp") past_world =
  "/home/hat/event/lamp/data.2020_12_24".
Proof. by vm_compute. Qed.
