(* ===== verification/BusClaims.v ===== *)
(** * Lemmas on the message queues and on the notification bus
    (minilibs/MMessageQueue.h, Subject.cpp, SubjectSet.cpp, ObserverThread.cpp)

    [bus_ok] is the invariant of the bus: a subject lists distinct observers, none of them null, all alive.
    The properties of the queues and of the bus follow. *)
From S2P Require Import Prelude Doubles Hsrv Xml MMessage World MParams Subjects.

(** ** Queues *)
(** [better] is the strict order the scan uses; the winner is the first maximum. *)
Section best.
Context (better : Z -> Z -> bool).
Context (better_irrefl : forall x, better x x = false).
Context (better_trans : forall x y z, better x y = true -> better y z = true -> better x z = true).
Context (better_total : forall x y, better x y = false -> better y x = false -> x = y).

Definition first_best (l : list MMessage) (r : nat) : Prop :=
  exists m, l !! r = Some m /\
  (forall j m', l !! j = Some m' -> better (priority m') (priority m) = false) /\
  (forall j m', (j < r)%nat -> l !! j = Some m' -> better (priority m) (priority m') = true).

Lemma best_from_spec l0 l r pr m :
  l0 !! r = Some m -> priority m = pr -> first_best l0 r ->
  first_best (l0 ++ l) (Q.best_from better l (length l0) r pr).
Proof.
  revert l0 r pr m. induction l as [|x l IH]; intros l0 r pr m Hr Hp Hb; simpl; [by rewrite app_nil_r|].
  replace (l0 ++ x :: l) with ((l0 ++ [x]) ++ l) by (by rewrite <- app_assoc).
  replace (S (length l0)) with (length (l0 ++ [x])) by (rewrite length_app; simpl; lia).
  destruct Hb as (m1 & Hm1 & Hmax & Hfirst). simplify_eq.
  assert (Hr' : (r < length l0)%nat) by (by eapply lookup_lt_Some).
  destruct (better (priority x) (priority m)) eqn:E.
  - apply (IH _ _ _ x); [by rewrite lookup_app_r, Nat.sub_diag by done|done|].
    exists x. split_and!; [by rewrite lookup_app_r, Nat.sub_diag by done| |].
    + intros j m' [Hj|[_ Hj]]%lookup_app_Some.
      * destruct (better (priority m') (priority x)) eqn:E2; [|done].
        apply Hmax in Hj. by rewrite (better_trans _ _ _ E2 E) in Hj.
      * destruct (j - length l0)%nat as [|k]; simplify_eq/=. apply better_irrefl.
    + intros j m' Hj [Hl|[Hge _]]%lookup_app_Some; [|lia].
      destruct (decide (priority m' = priority m)) as [->|Hne]; [done|].
      apply (better_trans _ (priority m)); [done|].
      destruct (better (priority m) (priority m')) eqn:E2; [done|].
      destruct Hne. apply better_total; [by eapply Hmax|done].
  - apply (IH _ _ _ m); [by apply lookup_app_l_Some|done|].
    exists m. split_and!; [by apply lookup_app_l_Some| |].
    + intros j m' [Hj|[_ Hj]]%lookup_app_Some; [by eapply Hmax|].
      by destruct (j - length l0)%nat as [|k]; simplify_eq/=.
    + intros j m' Hj [Hl|[Hge _]]%lookup_app_Some; [by eapply Hfirst|lia].
Qed.
Lemma best_spec l : l <> [] -> first_best l (Q.best better l).
Proof.
  destruct l as [|m l]; [done|]. intros _. unfold Q.best. cbn [Q.best_from].
  rewrite better_irrefl. apply (best_from_spec [m] l 0 (priority m) m); [done|done|].
  exists m. split_and!; [done| |intros; lia]. intros [|j] m' ?; simplify_eq/=. apply better_irrefl.
Qed.
End best.

Lemma best_gt l : l <> [] -> first_best Z.gtb l (Q.best Z.gtb l).
Proof. apply best_spec; intros; lia. Qed.
Lemma best_lt l : l <> [] -> first_best Z.ltb l (Q.best Z.ltb l).
Proof. apply best_spec; intros; lia. Qed.

(** ** The bus *)
(** A subject lists distinct observers, none of them null, all of them alive. *)
Definition registered (s : Subject) (l : list nat) : Prop := sobservers s = Some <$> l /\ NoDup l.
Definition bus_ok (b : Bus) : Prop :=
  map_Forall (fun _ s => exists l, registered s l /\ Forall (fun a => is_Some (observers b !! a)) l) (subjects b).

Lemma isNotRegistered_spec s l o : registered s l -> Sub.isNotRegistered s o = bool_decide (o ∉ l).
Proof.
  intros [Hs _]. unfold Sub.isNotRegistered. rewrite Hs. rewrite bool_decide_not. f_equal.
  apply eq_true_iff_eq. rewrite existsb_exists, bool_decide_eq_true.
  setoid_rewrite <- list_elem_of_In. setoid_rewrite bool_decide_eq_true. split.
  - intros (x & Hx & ->). by apply list_elem_of_fmap in Hx as (y & [= ->] & Hy).
  - intros Ho. exists (Some o). split; [by apply list_elem_of_fmap_2|done].
Qed.
Lemma register_registered s l o :
  registered s l -> exists l', registered (Sub.register_observer s o) l' /\ (forall a, a ∈ l' <-> a = o \/ a ∈ l).
Proof.
  intros H. unfold Sub.register_observer. rewrite (isNotRegistered_spec s l o H). case_bool_decide as Ho.
  - exists (l ++ [o]). destruct H as [Hs Hn]. split.
    + split; [simpl; by rewrite Hs, fmap_app|]. apply NoDup_app. split_and!; [done|set_solver|]. apply NoDup_singleton.
    + set_solver.
  - exists l. split; [done|]. destruct (decide (o ∈ l)); set_solver.
Qed.

(** Nulling and erasing the matches of an address that occurs at most once. *)
Lemma null_matches_none q l i pos :
  Forall (fun p => q p = false) l -> Sub.null_matches q l i pos = (l, pos).
Proof.
  intros H. revert i pos. induction H as [|p l Hp Hl IH]; intros i pos; simpl; [done|]. by rewrite Hp, IH.
Qed.
Lemma null_matches_ext q q' l i pos : (forall p, q p = q' p) -> Sub.null_matches q l i pos = Sub.null_matches q' l i pos.
Proof. intros H. revert i pos. induction l as [|p l IH]; intros i pos; simpl; [done|]. rewrite H. by rewrite !IH. Qed.
(** [q] on addresses; a null address does not match. *)
Definition at_address (q : nat -> bool) (p : option nat) : bool := match p with Some a => q a | None => false end.
Lemma remove_unique (q : nat -> bool) s l :
  registered s l -> (forall a b, a ∈ l -> b ∈ l -> q a = true -> q b = true -> a = b) ->
  registered (Sub.remove_matches (at_address q) s) (filter (fun a => q a = false) l).
Proof.
  intros [Hs Hn] Hu. split; [|by apply NoDup_filter]. unfold Sub.remove_matches. rewrite Hs. clear Hs.
  assert (forall l : list nat, Forall (fun a => q a = false) l -> filter (fun a => q a = false) l = l) as Hkeep.
  { intros l' H. induction H as [|a l' Ha Hl IH]; [done|]. rewrite filter_cons_True by done. by rewrite IH. }
  assert (forall l : list nat, Forall (fun a => q a = false) l -> Forall (fun p => at_address q p = false) (Some <$> l)) as Hfree.
  { intros l' H. by apply Forall_fmap. }
  destruct (decide (Exists (fun a => q a = true) l)) as [He|He].
  - apply Exists_exists in He as (o & Ho & Hq). apply list_elem_of_split in Ho as (l1 & l2 & ->).
    apply NoDup_app in Hn as (_ & H1 & [H2 _]%NoDup_cons).
    assert (Forall (fun a => q a = false) l1 /\ Forall (fun a => q a = false) l2) as [F1 F2].
    { split; apply Forall_forall; intros a Ha; apply not_true_iff_false; intros Hqa;
        pose proof (Hu a o ltac:(set_solver) ltac:(set_solver) Hqa Hq) as ->; set_solver. }
    rewrite filter_app, filter_cons_False by (by rewrite Hq). rewrite !Hkeep by done.
    rewrite fmap_app, fmap_cons.
    assert (forall l0 i pos, Forall (fun a => q a = false) l0 ->
      Sub.null_matches (at_address q) ((Some <$> l0) ++ Some o :: (Some <$> l2)) i pos =
      ((Some <$> l0) ++ None :: (Some <$> l2), Some (i + length l0)%nat)) as Hnull.
    { induction l0 as [|a l0 IH]; intros i pos Hl; simpl.
      - rewrite Hq, null_matches_none by auto. by rewrite Nat.add_0_r.
      - apply Forall_cons_1 in Hl as [Ha Hl]. rewrite Ha, IH by done. f_equal. f_equal. lia. }
    rewrite Hnull by done. simpl. rewrite fmap_app.
    replace (length l1) with (length (Some <$> l1)) by (by rewrite length_fmap).
    apply delete_middle.
  - assert (Forall (fun a => q a = false) l) as F.
    { apply Forall_forall. intros a Ha. apply not_true_iff_false. intros Hqa. apply He, Exists_exists. eauto. }
    rewrite null_matches_none by auto. simpl. by rewrite Hkeep.
Qed.
Lemma remove_matches_ext q q' s : (forall p, q p = q' p) -> Sub.remove_matches q s = Sub.remove_matches q' s.
Proof. intros H. unfold Sub.remove_matches. by rewrite (null_matches_ext q q') by done. Qed.
Lemma remove_registered s l o :
  registered s l -> registered (Sub.remove_observer s o) (filter (fun a : nat => bool_decide (a = o) = false) l).
Proof.
  intros H. unfold Sub.remove_observer. rewrite (remove_matches_ext _ (at_address (fun a => bool_decide (a = o)))).
  - apply (remove_unique (fun a => bool_decide (a = o))); [done|]. intros a b _ _ Ha%bool_decide_eq_true Hb%bool_decide_eq_true. congruence.
  - intros [a|]; simpl; [|done]. apply bool_decide_ext. naive_solver.
Qed.

Lemma notify_list_spec obs l m :
  NoDup l -> Forall (fun a => is_Some (obs !! a)) l ->
  exists obs', Sub.notify_list obs (Some <$> l) m = Some obs' /\
    forall a, obs' !! a = (if bool_decide (a ∈ l) then (fun o => Ob.notify o m) <$> obs !! a else obs !! a).
Proof.
  revert obs. induction l as [|b l IH]; intros obs Hn Hl; [by exists obs|].
  apply NoDup_cons in Hn as [Hb Hn]. apply Forall_cons_1 in Hl as [[o Ho] Hl].
  change (Sub.notify_list obs (Some <$> b :: l) m)
    with (obs !! b ≫= fun o => Sub.notify_list (<[b := Ob.notify o m]> obs) (Some <$> l) m).
  rewrite Ho. cbn [mbind option_bind].
  destruct (IH (<[b := Ob.notify o m]> obs) Hn) as (obs' & -> & H).
  { eapply Forall_impl; [exact Hl|]. intros a Ha. simpl. rewrite lookup_insert_is_Some. destruct (decide (b = a)); auto. }
  exists obs'. split; [done|]. intros a. rewrite H. destruct (decide (a = b)) as [->|Hne].
  - rewrite bool_decide_false by done. rewrite bool_decide_true by set_solver. by rewrite lookup_insert_eq, Ho.
  - rewrite lookup_insert_ne by done. rewrite (bool_decide_ext (a ∈ b :: l) (a ∈ l)) by set_solver. done.
Qed.
(** Notifying a list of subjects of a sound bus succeeds, keeps every observer alive, and
    leaves alone the observers no subject lists. *)
Lemma notify_each_spec obs l m :
  Forall (fun ks : (string * string) * Subject =>
    exists r, registered ks.2 r /\ Forall (fun a => is_Some (obs !! a)) r) l ->
  exists obs', SubjSet.notify_each obs l m = Some obs' /\ (forall a, is_Some (obs' !! a) <-> is_Some (obs !! a)) /\
    forall a, Forall (fun ks : (string * string) * Subject => Some a ∉ sobservers ks.2) l -> obs' !! a = obs !! a.
Proof.
  revert obs. induction l as [|[k s] l IH]; intros obs Hl; simpl; [by exists obs|].
  apply Forall_cons_1 in Hl as [(r & [Hs Hn] & Hr) Hl]. simpl in *. unfold Sub.notify_observers. rewrite Hs.
  destruct (notify_list_spec obs r m Hn Hr) as (obs1 & -> & H1). simpl.
  assert (forall a, is_Some (obs1 !! a) <-> is_Some (obs !! a)) as Hd.
  { intros a. rewrite H1. case_bool_decide; [by rewrite fmap_is_Some|done]. }
  destruct (IH obs1) as (obs2 & -> & Hd2 & H2).
  { eapply Forall_impl; [exact Hl|]. intros ks (r' & Hr1 & Hr2). exists r'. split; [done|].
    eapply Forall_impl; [exact Hr2|]. intros a. by rewrite Hd. }
  exists obs2. split_and!; [done|intros a; by rewrite Hd2|].
  intros a [Ha Hl']%Forall_cons_1. simpl in Ha. rewrite H2, H1 by done.
  rewrite bool_decide_false; [done|]. rewrite Hs in Ha. contradict Ha. by apply list_elem_of_fmap_2.
Qed.

(** Registering [o] in one subject. *)
Lemma ok_register (obs : gmap nat Observer) s o :
  (exists l, registered s l /\ Forall (fun a => is_Some (obs !! a)) l) -> is_Some (obs !! o) ->
  exists l, registered (Sub.register_observer s o) l /\ Forall (fun a => is_Some (obs !! a)) l.
Proof.
  intros (l & Hr & Hl) Ho. destruct (register_registered s l o Hr) as (l' & Hr' & Hin). exists l'. split; [done|].
  rewrite Forall_forall in *. intros a [->|Ha]%Hin; auto.
Qed.
Lemma ok_add_subject b t st : bus_ok b -> bus_ok (SubjSet.add_subject b t st).
Proof.
  intros H. unfold SubjSet.add_subject. destruct (subjects b !! _); [done|].
  apply map_Forall_insert_2; [|exact H]. exists []. repeat split; constructor.
Qed.
Lemma ok_add_observer b t st o :
  bus_ok b -> is_Some (observers b !! o) -> bus_ok (SubjSet.add_observer b t st o).2.
Proof.
  intros H Ho. unfold SubjSet.add_observer. destruct (SubjSet.serving b t st) as [k|].
  - intros k' s' Hk'. simpl in Hk'. destruct (decide (k = k')) as [->|Hne].
    + rewrite lookup_alter_eq in Hk'. destruct (subjects b !! k') as [s|] eqn:E; simplify_eq/=.
      apply ok_register; [by apply (H k')|done].
    + rewrite lookup_alter_ne in Hk' by done. by apply (H k').
  - destruct (SubjSet.isDummy st); [|done]. intros k' s' Hk'. simpl in Hk'. rewrite map_lookup_imap in Hk'.
    destruct (subjects b !! k') as [s|] eqn:E; simplify_eq/=. simpl.
    case_match; [|by apply (H k')]. apply ok_register; [by apply (H k')|done].
Qed.
Lemma ok_remove_observer b o : bus_ok b -> bus_ok (SubjSet.remove_observer b o).2.
Proof.
  intros H k s' Hk. simpl in Hk. rewrite lookup_fmap in Hk.
  destruct (subjects b !! k) as [s|] eqn:E; simplify_eq/=.
  destruct (H k s E) as (l & Hr & Hl). eexists. split; [by apply remove_registered|].
  rewrite Forall_forall in *. intros a Ha. apply list_elem_of_filter in Ha as [_ Ha]. auto.
Qed.
(** Observers with distinct names, as the agents create them. *)
Definition ids_distinct (b : Bus) : Prop :=
  forall a1 a2 o1 o2, observers b !! a1 = Some o1 -> observers b !! a2 = Some o2 -> ob_id o1 = ob_id o2 -> a1 = a2.
Definition named (obs : gmap nat Observer) (id : string) (a : nat) : bool :=
  match obs !! a with Some o => ob_id o =s id | None => false end.
Lemma elem_of_subject_items m k s : (k, s) ∈ SubjSet.subject_items m <-> m !! k = Some s.
Proof. unfold SubjSet.subject_items. rewrite merge_sort_Permutation. apply elem_of_map_to_list. Qed.
Lemma ok_remove_observer_id b id r b' :
  bus_ok b -> ids_distinct b -> SubjSet.remove_observer_id b id = Some (r, b') -> bus_ok b'.
Proof.
  intros H Hd. unfold SubjSet.remove_observer_id.
  destruct (mapM _ _) as [l|] eqn:E; [|done]. intros [= <- <-]. intros k s' Hk. simpl in Hk.
  apply elem_of_list_to_map_2 in Hk. apply mapM_Some in E.
  apply list_elem_of_lookup_1 in Hk as [i Hi]. destruct (Forall2_lookup_r _ _ _ _ _ E Hi) as ([k0 s] & Hs & Hf).
  apply list_elem_of_lookup_2 in Hs. apply elem_of_subject_items in Hs. simpl in Hf.
  unfold Sub.remove_observer_id in Hf. destruct (mapM _ (sobservers s)) as [ids|]; simplify_eq/=.
  destruct (H k s Hs) as (l0 & Hr & Hl0). eexists. split.
  - rewrite (remove_matches_ext _ (at_address (named (observers b) id))) by (by intros [a|]).
    apply remove_unique; [exact Hr|]. intros a1 a2 _ _. unfold named.
    destruct (observers b !! a1) as [x1|] eqn:E1; [|done]. destruct (observers b !! a2) as [x2|] eqn:E2; [|done].
    intros H1%seqb_true H2%seqb_true. apply (Hd a1 a2 x1 x2 E1 E2). congruence.
  - rewrite Forall_forall in *. intros a Ha. apply list_elem_of_filter in Ha as [_ Ha]. auto.
Qed.
Lemma ok_observers b obs :
  bus_ok b -> (forall a, is_Some (obs !! a) <-> is_Some (observers b !! a)) -> bus_ok (b <| observers := obs |>).
Proof.
  intros H Hd k s Hk. destruct (H k s Hk) as (l & Hr & Hl). exists l. split; [done|].
  eapply Forall_impl; [exact Hl|]. intros a. simpl. by rewrite Hd.
Qed.
(** Notification on a sound bus: it succeeds, changes queues only, and only those of listed observers. *)
Lemma notify_as_spec b t st m :
  bus_ok b -> exists r obs', SubjSet.notify_as b t st m = Some (r, b <| observers := obs' |>) /\
    (forall a, is_Some (obs' !! a) <-> is_Some (observers b !! a)) /\
    forall a, map_Forall (fun _ s => Some a ∉ sobservers s) (subjects b) -> obs' !! a = observers b !! a.
Proof.
  intros H.
  assert (forall l, (forall ks, ks ∈ l -> subjects b !! ks.1 = Some ks.2) ->
    exists obs', SubjSet.notify_each (observers b) l m = Some obs' /\
    (forall a, is_Some (obs' !! a) <-> is_Some (observers b !! a)) /\
    forall a, map_Forall (fun _ s => Some a ∉ sobservers s) (subjects b) -> obs' !! a = observers b !! a) as Heach.
  { intros l Hl. destruct (notify_each_spec (observers b) l m) as (obs' & H1 & H2 & H3).
    { apply Forall_forall. intros [k s] Hks. apply Hl in Hks. by apply (H k). }
    exists obs'. split_and!; [done|done|]. intros a Ha. apply H3, Forall_forall. intros [k s] Hks.
    apply Hl in Hks. by apply (Ha k). }
  unfold SubjSet.notify_as. destruct (agent_status b); simpl; [|by exists false, (observers b); destruct b].
  set (key := match subjects b !! (t, st) with Some s => Some s | None => _ end).
  destruct key as [s|] eqn:Ek.
  - assert (exists k, subjects b !! k = Some s) as [k Hk] by (subst key; repeat case_match; simplify_eq; eauto).
    destruct (Heach [(k, s)]) as (obs' & H1 & H2 & H3). { intros ks Hks. by apply list_elem_of_singleton in Hks as ->. }
    cbn [SubjSet.notify_each] in H1. destruct (Sub.notify_observers (observers b) s m) as [o|]; simplify_eq/=.
    by exists true, obs'.
  - destruct (SubjSet.isDummy st); [|by exists false, (observers b); destruct b].
    destruct (Heach (SubjSet.subject_items (SubjSet.of_type t b))) as (obs' & -> & H2 & H3).
    { intros [k s] Hks. unfold SubjSet.subject_items in Hks. rewrite merge_sort_Permutation in Hks.
      apply elem_of_map_to_list in Hks. by apply map_lookup_filter_Some in Hks as [Hks _]. }
    simpl. by eexists _, obs'.
Qed.

(** What a message must hold for an observer to take it: no target, or one of the names
    the observer listens to. *)
Definition accepts (o : Observer) (m : MMessage) : Prop :=
  Msg.getList m "target" = [] \/ exists t, t ∈ Msg.getList m "target" /\ NameList.member (target o) t = true.
Lemma notify_accepts o m : accepts o m -> Ob.notify o m = o <| input_queue := Q.send (input_queue o) m |>.
Proof.
  intros H. unfold Ob.notify, Ob.match_target. destruct H as [->|(t & Ht & Hm)]; [done|].
  replace (existsb _ _) with true; [by rewrite orb_true_r|].
  symmetry. apply existsb_exists. exists t. by rewrite <- list_elem_of_In.
Qed.
Lemma notify_refuses o m : ~ accepts o m -> Ob.notify o m = o.
Proof.
  intros H. unfold Ob.notify, Ob.match_target. case_bool_decide as Ht; [destruct H; by left|]. simpl.
  destruct (existsb _ _) eqn:E; [|done]. apply existsb_exists in E as (t & Hi & Hm).
  destruct H. right. exists t. by rewrite list_elem_of_In.
Qed.

(** * Properties of the message queues and of the notification bus
    (minilibs/MMessageQueue.h, Subject.cpp, SubjectSet.cpp, ObserverThread.cpp) *)

(** ** Queues *)
(** C35: [MMessageQueue::receive] blocks only on an empty queue; otherwise it takes out the
    oldest message among those of highest priority and leaves all others in order. *)
Theorem queue_receive_priority_fifo q :
  (Q.receive q = None <-> elems q = []) /\
  forall m q', Q.receive q = Some (m, q') ->
  exists r, elems q !! r = Some m /\ elems q' = delete r (elems q) /\ maxlength q' = maxlength q /\
    Forall (fun m' => priority m' <= priority m) (elems q) /\
    Forall (fun m' => priority m' < priority m) (take r (elems q)).
Proof.
  unfold Q.receive. destruct (decide (elems q = [])) as [He|Hne].
  { rewrite He. simpl. split; [done|]. done. }
  destruct (best_gt (elems q) Hne) as (m0 & Hm0 & Hmax & Hfirst). rewrite Hm0.
  split; [by split|]. intros m q' [= <- <-]. eexists. split_and!; [exact Hm0|done|done| |].
  - apply Forall_lookup. intros j m' Hj. apply Hmax in Hj. lia.
  - apply Forall_lookup. intros j m' [Hj Hlt]%lookup_take_Some. eapply Hfirst in Hj; [|done]. lia.
Qed.

(** C37: [MMessageQueue::send] keeps a bounded queue within its bound: the new message is
    appended and, when the queue was full, the oldest message of lowest priority is
    discarded: none has a lower priority than it and every message before it has a strictly
    higher one (so it is the new one only when all the others have a higher priority); an
    unbounded queue (bound 0) loses nothing. *)
Theorem queue_send_bounded q m :
  (maxlength q = 0%nat \/ (length (elems q) <= maxlength q)%nat) ->
  let q' := Q.send q m in
  maxlength q' = maxlength q /\
  if bool_decide (maxlength q = 0%nat \/ (length (elems q) < maxlength q)%nat)
  then elems q' = elems q ++ [m]
  else length (elems q') = maxlength q /\
       exists i d, (elems q ++ [m]) !! i = Some d /\ elems q' = delete i (elems q ++ [m]) /\
         Forall (fun m' => priority d <= priority m') (elems q ++ [m]) /\
         Forall (fun m' => priority d < priority m') (take i (elems q ++ [m])).
Proof.
  intros Hq. unfold Q.send, Q.purge. cbn [elems maxlength].
  set (full := bool_decide (maxlength q = 0%nat) || (length (elems q ++ [m]) <=? maxlength q)%nat).
  assert (full = bool_decide (maxlength q = 0%nat \/ (length (elems q) < maxlength q)%nat)) as ->.
  { apply eq_true_iff_eq. unfold full. rewrite orb_true_iff, !bool_decide_eq_true, Nat.leb_le, length_app. simpl. lia. }
  case_bool_decide as H; [done|].
  simpl. split; [done|].
  destruct (best_lt (elems q ++ [m])) as (d & Hd & Hmin & Hold); [by destruct (elems q)|]. split.
  - rewrite length_delete by done. rewrite length_app. simpl. lia.
  - eexists _, d. split_and!; [exact Hd|done| |].
    + apply Forall_lookup. intros j m' Hj. apply Hmin in Hj. lia.
    + apply Forall_lookup. intros j m' [Hj Hlt]%lookup_take_Some. eapply Hold in Hj; [|done]. lia.
Qed.

(** ** The bus *)
(** The states of the bus: observers are created before the subjects; then subjects and
    registrations come and go, messages are notified and received. *)
Inductive bus_run : Bus -> Prop :=
| run_start obs st : bus_run (mkBus ∅ obs st)
| run_status b st : bus_run b -> bus_run (b <| agent_status := st |>)
| run_subject b t s : bus_run b -> bus_run (SubjSet.add_subject b t s)
| run_register b t s o : bus_run b -> is_Some (observers b !! o) -> bus_run (SubjSet.add_observer b t s o).2
| run_remove b o : bus_run b -> bus_run (SubjSet.remove_observer b o).2
| run_remove_id b id r b' : bus_run b -> ids_distinct b -> SubjSet.remove_observer_id b id = Some (r, b') -> bus_run b'
| run_notify b t s m r b' : bus_run b -> SubjSet.notify_as b t s m = Some (r, b') -> bus_run b'
| run_receive b a o m o' : bus_run b -> observers b !! a = Some o -> Ob.receive_message o = Some (m, o') ->
    bus_run (b <| observers := <[a := o']> (observers b) |>).

(** C19: in every state the bus can reach, subjects hold distinct live observers and no null
    address, so [SubjectSet::notify] of any message returns: it never dereferences null. *)
Theorem bus_notify_total b :
  bus_run b -> bus_ok b /\ forall m, is_Some (SubjSet.notify b m).
Proof.
  intros H. assert (bus_ok b) as Hok.
  { induction H as [obs st|b st H IH|b t s H IH|b t s o H IH Ho|b o H IH|b id r b' H IH Hd Hr|b t s m r b' H IH Hn|b a o m o' H IH Ha Hr].
    - apply map_Forall_empty.
    - exact IH.
    - by apply ok_add_subject.
    - by apply ok_add_observer.
    - by apply ok_remove_observer.
    - by eapply ok_remove_observer_id.
    - destruct (notify_as_spec b t s m IH) as (r' & obs' & Hn' & Hd & _). rewrite Hn' in Hn. simplify_eq.
      by apply ok_observers.
    - apply ok_observers; [done|]. intros x.
      destruct (decide (a = x)) as [->|Hne]; [rewrite lookup_insert_eq, Ha; by split|by rewrite lookup_insert_ne]. }
  split; [done|]. intros m. destruct (notify_as_spec b (mtype m) (msubtype m) m Hok) as (r & obs' & Hn & _).
  unfold SubjSet.notify. rewrite Hn. by eexists.
Qed.

(** C23: while the agent is ON, a message whose type and subtype are a declared subject is sent
    exactly once to the queue of every observer registered there that accepts it (its
    target list is empty or names the observer), and every other observer is unchanged; a
    concrete subtype with no subject of its own is served by the subject "*" of its type,
    and is dropped when there is none. *)
Theorem bus_notify_delivers b m :
  bus_ok b -> agent_status b = true -> SubjSet.isDummy (msubtype m) = false ->
  match (match subjects b !! (mtype m, msubtype m) with
         | Some s => Some s | None => subjects b !! (mtype m, "*") end) with
  | Some s => exists obs', SubjSet.notify b m = Some (true, b <| observers := obs' |>) /\
      forall a o, observers b !! a = Some o ->
        (Some a ∈ sobservers s /\ accepts o m ->
           obs' !! a = Some (o <| input_queue := Q.send (input_queue o) m |>)) /\
        (~ (Some a ∈ sobservers s /\ accepts o m) -> obs' !! a = Some o)
  | None => SubjSet.notify b m = Some (false, b)
  end.
Proof.
  intros H Hs Hd. unfold SubjSet.notify, SubjSet.notify_as. rewrite Hs, Hd. simpl.
  set (key := match subjects b !! (mtype m, msubtype m) with Some s => Some s | None => _ end).
  destruct key as [s|] eqn:Ek; [|done].
  assert (exists k, subjects b !! k = Some s) as [k Hk] by (subst key; repeat case_match; simplify_eq; eauto).
  destruct (H k s Hk) as (l & [Hl Hn] & Ha). unfold Sub.notify_observers. rewrite Hl.
  destruct (notify_list_spec (observers b) l m Hn Ha) as (obs' & -> & Hobs). exists obs'. split; [done|].
  intros a o Ho. rewrite Hobs, Ho, (bool_decide_ext (a ∈ l) (Some a ∈ Some <$> l)) by (rewrite list_elem_of_fmap; naive_solver).
  case_bool_decide as Hr; simpl; [|split; [tauto|done]].
  split; [intros [_ Hacc]; by rewrite notify_accepts|intros Hno; rewrite notify_refuses; [done|tauto]].
Qed.

(** After [SubjectSet::remove_observer], whatever is notified, the queue of the removed
    observer does not change any more. *)
Lemma removed_observer_silent b o m r b' :
  bus_ok b -> SubjSet.notify (SubjSet.remove_observer b o).2 m = Some (r, b') ->
  observers b' !! o = observers b !! o.
Proof.
  intros H Hn. pose proof (ok_remove_observer b o H) as H'.
  destruct (notify_as_spec _ (mtype m) (msubtype m) m H') as (r' & obs' & Hn' & _ & Hsame).
  unfold SubjSet.notify in Hn. rewrite Hn' in Hn. simplify_eq. simpl. rewrite Hsame; [done|].
  intros k s Hk. simpl in Hk. rewrite lookup_fmap in Hk. destruct (subjects b !! k) as [s0|] eqn:E; simplify_eq/=.
  destruct (H k s0 E) as (l & Hr & _). destruct (remove_registered s0 l o Hr) as [-> _].
  rewrite list_elem_of_fmap. intros (x & [= ->] & [Hx _]%list_elem_of_filter). by apply bool_decide_eq_false in Hx.
Qed.

(** ** Witnesses *)
Definition urgent : MMessage := mkMsg "event" "door" 5 ∅.
Definition routine : MMessage := mkMsg "event" "door" 1 ∅.
Definition panel : Observer := mkOb "panel" ["panel"] Q.empty.
Definition siren : Observer := mkOb "siren" ["siren"] Q.empty.
Definition sample_bus : Bus :=
  (SubjSet.add_observer (SubjSet.add_subject
    (mkBus ∅ (list_to_map [(1%nat, panel); (2%nat, siren)]) true) "event" "door") "event" "door" 1).2.
Lemma sample_bus_run : bus_run sample_bus.
Proof. apply run_register; [apply run_subject, run_start|]. vm_compute. by eexists. Qed.

Lemma queue_receive_priority_fifo_witness :
  exists r, [routine; urgent] !! r = Some urgent /\ Q.receive (mkQ [routine; urgent] 0) = Some (urgent, mkQ [routine] 0).
Proof.
  destruct (proj2 (queue_receive_priority_fifo (mkQ [routine; urgent] 0)) urgent (mkQ [routine] 0)) as (r & H & _).
  { vm_compute. reflexivity. }
  exists r. split; [exact H|vm_compute; reflexivity].
Defined.
Lemma queue_send_bounded_witness :
  length (elems (Q.send (mkQ [routine; urgent] 2) urgent)) = 2%nat /\
  elems (Q.send (mkQ [routine; urgent] 2) urgent) = [urgent; urgent].
Proof.
  split; [|vm_compute; reflexivity].
  exact (proj1 (proj2 (queue_send_bounded (mkQ [routine; urgent] 2) urgent (or_intror (le_n 2))))).
Defined.
Lemma bus_notify_total_witness : is_Some (SubjSet.notify sample_bus urgent).
Proof. apply bus_notify_total, sample_bus_run. Defined.
Lemma sample_bus_ok : bus_ok sample_bus.
Proof. apply ok_add_observer; [apply ok_add_subject, map_Forall_empty|]. vm_compute. by eexists. Qed.
Lemma bus_notify_delivers_witness :
  exists obs', SubjSet.notify sample_bus urgent = Some (true, sample_bus <| observers := obs' |>) /\
    obs' !! 1%nat = Some (panel <| input_queue := Q.send (input_queue panel) urgent |>) /\ obs' !! 2%nat = Some siren.
Proof.
  pose proof (bus_notify_delivers sample_bus urgent sample_bus_ok eq_refl eq_refl) as (obs' & H1 & H2).
  exists obs'. split; [exact H1|]. split.
  - apply (H2 1%nat panel eq_refl). split; [vm_compute; constructor|by left].
  - apply (H2 2%nat siren eq_refl). intros [Hin _]. apply (bool_decide_pack _) in Hin. vm_compute in Hin. exact Hin.
Defined.
