(* ===== verification/Rpc.v ===== *)
(** * Remote calls waiting for their answer (minilibs/RpcWaitTable.cpp)

    [callRegister] gives a call its tag and an entry with a queue; [signal] puts an
    answer on the queue of its tag; [wait] takes it and removes the entry.  Entries
    are shared objects: [e_addr] is the address.

    The second part is the thread that emits periodic messages (Trigger.cpp). *)
From S2P Require Import Prelude Doubles Hsrv Xml MMessage World MParams Subjects.

Record RpcEntry := mkEntry { e_addr : nat; e_tag : string; waiting_queue : Queue; rtime : double }.
#[export] Instance RpcEntry_rebuild : Rebuild RpcEntry := fun e =>
  mkEntry (e_addr e) (e_tag e) (waiting_queue e) (rtime e).
Record RpcWaitTable := mkRpc { pending : list RpcEntry; next_tag : string; tagSequence : Z; next_addr : nat }.
#[export] Instance RpcWaitTable_rebuild : Rebuild RpcWaitTable := fun t =>
  mkRpc (pending t) (next_tag t) (tagSequence t) (next_addr t).

Definition RPC_TIMEOUT : Z := 20.
Definition MAXTAG : Z := 1000000.

Module Rpc.
Definition tag_of (n : Z) : string := "RPC_" +:+ int2a n.
Definition mk : RpcWaitTable := mkRpc [] (tag_of 0) 0 0.
Definition getTag (t : RpcWaitTable) : string * RpcWaitTable :=
  let n := tagSequence t + 1 in
  let n := if MAXTAG <? n then 0 else n in
  (next_tag t, t <| tagSequence := n |> <| next_tag := tag_of n |>).
Definition mkComplain (tag : string) : MMessage :=
  Msg.add (Msg.add (Msg.mk "rpc" "timeout") "answer_tag" tag) "value" "timed_out".
Definition getEntry (t : RpcWaitTable) (tag : string) : option RpcEntry :=
  find_first (fun e => e_tag e =s tag) (pending t) ≫= fun i => pending t !! i.
Definition send_to (m : MMessage) (e : RpcEntry) : RpcEntry :=
  e <| waiting_queue := Q.send (waiting_queue e) m |>.
Definition signal (t : RpcWaitTable) (m : MMessage) : bool * RpcWaitTable :=
  let mtag := Msg.getString m "answer_tag" in
  (existsb (fun e => e_tag e =s mtag) (pending t),
   t <| pending := update_first (fun e => e_tag e =s mtag) (send_to m) (pending t) |>).
Definition timeout_at (ctime : double) (t : RpcWaitTable) : RpcWaitTable :=
  t <| pending := map (fun e => if dltb (dadd (rtime e) (d_of_Z RPC_TIMEOUT)) ctime
                                then send_to (mkComplain (e_tag e)) e else e) (pending t) |>.
(** Erase the entry with that address; [None] past the end of the vector. *)
Definition clearEntry (t : RpcWaitTable) (addr : nat) : option RpcWaitTable :=
  i ← find_first (fun e => bool_decide (e_addr e = addr)) (pending t);
  Some (t <| pending := delete i (pending t) |>).
(** The answer, or [None] while the caller is blocked on an empty queue.  Without an entry
    the answer is an error and the table is left as it was. *)
Definition wait (t : RpcWaitTable) (tag : string) : option (MMessage * RpcWaitTable) :=
  match getEntry t tag with
  | None => Some (Msg.mk "error" "no_entry", t)
  | Some e => '(m, _) ← Q.receive (waiting_queue e); t ← clearEntry t (e_addr e); Some (m, t)
  end.
Section rpc.
Context {P : Platform}.
(** The tag, the table and the message with its tag. *)
Definition callRegister (t : RpcWaitTable) (m : MMessage) : M (string * RpcWaitTable * MMessage) :=
  let '(tag, t) := getTag t in
  now ← gettime;
  let t := t <| pending := pending t ++ [mkEntry (next_addr t) tag Q.empty now] |>
             <| next_addr := S (next_addr t) |> in
  mret (tag, t, Msg.add m "tag" tag).
Definition checkTimeOut (t : RpcWaitTable) : M (bool * RpcWaitTable) :=
  ctime ← gettime;
  let late := List.filter (fun e => dltb (dadd (rtime e) (d_of_Z RPC_TIMEOUT)) ctime) (pending t) in
  iterM (fun _ => log_info "RPC: timed out!!!!") late;;
  mret (true, timeout_at ctime t).
End rpc.
End Rpc.

(** * The trigger thread (minilibs/Trigger.cpp): periodic "trigger" messages

    The wake-up period is derived from the greatest common divisor of the periods
    in tenths of a second; each wake-up counts every timer down and fires the ones
    that reach zero. *)

Definition TPRECISION : Z := 10.
Record Trigger := mkTrigger { tg_params : MParams; cycle_t : double; tm_ : gmap string double }.
#[export] Instance Trigger_rebuild : Rebuild Trigger := fun t => mkTrigger (tg_params t) (cycle_t t) (tm_ t).

Module Trig.
(** [Euclide]: [None] on a division by zero or when the fuel ends. *)
Fixpoint Euclide_loop (fuel : nat) (a b r : Z) : option Z :=
  match fuel with
  | O => None
  | S n => if r =? 0 then Some b
           else Euclide_loop n b r (Z.rem b r)
  end.
Definition Euclide (a b : Z) : option Z :=
  if b =? 0 then None else Euclide_loop (S (S (Z.to_nat (Z.abs b)))) a b (Z.rem a b).

Section trig.
Context {P : Platform} {C : Config}.
(** [(long)(period * TPRECISION)] *)
Definition tenths (v : double) : Z := default indet_long (Z_of_d (dmul v (d_of_Z TPRECISION))).
(** [None] also on an empty table, whose first element is read. *)
Fixpoint mcd_loop (l : list (string * double)) (MCD : Z) : option Z :=
  match l with
  | [] => Some MCD
  | (_, v) :: l' => MCD ← Euclide MCD (tenths v); mcd_loop l' MCD
  end.
Definition MCD_of (t : Trigger) : option Z :=
  match map_items (tm_ t) with
  | [] => None
  | (_, v) :: _ => mcd_loop (map_items (tm_ t)) (tenths v)
  end.
(** [cycle = MCD / TPRECISION;] is a division of integers. *)
Definition set_cycle (t : Trigger) : option Trigger :=
  MCD ← MCD_of t; Some (t <| cycle_t := d_of_Z (Z.quot MCD TPRECISION) |>).

Definition initSubject (t : Trigger) (b : Bus) : Trigger * Bus :=
  fold_left (fun '(t, b) a =>
    (t <| tm_ := <[aname a := a2double (avalue a)]> (tm_ t) |>, SubjSet.add_subject b "trigger" (aname a)))
    (Params.extractCategory (tg_params t) "trigger") (t, b).

(** One timer of one wake-up: its new value and the message to notify, if any. *)
Definition fire_event (event : MMessage) (name v : string) (now : double) : MMessage :=
  let event := Msg.set_subtype event name in
  let event := Msg.add event "time" (double2a now) in
  Msg.add event "period" v.
Definition tick_one (t : Trigger) (event : MMessage) (name : string) (left_ : double) : M (double * MMessage) :=
  let left_ := dsub left_ (cycle_t t) in
  if dleb left_ d0 then
    if (name =s "check_rpc_timeout") && has_rpctab then emit RpcTimeoutCheck;; mret (left_, event)
    else
      let v := Params.get_cat (tg_params t) name "trigger" in
      now ← gettime;
      let event := fire_event event name v now in
      notify event;; mret (a2double v, event)
  else mret (left_, event).
Fixpoint tick_loop (t : Trigger) (event : MMessage) (l : list (string * double)) : M (Trigger * MMessage) :=
  match l with
  | [] => mret (t, event)
  | (name, v) :: l' =>
      '(v, event) ← tick_one t event name v;
      tick_loop (t <| tm_ := <[name := v]> (tm_ t) |>) event l'
  end.
(** One wake-up of [exec], after which the thread sleeps for [cycle]. *)
Definition tick (t : Trigger) (event : MMessage) : M (Trigger * MMessage) :=
  tick_loop t event (map_items (tm_ t)).
End trig.
End Trig.
