(* ===== verification/RpcClaims.v ===== *)
(** * Properties of remote calls and of the trigger thread (minilibs/RpcWaitTable.cpp, Trigger.cpp) *)
From S2P Require Import Prelude Doubles Hsrv Xml MMessage World MParams Samples Subjects BusClaims Rpc.

(** ** Tags *)
Lemma tag_of_inj a b : Rpc.tag_of a = Rpc.tag_of b -> a = b.
Proof. unfold Rpc.tag_of. rewrite !sapp_cons, !sapp_nil_l. intros [= H]. by apply (inj pretty) in H. Qed.

(** The tag a table gives next is the text of its sequence number, which is in range. *)
Definition tags_ok (t : RpcWaitTable) : Prop := next_tag t = Rpc.tag_of (tagSequence t) /\ 0 <= tagSequence t <= MAXTAG.
(** The table after [n] calls. *)
Fixpoint after_tags (n : nat) (t : RpcWaitTable) : RpcWaitTable :=
  match n with O => t | S n => after_tags n (Rpc.getTag t).2 end.

Lemma getTag_ok t : tags_ok t -> tags_ok (Rpc.getTag t).2 /\
  tagSequence (Rpc.getTag t).2 = (tagSequence t + 1) mod (MAXTAG + 1).
Proof.
  intros [Ht Hr]. unfold Rpc.getTag, tags_ok. simpl. unfold MAXTAG in *. destruct (Z.ltb_spec 1000000 (tagSequence t + 1)).
  - replace (tagSequence t) with 1000000 by lia. split; [split; [done|lia]|done].
  - split; [split; [done|lia]|]. rewrite Z.mod_small; lia.
Qed.
Lemma after_tags_sequence n t : tags_ok t ->
  tags_ok (after_tags n t) /\ tagSequence (after_tags n t) = (tagSequence t + Z.of_nat n) mod (MAXTAG + 1).
Proof.
  revert t. induction n as [|n IH]; intros t Ht; cbn [after_tags].
  - split; [done|]. destruct Ht as [_ Hr]. unfold MAXTAG in *. rewrite Z.mod_small; lia.
  - destruct (getTag_ok t Ht) as [Ht' Hs]. destruct (IH _ Ht') as [H1 H2]. split; [done|].
    rewrite H2, Hs, Zplus_mod_idemp_l. f_equal. lia.
Qed.

(** The tags of remote calls recur only after [MAXTAG] others: two calls less than
    [MAXTAG + 1] calls apart get different tags. *)
Lemma rpc_tags_distinct t i j :
  tags_ok t -> (i < j)%nat -> Z.of_nat j - Z.of_nat i <= MAXTAG ->
  (Rpc.getTag (after_tags i t)).1 <> (Rpc.getTag (after_tags j t)).1.
Proof.
  intros Ht Hij Hd. destruct (after_tags_sequence i t Ht) as [[Hi _] Hsi], (after_tags_sequence j t Ht) as [[Hj _] Hsj].
  simpl. rewrite Hi, Hj. intros E%tag_of_inj. rewrite Hsi, Hsj in E. unfold MAXTAG in *.
  apply (f_equal (fun x => (x - (tagSequence t + Z.of_nat i)) mod (1000000 + 1))) in E.
  rewrite !Zminus_mod_idemp_l in E.
  replace (tagSequence t + Z.of_nat i - (tagSequence t + Z.of_nat i)) with 0 in E by lia.
  rewrite Z.mod_0_l in E by lia.
  rewrite Z.mod_small in E by lia. lia.
Qed.

(** ** Calls and answers *)
(** The addresses of the entries are distinct: those of live objects. *)
Definition table_ok (t : RpcWaitTable) : Prop :=
  NoDup (map e_addr (pending t)) /\ Forall (fun e => (e_addr e < next_addr t)%nat) (pending t).

Lemma find_first_app_new {A} (p : A -> bool) l x :
  Forall (fun y => p y = false) l -> p x = true -> find_first p (l ++ [x]) = Some (length l).
Proof. intros H Hx. induction H as [|y l Hy Hl IH]; simpl; [by rewrite Hx|]. by rewrite Hy, IH. Qed.
Lemma update_first_app_new {A} (p : A -> bool) f l x :
  Forall (fun y => p y = false) l -> p x = true -> update_first p f (l ++ [x]) = l ++ [f x].
Proof. intros H Hx. induction H as [|y l Hy Hl IH]; simpl; [by rewrite Hx|]. by rewrite Hy, IH. Qed.

Lemma find_first_ext {A} (p q : A -> bool) l : (forall x, p x = q x) -> find_first p l = find_first q l.
Proof. intros H. induction l as [|x l IH]; simpl; [done|]. by rewrite H, IH. Qed.
Lemma find_first_map {A B} (f : A -> B) (p : B -> bool) l : find_first p (map f l) = find_first (fun x => p (f x)) l.
Proof. induction l as [|x l IH]; simpl; [done|]. by rewrite IH. Qed.

Lemma receive_only m : Q.receive (Q.send Q.empty m) = Some (m, Q.empty).
Proof. unfold Q.receive, Q.send. simpl. by destruct (priority m >? priority m). Qed.

Section calls.
Context {P : Platform}.

Lemma call_answered t m w tag t1 m1 ans :
  table_ok t -> Forall (fun e => e_tag e <> next_tag t) (pending t) ->
  result (Rpc.callRegister t m) w = (tag, t1, m1) -> Msg.getString ans "answer_tag" = tag ->
  (Rpc.signal t1 ans).1 = true /\
  exists t3, Rpc.wait (Rpc.signal t1 ans).2 tag = Some (ans, t3) /\ pending t3 = pending t /\ table_ok t3.
Proof.
  intros [Hn Ha] Hf Hc Htag. unfold Rpc.callRegister, Rpc.getTag in Hc. rewrite result_bind, result_ret in Hc.
  simpl in Hc. injection Hc as <- <- <-. unfold Rpc.signal. simpl. rewrite Htag. set (tg := next_tag t) in *.
  assert (Forall (fun e => (e_tag e =s tg) = false) (pending t)) as Hf'
    by (eapply Forall_impl; [exact Hf|]; intros e He; by apply seqb_false).
  split; [rewrite existsb_app; simpl; rewrite seqb_refl; by rewrite orb_true_r|].
  rewrite update_first_app_new; [|done|apply seqb_refl].
  unfold Rpc.wait, Rpc.getEntry. simpl.
  rewrite find_first_app_new; [|done|apply seqb_refl]. simpl.
  rewrite lookup_app_r, Nat.sub_diag by done. simpl. unfold Rpc.clearEntry. simpl.
  rewrite find_first_app_new; [| |by apply bool_decide_true].
  2:{ eapply Forall_impl; [exact Ha|]. intros e He. apply bool_decide_eq_false. simpl in *. lia. }
  rewrite receive_only. simpl. eexists. split; [reflexivity|]. unfold table_ok. cbn -[delete]. rewrite delete_middle, app_nil_r.
  split_and!; [done|done|]. eapply Forall_impl; [exact Ha|]. simpl. lia.
Qed.

(** An answer reaches the caller that waits for it: after a call registered under a tag
    no pending call uses, the first answer with that tag is what [wait] returns, and the
    table is again the one before the call. *)
Lemma rpc_roundtrip t m w tag t1 m1 ans :
  table_ok t -> Forall (fun e => e_tag e <> next_tag t) (pending t) ->
  result (Rpc.callRegister t m) w = (tag, t1, m1) -> Msg.getString ans "answer_tag" = tag ->
  (Rpc.signal t1 ans).1 = true /\
  exists t3, Rpc.wait (Rpc.signal t1 ans).2 tag = Some (ans, t3) /\ pending t3 = pending t /\ table_ok t3.
Proof. apply call_answered. Qed.

(** A caller is not blocked for ever: after [checkTimeOut] finds its call more than 20
    seconds old and still unanswered, [wait] returns the "timed_out" complaint of its tag. *)
Lemma rpc_timeout_unblocks t w e :
  table_ok t -> Rpc.getEntry t (e_tag e) = Some e -> waiting_queue e = Q.empty ->
  dltb (dadd (rtime e) (d_of_Z RPC_TIMEOUT)) (gettime_of (w_clock w (w_tick w))) = true ->
  exists t', Rpc.wait (result (Rpc.checkTimeOut t) w).2 (e_tag e) = Some (Rpc.mkComplain (e_tag e), t').
Proof.
  intros [Hn _] He Hq Hl. unfold Rpc.checkTimeOut. rewrite !result_bind, result_ret.
  change (result gettime w) with (gettime_of (w_clock w (w_tick w))). cbn [snd].
  unfold Rpc.getEntry in He. destruct (find_first _ (pending t)) as [i|] eqn:Ei; [|done]. simpl in He.
  set (now := gettime_of _) in *. unfold Rpc.wait, Rpc.getEntry, Rpc.timeout_at. cbn [update_field pending].
  match goal with |- context [map ?g (pending t)] => set (f := g) end.
  assert (forall x, e_tag (f x) = e_tag x /\ e_addr (f x) = e_addr x) as Hf by (intros x; unfold f; by case_match).
  assert (f e = Rpc.send_to (Rpc.mkComplain (e_tag e)) e) as Hfe by (unfold f; by rewrite Hl). clearbody f.
  rewrite find_first_map, (find_first_ext _ (fun x => e_tag x =s e_tag e)), Ei
    by (intros x; cbv beta; by rewrite (proj1 (Hf x))). cbn [mbind option_bind].
  change (map f (pending t)) with (f <$> pending t). rewrite list_lookup_fmap, He. cbn [fmap option_fmap option_map].
  rewrite Hfe. unfold Rpc.send_to. simpl. rewrite Hq, receive_only. simpl.
  unfold Rpc.clearEntry. cbn [pending]. change (f <$> pending t) with (map f (pending t)).
  rewrite find_first_map, (find_first_ext _ (fun x => bool_decide (e_addr x = e_addr e)))
    by (intros x; cbv beta; by rewrite (proj2 (Hf x))).
  clear Ei. destruct (find_first _ (pending t)) eqn:E; [cbn; eexists; reflexivity|]. exfalso.
  rewrite find_first_None in E. apply list_elem_of_lookup_2 in He. apply E in He. by apply bool_decide_eq_false in He.
Qed.
End calls.

(** ** The period of the trigger thread *)
Lemma Euclide_loop_gcd n a b r :
  0 < b -> 0 <= r < b -> (Z.to_nat r < n)%nat -> r = Z.rem a b \/ r = Z.modulo a b ->
  Trig.Euclide_loop n a b r = Some (Z.gcd b r).
Proof.
  revert a b r. induction n as [|n IH]; intros a b r Hb Hr Hn Hrem; [lia|]. simpl.
  destruct (Z.eqb_spec r 0) as [->|Hne]; [by rewrite Z.gcd_0_r, Z.abs_eq by lia|].
  pose proof (Z.rem_bound_pos b r ltac:(lia) ltac:(lia)).
  rewrite IH; [|lia|lia|lia|by left]. f_equal. rewrite Z.rem_mod_nonneg by lia.
  rewrite (Z.gcd_comm r), Z.gcd_mod by lia. apply Z.gcd_comm.
Qed.
Lemma Euclide_gcd a b : 0 <= a -> 0 < b -> Trig.Euclide a b = Some (Z.gcd a b).
Proof.
  intros Ha Hb. unfold Trig.Euclide. rewrite (proj2 (Z.eqb_neq b 0)) by lia.
  pose proof (Z.rem_bound_pos a b Ha Hb).
  rewrite Euclide_loop_gcd; [|lia|lia|lia|by left]. f_equal.
  rewrite Z.rem_mod_nonneg by lia. by rewrite Z.gcd_comm, Z.gcd_mod, Z.gcd_comm by lia.
Qed.

Section trigger.
Context {P : Platform} {C : Config}.
Definition gcd_all (l : list (string * double)) : Z := fold_right (fun kv g => Z.gcd (Trig.tenths kv.2) g) 0 l.
Lemma mcd_loop_gcd l MCD :
  Forall (fun kv : string * double => 0 < Trig.tenths kv.2) l -> 0 <= MCD ->
  Trig.mcd_loop l MCD = Some (Z.gcd MCD (gcd_all l)).
Proof.
  intros H. revert MCD. induction H as [|[k v] l Hv Hl IH]; intros MCD Hm; simpl; [by rewrite Z.gcd_0_r, Z.abs_eq|].
  rewrite Euclide_gcd by done. simpl. rewrite IH by apply Z.gcd_nonneg. by rewrite Z.gcd_assoc.
Qed.

(** Euclid's loop of [Trigger::Euclide] ends, also over all the timers as [Trigger::exec] runs it, and, for positive periods, the value it gives is
    the greatest common divisor of all the periods in tenths of a second, so that every
    period is a whole number of these steps. *)
Lemma trigger_period_gcd t :
  tm_ t <> ∅ -> map_Forall (fun _ v => 0 < Trig.tenths v) (tm_ t) ->
  exists g, Trig.MCD_of t = Some g /\ g = gcd_all (map_items (tm_ t)) /\ 0 < g /\
    map_Forall (fun _ v => (g | Trig.tenths v)) (tm_ t).
Proof.
  intros Hne Hpos. assert (Forall (fun kv : string * double => 0 < Trig.tenths kv.2) (map_items (tm_ t))) as Hall.
  { apply Forall_forall. intros [k v] Hk%elem_of_map_items. by apply (Hpos k). }
  assert (forall kv, kv ∈ map_items (tm_ t) -> (gcd_all (map_items (tm_ t)) | Trig.tenths kv.2)) as Hdiv.
  { induction (map_items (tm_ t)) as [|kv l IH]; [set_solver|]. apply Forall_cons_1 in Hall as [_ Hl].
    intros kv' [->|Hk]%elem_of_cons; [apply Z.gcd_divide_l|].
    apply (Z.divide_trans _ (gcd_all l)); [apply Z.gcd_divide_r|by apply IH]. }
  unfold Trig.MCD_of. destruct (map_items (tm_ t)) as [|[k v] l] eqn:E.
  { destruct Hne. apply map_to_list_empty_iff, Permutation_nil_r. rewrite <- map_items_perm. by rewrite E. }
  pose proof (Forall_inv Hall) as Hv. simpl in Hv.
  rewrite mcd_loop_gcd by (done || lia). eexists. split; [done|]. simpl.
  rewrite Z.gcd_assoc, Z.gcd_diag_nonneg by lia. split; [done|]. split.
  - pose proof (Z.gcd_nonneg (Trig.tenths v) (gcd_all l)).
    assert (Z.gcd (Trig.tenths v) (gcd_all l) <> 0); [|lia]. intros H0. apply Z.gcd_eq_0_l in H0. lia.
  - intros k' v' Hk'. apply elem_of_map_items in Hk'. rewrite E in Hk'. apply Hdiv in Hk'. exact Hk'.
Qed.

(** The sleep of the trigger thread is that divisor over ten as an integer division: when
    the periods have a common divisor below one second the thread does not sleep at all
    ([cycle] is zero). *)
Lemma trigger_cycle_truncated t g :
  Trig.MCD_of t = Some g -> 0 <= g < TPRECISION ->
  cycle_t <$> Trig.set_cycle t = Some d0.
Proof.
  intros Hg Hr. unfold Trig.set_cycle. rewrite Hg. simpl. rewrite Z.quot_small by done. reflexivity.
Qed.
End trigger.

(** ** Witnesses *)
Import Samples.Instances.
Definition call : MMessage := Msg.mk "rpc" "status".
Definition answer : MMessage := rpc_answer "RPC_0" "value" "ON".
Lemma table_ok_mk : table_ok Rpc.mk.
Proof. split; constructor. Qed.
Definition late_entry : RpcEntry := mkEntry 0 "RPC_0" Q.empty d0.
Definition half_second : Trigger := mkTrigger (params []) d0 {[ "poll" := d_of_dec false 5 (-1); "slow" := d_of_Z 2 ]}.
