(* ===== verification/Routes.v ===== *)
(** * Routes: from a request of the web server to the component that answers it
    (minilibs/Route.cpp, Route.h, ArchiveRoute.cpp, CmdRoute.cpp, LoggerRoute.cpp,
    RestHttpServer.cpp)

    A route matches a method and a template of regular expressions, one per component
    of the path; it names the target that executes the request.  [RouterExec] is what the
    map of the routes needs of a target; each agent gives its own targets.  The state the
    targets share ([Server]) holds the archive, the bus and the table of remote
    calls. *)
From S2P Require Import Prelude Doubles Hsrv Xml MMessage World MParams Pages Subjects Archive ArchiveOps ArchiveQueries Rpc.

(** The POSIX regular expressions of regcomp and regexec: [None] when the expression is refused. *)
Class Regex := { regexec : string -> string -> option bool }.

Record Condition := mkCondition { param : string; regexp : string }.
Record Route (T : Type) := mkRoute {
  template : list string; format : string; method : string; conditions : list Condition;
  called_method : string; target : option T }.
Arguments mkRoute {T}. Arguments template {T}. Arguments format {T}. Arguments method {T}.
Arguments conditions {T}. Arguments called_method {T}. Arguments target {T}.
#[export] Instance Route_rebuild {T} : Rebuild (Route T) := fun r =>
  mkRoute (template r) (format r) (method r) (conditions r) (called_method r) (target r).
Record RoutingMap (T : Type) := mkMap { routes : list (Route T); instances : list T }.
Arguments mkMap {T}. Arguments routes {T}. Arguments instances {T}.
#[export] Instance RoutingMap_rebuild {T} : Rebuild (RoutingMap T) := fun m => mkMap (routes m) (instances m).

(** ** The interface of the targets *)
Class RouterExec (T S : Type) := {
  exec_name : T -> string;
  exec : T -> string -> list string -> string -> string -> S -> M (option (MMessage * S)) }.

(** [url.erase(url.begin())] when the first name is empty: the name after the slash comes first. *)
Definition drop_slash (l : list string) : option (list string) :=
  match l with [] => None | n :: l' => Some (if n =s "" then l' else l) end.

Definition is_element (n : xnode) : bool := match n with XElement _ _ _ => true | XOther _ _ => false end.
Definition elements_of (l : xptr) : list xnode := List.filter is_element l.
Definition tag_of (n : xnode) : string := match n with XElement v _ _ => v | XOther _ v => v end.
(** [QueryStringAttribute]: the variable keeps its value without the attribute. *)
Definition query (n : xnode) (name cur : string) : string := default cur (attr_value (attributes n) name).

Definition plain_answer (body : string) : MMessage :=
  Msg.add (Msg.add Msg.dummy "body" body) "content" "plain/text".

Module RMap.
Section map.
Context {T S : Type} `{RouterExec T S} {XP : XmlParser} {R : Regex}.
Implicit Types (m : RoutingMap T) (r : Route T).

(** An expression that is refused leaves the result of the match at zero, which is a match. *)
Definition match_regexp (exp str : string) : bool := default true (regexec exp str).

(** ** Loading *)
Definition empty_route : Route T := mkRoute [] "" "" [] "" None.
Definition find_instance (l : list T) (name : string) : option T :=
  match List.filter (fun i => exec_name i =s name) l with t :: _ => Some t | [] => last l end.
Definition load_part m r (sub : xnode) : option (Route T) :=
  if tag_of sub =s "uri" then
    Some (r <| format := query sub "path" (format r) |> <| method := query sub "method" (method r) |>)
  else if tag_of sub =s "call" then
    t ← find_instance (instances m) (query sub "class" "");
    Some (r <| called_method := query sub "method" (called_method r) |> <| target := Some t |>)
  else if tag_of sub =s "conditions" then
    let cond c := mkCondition (query c "param" "") (query c "regexp" "") in
    Some (r <| conditions := conditions r ++ map cond (elements_of (children sub)) |>)
  else Some r.
Fixpoint load_parts m r (l : list xnode) : option (Route T) :=
  match l with [] => Some r | sub :: l' => r ← load_part m r sub; load_parts m r l' end.
(** A component ":name" becomes the expression of the first condition on it. *)
Definition expand (conds : list Condition) (n : string) : string :=
  if cget n 0 =c ":" then
    match List.filter (fun c => param c =s n) conds with c :: _ => regexp c | [] => n end
  else n.
Definition make_template r : option (Route T) :=
  nl ← drop_slash (NameList.of_string (format r) "/");
  Some (r <| template := map (expand (conditions r)) nl |>).
Definition load_text m (text : string) : option (bool * RoutingMap T) :=
  let m := m <| routes := [] |> in
  if parse_ok text then
    root ← head (elements_of (load_document text));
    rs ← mapM (fun e => load_parts m empty_route (elements_of (children e))) (elements_of (children root));
    rs ← mapM make_template rs;
    Some (true, m <| routes := rs |>)
  else Some (false, m).
Definition load m (file : string) : M (option (bool * RoutingMap T)) :=
  c ← read_file file;
  match c with
  | None => ok (false, m <| routes := [] |>)
  | Some text => lifto (load_text m text)
  end.
(** The constructor, with the targets that [loadClasses] makes. *)
Definition mk (targets : list T) (file : string) : M (option (RoutingMap T)) :=
  r ←! load (mkMap [] targets) file; ok r.2.

(** ** Routing *)
Fixpoint match_template (tm uri : list string) : bool :=
  match tm, uri with
  | [], [] => true
  | e :: tm', n :: uri' => match_regexp e n && match_template tm' uri'
  | _, _ => false
  end.
Definition matches (uri : list string) (mth : string) r : bool :=
  (length (template r) =? length uri)%nat && (mth =s method r) && match_template (template r) uri.
Definition route m (uri mth body : string) (s : S) : M (option (MMessage * S)) :=
  uriNL ←! lifto (drop_slash (NameList.of_string uri "/"));
  match List.filter (matches uriNL mth) (routes m) with
  | [] => ok (plain_answer "Not Found", s)
  | r :: _ =>
      t ←! lifto (target r);
      exec t uri uriNL (called_method r) body s
  end.
End map.
End RMap.

(** ** The state the targets share *)
Record Server := mkServer { archive : ArchiveManager; bus : Bus; rpctab : option RpcWaitTable }.
#[export] Instance Server_rebuild : Rebuild Server := fun s => mkServer (archive s) (bus s) (rpctab s).

Definition request (uri : string) : MMessage :=
  Msg.add (Msg.mk "httprequest" "*") "url" (if uri <>s "" then uri else ".").

(** ** Class ArchiveRoute *)
Module ARoute.
Section exec.
Context {P : Platform} {C : Config} {XP : XmlParser} {FS : PathNames} {PT : PropertyTree}.
Implicit Types (s : Server).

Definition typed (r : string * string) : M (option (string * string)) := ok r.
(** The answer of a method and the type of the file. *)
Definition serve (uri mth body : string) s : M (option (string * string)) :=
  let a := archive s in
  let mreq := request uri in
  let untyped (c : M (option string)) := r ←! c; ok (r, "") in
  let ext (c : M (option string)) := r ←! c; ok (r, FilePath.getExt uri) in
  if mth =s "getFirst" then Req.getFirst a mreq ""
  else if mth =s "getLast" then Req.getLast a mreq ""
  else if mth =s "getAll" then untyped (Req.getAll a mreq)
  else if mth =s "getFile" then ext (Req.getFile a mreq)
  else if mth =s "getDir" then ext (Req.getDir a mreq)
  else if mth =s "getList" then untyped (Req.getList a mreq)
  else if mth =s "getSubSet" then untyped (Query.getSubSet a (Msg.add mreq "body" body))
  else if mth =s "getDynamicPage" then ext (run (getDynamicPage uri))
  else if mth =s "putConf" then
    ext (r ←! Req.putConf a (bus s) (Msg.add mreq "body" body); ok (Msg.getString r.1 "body"))
  else if mth =s "deleteRes" then
    done_ ←! Arc.deleteResource a uri; ok (if done_ : bool then "OK" else "Forbidden", "plain/text")
  else ok ("Invalid method", "").
Definition content_of (filetype : string) : option string :=
  if (filetype =s "xml") || (filetype =s "html") then Some ("text/" +:+ filetype)
  else if filetype =s "json" then Some "application/json"
  else if filetype =s "js" then Some "application/javascript"
  else if (filetype =s "jpg") || (filetype =s "jpeg") then Some "image/jpeg"
  else if (filetype =s "gif") || (filetype =s "png") then Some ("image/" +:+ filetype)
  else if filetype =s "css" then Some "text/css"
  else None.
Definition refusal (response : string) : bool :=
  (response =s "Not Found") || (response =s "Invalid Method") || (response =s "Bad Request").
Definition xml_list (response : string) : string :=
  "<?xml version=" +:+ quote "1.0" +:+ " ?><list>" +:+ response +:+ "</list>".
Definition exec (uri : string) (params : list string) (mth body : string) s : M (option (MMessage * Server)) :=
  r ←! serve uri mth body s;
  let '(response, filetype) := r in
  ok (if refusal response then Msg.add (Msg.add Msg.dummy "content" "plain/text") "body" response
      else if filetype =s "" then
        Msg.add (Msg.add Msg.dummy "content" "plain/text") "body" (xml_list response)
      else
        let mresp := match content_of filetype with
                     | Some c => Msg.add Msg.dummy "content" c
                     | None => Msg.dummy
                     end in Msg.add mresp "body" response, s).
End exec.
End ARoute.

(** The list from the first element that satisfies the test. *)
Fixpoint drop_while_not {A} (p : A -> bool) (l : list A) : list A :=
  match l with [] => [] | x :: l' => if p x then l else drop_while_not p l' end.

(** ** Class CmdRoute *)
Module CRoute.
Section exec.
Context {P : Platform} {C : Config}.
Implicit Types (s : Server) (m : MMessage).

Definition isHtml (body : string) : bool := contains "&" body.
Definition add_pair m (pair : string) : MMessage :=
  match NameList.of_string pair "=" with [k; v] => Msg.add m k v | _ => m end.
Definition addBody m (body : string) : MMessage :=
  if isHtml body then fold_left add_pair (NameList.of_string body "&") m else Msg.add m "body" body.

Definition waits (params : list string) : bool :=
  (nth 0 params "" =s "cmdw") || (nth 0 params "" =s "setw").
Definition command_type (verb : string) : string :=
  if (verb =s "cmd") || (verb =s "cmdw") then "cmd"
  else if (verb =s "set") || (verb =s "setw") then "set" else "cmd".
Definition observed s m : bool := Req.observed (bus s) (mtype m) (msubtype m).

(** The first half of "cmdExec": the message is notified when somebody observes it, and
    registered before when its answer is waited for. *)
Definition send (params : list string) m s : M (MMessage * Server) :=
  if observed s m then
    match rpctab s with
    | Some t =>
        if waits params then
          r ← Rpc.callRegister t m;
          let '(_, t, m) := r in notify m;; mret (m, s <| rpctab := Some t |>)
        else notify m;; mret (m, s)
    | None => notify m;; mret (m, s)
    end
  else mret (m, s).
(** The second half: [others] is what the other threads do to the table until the answer is
    there; [None] while there is no answer. *)
Definition await (others : RpcWaitTable -> RpcWaitTable) (params : list string) m s
    : M (option (MMessage * Server)) :=
  match rpctab s with
  | Some t =>
      if waits params then
        r ←! lifto (Rpc.wait (others t) (Msg.getString m "tag"));
        ok (r.1, s <| rpctab := Some r.2 |>)
      else ok (Msg.dummy, s)
  | None => ok (Msg.dummy, s)
  end.
Definition answer (rpcanswer : MMessage) : MMessage :=
  Msg.add (Msg.add Msg.dummy "content" "plain/text") "body"
    (if Msg.getString rpcanswer "answer_tag" <>s "" then "done:" +:+ Msg.getString rpcanswer "value" else "done").
Definition not_found : MMessage :=
  Msg.add (Msg.add Msg.dummy "content" "plain/text") "body" "Not Found".

Definition exec (others : RpcWaitTable -> RpcWaitTable) (uri : string) (params : list string)
    (mth body : string) s : M (option (MMessage * Server)) :=
  match params with
  | verb :: st :: value :: _ =>
      let mreq := if uri <>s "" then Msg.add (Msg.mk (command_type verb) "*") "url" uri
                  else Msg.add (Msg.mk "cmd" "*") "url" "." in
      if mth =s "cmdExec" then
        let mreq := Msg.add (Msg.set_subtype mreq st) "value" value in
        let mreq := if body <>s "" then addBody mreq body else mreq in
        r ← send params mreq s;
        a ←! await others params r.1 r.2;
        ok (answer a.1, a.2)
      else if mth =s "webcmdExec" then
        match drop_while_not (fun p => p =s "Devices") params with
        | _ :: st :: value :: _ =>
            let mreq := Msg.add (Msg.set_subtype mreq st) "value" (FilePath.getStem value) in
            (if observed s mreq then notify mreq else mret tt);;
            ok (answer Msg.dummy, s)
        | _ => ok (not_found, s)
        end
      else ok (answer Msg.dummy, s)
  | _ => ok (not_found, s)
  end.
End exec.
End CRoute.

(** ** Class LoggerRoute *)
Module LRoute.
Section exec.
Context {P : Platform} {C : Config} {XP : XmlParser} {FS : PathNames} {PT : PropertyTree}.
Implicit Types (a : ArchiveManager) (s : Server).

Definition to_url (url : string) : MMessage := Msg.add Msg.dummy "url" url.
Definition state_url (devname : string) : string := "/event/" +:+ devname +:+ "_state/last".
Definition last_of a (url : string) : M (option string) :=
  r ←! Req.getLast a (to_url url) ""; ok r.1.
Definition line2 : string := Msg.endl +:+ Msg.endl.
Definition tab : string := String "009" "".
(** [{"response":{"message":"ok","device":{"name":...]: the head and the tail of an answer. *)
Definition head_of (devname : string) : string :=
  "{" +:+ quote "response" +:+ ":" +:+ line2 +:+ tab +:+ "{" +:+ quote "message" +:+ ":" +:+ quote "ok" +:+ "," +:+
  quote "device" +:+ ":" +:+ line2 +:+ tab +:+ tab +:+ "{" +:+ quote "name" +:+ ":" +:+ quote devname.
Definition tail_of : string := "}" +:+ line2 +:+ tab +:+ "}" +:+ line2 +:+ "}".
Definition status_member (v : string) : string := "," +:+ quote "status" +:+ ":" +:+ v.

Definition getDimmerStatus a (devname : string) : M (option string) :=
  last_ ←! last_of a (state_url devname);
  pt ←! lifto (read_json last_);
  color ←! lifto (if contains "RG_" devname then get_string pt "color" else Some "");
  val ←! lifto (f ← get_float pt "value"; Z_of_d f);
  ok (head_of devname +:+ status_member (int2a val) +:+
      (if color <>s "" then "," +:+ quote "color" +:+ ":" +:+ quote color else "") +:+ tail_of).
Definition getDevStatus a (devname : string) : M (option string) :=
  last_ ←! last_of a (state_url devname);
  if Req.refused last_ then ok last_
  else
    pt ←! lifto (read_json last_);
    aval ←! lifto (get_string pt "value");
    ok (head_of devname +:+
        status_member (quote (if (aval =s "1") || (aval =s "ON") then "true" else "false")) +:+ tail_of).
Definition getShutterStatus a (devname : string) : M (option string) :=
  last_ ←! last_of a (state_url devname);
  if last_ =s "Not Found" then ok last_
  else
    pt ←! lifto (read_json last_);
    aval ←! lifto (get_string pt "value");
    ok (head_of devname +:+
        status_member (quote (if aval =s "UP" then "up" else if aval =s "DOWN" then "down" else "off")) +:+ tail_of).

(** [for(j=0; j<size && last[j]!='{'; j++); last.substr(++j)]: out of range without a brace. *)
Fixpoint after_brace (l : list ascii) : option string :=
  match l with
  | [] => None
  | c :: l' => if c =c "{" then Some (of_chars l') else after_brace l'
  end%char.
Fixpoint cat_items a (catname : string) (l : list string) : M (option (list string)) :=
  match l with
  | [] => ok []
  | n :: l' =>
      last_ ←! last_of a ("/devices/" +:+ catname +:+ "/" +:+ n +:+ "/last");
      rest ←! lifto (after_brace (chars last_));
      items ←! cat_items a catname l';
      ok ((tab +:+ tab +:+ tab +:+ "{" +:+ quote "name" +:+ ":" +:+ quote n +:+ "," +:+ rest) :: items)
  end.
(** The early return for a missing log tests that it is two different texts. *)
Definition getCatStatus a (catname : string) : M (option string) :=
  r ← Dirs.dirList (homedir +:+ "/devices/" +:+ catname) [];
  items ←! cat_items a catname r.2;
  ok ("{" +:+ quote "response" +:+ ":" +:+ line2 +:+ tab +:+ "{" +:+ quote "message" +:+ ":" +:+ quote "ok" +:+ "," +:+
      quote "devices" +:+ ": [" +:+ Msg.endl +:+
      match items with [] => "" | _ => Report.join_with Report.comma_line items +:+ Msg.endl end +:+
      tab +:+ tab +:+ "]" +:+ Msg.endl +:+ tab +:+ "}" +:+ Msg.endl +:+ "}").

Definition log_request (devname body : string) : MMessage :=
  Msg.add (Msg.add (Msg.mk "httprequest" "*") "url" ("/event/" +:+ devname +:+ "_state/")) "body" body.
Definition dev_status_methods : list string :=
  ["getLightStatus"; "getSocketStatus"; "getGateStatus"; "getGasValveStatus"; "getFireValveStatus";
   "getIrrigatorStatus"].
Definition serve (uri mth body : string) s : M (option string) :=
  let a := archive s in
  name ←! lifto (last (NameList.of_string uri "/"));
  let devname := match FilePath.find_last_of name "." with Some pos => take_str pos name | None => name end in
  if NameList.member dev_status_methods mth then getDevStatus a devname
  else if mth =s "getSwitchedLightStatus" then last_of a (state_url devname)
  else if mth =s "getDimmerStatus" then getDimmerStatus a devname
  else if mth =s "getShutterStatus" then getShutterStatus a devname
  else if (mth =s "getThermostateStatus") || (mth =s "getUmidityStatus") then
    last_of a ("/event/" +:+ devname +:+ "/last")
  else if mth =s "getCatStatus" then getCatStatus a devname
  else if mth =s "putLog" then
    r ←! Req.putLog a (bus s) (log_request devname body); ok (Msg.getString r.1 "body")
  else if mth =s "postLog" then
    r ←! Req.postLog a (bus s) (log_request devname body); ok (Msg.getString r.1 "body")
  else if mth =s "getPMLog" then
    Report.getPMLog a (Msg.add (Msg.add (Msg.mk "httprequest" "*") "url" uri) "body" body)
  else ok "Invalid method".
Definition exec (uri : string) (params : list string) (mth body : string) s : M (option (MMessage * Server)) :=
  response ←! serve uri mth body s;
  ok (Msg.add (Msg.add Msg.dummy "content" (if ARoute.refusal response then "plain/text" else "application/json"))
        "body" response, s).
End exec.
End LRoute.

(** ** The targets of the library *)
Inductive basic_target := TArchive | TCmd | TLogger | TDefault.
Definition basic_targets : list basic_target := [TArchive; TCmd; TLogger; TDefault].

Section targets.
Context {P : Platform} {C : Config} {XP : XmlParser} {FS : PathNames} {PT : PropertyTree}.
Variable others : RpcWaitTable -> RpcWaitTable.
Definition basic_name (t : basic_target) : string :=
  match t with TArchive => "archive" | TCmd => "cmdroute" | TLogger => "logroute" | TDefault => "Default" end.
(** The default target answers a message whose type is its name. *)
Definition basic_exec (t : basic_target) : string -> list string -> string -> string -> Server ->
    M (option (MMessage * Server)) :=
  match t with
  | TArchive => ARoute.exec
  | TCmd => CRoute.exec others
  | TLogger => LRoute.exec
  | TDefault => fun _ _ _ _ s => ok (Msg.mk "Default" "*", s)
  end.
Definition basic_router : RouterExec basic_target Server := {| exec_name := basic_name; exec := basic_exec |}.
End targets.

(** ** Class RestService *)
Record http_response := mkResponse { r_body : string; r_code : Z; r_type : option string }.

Module Rest.
Section rest.
Context {P : Platform} {C : Config} {XP : XmlParser} {R : Regex} {T S : Type} `{RouterExec T S}.
Implicit Types (rm : RoutingMap T).

Definition code_of (body : string) : Z :=
  if body =s "Not Found" then 404 else if body =s "Forbidden" then 403 else 200.
Definition render_GET rm (path : string) (s : S) : M (option (http_response * S)) :=
  let uri := if (path =s "") || (path =s "/") then "/doc/index.html" else path in
  r ←! RMap.route rm uri "GET" "" s;
  let body := Msg.getString r.1 "body" in
  ok (mkResponse body (code_of body) (Some (Msg.getString r.1 "content")), r.2).
(** The code looks for the refusals in the text of the whole message, unless it is JSON. *)
Definition respond (mresp : MMessage) : http_response :=
  let ty := Msg.getString mresp "content" in
  let body := if ty =s "application/json" then Msg.getString mresp "body" else Msg.xmlEncode mresp 0 in
  mkResponse body (code_of body) (Some ty).
Definition render_PUT rm (path content : string) (s : S) : M (option (http_response * S)) :=
  r ←! RMap.route rm path "PUT" content s; ok (respond r.1, r.2).
Definition render_DELETE rm (path : string) (s : S) : M (option (http_response * S)) :=
  r ←! RMap.route rm (if path <>s "" then path else ".") "DELETE" "" s;
  let body := Msg.getString r.1 "body" in ok (mkResponse body (code_of body) None, r.2).
(** A message in the body, notified when somebody observes it. *)
Definition nonRest_POST (b : Bus) (body : string) : M (option MMessage) :=
  let msg := Msg.add (Msg.add (Msg.mk "dummy" "*") "method" "POST") "url" "/" in
  let answer := Msg.mk "answer" "*" in
  let xml := isXmlstring body in
  let language := if xml then "xml" else "html" in
  let msg := Msg.add msg "language" language in
  let answer := Msg.add answer "language" language in
  msg ←! lifto (if xml then snd <$> Msg.xmlAppend msg (body +:+ String "013" Msg.endl)
                else Some (Msg.htmlAppend msg body));
  if Req.observed b (mtype msg) (msubtype msg) then notify msg;; ok (Msg.add answer "result" "done")
  else ok (Msg.add answer "result" "Not Found").
Definition render_POST rm (b : Bus) (path content : string) (s : S) : M (option (http_response * S)) :=
  if (path =s "") || (path =s "/") then
    mresp ←! nonRest_POST b content;
    let body := Msg.xmlEncode (Msg.remove mresp "content").2 0 in
    ok (mkResponse body (code_of body) (Some (Msg.getString mresp "content")), s)
  else r ←! RMap.route rm path "POST" content s; ok (respond r.1, r.2).
End rest.
End Rest.
