(* ===== verification/RouteClaims.v ===== *)
(** * Properties of the routes and of the REST service *)
From S2P Require Import Prelude Doubles Hsrv Xml MMessage World MParams Samples Subjects Archive ArchiveOps ArchiveFacts ArchiveClaims Rpc RpcClaims Routes.
Import MsgFacts.

(** ** Answers *)
(** A text that starts with "<" is neither of the refusals. *)
Lemma code_of_markup s : cget s 0 = "<"%char -> Rest.code_of s = 200.
Proof. intros H. unfold Rest.code_of. by rewrite !seqb_ne by (intros ->; discriminate). Qed.
Lemma refusal_markup s : cget s 0 = "<"%char -> ARoute.refusal s = false.
Proof. intros H. unfold ARoute.refusal. by rewrite !seqb_ne by (intros ->; discriminate). Qed.
(** Nor is a text that holds a newline. *)
Lemma refusal_line s : ARoute.refusal (s +:+ Msg.endl) = false.
Proof.
  unfold ARoute.refusal. rewrite !seqb_ne; [done|..]; intros E; apply (f_equal chars) in E;
    rewrite chars_app in E; simpl in E;
    assert (H : "010"%char ∈ chars s ++ ["010"%char]) by set_solver; rewrite E in H; revert H;
    by apply (bool_decide_unpack _).
Qed.
Lemma respond_code m :
  Msg.getString m "content" <> "application/json" -> r_code (Rest.respond m) = 200.
Proof. intros H. unfold Rest.respond. rewrite (seqb_ne _ _ H). simpl. by apply code_of_markup. Qed.

Section rest.
Context {P : Platform} {C : Config} {XP : XmlParser} {FS : PathNames} {R : Regex} {T S : Type} `{RouterExec T S}.
Implicit Types (rm : RoutingMap T).

(** No route takes a request with that method. *)
Definition unrouted rm (path mth : string) : Prop :=
  exists uri, drop_slash (NameList.of_string path "/") = Some uri /\
    List.filter (RMap.matches uri mth) (routes rm) = [].
Lemma route_unrouted rm path mth body s w :
  unrouted rm path mth -> RMap.route rm path mth body s w = (Some (plain_answer "Not Found", s), w).
Proof. intros (uri & E & F). unfold RMap.route, lifto. rewrite E, bindo_run. unfold mret, M_ret. cbv iota beta. by rewrite F. Qed.

Lemma route_first rm path mth body uri r rs t s w :
  drop_slash (NameList.of_string path "/") = Some uri ->
  List.filter (RMap.matches uri mth) (routes rm) = r :: rs -> target r = Some t ->
  RMap.route rm path mth body s w = exec t path uri (called_method r) body s w.
Proof.
  intros E F Ht. unfold RMap.route, lifto. rewrite E, bindo_run. unfold mret, M_ret. cbv iota beta.
  rewrite F, Ht, bindo_run. done.
Qed.

(** A request that no route takes is refused or not according to its method: GET and
    DELETE answer 404, while PUT and POST look for the refusal in the text of the whole message and
    answer 200. *)
Lemma unknown_route_codes rm b path content s w :
  path <> "" -> path <> "/" -> (forall mth, unrouted rm path mth) ->
  map (fun r => (fun a => r_code a.1) <$> result r w)
    [Rest.render_GET rm path s; Rest.render_DELETE rm path s; Rest.render_PUT rm path content s;
     Rest.render_POST rm b path content s] = [Some 404; Some 404; Some 200; Some 200].
Proof.
  intros Hp Hs Hu. unfold Rest.render_GET, Rest.render_DELETE, Rest.render_PUT, Rest.render_POST, result. simpl.
  rewrite !(seqb_ne path) by done. simpl.
  rewrite !bindo_run, !route_unrouted by done. vm_compute. reflexivity.
Qed.
End rest.

(** ** The archive behind the REST service *)
Section served.
Context {P : Platform} {C : Config} {XP : XmlParser} {FS : PathNames} {PL : PathLaws FS} {PT : PropertyTree} {R : Regex}.
Variables (others : RpcWaitTable -> RpcWaitTable).
#[local] Instance router : RouterExec basic_target Server := basic_router others.
Variables (s : Server) (root sub : string) (rest : list string) (d : RootDescriptor).

(** C3: what is written to a resource of the archive with PUT and POST requests is what a GET request of
    its url is answered with, when the first route that takes it leads to "getAll" of the
    archive: code 200 and the texts of the messages since the last PUT in a list. *)
Theorem archive_served_over_rest (rm : RoutingMap basic_target) r rs w ops x old :
  Forall plain (root :: sub :: rest) -> root <> "message" -> last (root :: sub :: rest) <> Some "data" ->
  accessInfo (archive s) !! root = Some d -> prefix d = archiveHome (archive s) ->
  head (visibility d) = Some "*" \/ (visibility d <> [] /\ sub ∈ visibility d) ->
  ready (archiveHome (archive s)) (root :: sub :: rest) w ->
  w_files w !! leaf (archiveHome (archive s)) (root :: sub :: rest) = Some old ->
  Forall (fun km => addresses root sub rest km.2) ops -> plain x ->
  List.filter (RMap.matches (root :: sub :: rest ++ [x]) "GET") (routes rm) = r :: rs ->
  target r = Some TArchive -> called_method r = "getAll" ->
  exists w', exec_all (archive s) (bus s) ops w = (Some (map (fun km => accepted km.1) ops), w') /\
    result (Rest.render_GET rm (path_of (root :: sub :: rest ++ [x])) s) w' =
      Some (mkResponse (ARoute.xml_list (fold_left (fun t km => write_text km.1 t km.2) ops old +:+ Msg.endl)) 200
              (Some "plain/text"), s).
Proof.
  intros Hp Hm Hd Hk Hh Hv Rd Hold Hops Hx Hr Ht Hc.
  set (url := path_of (root :: sub :: rest ++ [x])).
  destruct (resource_log (archive s) (bus s) root sub rest d w ops (request url) x old) as (w' & E & G); [done..|].
  assert (Hu : NameList.of_string url "/" = "" :: root :: sub :: rest ++ [x]).
  { inversion Hp as [|? ? Hr0 Hp']; subst. apply (split_path root (sub :: rest ++ [x])); [done|].
    change (sub :: rest ++ [x]) with ((sub :: rest) ++ [x]). apply Forall_app. split; [done|by apply Forall_singleton]. }
  exists w'. split; [done|]. unfold Rest.render_GET.
  rewrite (seqb_ne url ""), (seqb_ne url "/") by (intros E0; by rewrite E0 in Hu).
  unfold result. cbn [orb]. rewrite bindo_run.
  rewrite (route_first rm url "GET" "" (root :: sub :: rest ++ [x]) r rs TArchive); [|by rewrite Hu|done|done].
  rewrite Hc. unfold exec, router, basic_router, basic_exec, ARoute.exec.
  change (ARoute.serve url "getAll" "" s) with (r ←! Req.getAll (archive s) (request url); ok (r, "")).
  rewrite !bindo_run. unfold result in G. destruct (Req.getAll (archive s) (request url) w') as [o w2].
  cbn [fst] in G. subst o. unfold ok, mret, M_ret. cbv iota beta.
  rewrite refusal_line. cbn [fst snd seqb]. rewrite (seqb_refl ""). cbv iota.
  set (t := ARoute.xml_list _). 
  assert (Hb : Msg.getString (Msg.add (Msg.add Msg.dummy "content" "plain/text") "body" t) "body" = t)
    by by apply getString_add_flat, flat_add, flat_mk.
  by rewrite Hb, code_of_markup.
Qed.
End served.

(** ** Commands with an answer *)
Section commands.
Context {P : Platform} {C : Config} {XP : XmlParser} {FS : PathNames} {PT : PropertyTree}.

Definition command (verb uri st v : string) : MMessage :=
  Msg.add (Msg.set_subtype (Msg.add (Msg.mk (CRoute.command_type verb) "*") "url" uri) st) "value" v.

Lemma flat_command verb uri st v : flat (command verb uri st v).
Proof. apply flat_add, flat_set_subtype, flat_add, flat_mk. Qed.
Lemma send_waits params m s t tag t1 m1 w :
  rpctab s = Some t -> CRoute.waits params = true -> CRoute.observed s m = true ->
  result (Rpc.callRegister t m) w = (tag, t1, m1) ->
  CRoute.send params m s w =
    ((m1, s <| rpctab := Some t1 |>), final (notify m1) (final (Rpc.callRegister t m) w)).
Proof.
  intros Ht Hw Ho E. unfold CRoute.send. rewrite Ho, Ht, Hw, run_bind, E. by rewrite run_bind.
Qed.
Lemma await_waits others params m s t ans t' w :
  rpctab s = Some t -> CRoute.waits params = true -> Rpc.wait (others t) (Msg.getString m "tag") = Some (ans, t') ->
  CRoute.await others params m s w = (Some (ans, s <| rpctab := Some t' |>), w).
Proof.
  intros Ht Hw E. unfold CRoute.await, lifto. rewrite Ht, Hw, E, bindo_run. done.
Qed.

(** C11: a request to execute a command and wait for its result notifies one message, the
    command with the tag of the call, and is answered with the value that the answer under
    that tag carries; the table of the calls is then as it was before the request. *)
Theorem waited_command_roundtrip s t verb uri st v more ans w :
  rpctab s = Some t -> table_ok t -> Forall (fun e => e_tag e <> next_tag t) (pending t) -> next_tag t <> "" ->
  verb = "cmdw" \/ verb = "setw" -> uri <> "" -> CRoute.observed s (command verb uri st v) = true ->
  Msg.getString ans "answer_tag" = next_tag t ->
  let c := CRoute.exec (fun t1 => (Rpc.signal t1 ans).2) uri (verb :: st :: v :: more) "cmdExec" "" s in
  exists t', result c w =
      Some (Msg.add (Msg.add Msg.dummy "content" "plain/text") "body" ("done:" +:+ Msg.getString ans "value"),
            s <| rpctab := Some t' |>) /\
    pending t' = pending t /\ table_ok t' /\
    sent_by c w = [Msg.add (command verb uri st v) "tag" (next_tag t)].
Proof.
  intros Ht Hok Hf Hne Hv Hu Ho Ha c.
  assert (Hw : CRoute.waits (verb :: st :: v :: more) = true) by by destruct Hv as [-> | ->].
  destruct (result (Rpc.callRegister t (command verb uri st v)) w) as [[tag t1] m1] eqn:E.
  pose proof E as E'. unfold Rpc.callRegister, Rpc.getTag in E'. rewrite result_bind, result_ret in E'. injection E' as Et E1 Em.
  destruct (call_answered t (command verb uri st v) w tag t1 m1 ans) as (_ & t3 & W & Hp & Ht3); [done..|congruence|].
  exists t3.
  assert (Htag : Msg.getString m1 "tag" = next_tag t) by (rewrite <- Em; apply getString_add_flat, flat_command).
  assert (Ec : c w = (Some (CRoute.answer ans, s <| rpctab := Some t3 |>),
                      final (notify m1) (final (Rpc.callRegister t (command verb uri st v)) w))).
  { subst c. unfold CRoute.exec. rewrite (seqb_ne uri) by done. cbn [negb]. rewrite !seqb_refl.
    change (negb true) with false. cbv iota zeta. fold (command verb uri st v).
    rewrite run_bind. unfold result, final at 1.
    rewrite (send_waits _ _ s t tag t1 m1) by done. cbn [fst snd].
    rewrite bindo_run, (await_waits _ _ m1 _ t1 ans t3); [done..|]. by rewrite Htag, Et. }
  unfold result, sent_by, final. rewrite Ec. cbn [fst snd]. split.
  - unfold CRoute.answer. by rewrite Ha, (seqb_ne (next_tag t)).
  - split; [done|]. split; [done|]. rewrite <- Em. 
    change (drop (length (sent (w_trace w))) (sent (w_trace w ++ [Notified (Msg.add (command verb uri st v) "tag" (next_tag t))])) =
            [Msg.add (command verb uri st v) "tag" (next_tag t)]).
    by rewrite sent_app, drop_app_length.
Qed.
End commands.

(** ** Witnesses *)
Import Samples.Instances.
(** Literals and the expression that matches everything. *)
#[local] Instance literals : Regex := {| regexec := fun e s => Some ((e =s ".*") || (e =s s)) |}.
(** A library that refuses every text. *)
#[local] Instance no_json : PropertyTree := {|
  ptree := unit; read_json := fun _ => None; get_child := fun _ _ => None; get_string := fun _ _ => None;
  get_float := fun _ _ => None; ptree_children := fun _ => [] |}.
Definition sample_server : Server := mkServer sample_archive
  (SubjSet.add_subject nobody "cmd" "lamp") (Some Rpc.mk).
Definition event_route : Route basic_target :=
  mkRoute ["event"; ".*"; "all"] "/event/:name/all" "GET" [mkCondition ":name" ".*"] "getAll" (Some TArchive).
#[local] Instance sample_router : RouterExec basic_target Server := basic_router (fun t => t).


Lemma archive_served_over_rest_witness :
  exists w', exec_all sample_archive (bus sample_server) [(PUT, to_lamp "set"); (POST, to_lamp "cmd")] archive_world =
      (Some [accepted PUT; accepted POST], w') /\
    result (Rest.render_GET (mkMap [event_route] basic_targets) (path_of ["event"; "lamp"; "all"]) sample_server) w' =
      Some (mkResponse (ARoute.xml_list ((text_of (to_lamp "set") +:+ text_of (to_lamp "cmd")) +:+ Msg.endl)) 200
              (Some "plain/text"), sample_server).
Proof.
  refine (archive_served_over_rest (fun t => t) sample_server "event" "lamp" [] (mkRoot 30 "/home/hat" ["*"])
    (mkMap [event_route] basic_targets) event_route [] archive_world [(PUT, to_lamp "set"); (POST, to_lamp "cmd")] "all"
    ("<today/>" +:+ Msg.endl) _ _ _ _ _ _ archive_ready _ _ _ _ _ _).
  - repeat constructor; try done; apply (bool_decide_unpack _); vm_compute; exact I.
  - done.
  - done.
  - by vm_compute.
  - done.
  - by left.
  - by vm_compute.
  - repeat constructor.
  - split_and!; try done; apply (bool_decide_unpack _); vm_compute; exact I.
  - done.
  - done.
  - done.
Defined.

Lemma waited_command_roundtrip_witness :
  exists t', result (CRoute.exec (fun t => (Rpc.signal t (rpc_answer "RPC_0" "value" "ON")).2) "/cmdw/lamp/ON"
      ["cmdw"; "lamp"; "ON"] "cmdExec" "" sample_server) archive_world =
    Some (Msg.add (Msg.add Msg.dummy "content" "plain/text") "body" "done:ON", sample_server <| rpctab := Some t' |>).
Proof.
  edestruct (waited_command_roundtrip sample_server Rpc.mk "cmdw" "/cmdw/lamp/ON" "lamp" "ON" []
    (rpc_answer "RPC_0" "value" "ON") archive_world) as (t' & E & _).
  - done.
  - apply table_ok_mk.
  - constructor.
  - done.
  - by left.
  - done.
  - vm_compute. reflexivity.
  - vm_compute. reflexivity.
  - exists t'. exact E.
Defined.
