(* ===== verification/MathExpr.v ===== *)
(** * Arithmetic and logic expressions (PwrControl/mathexpression.cpp)

    [tokenize] splits the text, [parse] turns infix into postfix with a stack of
    operators, [evaluate] runs the postfix form on a stack of doubles.  [pow] of the
    mathematical library is the parameter [libm_pow].

    The properties of both are in the second part. *)
From S2P Require Import Prelude Doubles Hsrv World MParams Samples.

Class LibM := { libm_pow : double -> double -> double }.

Module MathE.
Definition isMathOperator (s : string) : bool :=
  (s =s "+") || (s =s "-") || (s =s "*") || (s =s "/") || (s =s "^").
Definition isBoolOperator (s : string) : bool :=
  (s =s "<") || (s =s ">") || (s =s "==") || (s =s ">=") || (s =s "<=") || (s =s "&&") || (s =s "||").
Definition isOperator (s : string) : bool := isMathOperator s || isBoolOperator s.
Definition isDelim (c : ascii) : bool :=
  (c =c " "%char) || (c =c "+"%char) || (c =c "-"%char) || (c =c "*"%char) || (c =c "/"%char) || (c =c "^"%char) ||
  (c =c "<"%char) || (c =c "="%char) || (c =c "&"%char) || (c =c "|"%char).
Definition is_digit_dot (c : ascii) : bool :=
  ((48 <=? nat_of_ascii c) && (nat_of_ascii c <=? 57))%nat || (c =c "."%char).
Definition isSymbol (s : string) : bool := negb (forallb is_digit_dot (chars s)).
Definition specialSymbol (s : string) : bool :=
  (s =s "ON") || (s =s "OFF") || (s =s "UP") || (s =s "DOWN") || (s =s "TRUE") || (s =s "FALSE").

Definition cmp_op (s : string) : bool := (s =s "<") || (s =s ">") || (s =s "==") || (s =s ">=") || (s =s "<=").
Definition mul_op (s : string) : bool := (s =s "*") || (s =s "/").
Definition add_op (s : string) : bool := (s =s "+") || (s =s "-").
Definition precedence (s1 s2 : string) : Z :=
  if s1 =s "^" then if s2 =s "^" then 0 else 1
  else if mul_op s1 then if s2 =s "^" then -1 else if mul_op s2 then 0 else 1
  else if add_op s1 then if (s2 =s "^") || mul_op s2 then -1 else if add_op s2 then 0 else 1
  else if cmp_op s1 then if cmp_op s2 then 0 else if (s2 =s "||") || (s2 =s "&&") then 1 else -1
  else -1.

(** [tokenize]: the loop stops before the last character, which is treated apart.
    [sym] is the symbol being read and [flag] the state of the source. *)
Definition flush (sym : list ascii) (tokens : list string) : list string :=
  if bool_decide (sym = []) then tokens else tokens ++ [of_chars sym].
Definition single_op (c : ascii) : bool :=
  (c =c "+"%char) || (c =c "-"%char) || (c =c "/"%char) || (c =c "*"%char) || (c =c "^"%char) ||
  (c =c "("%char) || (c =c ")"%char).
Definition multi_op (c : ascii) : bool :=
  (c =c "<"%char) || (c =c ">"%char) || (c =c "&"%char) || (c =c "|"%char) || (c =c "="%char).
Fixpoint token_loop (l : list ascii) (sym : list ascii) (flag : bool) (tokens : list string) : list string :=
  match l with
  | [] => flush sym tokens
  | [c] =>
      if negb (isDelim c) && negb (c =c ")"%char) then flush (sym ++ [c]) tokens
      else if c =c ")"%char then flush [c] (tokens ++ [of_chars sym])
      else flush sym tokens
  | c :: ((d :: _) as l') =>
      if c =c " "%char then token_loop l' [] false (flush sym tokens)
      else if single_op c then token_loop l' [] flag (flush sym tokens ++ [of_chars [c]])
      else if multi_op c then
        let '(sym, tokens) := if negb flag then ([], flush sym tokens) else (sym, tokens) in
        let sym := sym ++ [c] in
        if negb (isDelim d) then token_loop l' [] flag (flush sym tokens)
        else token_loop l' sym true tokens
      else token_loop l' (sym ++ [c]) flag tokens
  end.
(** On the empty string the bound [s.size()-1] wraps around and the loop reads past the end. *)
Definition tokenize (s : string) : option (list string) :=
  match chars s with [] => None | l => Some (token_loop l [] false []) end.

(** The stack of operators has its top first. *)
Fixpoint pop_while (q : string -> bool) (stack out : list string) : list string * list string :=
  match stack with
  | [] => ([], out)
  | t :: st => if q t then pop_while q st (out ++ [t]) else (stack, out)
  end.
Definition step (tok : string) (st : list string * list string) : list string * list string :=
  let '(stack, out) := st in
  if tok =s "(" then (tok :: stack, out)
  else if isOperator tok then
    let '(stack, out) := pop_while (fun t => (t <>s "(") && (0 <=? precedence t tok)) stack out in
    (tok :: stack, out)
  else if tok =s ")" then
    let '(stack, out) := pop_while (fun t => t <>s "(") stack out in
    (match stack with [] => [] | _ :: st => st end, out)
  else (stack, out ++ [tok]).
Definition parse_tokens (self : list string) (tokens : list string) : bool * list string :=
  let '(stack, out) := fold_left (fun st t => step t st) tokens ([], self) in
  let '(stack, out) := pop_while (fun t => t <>s "(") stack out in
  (bool_decide (stack = []), out).
Definition parse (self : list string) (exp : string) : option (bool * list string) :=
  parse_tokens self <$> tokenize exp.

Section eval.
Context {P : Platform} {L : LibM}.
Definition EPSILON : double := d_of_dec false 1 (-12).
Definition of_bool (b : bool) : double := if b then d1 else d0.
Definition evalOP (op : string) (a b : double) : double :=
  if op =s "+" then dadd a b
  else if op =s "-" then dsub a b
  else if op =s "*" then dmul a b
  else if op =s "/" then if negb (deqb b d0) then ddiv a b else d0
  else if op =s "^" then libm_pow a b
  else if op =s "<" then of_bool (dltb a b)
  else if op =s "<=" then of_bool (dleb a b)
  else if op =s ">" then of_bool (dgtb a b)
  else if op =s ">=" then of_bool (dgeb a b)
  else if op =s "==" then of_bool (dgtb (dadd a EPSILON) b && dltb a (dadd b EPSILON))
  else if op =s "&&" then of_bool (dgtb a d0 && dgtb b d0)
  else if op =s "||" then of_bool (dgtb a d0 || dgtb b d0)
  else d0.
(** [symtab[x]] creates a missing entry with 0. *)
Definition sym_get (symtab : gmap string double) (x : string) : double * gmap string double :=
  match symtab !! x with Some v => (v, symtab) | None => (d0, <[x := d0]> symtab) end.
Fixpoint eval_loop (l : list string) (stack : list double) (symtab : gmap string double)
    : list double * gmap string double :=
  match l with
  | [] => (stack, symtab)
  | t :: l' =>
      match stack with
      | a :: b :: st =>
          if isOperator t then eval_loop l' (evalOP t b a :: st) symtab
          else let '(v, symtab) := sym_get symtab t in eval_loop l' (v :: stack) symtab
      | _ => let '(v, symtab) := sym_get symtab t in eval_loop l' (v :: stack) symtab
      end
  end.
Definition evaluate (self : list string) (symtab : gmap string double) : double * gmap string double :=
  let '(stack, symtab) := eval_loop self [] symtab in
  (match stack with [] => d0 | x :: _ => x end, symtab).
Definition eval (self : list string) (symtab : gmap string double) : string * gmap string double :=
  match self with
  | [] => ("", symtab)
  | [t] => if specialSymbol t then (t, symtab)
           else let '(v, symtab) := evaluate self symtab in (double2a v, symtab)
  | _ => let '(v, symtab) := evaluate self symtab in (double2a v, symtab)
  end.
Definition match_ (self : list string) (symtab : gmap string double) : bool * gmap string double :=
  let '(v, symtab) := evaluate self symtab in (dgtb v d0, symtab).
Definition fill_one (tab : gmap string double) (t : string) : gmap string double :=
  if isOperator t then tab
  else if isSymbol t then if specialSymbol t then tab else <[t := d0]> tab
  else <[t := a2double t]> tab.
Definition fillTable (self : list string) (tab : gmap string double) : gmap string double :=
  fold_left fill_one self tab.
End eval.

(** [init], unlike [NameList::init], appends to the vector. *)
Definition init (self : list string) (names : string) (delim : ascii) : bool * list string :=
  let l := self ++ NameList.init_loop delim [] (chars names) in ((0 <? length l)%nat, l).
Definition member (self : list string) (name : string) : bool := NameList.member self name.
Definition find (self : list string) (name : string) : Z := NameList.find self name.
End MathE.

(** * Properties of the expressions (PwrControl/mathexpression.cpp): the operator stack is an
    operator-precedence parser, and the postfix form evaluates to the meaning of the expression *)
Import MathE.

(** ** Expressions and their three readings *)
Inductive expr :=
| Leaf (x : string)
| Bin (op : string) (l r : expr)
| Par (e : expr).

(** As the tokenizer delivers them. *)
Fixpoint infix (e : expr) : list string :=
  match e with
  | Leaf x => [x]
  | Bin op l r => infix l ++ [op] ++ infix r
  | Par e => ["("] ++ infix e ++ [")"]
  end.
Fixpoint postfix (e : expr) : list string :=
  match e with
  | Leaf x => [x]
  | Bin op l r => postfix l ++ postfix r ++ [op]
  | Par e => postfix e
  end.
(** Operators still on the stack (top first), and output already written, after the tokens
    of [e]. *)
Fixpoint pending (e : expr) : list string :=
  match e with Bin op l r => pending r ++ [op] | _ => [] end.
Fixpoint written (e : expr) : list string :=
  match e with
  | Leaf x => [x]
  | Bin op l r => postfix l ++ written r
  | Par e => postfix e
  end.
(** The operators not enclosed in parentheses on the left spine. *)
Fixpoint left_spine (e : expr) : list string :=
  match e with Bin op l r => left_spine l ++ [op] | _ => [] end.

(** [t] on the stack yields to the arriving operator [op]. *)
Definition yields (t op : string) : bool := 0 <=? precedence t op.
Definition operand (x : string) : Prop := x <> "(" /\ x <> ")" /\ isOperator x = false.
(** The parentheses agree with [precedence]: an operator of the left operand yields to the
    root, and the root does not yield to one of the right operand. *)
Fixpoint grouped (e : expr) : Prop :=
  match e with
  | Leaf x => operand x
  | Bin op l r =>
      isOperator op = true /\ grouped l /\ grouped r /\
      Forall (fun p => yields p op = true) (pending l) /\ Forall (fun o => yields op o = false) (left_spine r)
  | Par e => grouped e
  end.

Lemma written_pending e : written e ++ pending e = postfix e.
Proof.
  induction e as [x|op l IHl r IHr|e IH]; simpl; [done| |by rewrite app_nil_r].
  rewrite <- IHr. by rewrite <- !app_assoc.
Qed.
Lemma operator_not_paren op : isOperator op = true -> op <> "(" /\ op <> ")".
Proof. intros H. split; intros ->; vm_compute in H; discriminate. Qed.
Lemma pending_not_open e : grouped e -> Forall (fun t => t <> "(") (pending e).
Proof.
  induction e as [x|op l IHl r IHr|e IH]; simpl; [done| |done]. intros (Ho & _ & Hr & _).
  apply Forall_app. split; [auto|]. constructor; [by apply operator_not_paren|done].
Qed.

Lemma pop_while_all q l st out :
  Forall (fun t => q t = true) l -> (match st with [] => True | t :: _ => q t = false end) ->
  pop_while q (l ++ st) out = (st, out ++ l).
Proof.
  intros Hl Hst. revert out. induction Hl as [|t l Ht Hl IH]; intros out; simpl.
  - rewrite app_nil_r. destruct st as [|t st]; simpl; [done|]. by rewrite Hst.
  - rewrite Ht, IH. by rewrite <- app_assoc.
Qed.

(** The stack protects its top from the operators of [e] that can reach it. *)
Definition guards (st : list string) (e : expr) : Prop :=
  match st with
  | [] => True
  | t :: _ => t = "(" \/ Forall (fun o => yields t o = false) (left_spine e)
  end.

Lemma step_operator op st out l :
  isOperator op = true -> Forall (fun t => t <> "(") l -> Forall (fun p => yields p op = true) l ->
  (match st with [] => True | t :: _ => t = "(" \/ yields t op = false end) ->
  step op (l ++ st, out) = (op :: st, out ++ l).
Proof.
  intros Ho Hl Hy Hst. unfold step. destruct (operator_not_paren op Ho) as [H1 _].
  rewrite (seqb_ne op "(") by done. rewrite Ho.
  rewrite (pop_while_all _ l st out); [done| |].
  - rewrite Forall_forall in *. intros t Ht. rewrite seqb_ne by auto. simpl. apply Hy, Ht.
  - destruct st as [|t st]; [done|]. destruct Hst as [->|Hst]; [done|]. unfold yields in Hst. rewrite Hst. by rewrite andb_false_r.
Qed.
Lemma step_operand x st out : operand x -> step x (st, out) = (st, out ++ [x]).
Proof. intros (H1 & H2 & H3). unfold step. by rewrite !seqb_ne, H3 by done. Qed.

(** Reading the tokens of a grouped expression. *)
Lemma read_expr e st out :
  grouped e -> guards st e ->
  fold_left (fun s t => step t s) (infix e) (st, out) = (pending e ++ st, out ++ written e).
Proof.
  revert st out. induction e as [x|op l IHl r IHr|e IH]; intros st out Hg Hst; cbn [infix grouped] in *.
  - cbn [fold_left]. by rewrite step_operand.
  - destruct Hg as (Ho & Hl & Hr & Hpl & Hor). rewrite !fold_left_app. cbn [fold_left].
    rewrite IHl; [|done|].
    2:{ destruct st as [|t st]; [done|]. destruct Hst as [->|Hst]; [by left|]. right. simpl in Hst. by apply Forall_app in Hst as [Hst _]. }
    rewrite step_operator; [|done|by apply pending_not_open|done|].
    2:{ destruct st as [|t st]; [done|]. destruct Hst as [->|Hst]; [by left|]. right. simpl in Hst.
        apply Forall_app in Hst as [_ Hst]. by apply Forall_inv in Hst. }
    rewrite IHr; [|done|by right]. simpl. rewrite <- !app_assoc. f_equal. f_equal.
    by rewrite app_assoc, written_pending.
  - rewrite !fold_left_app. cbn [fold_left].
    change (step "(" (st, out)) with ("(" :: st, out). rewrite IH; [|done|by left].
    unfold step. change (")" =s "(") with false. change (isOperator ")") with false. change (")" =s ")") with true. cbv iota.
    rewrite (pop_while_all _ (pending e) ("(" :: st)); [|by eapply Forall_impl; [by apply pending_not_open|]; intros t Ht; rewrite seqb_ne by done|done].
    simpl. f_equal. by rewrite <- app_assoc, written_pending.
Qed.

(** C14: the operator-stack parser is correct for every parenthesised expression: on the
    tokens of an expression whose parentheses agree with the precedence table, [parse]
    succeeds and leaves exactly its postfix form. *)
Theorem parse_gives_postfix e : grouped e -> parse_tokens [] (infix e) = (true, postfix e).
Proof.
  intros Hg. unfold parse_tokens. rewrite (read_expr e [] [] Hg I). rewrite (pop_while_all _ (pending e) []).
  - simpl. by rewrite written_pending.
  - eapply Forall_impl; [by apply pending_not_open|]. intros t Ht. by rewrite seqb_ne.
  - done.
Qed.

(** ** Evaluation *)
Section evaluation.
Context {P : Platform} {L : LibM}.
(** The meaning of an expression in a symbol table. *)
Fixpoint meaning (symtab : gmap string double) (e : expr) : double :=
  match e with
  | Leaf x => default d0 (symtab !! x)
  | Bin op l r => evalOP op (meaning symtab l) (meaning symtab r)
  | Par e => meaning symtab e
  end.
Fixpoint leaves (e : expr) : list string :=
  match e with Leaf x => [x] | Bin _ l r => leaves l ++ leaves r | Par e => leaves e end.

Lemma eval_postfix symtab e rest stack :
  grouped e -> Forall (fun x => is_Some (symtab !! x)) (leaves e) ->
  eval_loop (postfix e ++ rest) stack symtab = eval_loop rest (meaning symtab e :: stack) symtab.
Proof.
  revert rest stack. induction e as [x|op l IHl r IHr|e IH]; intros rest stack Hg Hx; cbn [postfix meaning grouped leaves] in *.
  - apply Forall_inv in Hx as [v Hv]. destruct Hg as (_ & _ & Ho). simpl. unfold sym_get. rewrite Hv, Ho. simpl.
    by destruct stack as [|a [|b st]].
  - destruct Hg as (Ho & Hl & Hr & _). apply Forall_app in Hx as [Hxl Hxr].
    rewrite <- !app_assoc, IHl, IHr by done. simpl. by rewrite Ho.
  - by apply IH.
Qed.

(** C34: a correctly grouped expression whose symbols are all in the table evaluates to its
    meaning, and the table is unchanged: the tokens parsed to postfix and run on the stack of
    doubles compute each operation on the values of its operands, in order. *)
Theorem evaluate_is_meaning e symtab :
  grouped e -> Forall (fun x => is_Some (symtab !! x)) (leaves e) ->
  evaluate (parse_tokens [] (infix e)).2 symtab = (meaning symtab e, symtab).
Proof.
  intros Hg Hx. unfold parse_tokens. rewrite (read_expr e [] [] Hg I).
  rewrite (pop_while_all _ (pending e) []); [|by eapply Forall_impl; [by apply pending_not_open|]; intros t Ht; rewrite seqb_ne|done].
  simpl. rewrite written_pending. unfold evaluate.
  rewrite <- (app_nil_r (postfix e)), eval_postfix by done. done.
Qed.

(** Two closing parentheses at the end of an expression make the tokenizer emit an empty
    token before the last one, so that "((a+b))" evaluates to the value of the symbol named by
    the empty string, 0 by default, whatever [a] and [b] are. *)
Lemma nested_parentheses_evaluate_to_zero symtab :
  symtab !! "" = None -> is_Some (symtab !! "a") -> is_Some (symtab !! "b") ->
  exists self, parse [] "((a+b))" = Some (true, self) /\ (evaluate self symtab).1 = d0.
Proof.
  intros He [va Ha] [vb Hb]. exists ["a"; "b"; "+"; ""]. split; [reflexivity|].
  unfold evaluate. cbn [eval_loop]. unfold sym_get. rewrite Ha, Hb. cbn.
  change (isOperator "+") with true. cbn. rewrite He. reflexivity.
Qed.
End evaluation.

(** ** Witnesses *)
Import Samples.Instances.
Definition no_pow : LibM := {| libm_pow := fun _ _ => d0 |}.
(** "a + b * (c - a) > c", with every operator in its place. *)
Definition sample_expr : expr :=
  Bin ">" (Bin "+" (Leaf "a") (Bin "*" (Leaf "b") (Par (Bin "-" (Leaf "c") (Leaf "a"))))) (Leaf "c").
Definition sample_symbols : gmap string double := {[ "a" := d1; "b" := d_of_Z 2; "c" := d_of_Z 3 ]}.
Lemma sample_grouped : grouped sample_expr.
Proof. repeat (split; try (vm_compute; reflexivity || discriminate || (repeat constructor; reflexivity || discriminate))). Qed.

Lemma parse_gives_postfix_witness :
  parse_tokens [] ["a"; "+"; "b"; "*"; "("; "c"; "-"; "a"; ")"; ">"; "c"] =
  (true, ["a"; "b"; "c"; "a"; "-"; "*"; "+"; "c"; ">"]).
Proof. exact (parse_gives_postfix sample_expr sample_grouped). Defined.
Lemma evaluate_is_meaning_witness :
  (evaluate (L := no_pow) (parse_tokens [] (infix sample_expr)).2 sample_symbols).1 = d1.
Proof.
  rewrite (evaluate_is_meaning sample_expr sample_symbols sample_grouped);
    [vm_compute; reflexivity|repeat constructor; vm_compute; by eexists].
Defined.
