(* ===== verification/Configurator.v ===== *)
(** * The configurator of the Manager agent (Manager/Configurator.cpp, ConfRoutingMap.cpp)

    On request, and only while configuration is enabled, it writes the files the engines are built from:
    one file per item, from a template whose placeholders ("$NAME", ...) are replaced by the fields of a
    message.  The basic configuration writes an action, an event counter or a condition per device that the
    name service knows; [page] is the page the name service receives for a category.  [None] is a crash, the
    end of the process, or a placeholder whose value holds it, which is replaced for ever. *)
From S2P Require Import Prelude Doubles Hsrv Xml MMessage World MParams Pages Subjects Archive ArchiveOps Rpc Routes.

Record Configurator := mkConf {
  devname : list string; cmdname : list string; optcmdname : list string; lsname : list string;
  do_userprogrammable : string; sensor_category : string; cmd_category : string;
  optcmd_category : string; ls_category : string }.
#[export] Instance Configurator_rebuild : Rebuild Configurator := fun c =>
  mkConf (devname c) (cmdname c) (optcmdname c) (lsname c) (do_userprogrammable c) (sensor_category c)
    (cmd_category c) (optcmd_category c) (ls_category c).

(** [m.add] of each pair on an empty message. *)
Definition fields_msg (l : list (string * string)) : MMessage :=
  fold_left (fun m kv => Msg.add m kv.1 kv.2) l Msg.dummy.

Module Conf.
Section conf.
Context {P : Platform} {C : Config} {XP : XmlParser} {FS : PathNames} {Ar : Archived}.
Implicit Types (c : Configurator) (m : MMessage).
(** The turns after which a loop that replaces a placeholder counts as endless. *)
Variable turns : nat.

Definition mk : M (option Configurator) :=
  r ←! Params.load (Params.mk2 "threads" "Configurator");
  let p := r.2 in
  ok (mkConf [] [] [] [] (Params.get p "do_userprogrammable") (Params.get p "sensor_category")
        (Params.get p "cmd_category") (Params.get p "optcmd_category") (Params.get p "ls_category")).

(** ** One item *)
Definition getCategory (name : string) : string := take_str 2 name.
(** Every field whose name starts with "$", in the order of names, replaces its occurrences while
    there are any, for at most [turns] turns. *)
Fixpoint fill_items (m : MMessage) (l : list string) (description : string) : option string :=
  match l with
  | [] => Some description
  | k :: l' =>
      description ← (if cget k 0 =c "$"
                     then strReplaceAll turns description k (Msg.getString m k)
                     else Some description);
      fill_items m l' description
  end.
Definition item_name m : string :=
  if Msg.getString m "name" =s "" then Msg.getString m "$NAME" else Msg.getString m "name".
Definition item_path (path name : string) : string :=
  configdir +:+ "/" +:+ path +:+ "/" +:+ name +:+ ".xml".
Definition mkItem m (path temp : string) : M (option string) :=
  let name := item_name m in
  if name =s "" then ok "Failed"
  else
    let devicepath := item_path path name in
    t ← contents (configdir +:+ "/templates/" +:+ temp);
    match t with
    | None => ok "Failed"
    | Some text =>
        description ←! lifto (fill_items m (map fst (map_items (fields m))) (of_chars (until_nul (chars text))));
        o ← open_out devicepath;
        if o : bool then append devicepath description;; ok "done"
        else log_info ("Impossible to save: " +:+ devicepath);; ok "Failed"
    end.
(** Items of a list, the answers ignored. *)
Fixpoint mkItems (l : list (MMessage * string * string)) : M (option unit) :=
  match l with
  | [] => ok tt
  | (m, path, temp) :: l' => _ ←! mkItem m path temp; mkItems l'
  end.

(** ** The basic configuration *)
Definition reset_paths : list string :=
  map (fun d => configdir +:+ d) ["/actions/"; "/tr_actions/"; "/rules/"; "/timedrules/"; "/eventcounters/";
    "/conditions/"; "/tr_conditions/"; "/rulemanifest/"] ++
  map (fun d => homedir +:+ d) ["/actions/"; "/tr_actions/"; "/rules/"; "/timedrules/"; "/eventcounters/";
    "/conditions/"; "/tr_conditions/"].
(** What the shell does for "rm -f dir*.xml": the files of the directory whose name ends so, hidden ones apart. *)
Definition rm_xml (dir : string) : M unit :=
  es ← readdir dir;
  iterM (fun e => if negb e.2 && Dirs.not_hidden e.1 && ends_with e.1 ".xml"
                  then unlink (canon (dir +:+ e.1));; mret tt else mret tt) es.
Definition reset_path (p : string) : M unit :=
  d ← Dirs.isDir p;
  if d : bool then
    cmdExec ("rm -f " +:+ p +:+ "*.xml");; if 1 <? debug then mret tt else rm_xml p
  else mret tt.
Definition confReset : M bool := iterM reset_path reset_paths;; mret true.

(** The names of the devices of each category of a list. *)
Fixpoint names_of (page : string -> string) (cats : list string) : option (list string) :=
  match cats with
  | [] => Some []
  | cat :: cats' =>
      l ← NS.getNames_of (page cat) "devices" cat; l' ← names_of page cats'; Some (l ++ l')
  end.
Definition categories (s : string) : list string := NameList.of_string s "+".
Definition mkDeviceLists (page : string -> string) c : M (option Configurator) :=
  dev ←! lifto (names_of page (categories (sensor_category c)));
  saveItemList_names "sensordevices" "status" dev;;
  cmd ←! lifto (names_of page (categories (cmd_category c)));
  saveItemList_names "controldevices" "status" cmd;;
  opt ←! lifto (names_of page (categories (optcmd_category c)));
  saveItemList_names "optcontroldevices" "status" opt;;
  ls ←! lifto (names_of page (categories (ls_category c)));
  saveItemList_names "lsdevices" "status" ls;;
  ok (c <| devname := dev |> <| cmdname := cmd |> <| optcmdname := opt |> <| lsname := ls |>).

(** The two actions of a control: shutters go up and down, lights pulse. *)
Definition on_suffix (n : string) : string := if getCategory n =s "SH" then "_pup" else "_on".
Definition off_suffix (n : string) : string := if getCategory n =s "SH" then "_pdown" else "_off".
Definition on_value (n : string) : string :=
  if getCategory n =s "SH" then "UP" else if getCategory n =s "LI" then "PON" else "ON".
Definition off_value (n : string) : string :=
  if getCategory n =s "SH" then "DOWN" else if getCategory n =s "LI" then "POFF" else "OFF".
Definition action (name target value : string) : MMessage :=
  fields_msg [("$NAME", name); ("$TARGET", target); ("$VALUE", value)].
Definition actions_of (path n : string) : list (MMessage * string * string) :=
  [(action (n +:+ on_suffix n) n (on_value n), path, "action.xml");
   (action (n +:+ off_suffix n) n (off_value n), path, "action.xml")].
Definition rule_actions (n : string) : list (MMessage * string * string) :=
  actions_of "actions" n ++
  (if getCategory n =s "LI" then [(action (n +:+ "_switch") n "ON", "actions", "action.xml")] else []).
Definition mkActions c : M (option unit) :=
  mkItems (concat (map rule_actions (cmdname c)) ++ concat (map (actions_of "tr_actions") (optcmdname c))).
Definition mkEventcounters c : M (option unit) :=
  mkItems (map (fun n => (fields_msg [("$NAME", n); ("$SOURCE", n); ("$THRESHOLD", "1"); ("$DELAY", "0")],
                          "eventcounters", "eventcounter.xml")) (devname c)).
Definition mkConditions c : M (option unit) :=
  mkItems (concat (map (fun n => let m := fields_msg [("$NAME", n); ("$SOURCE", n)] in
                                 [(m, "conditions", "condition.xml"); (m, "tr_conditions", "condition.xml")])
                       (lsname c))).
Definition copy_triggered (name : string) : M unit :=
  let path := configdir +:+ "/templates/" +:+ name in
  f ← Dirs.isFile path;
  if f : bool then Dirs.copyFile path (configdir +:+ "/timedrules") name;; mret tt else mret tt.
Definition mkTimedrules : M bool :=
  copy_triggered "AUTOtriggered.xml";; copy_triggered "MANUALtriggered.xml";; mret true.
(** The rules name actions "_up" and "_down" of a shutter. *)
Definition set_action (n : string) : string := n +:+ (if getCategory n =s "SH" then "_up" else "_on").
Definition reset_action (n : string) : string := n +:+ (if getCategory n =s "SH" then "_down" else "_off").
Definition user_rule (n : string) : MMessage :=
  fields_msg [("$NAME", "_" +:+ n); ("$ALIAS", n); ("$SETACTION", set_action n); ("$RESETACTION", reset_action n)].
Definition mkUserProgrammable c : M (option bool) :=
  if do_userprogrammable c <>s "YES" then ok false
  else _ ←! mkItems (map (fun n => (user_rule n, "timedrules", "userprogrammable.xml")) (optcmdname c)); ok true.
Definition basicConf (page : string -> string) c : M (option (string * Configurator)) :=
  confReset;;
  c ←! mkDeviceLists page c;
  _ ←! mkActions c; _ ←! mkEventcounters c; _ ←! mkConditions c;
  mkTimedrules;;
  _ ←! mkUserProgrammable c;
  ok ("done", c).

(** ** Requests *)
(** The manifest of a rule keeps the message it was made from. *)
Definition mkManifest m : M (option bool) :=
  let dir := configdir +:+ "/rulemanifest/" in
  d ← Dirs.isDir dir;
  _ ←! (if d : bool then ok true else Dirs.makeDir dir true);
  let path := dir +:+ Msg.getString m "$NAME" +:+ ".xml" in
  o ← open_out path;
  (if o : bool then append path (Msg.xmlPrint m 1) else mret tt);; ok true.
Definition deleteItem (itemclass name : string) : M string :=
  if itemclass =s "rule" then
    let fname := name +:+ ".xml" in
    Dirs.deleteFile (configdir +:+ "/rulemanifest") fname;;
    Dirs.deleteFile (configdir +:+ "/rules") fname;;
    Dirs.deleteFile (homedir +:+ "/rules") fname;;
    mret "done"
  else mret "Failed".
Definition addBody m (body : string) : option MMessage :=
  if isXmlstring body then snd <$> Msg.xmlAppend m body
  else if contains "&" body then Some (Msg.htmlAppend m body)
  else Some (Msg.add m "body" body).
Definition serve (page : string -> string) (params : list string) m c : M (option (string * Configurator)) :=
  let item path temp := r ←! mkItem m path temp; ok (r, c) in
  back ←! lifto (last params);
  if back =s "basic" then basicConf page c
  else if back =s "action" then item "actions" "action.xml"
  else if back =s "condition" then item "conditions" "conditions.xml"
  else if back =s "trcondition" then item "tr_conditions" "conditions.xml"
  else if back =s "eventcounter" then item "eventcounter" "eventcounter.xml"
  else if back =s "rule" then
    r ←! mkItem m "rules" "rule.xml"; _ ←! mkManifest m; ok (r, c)
  else if back =s "timedrule" then item "timedrules" "timedrule.xml"
  else if back =s "reboot" then crash
  else match params with
       | [d; cls; name] => if d =s "delete" then r ← deleteItem cls name; ok (r, c) else ok ("", c)
       | _ => ok ("", c)
       end.
Definition body_answer (response : string) : MMessage := Msg.add Msg.dummy "body" response.
Definition exec (page : string -> string) (uri : string) (params : list string) (mth body : string) c
    : M (option (MMessage * Configurator)) :=
  enabled ← checkConfigureEnabled;
  if negb enabled || (mth <>s "configure") then ok (body_answer "Not Found", c)
  else
    m ←! lifto (if body <>s "" then addBody Msg.dummy body else Some Msg.dummy);
    r ←! serve page params m c;
    ok (body_answer r.1, r.2).
End conf.
End Conf.

(** ** Class ConfRoutingMap: the targets of the Manager agent *)
Inductive manager_target := Basic (t : basic_target) | TConfigurator.
Definition manager_targets : list manager_target :=
  [Basic TArchive; Basic TCmd; Basic TLogger; TConfigurator; Basic TDefault].

Section manager.
Context {P : Platform} {C : Config} {XP : XmlParser} {FS : PathNames} {PT : PropertyTree} {R : Regex} {Ar : Archived}.
Variables (others : RpcWaitTable -> RpcWaitTable) (turns : nat) (page : string -> string).

Definition manager_exec (t : manager_target) (uri : string) (params : list string) (mth body : string)
    (s : Server * Configurator) : M (option (MMessage * (Server * Configurator))) :=
  match t with
  | Basic t => r ←! basic_exec others t uri params mth body s.1; ok (r.1, (r.2, s.2))
  | TConfigurator => r ←! Conf.exec turns page uri params mth body s.2; ok (r.1, (s.1, r.2))
  end.
Definition manager_router : RouterExec manager_target (Server * Configurator) := {|
  exec_name := fun t => match t with Basic t => basic_name t | TConfigurator => "configurator" end;
  exec := manager_exec |}.
#[local] Existing Instance manager_router.
(** The base class loads the file with its own targets first; they are discarded. *)
Definition ConfRoutingMap (file : string) : M (option (RoutingMap manager_target)) :=
  _ ←! RMap.mk (T := manager_target) (map Basic basic_targets) file;
  r ←! RMap.load (mkMap [] manager_targets) file; ok r.2.
End manager.
