(* ===== verification/ConfClaims.v ===== *)
(** * Properties of the configurator *)
From S2P Require Import Prelude Doubles Hsrv Xml MMessage World MParams Samples Pages Subjects Archive ArchiveOps ArchiveFacts Rpc Routes Configurator.
Import MsgFacts.

(** ** Computations that only touch the files in a set *)
Definition keeps (D : string -> Prop) {A} (c : M A) : Prop :=
  forall w p, ~ D p -> w_files (final c w) !! p = w_files w !! p.
Create HintDb keeps.
Section keeps.
Context {FS : PathNames} (D : string -> Prop).

Lemma within_quiet {A} (c : M A) : quiet c -> keeps D c.
Proof. intros Hc w p _. destruct (Hc w) as (F & _). by rewrite F. Qed.
Lemma keeps_ret {A} (a : A) : keeps D (mret a).
Proof. by intros w p _. Qed.
Lemma within_bind {A B} (c : M A) (k : A -> M B) : keeps D c -> (forall a, keeps D (k a)) -> keeps D (c ≫= k).
Proof. intros Hc Hk w p Hp. rewrite final_bind, Hk by done. by apply Hc. Qed.
Lemma within_bindo {A B} (c : M (option A)) (k : A -> M (option B)) :
  keeps D c -> (forall a, keeps D (k a)) -> keeps D (bindo c k).
Proof. intros Hc Hk. apply within_bind; [done|]. intros [a|]; [apply Hk|apply keeps_ret]. Qed.
(** The second part may use what the first one answers. *)
Lemma keeps_bindo_when {A B} (Q : A -> Prop) (c : M (option A)) (k : A -> M (option B)) :
  keeps D c -> (forall w a, result c w = Some a -> Q a) -> (forall a, Q a -> keeps D (k a)) -> keeps D (bindo c k).
Proof.
  intros Hc Hq Hk w p Hp. unfold bindo. rewrite final_bind. pose proof (Hq w) as Hw.
  destruct (result c w) as [a|]; [rewrite (Hk a) by auto; by apply Hc|by apply Hc].
Qed.
Lemma keeps_bind_when {A B} (Q : A -> Prop) (c : M A) (k : A -> M B) :
  keeps D c -> (forall w, Q (result c w)) -> (forall a, Q a -> keeps D (k a)) -> keeps D (c ≫= k).
Proof. intros Hc Hq Hk w p Hp. rewrite final_bind, Hk by auto. by apply Hc. Qed.
Lemma keeps_iterM {A} (f : A -> M unit) l : (forall a, a ∈ l -> keeps D (f a)) -> keeps D (iterM f l).
Proof.
  induction l as [|a l IH]; intros Hf; simpl; [apply keeps_ret|].
  apply within_bind; [apply Hf; set_solver|]. intros _. apply IH. intros b Hb. apply Hf. set_solver.
Qed.
Lemma keeps_cmdExec {C : Config} s : keeps D (cmdExec s).
Proof. intros w p _. unfold cmdExec. by destruct (1 <? debug). Qed.
Lemma keeps_open_out p : D (canon p) -> keeps D (open_out p).
Proof.
  intros Hd w q Hq. unfold open_out, final. destruct (may_create _ w); simpl; [|done].
  rewrite lookup_insert_ne; [done|]. by intros <-.
Qed.
Lemma keeps_append p s : D (canon p) -> keeps D (append p s).
Proof. intros Hd w q Hq. unfold append, final. simpl. rewrite lookup_insert_ne; [done|]. by intros <-. Qed.
Lemma keeps_unlink p : D p -> keeps D (unlink p).
Proof.
  intros Hd w q Hq. unfold unlink, final. destruct (w_files w !! p) eqn:E; [|done].
  destruct (w_writable w p); simpl; [|done]. rewrite lookup_delete_ne; [done|]. by intros <-.
Qed.
Lemma keeps_write_file p s : D p -> keeps D (write_file p s).
Proof.
  intros Hd w q Hq. unfold write_file, final. destruct (w_writable w p); simpl; [|done].
  rewrite lookup_insert_ne; [done|]. by intros <-.
Qed.
Lemma keeps_mkdir p : keeps D (mkdir p).
Proof. intros w q _. unfold mkdir, final. by destruct (_ && _). Qed.
End keeps.
#[export] Hint Resolve keeps_ret keeps_cmdExec keeps_append keeps_open_out keeps_unlink keeps_write_file keeps_mkdir : keeps.
#[export] Hint Extern 4 (keeps _ _) => apply within_quiet; eauto 3 with quiet : keeps.
Ltac keeps_steps :=
  repeat (first [ apply within_bind; [|intros ?] | apply within_bindo; [|intros ?]
                | solve [eauto 3 with keeps] | split_match ]).

Section frame.
Context {P : Platform} {C : Config} {XP : XmlParser} {FS : PathNames} {PL : PathLaws FS} {Ar : Archived}.
Variable turns : nat.

(** The directories of the configuration, and the file through which lists are published. *)
Definition raw_dirs : list string :=
  map (fun d => configdir +:+ "/" +:+ d) ["actions"; "tr_actions"; "rules"; "timedrules"; "eventcounters";
    "conditions"; "tr_conditions"; "rulemanifest"] ++
  map (fun d => homedir +:+ "/" +:+ d) ["actions"; "tr_actions"; "rules"; "timedrules"; "eventcounters";
    "conditions"; "tr_conditions"].
Definition conf_dirs : list string := map canon raw_dirs.
(** The lists of devices in the archive. *)
Definition list_names : list string := ["sensordevices"; "controldevices"; "optcontroldevices"; "lsdevices"].
Definition list_url (n : string) : string := "status/" +:+ n +:+ ".xml".
Definition list_copies : list string :=
  map (fun n => canon (Arc.one_slash (archiveHome hsrv_archive +:+ "/" +:+ list_url n))) list_names.
Definition configured (p : string) : Prop :=
  entry_dir p ∈ conf_dirs \/ p = canon (homedir +:+ "/tmp.xml") \/ p ∈ list_copies.
Definition no_slash (n : string) : Prop := "/"%char ∉ chars n.

Lemma configured_in dir n :
  canon dir ∈ conf_dirs -> plain n -> configured (canon (dir +:+ "/" +:+ n)).
Proof. intros Hd Hn. left. rewrite canon_child, entry_dir_child by (done || apply canon_ne). done. Qed.
Lemma plain_xml n : no_slash n -> plain (n +:+ ".xml").
Proof.
  intros Hn. unfold plain.
  assert (forall s, String.length s < 4 -> n +:+ ".xml" <> s)%nat as Hl.
  { intros s Hs <-. rewrite length_sapp in Hs. simpl in Hs. lia. }
  split_and!; [apply Hl; simpl; lia..|]. rewrite chars_app. simpl.
  unfold no_slash in Hn. intros [H|H]%elem_of_app; [done|]. revert H. by apply (bool_decide_unpack _).
Qed.
Lemma configured_item path n :
  canon (configdir +:+ "/" +:+ path) ∈ conf_dirs -> no_slash n -> configured (canon (Conf.item_path path n)).
Proof.
  intros Hp Hn. unfold Conf.item_path.
  replace (configdir +:+ "/" +:+ path +:+ "/" +:+ n +:+ ".xml")
    with ((configdir +:+ "/" +:+ path) +:+ "/" +:+ (n +:+ ".xml")) by by rewrite !sapp_assoc.
  by apply configured_in; [|apply plain_xml].
Qed.

(** ** Items *)
Definition good_item (x : MMessage * string * string) : Prop :=
  canon (configdir +:+ "/" +:+ x.1.2) ∈ conf_dirs /\ no_slash (Conf.item_name x.1.1).
Lemma keeps_mkItem m path temp : good_item (m, path, temp) -> keeps configured (Conf.mkItem turns m path temp).
Proof.
  intros [Hp Hn]. pose proof (configured_item path _ Hp Hn) as Hd. unfold Conf.mkItem. keeps_steps.
Qed.
Lemma keeps_mkItems l : Forall good_item l -> keeps configured (Conf.mkItems turns l).
Proof.
  induction 1 as [|[[m path] temp] l H _ IH]; simpl; [apply keeps_ret|].
  apply within_bindo; [by apply keeps_mkItem|done].
Qed.

(** ** The reset *)
Lemma elem_of_readdir d w e : e ∈ result (readdir d) w -> e.1 <> "" /\ no_slash e.1.
Proof.
  unfold result, readdir. simpl. rewrite dir_order_perm.
  intros [(x & -> & Hx)%list_elem_of_fmap|(x & -> & Hx)%list_elem_of_fmap]%elem_of_app;
    apply elem_of_entries in Hx as (Hn & Hs & _); done.
Qed.
Lemma keeps_rm_xml d : canon d ∈ conf_dirs -> keeps configured (Conf.rm_xml (d +:+ "/")).
Proof.
  intros Hd. unfold Conf.rm_xml.
  apply (keeps_bind_when _ (fun es => forall e, e ∈ es -> e.1 <> "" /\ no_slash e.1)).
  - apply within_quiet, quiet_readdir.
  - intros w e. apply elem_of_readdir.
  - intros es Hes. apply keeps_iterM. intros e He. destruct (Hes e He) as [Hn Hs].
    destruct (Dirs.not_hidden e.1) eqn:Eh; [|rewrite andb_false_r; apply keeps_ret].
    destruct (_ && _); [|apply keeps_ret]. apply within_bind; [|intros ?; apply keeps_ret].
    apply keeps_unlink. rewrite sapp_assoc. change ("/" +:+ e.1) with ("/" +:+ e.1).
    apply configured_in; [done|]. by apply not_hidden_plain.
Qed.
Lemma reset_paths_raw : Conf.reset_paths = map (fun d => d +:+ "/") raw_dirs.
Proof. unfold Conf.reset_paths, raw_dirs. rewrite map_app, !map_map. simpl. by rewrite !sapp_assoc. Qed.
Lemma keeps_confReset : keeps configured Conf.confReset.
Proof.
  unfold Conf.confReset. rewrite reset_paths_raw. apply within_bind; [|intros ?; apply keeps_ret].
  apply keeps_iterM. intros p (d & -> & Hd)%list_elem_of_fmap. unfold Conf.reset_path.
  apply within_bind; [eauto with keeps|intros [|]; [|apply keeps_ret]].
  apply within_bind; [eauto with keeps|intros _]. destruct (1 <? debug); [apply keeps_ret|].
  apply keeps_rm_xml. by apply list_elem_of_fmap_2.
Qed.

(** ** The lists of devices and their items *)
Record names_ok (c : Configurator) : Prop := {
  names_dev : Forall no_slash (devname c); names_cmd : Forall no_slash (cmdname c);
  names_opt : Forall no_slash (optcmdname c); names_ls : Forall no_slash (lsname c) }.
Variable page : string -> string.
(** The name service gives names without slashes. *)
Hypothesis page_names : forall cat l, NS.getNames_of (page cat) "devices" cat = Some l -> Forall no_slash l.

Lemma names_of_ok cats l : Conf.names_of page cats = Some l -> Forall no_slash l.
Proof.
  revert l; induction cats as [|cat cats IH]; intros l; simpl; [by intros [= <-]|].
  destruct (NS.getNames_of (page cat) "devices" cat) as [l1|] eqn:E1; simpl; [|done].
  destruct (Conf.names_of page cats) as [l2|]; simpl; [|done]. intros [= <-].
  apply Forall_app. split; [by eapply page_names|by apply IH].
Qed.
Lemma keeps_make_path a l : keeps configured (Arc.make_path a l).
Proof.
  revert a. induction l as [|n [|n' l] IH]; intros a; [apply keeps_ret..|]. cbn [Arc.make_path]. cbv zeta.
  apply within_bindo; [|intros _; apply IH]. unfold Dirs.makeDir, crash. keeps_steps.
Qed.
Lemma keeps_addResource url src :
  configured (canon (Arc.one_slash (archiveHome hsrv_archive +:+ "/" +:+ url))) -> src <> "" -> keeps configured (addResource url src).
Proof.
  intros Hu Hs. unfold addResource. apply within_bind; [|intros [?|]; by intros w p].
  unfold Arc.addResource. apply within_bindo; [apply keeps_ret|]. intros absPath. rewrite (seqb_ne _ _ Hs). cbv zeta.
  apply within_bind; [eauto with keeps|]. intros f. rewrite andb_false_r.
  apply within_bindo; [apply keeps_make_path|]. intros _. apply within_bind; [eauto with keeps|]. intros g.
  destruct (negb g || true); [|apply keeps_ret]. apply within_bind; [|intros ?; apply keeps_ret].
  unfold Dirs.copyFile. change (FM.path_of (Arc.one_slash (archiveHome hsrv_archive +:+ "/" +:+ url)) "")
    with (Arc.one_slash (archiveHome hsrv_archive +:+ "/" +:+ url)). keeps_steps.
Qed.
Lemma keeps_saveItemList n l : n ∈ list_names -> keeps configured (saveItemList_names n "status" l).
Proof.
  intros Hn. assert (Ht : configured (canon (homedir +:+ "/tmp.xml"))) by by right; left.
  unfold saveItemList_names, saveItemList. cbv zeta. apply within_bind; [unfold write_out; keeps_steps|]. intros _. apply within_bind.
  - apply keeps_addResource; [|by destruct homedir]. right; right.
    change (canon (Arc.one_slash (archiveHome hsrv_archive +:+ "/" +:+ list_url n)) ∈ list_copies).
    by apply (list_elem_of_fmap_2 (fun n => canon (Arc.one_slash (archiveHome hsrv_archive +:+ "/" +:+ list_url n)))).
  - intros _. apply within_bind; [|intros ?; apply keeps_ret]. unfold Dirs.deleteFile.
    change (FM.path_of homedir "tmp.xml") with (homedir +:+ "/" +:+ "tmp.xml").
    change (homedir +:+ "/" +:+ "tmp.xml") with (homedir +:+ "/tmp.xml"). keeps_steps.
Qed.
Lemma keeps_names cats k :
  (forall l, Forall no_slash l -> keeps configured (k l)) ->
  keeps configured (bindo (lifto (Conf.names_of page cats)) k : M (option Configurator)).
Proof.
  intros Hk. apply (keeps_bindo_when _ (Forall no_slash)); [apply keeps_ret| |done].
  intros w l. apply names_of_ok.
Qed.
Lemma keeps_mkDeviceLists c : keeps configured (Conf.mkDeviceLists page c).
Proof.
  unfold Conf.mkDeviceLists.
  do 4 (apply keeps_names; intros ? ?; apply within_bind; [apply keeps_saveItemList; by apply (bool_decide_unpack _)|intros _]). apply keeps_ret.
Qed.
Lemma result_names cats (k : list string -> M (option Configurator)) w c :
  result (bindo (lifto (Conf.names_of page cats)) k) w = Some c ->
  exists l, Forall no_slash l /\ result (k l) w = Some c.
Proof.
  unfold result, lifto. rewrite bindo_run. unfold mret, M_ret. cbv iota beta.
  destruct (Conf.names_of page cats) as [l|] eqn:E; [|done]. intros H. exists l. split; [by eapply names_of_ok|done].
Qed.
Lemma mkDeviceLists_ok c w c' : result (Conf.mkDeviceLists page c) w = Some c' -> names_ok c'.
Proof.
  unfold Conf.mkDeviceLists. intros (l1 & H1 & E)%result_names. rewrite result_bind in E.
  apply result_names in E as (l2 & H2 & E). rewrite result_bind in E.
  apply result_names in E as (l3 & H3 & E). rewrite result_bind in E.
  apply result_names in E as (l4 & H4 & E). rewrite result_bind in E.
  injection E as <-. by split.
Qed.

(** The name of an item made from fields is its "$NAME". *)
Lemma item_name_of n l :
  Forall (fun kv => kv.1 <> "$NAME" /\ kv.1 <> "name") l -> Conf.item_name (fields_msg (("$NAME", n) :: l)) = n.
Proof.
  intros Hl. unfold Conf.item_name, fields_msg. simpl.
  assert (H : forall m, Msg.getString m "name" = "" -> Msg.getString m "$NAME" = n ->
    Conf.item_name (fold_left (fun m kv => Msg.add m kv.1 kv.2) l m) = n).
  { induction Hl as [|[k v] l [H1 H2] _ IH]; intros m E1 E2; simpl.
    - unfold Conf.item_name. by rewrite E1, E2.
    - apply IH; by rewrite getString_add_ne. }
  apply H; [by rewrite getString_add_ne|by apply getString_add_new].
Qed.
Lemma conf_dir path :
  path ∈ ["actions"; "tr_actions"; "rules"; "timedrules"; "eventcounters"; "conditions"; "tr_conditions"; "rulemanifest"] ->
  canon (configdir +:+ "/" +:+ path) ∈ conf_dirs.
Proof.
  intros H. apply list_elem_of_fmap_2, elem_of_app. left. by apply (list_elem_of_fmap_2 (fun d => configdir +:+ "/" +:+ d)).
Qed.
Lemma no_slash_app a b : no_slash a -> no_slash b -> no_slash (a +:+ b).
Proof. unfold no_slash. rewrite chars_app. set_solver. Qed.
Lemma good_fields path temp n l :
  path ∈ ["actions"; "tr_actions"; "rules"; "timedrules"; "eventcounters"; "conditions"; "tr_conditions"; "rulemanifest"] ->
  Forall (fun kv => kv.1 <> "$NAME" /\ kv.1 <> "name") l -> no_slash n ->
  good_item (fields_msg (("$NAME", n) :: l), path, temp).
Proof. intros Hp Hl Hn. split; simpl; [by apply conf_dir|by rewrite item_name_of]. Qed.
Ltac good_fields :=
  apply good_fields; [by apply (bool_decide_unpack _)|repeat constructor; done|].
Ltac no_slash := first [done | apply no_slash_app; [done|]]; by apply (bool_decide_unpack _).

Lemma good_actions path n :
  path = "actions" \/ path = "tr_actions" -> no_slash n -> Forall good_item (Conf.actions_of path n).
Proof.
  intros Hp Hn. unfold Conf.actions_of, Conf.action. apply Forall_cons_2; [|apply Forall_singleton].
  all: apply good_fields; [destruct Hp as [-> | ->]; by apply (bool_decide_unpack _)|repeat constructor; done|].
  all: unfold Conf.on_suffix, Conf.off_suffix; destruct (_ =s _); no_slash.
Qed.
Lemma good_rule_actions n : no_slash n -> Forall good_item (Conf.rule_actions n).
Proof.
  intros Hn. unfold Conf.rule_actions. apply Forall_app. split; [by apply good_actions; [left|]|].
  destruct (_ =s _); [|constructor]. apply Forall_singleton. unfold Conf.action. good_fields. no_slash.
Qed.
Lemma Forall_concat_map {A B} (Q : B -> Prop) (f : A -> list B) l :
  Forall (fun a => Forall Q (f a)) l -> Forall Q (concat (map f l)).
Proof. induction 1; simpl; [constructor|]. by apply Forall_app. Qed.

Lemma keeps_items c :
  names_ok c ->
  keeps configured (Conf.mkActions turns c) /\ keeps configured (Conf.mkEventcounters turns c) /\
  keeps configured (Conf.mkConditions turns c) /\ keeps configured (Conf.mkUserProgrammable turns c).
Proof.
  intros [Hd Hc Ho Hl]. split_and!.
  - apply keeps_mkItems, Forall_app. split; apply Forall_concat_map; eapply Forall_impl; try done; intros n Hn;
      [by apply good_rule_actions|by apply good_actions; [right|]].
  - apply keeps_mkItems. apply Forall_map. eapply Forall_impl; [exact Hd|]. intros n Hn. simpl. good_fields. done.
  - apply keeps_mkItems, Forall_concat_map. eapply Forall_impl; [exact Hl|]. intros n Hn.
    apply Forall_cons_2; [|apply Forall_singleton]; good_fields; done.
  - unfold Conf.mkUserProgrammable. destruct (negb _); [apply keeps_ret|].
    apply within_bindo; [|intros ?; apply keeps_ret]. apply keeps_mkItems. apply Forall_map.
    eapply Forall_impl; [exact Ho|]. intros n Hn. simpl. unfold Conf.user_rule. good_fields.
    by apply (no_slash_app "_" n); [apply (bool_decide_unpack _)|].
Qed.
Lemma keeps_mkTimedrules : keeps configured Conf.mkTimedrules.
Proof.
  assert (H : forall n, plain n -> n <> "" -> keeps configured (Conf.copy_triggered n)).
  { intros n Hn Hne. unfold Conf.copy_triggered. apply within_bind; [eauto with keeps|]. intros [|]; [|apply keeps_ret].
    apply within_bind; [|intros ?; apply keeps_ret].
    assert (Hd : configured (canon (FM.path_of (configdir +:+ "/timedrules") n))).
    { unfold FM.path_of. rewrite (seqb_ne n "") by done. simpl.
      change (configdir +:+ "/timedrules") with (configdir +:+ "/" +:+ "timedrules").
      apply configured_in; [|done]. apply conf_dir. by apply (bool_decide_unpack _). }
    unfold Dirs.copyFile. keeps_steps. }
  unfold Conf.mkTimedrules.
  do 2 (apply within_bind; [apply H; [split_and!; try done; by apply (bool_decide_unpack _)|done]|intros _]). apply keeps_ret.
Qed.

(** C17: the basic configuration only touches the files of the directories of the configuration, the temporary file through
    which lists are published, and the copies of the four lists of devices in the archive, when the names that the name service
    gives hold no slash; every other file is left as it was. *)
Theorem basicConf_frame c w p :
  ~ configured p -> w_files (final (Conf.basicConf turns page c) w) !! p = w_files w !! p.
Proof.
  revert w p. change (keeps configured (Conf.basicConf turns page c)). unfold Conf.basicConf.
  apply within_bind; [apply keeps_confReset|intros _].
  apply (keeps_bindo_when _ names_ok); [apply keeps_mkDeviceLists|intros w c'; apply mkDeviceLists_ok|].
  intros c' Hc. destruct (keeps_items c' Hc) as (H1 & H2 & H3 & H4).
  do 3 (apply within_bindo; [done|intros _]).
  apply within_bind; [apply keeps_mkTimedrules|intros _].
  apply within_bindo; [done|intros _]. apply keeps_ret.
Qed.
End frame.

(** ** Filling a template *)
Lemma strReplaceAll_dollars n s k v s' :
  k <> "" -> dollar ∉ chars v -> strReplaceAll n s k v = Some s' -> (dollars s' <= dollars s)%nat.
Proof.
  intros Hk Hv. revert s; induction n as [|n IH]; intros s; simpl; [done|].
  unfold strReplace. destruct (sfind k s 0) as [pos|] eqn:E; [|by intros [= <-]].
  intros H%IH. etransitivity; [exact H|]. destruct (sfind_split k s pos Hk E) as [Hs _]. rewrite Hs at 3.
  rewrite !dollars_app, (dollars_none v Hv). lia.
Qed.
Lemma dollars_until_nul l : (dollars (of_chars (until_nul l)) <= dollars (of_chars l))%nat.
Proof.
  unfold dollars. rewrite !chars_of_chars. induction l as [|c l IH]; simpl; [done|].
  destruct (c =c nul); simpl; [lia|]. destruct (c =c dollar); simpl; lia.
Qed.

Section fill.
Context {P : Platform} {C : Config} {FS : PathNames}.
(** No placeholder of the message has a "$" in its value. *)
Definition dollar_free (m : MMessage) : Prop := forall k, cget k 0 = dollar -> dollar ∉ chars (Msg.getString m k).
Lemma fill_items_total turns m l d :
  dollar_free m -> (dollars d < turns)%nat -> exists d', Conf.fill_items turns m l d = Some d'.
Proof.
  intros Hm. revert d; induction l as [|k l IH]; intros d Hd; simpl; [eauto|].
  destruct (cget k 0 =c "$") eqn:Ek; simpl; [|by apply IH].
  apply Ascii.eqb_eq in Ek. pose proof (Hm k Ek) as Hv.
  assert (Hk : (0 < dollars k)%nat).
  { destruct k as [|c k]; [done|]. cbv in Ek. subst c. unfold dollars. simpl. lia. }
  destruct (fill_loop_ends turns d k (Msg.getString m k) Hk Hv Hd) as (d' & E & _). rewrite E. simpl.
  apply IH. assert (Hne : k <> "") by by intros ->.
  pose proof (strReplaceAll_dollars _ _ _ _ _ Hne Hv E). lia.
Qed.

(** An item is made in finitely many turns, whatever its template, when no value of its
    message holds a "$": with more turns than the template has "$", the file of the item
    holds the filled template. *)
Lemma mkItem_terminates turns m path temp text w :
  dollar_free m -> Conf.item_name m <> "" ->
  w_files w !! canon (configdir +:+ "/templates/" +:+ temp) = Some text -> (dollars text < turns)%nat ->
  may_create (canon (Conf.item_path path (Conf.item_name m))) w = true ->
  exists d, Conf.fill_items turns m (map fst (map_items (fields m))) (of_chars (until_nul (chars text))) = Some d /\
    result (Conf.mkItem turns m path temp) w = Some "done" /\
    w_files (final (Conf.mkItem turns m path temp) w) !! canon (Conf.item_path path (Conf.item_name m)) = Some d.
Proof.
  intros Hm Hn Ht Hd Hc.
  destruct (fill_items_total turns m (map fst (map_items (fields m))) (of_chars (until_nul (chars text))) Hm) as [d E].
  { pose proof (dollars_until_nul (chars text)) as H. rewrite of_chars_chars in H. lia. }
  exists d. split; [done|]. set (p := Conf.item_path path (Conf.item_name m)) in *.
  assert (Er : Conf.mkItem turns m path temp w = (Some "done",
    set_files (<[canon p := d]> (w_files w)) w)).
  { unfold Conf.mkItem. rewrite (seqb_ne _ _ Hn). fold p. rewrite run_bind.
    unfold contents, read_file. unfold result at 1, final at 1. cbn [fst snd]. rewrite Ht, E.
    unfold lifto. rewrite bindo_run. unfold mret at 1, M_ret at 1. cbv iota beta.
    rewrite run_bind. unfold open_out. unfold result at 1, final at 1. rewrite Hc. cbn [fst snd].
    rewrite run_bind. unfold append, final. simpl. rewrite lookup_insert_eq. simpl. rewrite insert_insert_eq. done. }
  unfold result, final. rewrite Er. simpl. by rewrite lookup_insert_eq.
Qed.
End fill.

(** ** The rules of the user and the actions they name *)
Definition names_made (items : list (MMessage * string * string)) : list string :=
  map (fun x => Conf.item_name x.1.1) items.
Lemma made_actions path l :
  names_made (concat (map (Conf.actions_of path) l)) =
  concat (map (fun n => [n +:+ Conf.on_suffix n; n +:+ Conf.off_suffix n]) l).
Proof.
  induction l as [|n l IH]; simpl; [done|]. unfold names_made in *. simpl. rewrite IH. unfold Conf.action.
  by rewrite !item_name_of by (repeat constructor; done).
Qed.
Lemma elem_of_made x l :
  x ∈ concat (map (fun n => [n +:+ Conf.on_suffix n; n +:+ Conf.off_suffix n]) l) <->
  exists n, n ∈ l /\ (x = n +:+ Conf.on_suffix n \/ x = n +:+ Conf.off_suffix n).
Proof.
  induction l as [|n l IH]; simpl; [split; [by intros ?%not_elem_of_nil|by intros (? & ?%not_elem_of_nil & _)]|].
  rewrite !elem_of_cons, IH. split.
  - intros [-> | [-> | (m & Hm & H)]]; [exists n|exists n|exists m]; set_solver.
  - intros (m & [-> | Hm]%elem_of_cons & H); [tauto|]. right; right. eauto.
Qed.
(** Texts that end differently. *)
Ltac ends_differ H :=
  apply (f_equal (fun s => take 5 (rev (chars s)))) in H; rewrite !chars_app, !rev_app_distr in H; simpl in H; congruence.

(** The rules that the basic configuration offers to the user name the actions it makes exactly for the
    devices that are not shutters: the actions of a shutter end in "_pup" and "_pdown", and its
    rule names "_up" and "_down", which no list of devices gives. *)
Lemma user_rule_actions n l :
  n ∈ l -> 
  let made := names_made (concat (map (Conf.actions_of "tr_actions") l)) in
  if Conf.getCategory n =s "SH" then Conf.set_action n ∉ made /\ Conf.reset_action n ∉ made
  else Conf.set_action n ∈ made /\ Conf.reset_action n ∈ made.
Proof.
  intros Hn made. unfold made. rewrite made_actions. unfold Conf.set_action, Conf.reset_action.
  destruct (Conf.getCategory n =s "SH") eqn:E.
  - split; intros (m & _ & [H|H])%elem_of_made; unfold Conf.on_suffix, Conf.off_suffix in H;
      destruct (_ =s _) in H; ends_differ H.
  - rewrite !elem_of_made. unfold Conf.on_suffix, Conf.off_suffix. split; exists n; rewrite E; auto.
Qed.

(** ** Witnesses *)
Import Samples.Instances.
Definition lamp_item : MMessage := fields_msg [("$NAME", "lamp_on"); ("$TARGET", "lamp"); ("$VALUE", "ON")].
Definition action_template : string := "<action name='$NAME' to='$TARGET' value='$VALUE'/>".
Definition template_file : string := "/etc/hat/templates/action.xml".
Definition conf_world : world :=
  set_dirs {[ "/"; "/etc"; "/etc/hat"; "/etc/hat/actions"; "/etc/hat/templates"; "/home"; "/home/hat"; "/home/hat/status" ]}
    (set_files {[ template_file := action_template; "/etc/hat/actions/old.xml" := "<action/>" ]} (world_at early)).

Lemma dollar_free_fields m :
  map_Forall (fun _ l => dollar ∉ chars (ML.getString l)) (fields m) -> dollar_free m.
Proof.
  intros H k _. unfold Msg.getString. destruct (fields m !! k) eqn:E; [by apply (H k)|by apply (bool_decide_unpack _)].
Qed.

Definition sample_configurator : Configurator := mkConf [] [] [] [] "YES" "BI" "BO+SH" "SH" "BI".
(** One shutter is known. *)
Definition one_shutter (cat : string) : string :=
  if cat =s "SH" then "<item name=" +:+ quote "SH_hall" +:+ "/>" else "".
Lemma basicConf_frame_witness :
  w_files (final (Conf.basicConf 100 one_shutter sample_configurator) conf_world) !! template_file =
  Some action_template.
Proof.
  rewrite (basicConf_frame 100 one_shutter).
  - by vm_compute.
  - intros cat l. unfold one_shutter. destruct (cat =s "SH") eqn:E.
    + apply seqb_true in E as ->. intros H. vm_compute in H. injection H as <-.
      apply Forall_singleton. by apply (bool_decide_unpack _).
    + intros H. vm_compute in H. by injection H as <-.
  - intros [H|H]; revert H; apply (bool_decide_unpack _); vm_compute; exact I.
Defined.
(** The list of controlled devices is in the archive, and the temporary file is gone. *)
Example lists_are_archived :
  let w := final (Conf.basicConf 100 one_shutter sample_configurator) conf_world in
  w_files w !! "/home/hat/status/controldevices.xml" = Some (item_page "controldevices" [("SH_hall", "ON")]) /\
  w_files w !! "/home/hat/tmp.xml" = None.
Proof. vm_compute. done. Qed.
