(* ===== verification/Player.v ===== *)
(** * The media player agent (Player/rule.cpp, ruleset.cpp, RuleEngine.cpp, action.cpp, actionset.cpp, ActionEngine.cpp, Configurator.cpp)

    The agent has the event counters, conditions and rules of the Manager agent without its programs, and actions that
    are executed after a delay.  Rule.h declares the members of the Manager's rule, so a rule is a [Rule]; its
    construction, cycle, validity and status are the same text and are those of [RuleM] and [RS].  [PRule.match_] and what it answers
    differ.  The k-th action of a rule is delayed by k times the delay of the rule; each request to an action starts a
    thread, which reads the delay from the member the request left it in, sleeps, and sends the command.  [PAct] gives
    the steps of the requests, of the threads and of the join that removes them; any interleaving of them
    may happen.  The configurator is the one of the Manager without the switches of the lamps. *)
From S2P Require Import Prelude Doubles Hsrv Xml MMessage World MParams EventCounter Pages Rule Engines ProgramEngine Configurator.

(** ** Class Rule: what differs *)
Module PRule.
Implicit Types (r : Rule).
Section rule.
Context {P : Platform} {C : Config} {XP : XmlParser}.
Definition computeDelay r (n : nat) : string :=
  let adelay := RuleM.get r "delay" in
  if adelay =s "" then "0" else double2a (dmul (a2double adelay) (d_of_Z (Z.of_nat n))).
(** The index in the vector of answers counts from 0, as in the Manager. *)
Fixpoint push_actions r (source comment : string) (acts : list string) (j : nat) (answer : list MMessage) : list MMessage :=
  match acts with
  | [] => answer
  | a :: acts' =>
      let answer := answer ++ [Msg.mk "rlcmd" "todo"] in
      let answer := RuleM.add_at (S j) "action" a answer in
      let answer := RuleM.add_at (S j) "value" "ON" answer in
      let answer := RuleM.add_at (S j) "source" source answer in
      let answer := RuleM.add_at (S j) "comment" comment answer in
      let answer := if RuleM.get r "delay" <>s "" then RuleM.add_at (S j) "delay" (computeDelay r j) answer else answer in
      push_actions r source comment acts' (S j) answer
  end.
Definition push_answer r (source video comment : string) (answer : list MMessage) : list MMessage :=
  let answer := answer ++ [Msg.mk "alarm" (RuleM.get r "alarm")] in
  let answer := RuleM.add_at 0 "alarm" (RuleM.get r "alarm") answer in
  let answer := RuleM.add_at 0 "source" source answer in
  let answer := if video <>s "" then RuleM.add_at 0 "video" video answer else answer in
  let answer := RuleM.add_at 0 "comment" comment answer in
  push_actions r source comment (action r) 0 answer.
Definition status_guard (now : double) r : Rule + Rule :=
  if negb (status r) then inl r else inr (if negb (prcondition r) then RuleM.with_pr r true now else r).
Definition fire (now : double) (ec : list EventCounter) r (answer : list MMessage) : bool * Rule * list MMessage :=
  let '(n, source, video, comment) := RuleM.scan_counters r ec in
  let r := if mincond r <=? n then RuleM.with_ev r true now else RuleM.with_ev r false (evcondition_time r) in
  if negb (evcondition r) && negb (cycleactive r) then (false, r, answer)
  else if (0 <? mincond r) && dltb now (latentUntil r) then (false, r, answer)
  else if (mincond r =? 0) && negb (cycleactive r) && dltb (prcondition_time r) now &&
          dltb (tcondition_time r) now && dltb (fcondition_time r) now then (false, r, answer)
  else
    let latency := RuleM.get r "latency" in
    let lat := if (0 <? mincond r) && (cycle r <=? 0) && (latency <>s "") then dadd now (d_of_Z (a2int latency)) else latentUntil r in
    let r := RuleM.with_latent r lat false in
    (true, r, push_answer r source video comment answer).
Definition match_at (now : double) (ec : list EventCounter) (cnd : option (list BooleanCondition)) r
    (answer : list MMessage) : bool * Rule * list MMessage :=
  match status_guard now r with
  | inl r => (false, r, answer)
  | inr r =>
      match RuleM.true_guard now cnd r with
      | inl r => (false, r, answer)
      | inr r => match RuleM.false_guard now cnd r with inl r => (false, r, answer) | inr r => fire now ec r answer end
      end
  end.
Definition match_ (ec : list EventCounter) (cnd : option (list BooleanCondition)) r (answer : list MMessage)
    : M (bool * Rule * list MMessage) :=
  now ← gettime; mret (match_at now ec cnd r answer).
End rule.
End PRule.

(** ** Class RuleSet *)
Module PRS.
Section rs.
Context {P : Platform} {C : Config} {XP : XmlParser}.
Definition mk (dir : string) (filelist : list string) : M (option (list Rule)) :=
  l ← mapM_M (fun f => RuleM.mk dir (FilePath.getStem f)) filelist;
  match mapM id l with
  | None => mret None
  | Some l => l ← mapM_M RS.reload l; mret (mapM id l)
  end.
Fixpoint match_loop (l : list Rule) (ec : list EventCounter) (cnd : option (list BooleanCondition)) (counter : Z)
    (action : list MMessage) : M (Z * list Rule * list MMessage) :=
  match l with
  | [] => mret (counter, [], action)
  | r :: l' =>
      '(b, r, action) ← PRule.match_ ec cnd r action;
      '(counter, l', action) ← match_loop l' ec cnd (if b : bool then counter + 1 else counter) action;
      mret (counter, r :: l', action)
  end.
Definition isON (r : Rule) : bool := RuleM.get r "status" =s "ON".
Definition timeUpdate (l : list Rule) : M (list Rule) := mapM_M (fun r => '(_, r) ← RuleM.timeUpdate r; mret r) l.
Definition setStatus (l : list Rule) (name rstatus : string) : M (bool * list Rule) :=
  RS.on_first (fun r => RuleM.setStatus r rstatus) name l.
Definition setValidityTime (l : list Rule) (name from to : string) : M (bool * list Rule) :=
  RS.on_first (fun r => RuleM.setValidityTime r from to) name l.
Definition subjects (l : list Rule) (subj : MParams) : MParams := fold_left (fun subj r => RuleM.subjects r subj) l subj.
End rs.
End PRS.

(** ** Class RuleEngine *)
Record PlayRules := mkPR { pl_counter : list EventCounter; pl_condition : option (list BooleanCondition); pl_rule : list Rule }.
#[export] Instance PlayRules_rebuild : Rebuild PlayRules := fun e => mkPR (pl_counter e) (pl_condition e) (pl_rule e).
Module PRE.
Implicit Types (e : PlayRules).
Section re.
Context {P : Platform} {C : Config} {XP : XmlParser} {FS : PathNames} {Ar : Archived}.
(** The two parameter files are loaded and not used. *)
Definition mk (n : string) (ec_files : list string) (cond_files : option (list string)) (rule_files : list string)
    : M (option PlayRules) :=
  _ ←! Params.load (Params.mk1 ("threads/" +:+ n));
  _ ←! Params.load (Params.mk1 "params/wait_times.xml");
  ec ←! ECSet.mk "eventcounters" ec_files;
  cond ←! match cond_files with Some l => c ←! BCSet.mk "conditions" l; ok (Some c) | None => ok None end;
  rs ←! PRS.mk "rules" rule_files;
  ok (mkPR ec cond rs).
Definition makeRulePage (l : list Rule) : M bool :=
  iterM (fun r => publish (r_name r) (RE.rule_entry r)) l;; saveItemList "rules" "status" (status_items l);; mret true.
Definition match_and_notify e : M PlayRules :=
  '(_, rs, action_todo) ← PRS.match_loop (pl_rule e) (pl_counter e) (pl_condition e) 0 [];
  notify_all action_todo;; mret (e <| pl_rule := rs |>).
(** The rules are not updated when a counter has changed; otherwise they are, and matched in any case. *)
Definition on_eventupdate e : M PlayRules :=
  '(b, ec) ← ECSet.timeUpdate (pl_counter e);
  let e := e <| pl_counter := ec |> in
  rs ← (if b : bool then mret (pl_rule e) else PRS.timeUpdate (pl_rule e));
  match_and_notify (e <| pl_rule := rs |>).
Definition on_event e (msg : MMessage) : M PlayRules :=
  '(_, ec) ← ECSet.timeUpdate (pl_counter e);
  let cond := (fun l => (BCSet.eventUpdate l msg).2) <$> pl_condition e in
  '(_, ec, _) ← ECSet.eventUpdate ec msg;
  match_and_notify (e <| pl_counter := ec |> <| pl_condition := cond |>).
Definition on_setrulemode e (msg : MMessage) : M PlayRules :=
  let get := Msg.getString msg in
  '(_, rs) ← (if (get "status" =s "ON") || (get "status" =s "OFF") then PRS.setStatus (pl_rule e) (get "name") (get "status")
              else mret (false, pl_rule e));
  '(_, rs) ← (if (get "from" <>s "") && (get "to" <>s "") then PRS.setValidityTime rs (get "name") (get "from") (get "to")
              else mret (false, rs));
  makeRulePage rs;; mret (e <| pl_rule := rs |>).
(** One message of the loop of [do_work]. *)
Definition handle e (msg : MMessage) : M PlayRules :=
  let counters (f : list EventCounter -> M (list EventCounter)) :=
    l ← f (pl_counter e); RE.makeEventcounterPage l;; mret (e <| pl_counter := l |>) in
  let conditions (f : list BooleanCondition -> M (list BooleanCondition)) :=
    l ← f (default [] (pl_condition e)); RE.makeConditionPage l;; mret (e <| pl_condition := Some l |>) in
  let rules (f : list Rule -> M (list Rule)) := l ← f (pl_rule e); makeRulePage l;; mret (e <| pl_rule := l |>) in
  if is_msg msg "trigger" "eventupdate" then on_eventupdate e
  else if mtype msg =s "event" then on_event e msg
  else if is_msg msg "cmd" "seteventcounters" then counters (set_all msg)
  else if is_msg msg "cmd" "reseteventcounters" then counters reset_all
  else if is_msg msg "cmd" "setconditions" && bool_decide (is_Some (pl_condition e)) then conditions (set_all msg)
  else if is_msg msg "cmd" "resetconditions" && bool_decide (is_Some (pl_condition e)) then conditions reset_all
  else if is_msg msg "cmd" "setrulemode" then on_setrulemode e msg
  else if is_msg msg "cmd" "setrules" then rules (set_all msg)
  else if is_msg msg "cmd" "setvaliditytime" then
    let get := Msg.getString msg in
    '(_, rs) ← PRS.setValidityTime (pl_rule e) (get "rule") (get "from") (get "to"); mret (e <| pl_rule := rs |>)
  else if is_msg msg "cmd" "resetrules" then rules reset_all
  else mret e.
Definition start e : M unit := RE.makeEventcounterPage (pl_counter e);; makeRulePage (pl_rule e);; mret tt.
Definition getObservations e (obs : MParams) : MParams :=
  let obs := ECSet.observations (pl_counter e) obs in
  match pl_condition e with Some l => BCSet.observations l obs | None => obs end.
Definition getSubjects e (subj : MParams) : MParams := PRS.subjects (pl_rule e) (Params.add_cat subj "todo" "subject" "rlcmd").
End re.
End PRE.

(** ** Class Action: requests, threads, and the join that removes them *)

(** A thread that was made, one that sleeps before it sends its command, one that has ended. *)
Inductive worker := Begun | Asleep (m : MMessage) (wait : option (Z * Z)) | Ended.
Record PlayAction := mkPA { pa_params : MParams; pa_name : string; pa_delay : string; ths : list (double * worker) }.
#[export] Instance PlayAction_rebuild : Rebuild PlayAction := fun a => mkPA (pa_params a) (pa_name a) (pa_delay a) (ths a).
Module PAct.
Implicit Types (a : PlayAction).
Definition EXTRAWAIT : Z := 30.
Section act.
Context {P : Platform} {C : Config} {XP : XmlParser}.
Definition get a (n : string) : string := Params.get (pa_params a) n.
Definition mk (dir nm : string) : M (option PlayAction) :=
  l ←! Params.load (Params.mk2 dir nm);
  ok (mkPA l.2 (if Params.get l.2 "name" =s "" then nm else Params.get l.2 "name") "" []).
Definition setStatus a (value : string) : M (bool * PlayAction) :=
  let p := (Params.set (pa_params a) "status" value).2 in Params.save p;; mret (true, a <| pa_params := p |>).
(** The delay is left in the member also when the action is off; the first reading of the clock is not used. *)
Definition exec a (d : string) : M (bool * PlayAction) :=
  let a := a <| pa_delay := d |> in
  if get a "status" <>s "ON" then mret (false, a)
  else
    _ ← gettime;
    t ← gettime;
    let deadline := dadd (dadd t (ddiv (a2double d) (d_of_Z 10))) (d_of_Z EXTRAWAIT) in
    mret (true, a <| ths := ths a ++ [(deadline, Begun)] |>).
(** What a thread sends and how long it sleeps first, in seconds and nanoseconds. *)
Definition command a : MMessage := Msg.add (Msg.mk "cmd" (get a "cmd")) "value" (get a "value").
Definition to_int (x : double) : Z :=
  match Z_of_d x with Some z => if (-2 ^ 31 <=? z) && (z <? 2 ^ 31) then z else indet_int | None => indet_int end.
Definition sleep_time (d : string) : Z * Z :=
  let waittime := ddiv (a2double d) (d_of_Z 10) in
  let sec := to_int waittime in
  (sec, to_int (dmul (d_of_Z 1000000000) (dsub waittime (d_of_Z sec)))).
Definition work a : worker := Asleep (command a) (if pa_delay a <>s "" then Some (sleep_time (pa_delay a)) else None).
(** The first thread whose deadline is over: the join waits while it has not ended. *)
Inductive joined := Nothing | Waits | Erased (l : list (double * worker)).
Fixpoint join_first (now : double) (l : list (double * worker)) : joined :=
  match l with
  | [] => Nothing
  | (deadline, t) :: l' =>
      if dltb deadline now then match t with Ended => Erased l' | _ => Waits end
      else match join_first now l' with Erased l' => Erased ((deadline, t) :: l') | r => r end
  end.
Definition purge_expired a (now : double) : option (bool * PlayAction) :=
  match join_first now (ths a) with Nothing => Some (false, a) | Waits => None | Erased l => Some (true, a <| ths := l |>) end.
Definition subjects a (subj : MParams) : MParams := Params.add_cat subj (get a "cmd") "subject" "cmd".
Definition observations a (obs : MParams) : MParams := Params.add_cat obs (get a "name") "observe" "rlcmd".
Definition member a (n : string) : bool := get a "name" =s n.

(** The steps of the life of an action: a request, the start of a thread, the end of its sleep, a purge that joins a
    thread, a change of status.  A step that is not possible is [None]. *)
Inductive move := Request (d : string) | Begin (i : nat) | Wake (i : nat) | Join (now : double) | Status (v : string).
Definition set_worker a (i : nat) (t : worker) : PlayAction := a <| ths := alter (fun e => (e.1, t)) i (ths a) |>.
Definition step a (e : move) : M (option PlayAction) :=
  match e with
  | Request d => '(_, a) ← exec a d; ok a
  | Begin i => match ths a !! i with Some (_, Begun) => ok (set_worker a i (work a)) | _ => crash end
  | Wake i => match ths a !! i with Some (_, Asleep m _) => notify m;; ok (set_worker a i Ended) | _ => crash end
  | Join now => match purge_expired a now with Some (_, a) => ok a | None => crash end
  | Status v => '(_, a) ← setStatus a v; ok a
  end.
Fixpoint steps a (l : list move) : M (option PlayAction) :=
  match l with [] => ok a | e :: l' => a ←! step a e; steps a l' end.
End act.
End PAct.

(** ** Class ActionSet and class ActionEngine *)
Module PASet.
Section set.
Context {P : Platform} {C : Config} {XP : XmlParser}.
Definition mk_one (dir name : string) : M (option PlayAction) :=
  a ←! PAct.mk dir name; l ←! Params.load (pa_params a); ok (a <| pa_params := l.2 |>).
Definition mk (dir : string) (filelist : list string) : M (option (list PlayAction)) :=
  l ← mapM_M (fun f => mk_one dir (FilePath.getStem f)) filelist; mret (mapM id l).
Fixpoint setStatus (l : list PlayAction) (name value : string) : M (bool * list PlayAction) :=
  match l with
  | [] => mret (false, [])
  | a :: l' => if PAct.get a "name" =s name then '(b, a) ← PAct.setStatus a value; mret (b, a :: l')
               else '(b, l') ← setStatus l' name value; mret (b, a :: l')
  end.
Definition isActive (l : list PlayAction) (n : string) : bool :=
  existsb (fun a => (PAct.get a "name" =s n) && (PAct.get a "status" =s "ON")) l.
Fixpoint exec (l : list PlayAction) (name d : string) : M (bool * list PlayAction) :=
  match l with
  | [] => mret (false, [])
  | a :: l' => if PAct.get a "name" =s name then '(b, a) ← PAct.exec a d; mret (b, a :: l')
               else '(b, l') ← exec l' name d; mret (b, a :: l')
  end.
Definition member (l : list PlayAction) (n : string) : bool := existsb (fun a => PAct.member a n) l.
Definition subjects (l : list PlayAction) (subj : MParams) : MParams := fold_left (fun s a => PAct.subjects a s) l subj.
Definition observations (l : list PlayAction) (obs : MParams) : MParams := fold_left (fun s a => PAct.observations a s) l obs.
(** [while(purge_expired(tt));] of one action takes one turn per thread at most and one more; [None]: it waits for a thread. *)
Fixpoint purge_loop (n : nat) (a : PlayAction) (now : double) : option PlayAction :=
  match n with
  | O => None
  | S n => '(again, a) ← PAct.purge_expired a now; if again : bool then purge_loop n a now else Some a
  end.
Definition purge_expired (l : list PlayAction) : M (option (list PlayAction)) :=
  now ← gettime; mret (mapM (fun a => purge_loop (S (length (ths a))) a now) l).
End set.
End PASet.
Module PAE.
Section ae.
Context {P : Platform} {C : Config} {XP : XmlParser} {FS : PathNames} {Ar : Archived}.
Definition makeActionPage (l : list PlayAction) : M bool :=
  saveItemList "actions" "status" (map (fun a => (PAct.get a "name", PAct.get a "status")) l);; mret true.
Definition set_one (msg : MMessage) (a : PlayAction) : M PlayAction :=
  let v := Msg.getString msg (PAct.get a "name") in
  if (v =s "ON") || (v =s "OFF") then '(_, a) ← PAct.setStatus a v; mret a else mret a.
(** One message of the loop of [do_work]; [None]: the engine waits for a thread. *)
Definition handle (l : list PlayAction) (msg : MMessage) : M (option (list PlayAction)) :=
  if is_msg msg "cmd" "setactions" then l ← mapM_M (set_one msg) l; makeActionPage l;; ok l
  else if is_msg msg "cmd" "resetactions" then
    l ← mapM_M (fun a => '(_, a) ← PAct.setStatus a "ON"; mret a) l; makeActionPage l;; ok l
  else if (mtype msg =s "rlcmd") && PASet.member l (Msg.getString msg "action") then
    '(_, l) ← PASet.exec l (Msg.getString msg "action") (Msg.getString msg "delay"); PASet.purge_expired l
  else ok l.
Definition getSubjects (l : list PlayAction) (subj : MParams) : MParams := PASet.subjects l subj.
End ae.
End PAE.

(** ** Class Configurator: what differs *)
Module PConf.
Section conf.
Context {P : Platform} {C : Config} {XP : XmlParser} {FS : PathNames} {Ar : Archived}.
Variable turns : nat.
Definition mkActions (c : Configurator) : M (option unit) :=
  Conf.mkItems turns (concat (map (Conf.actions_of "actions") (cmdname c)) ++ concat (map (Conf.actions_of "tr_actions") (optcmdname c))).
Definition basicConf (page : string -> string) (c : Configurator) : M (option (string * Configurator)) :=
  Conf.confReset;;
  c ←! Conf.mkDeviceLists page c;
  _ ←! mkActions c; _ ←! Conf.mkEventcounters turns c; _ ←! Conf.mkConditions turns c;
  Conf.mkTimedrules;;
  _ ←! Conf.mkUserProgrammable turns c;
  ok ("done", c).
End conf.
End PConf.
