(* ===== verification/PlayerClaims.v ===== *)
(** * Properties of the media player: its rules are those of the Manager, and its delayed actions *)
From S2P Require Import Prelude Doubles Hsrv Xml MMessage World MParams EventCounter Samples Rule Player.

(** ** The rules *)
Section rules.
Context {P : Platform} {C : Config} {XP : XmlParser}.
Lemma push_actions_always r active source comment acts j answer :
  behavior r = "always" -> RuleM.get r "delay" = "" ->
  PRule.push_actions r source comment acts j answer = RuleM.push_actions r active source comment acts (S j) answer.
Proof.
  intros Hb Hd. revert j answer. induction acts as [|a acts IH]; intros j answer; [done|]. simpl.
  unfold RuleM.isNotMember. rewrite Hb, Hd. simpl. by rewrite IH.
Qed.
Lemma push_answer_always r active source video comment answer :
  behavior r = "always" -> RuleM.get r "delay" = "" ->
  PRule.push_answer r source video comment answer = RuleM.push_answer r active source video comment answer.
Proof. intros Hb Hd. unfold PRule.push_answer, RuleM.push_answer. by rewrite (push_actions_always _ active). Qed.
Lemma fire_always now active ec r answer :
  behavior r = "always" -> RuleM.get r "delay" = "" -> PRule.fire now ec r answer = RuleM.fire now active ec r answer.
Proof.
  intros Hb Hd. unfold PRule.fire, RuleM.fire. destruct (RuleM.scan_counters r ec) as [[[n source] video] comment].
  destruct (mincond r <=? n); repeat (case_match; [done|]); by rewrite (push_answer_always _ active).
Qed.
(** A guard changes neither the parameters of the rule nor its mode. *)
Definition same_rule (r r' : Rule) : Prop := behavior r' = behavior r /\ r_params r' = r_params r.
Lemma true_guard_same now cnd r r' : RuleM.true_guard now cnd r = inr r' -> same_rule r r'.
Proof. unfold RuleM.true_guard. repeat case_match; intros [= <-]; done. Qed.
Lemma false_guard_same now cnd r r' : RuleM.false_guard now cnd r = inr r' -> same_rule r r'.
Proof. unfold RuleM.false_guard. repeat case_match; intros [= <-]; done. Qed.
Lemma status_guard_same now r r' : PRule.status_guard now r = inr r' -> same_rule r r'.
Proof. unfold PRule.status_guard. repeat case_match; intros [= <-]; done. Qed.
(** A rule of the player without a delay is the rule of the Manager in mode "always", whatever program is on. *)
Lemma player_rule_is_manager_rule now active prgstatus ec cnd r answer :
  behavior r = "always" -> RuleM.get r "delay" = "" ->
  PRule.match_at now ec cnd r answer = RuleM.match_at now active prgstatus ec cnd r answer.
Proof.
  intros Hb Hd. unfold PRule.match_at, RuleM.match_at.
  assert (E : RuleM.program_guard now active prgstatus r = PRule.status_guard now r)
    by (unfold RuleM.program_guard, PRule.status_guard; by rewrite Hb).
  rewrite E. destruct (PRule.status_guard now r) as [r1|r1] eqn:E1; [done|]. apply status_guard_same in E1 as [B1 P1].
  destruct (RuleM.true_guard now cnd r1) as [r2|r2] eqn:E2; [done|]. apply true_guard_same in E2 as [B2 P2].
  destruct (RuleM.false_guard now cnd r2) as [r3|r3] eqn:E3; [done|]. apply false_guard_same in E3 as [B3 P3].
  apply fire_always; [congruence|]. unfold RuleM.get in *. congruence.
Qed.
End rules.

(** ** The actions *)
Section actions.
Context {P : Platform} {C : Config} {XP : XmlParser}.
Implicit Types (a : PlayAction).
(** The threads that have not sent their command yet. *)
Definition unsent (e : double * worker) : bool := match e.2 with Ended => false | _ => true end.
Definition pending a : nat := length (List.filter unsent (ths a)).
Definition requests (l : list PAct.move) : nat := length (List.filter (fun e => match e with PAct.Request _ => true | _ => false end) l).
Definition no_status (e : PAct.move) : bool := match e with PAct.Status _ => false | _ => true end.
(** Every thread that sleeps holds the command of the action. *)
Definition holds (m : MMessage) (e : double * worker) : Prop := match e.2 with Asleep m' _ => m' = m | _ => True end.

Lemma filter_alter (l : list (double * worker)) i t e :
  l !! i = Some e -> unsent e = true ->
  length (List.filter unsent (alter (fun e => (e.1, t)) i l)) =
    (length (List.filter unsent l) - (if unsent (e.1, t) then 0 else 1))%nat.
Proof.
  revert i. induction l as [|x l IH]; intros [|i]; simpl; [done..| |].
  - intros [= ->] He. rewrite He. destruct (unsent (e.1, t)); simpl; lia.
  - intros Hi He. change (list_alter ?f i l) with (alter f i l). specialize (IH i Hi He).
    assert (0 < length (List.filter unsent l))%nat.
    { apply list_elem_of_lookup_2, list_elem_of_In in Hi. destruct (List.filter unsent l) eqn:E; [|simpl; lia].
      exfalso. assert (In e []) by (rewrite <- E; by apply filter_In). done. }
    destruct (unsent x); simpl; rewrite IH; destruct (unsent (e.1, t)); lia.
Qed.
Lemma join_first_pending now l l' :
  PAct.join_first now l = PAct.Erased l' -> length (List.filter unsent l') = length (List.filter unsent l) /\ l' ⊆ l.
Proof.
  revert l'. induction l as [|[d t] l IH]; intros l'; simpl; [done|]. destruct (dltb d now).
  - destruct t; [done..|]. intros [= <-]. split; [done|]. set_solver.
  - destruct (PAct.join_first now l) as [| |r]; [done..|]. intros [= <-]. destruct (IH r eq_refl) as [H1 H2].
    simpl. split; [|set_solver]. destruct (unsent (d, t)); simpl; congruence.
Qed.
Lemma Forall_alter_holds m i t (l : list (double * worker)) :
  Forall (holds m) l -> (forall d, holds m (d, t)) -> Forall (holds m) (alter (fun e => (e.1, t)) i l).
Proof. intros Hl Ht. apply Forall_alter; [done|]. intros x _ _. apply Ht. Qed.
(** After a step of an action that is on: what was sent and what is pending account for the requests. *)
Definition accounts a a' (w w' : world) (n : nat) : Prop :=
  pa_params a' = pa_params a /\ Forall (holds (PAct.command a)) (ths a') /\
  exists t k, w_trace w' = w_trace w ++ t /\ sent t = replicate k (PAct.command a) /\ (k + pending a' = pending a + n)%nat.
Lemma accounts_quiet a a' w w' n :
  pa_params a' = pa_params a -> Forall (holds (PAct.command a)) (ths a') -> w_trace w' = w_trace w ->
  pending a' = (pending a + n)%nat -> accounts a a' w w' n.
Proof. intros H1 H2 H3 H4. split_and!; [done..|]. exists [], 0%nat. by rewrite app_nil_r. Qed.
Lemma step_accounts a e w a' w' :
  no_status e = true -> PAct.get a "status" = "ON" -> Forall (holds (PAct.command a)) (ths a) ->
  PAct.step a e w = (Some a', w') -> accounts a a' w w' (requests [e]).
Proof.
  intros Hn Hs Hh. destruct e as [d|i|i|now|v]; cbn [PAct.step]; [| | | |done].
  - unfold PAct.exec. change (PAct.get (a <| pa_delay := d |>) "status") with (PAct.get a "status"). rewrite Hs, seqb_refl. simpl.
    unfold_M. intros [= <- <-]. apply accounts_quiet; [done| |done|].
    + simpl. apply Forall_app. split; [done|]. by repeat constructor.
    + unfold pending. simpl. rewrite List.filter_app, length_app. done.
  - destruct (ths a !! i) as [[d [| |]]|] eqn:E; try (by intros [=]). intros [= <- <-].
    apply accounts_quiet; [done| |done|].
    + apply Forall_alter_holds; [done|]. by intros ?.
    + unfold pending, requests. simpl. rewrite (filter_alter _ _ _ _ E) by done. simpl. lia.
  - destruct (ths a !! i) as [[d [|m wait|]]|] eqn:E; try (by intros [=]). rewrite run_bind. intros [= <- <-].
    assert (Em : m = PAct.command a).
    { rewrite Forall_forall in Hh. by apply (Hh (d, Asleep m wait)), list_elem_of_lookup_2 with i. }
    split_and!; [done|by apply Forall_alter_holds|]. exists [Notified m], 1%nat. split_and!; [done|by rewrite Em|].
    unfold pending, requests. simpl. rewrite (filter_alter _ _ _ _ E) by done. simpl.
    assert (0 < length (List.filter unsent (ths a)))%nat; [|lia].
    apply list_elem_of_lookup_2, list_elem_of_In in E. destruct (List.filter unsent (ths a)) eqn:F; [|simpl; lia].
    assert (In (d, Asleep m wait) []) by (rewrite <- F; by apply filter_In). done.
  - unfold PAct.purge_expired. destruct (PAct.join_first now (ths a)) as [| |l] eqn:E; [|by intros [=]|]; intros [= <- <-].
    + apply accounts_quiet; [done..|]. by rewrite Nat.add_0_r.
    + destruct (join_first_pending _ _ _ E) as [Hp Hi]. apply accounts_quiet; [done| |done|].
      * rewrite Forall_forall in Hh |- *. intros x Hx. by apply Hh, Hi.
      * unfold pending. simpl. by rewrite Hp, Nat.add_0_r.
Qed.
Lemma accounts_trans a a1 a2 w w1 w2 n1 n2 :
  accounts a a1 w w1 n1 -> accounts a1 a2 w1 w2 n2 -> accounts a a2 w w2 (n1 + n2).
Proof.
  intros (P1 & H1 & t1 & k1 & E1 & S1 & N1) (P2 & H2 & t2 & k2 & E2 & S2 & N2).
  assert (Ec : PAct.command a1 = PAct.command a) by (unfold PAct.command, PAct.get; by rewrite P1). rewrite Ec in *.
  split_and!; [congruence|done|]. exists (t1 ++ t2), (k1 + k2)%nat.
  split_and!; [by rewrite E2, E1, (assoc_L (++))|by rewrite sent_app, S1, S2, replicate_add|lia].
Qed.
Lemma steps_account a l w a' w' :
  Forall (fun e => no_status e = true) l -> PAct.get a "status" = "ON" -> Forall (holds (PAct.command a)) (ths a) ->
  PAct.steps a l w = (Some a', w') -> accounts a a' w w' (requests l).
Proof.
  revert a w. induction l as [|e l IH]; intros a w Hn Hs Hh; cbn [PAct.steps].
  - intros [= <- <-]. apply accounts_quiet; [done..|]. unfold requests. simpl. lia.
  - apply Forall_cons in Hn as [He Hl]. rewrite bindo_run. destruct (PAct.step a e w) as [[a1|] w1] eqn:E; [|done]. intros H.
    pose proof (step_accounts _ _ _ _ _ He Hs Hh E) as H1. pose proof H1 as (P1 & Hh1 & _).
    assert (Eg : PAct.get a1 "status" = "ON") by (unfold PAct.get in *; by rewrite P1).
    assert (Ec : PAct.command a1 = PAct.command a) by (unfold PAct.command, PAct.get; by rewrite P1).
    replace (requests (e :: l)) with (requests [e] + requests l)%nat by (unfold requests; simpl; destruct e; done).
    eapply accounts_trans; [exact H1|]. apply IH; [done|done| |done]. by rewrite Ec.
Qed.
(** C25: whatever the interleaving of its requests and threads, an action that is on sends its command once for each request:
    when no thread is left that has still to send, as many commands have been sent as there were requests. *)
Theorem requests_become_commands a l w a' w' :
  PAct.get a "status" = "ON" -> ths a = [] -> Forall (fun e => no_status e = true) l ->
  PAct.steps a l w = (Some a', w') -> pending a' = 0%nat ->
  sent_by (PAct.steps a l) w = replicate (requests l) (PAct.command a).
Proof.
  intros Hs Ht Hl H Hp. destruct (steps_account a l w a' w') as (_ & _ & t & k & E & S & N); [done|done| |done|].
  { rewrite Ht. constructor. }
  rewrite (sent_by_trace _ _ t); [|by unfold final; rewrite H].
  rewrite S. f_equal. unfold pending in N at 2. rewrite Ht in N. simpl in N. lia.
Qed.

(** ** Delays *)

Lemma request_on a d w :
  PAct.get a "status" = "ON" ->
  exists t w', PAct.step a (PAct.Request d) w = (Some (a <| pa_delay := d |> <| ths := ths a ++ [(t, Begun)] |>), w').
Proof.
  intros Hs. cbn [PAct.step]. unfold PAct.exec. change (PAct.get (a <| pa_delay := d |>) "status") with (PAct.get a "status").
  rewrite Hs, seqb_refl. simpl. unfold_M. by eexists _, _.
Qed.
Definition sleeping a (d : string) : worker := Asleep (PAct.command a) (if d <>s "" then Some (PAct.sleep_time d) else None).
Lemma begin_run a i t w :
  ths a !! i = Some (t, Begun) ->
  PAct.step a (PAct.Begin i) w = (Some (a <| ths := alter (fun e => (e.1, sleeping a (pa_delay a))) i (ths a) |>), w).
Proof. intros H. cbn [PAct.step]. by rewrite H. Qed.
(** A thread that starts before the next request sleeps for the delay of its own. *)
Lemma prompt_thread_keeps_its_delay a d w :
  PAct.get a "status" = "ON" ->
  exists t w', PAct.steps a [PAct.Request d; PAct.Begin (length (ths a))] w =
    (Some (a <| pa_delay := d |> <| ths := ths a ++ [(t, sleeping a d)] |>), w').
Proof.
  intros Hs. cbn [PAct.steps]. rewrite bindo_run. destruct (request_on a d w Hs) as (t & w1 & ->).
  rewrite bindo_run, (begin_run _ _ t) by (simpl; by rewrite lookup_app_r, Nat.sub_diag). exists t, w1.
  unfold ok, mret, M_ret. do 2 f_equal. simpl. by rewrite alter_app_r_alt, Nat.sub_diag.
Qed.
(** Of two requests that come before their threads start, both sleep for the delay of the second. *)
Lemma late_thread_takes_the_next_delay a d1 d2 w :
  PAct.get a "status" = "ON" -> ths a = [] ->
  exists t1 t2 w', PAct.steps a [PAct.Request d1; PAct.Request d2; PAct.Begin 0; PAct.Begin 1] w =
    (Some (a <| pa_delay := d2 |> <| ths := [(t1, sleeping a d2); (t2, sleeping a d2)] |>), w').
Proof.
  intros Hs Ht. cbn [PAct.steps]. rewrite bindo_run. destruct (request_on a d1 w Hs) as (t1 & w1 & ->).
  rewrite bindo_run. set (a1 := _ <| ths := _ |>). destruct (request_on a1 d2 w1 Hs) as (t2 & w2 & ->).
  subst a1. rewrite bindo_run, (begin_run _ 0 t1) by (simpl; by rewrite Ht).
  rewrite bindo_run, (begin_run _ 1 t2) by (simpl; by rewrite Ht). exists t1, t2, w2. simpl. by rewrite Ht.
Qed.

(** ** The join *)

(** The purge after a request removes the threads whose deadline is over, and these only, when all of them have ended. *)
Lemma join_first_ended now l :
  Forall (fun e => dltb e.1 now = true -> e.2 = Ended) l ->
  match PAct.join_first now l with
  | PAct.Nothing => List.filter (fun e => negb (dltb e.1 now)) l = l
  | PAct.Waits => False
  | PAct.Erased l' => List.filter (fun e => negb (dltb e.1 now)) l' = List.filter (fun e => negb (dltb e.1 now)) l /\
                      length l = S (length l') /\ l' ⊆ l
  end.
Proof.
  induction l as [|[d t] l IH]; intros H; [done|]. apply Forall_cons in H as [Hd Hl]. simpl in *. specialize (IH Hl).
  destruct (dltb d now) eqn:E.
  - rewrite (Hd eq_refl). simpl. split_and!; [done|done|set_solver].
  - destruct (PAct.join_first now l) as [| |r]; simpl; [by rewrite IH|done|].
    rewrite E. simpl. destruct IH as (-> & -> & Hi). split_and!; [done|done|set_solver].
Qed.
Lemma purge_removes_expired n a now :
  Forall (fun e => dltb e.1 now = true -> e.2 = Ended) (ths a) -> (length (ths a) < n)%nat ->
  PASet.purge_loop n a now = Some (a <| ths := List.filter (fun e => negb (dltb e.1 now)) (ths a) |>).
Proof.
  revert a. induction n as [|n IH]; intros a H Hn; [lia|]. cbn [PASet.purge_loop]. unfold PAct.purge_expired.
  pose proof (join_first_ended now (ths a) H) as J. destruct (PAct.join_first now (ths a)) as [| |l].
  - simpl. rewrite J. by destruct a.
  - done.
  - destruct J as (Ef & El & Hi). cbn [option_bind mbind]. simpl. rewrite IH; simpl.
    + by rewrite Ef.
    + rewrite Forall_forall in H |- *. auto.
    + lia.
Qed.
End actions.

(** ** Witnesses *)
Import Samples.Instances.
Definition play_params : MParams := Params.add (Params.add (Params.add (Params.mk1 "play") "status" "ON") "cmd" "PL_music") "value" "on".
Definition play : PlayAction := mkPA play_params "play" "" [].
Definition two_plays : list PAct.move :=
  [PAct.Request "10"; PAct.Begin 0; PAct.Request ""; PAct.Begin 1; PAct.Wake 1; PAct.Wake 0; PAct.Join d0].
Lemma requests_become_commands_witness :
  sent_by (PAct.steps play two_plays) (world_at early) = replicate 2 (PAct.command play).
Proof.
  assert (H : pending <$> (PAct.steps play two_plays (world_at early)).1 = Some 0%nat) by (by vm_compute).
  destruct (PAct.steps play two_plays (world_at early)) as [[a'|] w'] eqn:E; [|done]. simpl in H. injection H as Hp.
  apply (requests_become_commands play two_plays (world_at early) a' w').
  - by vm_compute.
  - done.
  - by repeat constructor.
  - exact E.
  - exact Hp.
Defined.
