(* ===== verification/Users.v ===== *)
(** * The translation table of the interface server (WSServer/TransTab.cpp)

    A request of the graphical client (a path and a method) is translated into a command for an agent by the first
    entry that matches it, and the agent's answer is translated back.  An entry is a parameter set whose prefix says
    where in the path the name, the agent and the value stand.

    The second part holds the users, their passwords and what they may do (AuthManager*.cpp, User.cpp, JParser.cpp). *)
From S2P Require Import Prelude Doubles Hsrv Xml MMessage World MParams Archive ArchiveOps.

Record TransEntry := mkEntry {
  te_par : MParams; prefix : list string; te_method : string; te_category : string;
  nameindex : nat; agentindex : nat; valueindex : nat }.

Module TE.
Implicit Types (e : TransEntry) (params : list string).

Definition name_marks : list string := ["$NAME"; "$NAME.json"].
Definition value_marks : list string := ["$VALUE"; "$VALUE.json"].
Definition variable_marks : list string := ["$NAME"; "$AGENT"; "$VALUE"; "$VALUE.json"; "$NAME.json"].
(** The last position of one of the marks. *)
Fixpoint index_of_mark (marks : list string) (i : nat) (l : list string) (cur : nat) : nat :=
  match l with
  | [] => cur
  | x :: l' => index_of_mark marks (S i) l' (if NameList.member marks x then i else cur)
  end.

Section entry.
Context {P : Platform}.
(** Neither constructor sets the index of the value; the second leaves the other two unset too. *)
Definition unset : nat := Z.to_nat indet_unsigned.
Definition noentry : TransEntry := mkEntry (mkParams "nonname" "/tmp" "/tmp" []) [] "" "NULL" unset unset unset.
Definition of_params (p : MParams) : TransEntry :=
  let pre := NameList.of_string (Params.get p "prefix") "/" in
  mkEntry p pre (Params.get p "method") (Params.get p "class")
    (index_of_mark name_marks 0 pre 0) (index_of_mark ["$AGENT"] 0 pre 0) (index_of_mark value_marks 0 pre unset).
End entry.
Definition isnoentry e : bool := te_category e =s "NULL".

(** ** Matching *)
Definition starts_with (s p : string) : bool := bool_decide (sfind p s 0 = Some 0%nat).
Fixpoint match_loop (cat : string) (params pre : list string) : bool :=
  match params, pre with
  | x :: params', m :: pre' =>
      if (x <>s m) && negb (NameList.member variable_marks m) then false
      else if NameList.member name_marks m && negb (starts_with x cat) then false
      else match_loop cat params' pre'
  | _, _ => true
  end.
Definition match_ e params (mtd : string) : bool :=
  (length params =? length (prefix e))%nat && (te_method e =s mtd) && match_loop (te_category e) params (prefix e).

(** ** The parts of a path *)
(** The characters up to a dot; the loop also compares its index with the character itself, as a number. *)
Fixpoint before_dot (i : nat) (l : list ascii) : list ascii :=
  match l with
  | [] => []
  | c :: l' =>
      if (c =c ".") || ((nat_of_ascii c <? 128) && (nat_of_ascii c <=? i))%nat then []
      else c :: before_dot (S i) l'
  end%char.
Definition part_at (i : nat) params : string :=
  if (i <? length params)%nat && (0 <? i)%nat then of_chars (before_dot 0 (chars (nth i params ""))) else "".
Definition getName e params : string := part_at (nameindex e) params.
Definition getAgent e params : string :=
  if (agentindex e <? length params)%nat && (0 <? agentindex e)%nat then nth (agentindex e) params "" else "".
Definition replaceSpaces (v : string) : string := of_chars (map (fun c => if c =c " " then "+" else c)%char (chars v)).
Definition getValue e params : string := replaceSpaces (part_at (valueindex e) params).
Definition getEvent e params : string :=
  if (length params <=? nameindex e)%nat then ""
  else
    let name := nth (nameindex e) params "" in
    let event := Params.get (te_par e) "event" in
    if event =s "" then name else (strReplace event "$NAME" name).2.
Definition convert_one (x : string) : string :=
  if (x =s "ON") || (x =s "1") then "true" else if (x =s "OFF") || (x =s "0") then "false" else x.
Definition convertValue (v : string) : string :=
  fold_left (fun res x => (if res <>s "" then res +:+ "+" else res) +:+ convert_one x) (NameList.of_string v "+") "".

(** ** From a request to a command *)
Definition nv2av e params (nv : string) : string := if nv =s "$VALUE" then getValue e params else nv.
Definition rpc2cmd e params (body : string) : MMessage :=
  if isnoentry e then Msg.mk "NULL" "*"
  else
    let url := Params.get (te_par e) "url" in
    let finish m :=
      let m := Msg.set_subtype (Msg.set_type m "cmd") (getName e params) in
      if msubtype m =s "" then Msg.set_subtype m (Params.get (te_par e) "cmdname") else m in
    if url <>s "" then
      let url := (strReplace (strReplace url "$VALUE" (getValue e params)).2 "$NAME" (getName e params)).2 in
      let m := Msg.add Msg.dummy "url" url in
      finish (if body <>s "" then Msg.add m "body" body else m)
    else
      match NameList.of_string (Params.get (te_par e) "cmd") "=" with
      | k :: v :: _ => finish (Msg.add Msg.dummy k (nv2av e params v))
      | _ => Msg.mk "NULL" "*"
      end.

(** ** From the answer to JSON *)
Fixpoint skip_while (p : ascii -> bool) (l : list ascii) : list ascii :=
  match l with [] => [] | c :: l' => if p c then skip_while p l' else l end.
Fixpoint take_until (p : ascii -> bool) (l : list ascii) : list ascii :=
  match l with [] => [] | c :: l' => if p c then [] else c :: take_until p l' end.
Definition dquote : ascii := Ascii.ascii_of_nat 34.
Definition extractValue (body keyword : string) : string :=
  match sfind keyword body 0 with
  | None => ""
  | Some pos =>
      let l := skip_while (fun c => negb (c =c "="%char)) (chars (drop_str pos body)) in
      let l := skip_while (fun c => (c =c dquote) || (c =c " "%char) || (c =c "="%char)) l in
      of_chars (take_until (fun c => (c =c dquote) || (c =c ","%char)) l)
  end.
Definition replace (s dst src : string) : string := (strReplace s dst src).2.
Definition xml2jsonBody e (msg : string) : string :=
  let body := Params.get (te_par e) "answer" in
  let body := replace body "$TRUEFALSE" (if contains "done" msg then "true" else "false") in
  let body := replace body "$STATUS" (extractValue msg "done:value") in
  replace body "$COLOR" (extractValue msg "color").
Definition shutter_status (value : string) : string :=
  if value =s "UP" then "up" else if value =s "DOWN" then "down" else "off".
Definition xml2jsonStatus e (msg : string) : string :=
  let body := replace (Params.get (te_par e) "answer") "$NAME" (extractValue msg "name") in
  let value := extractValue msg "value" in
  let category := Params.get (te_par e) "class" in
  let body :=
    if (category <>s "SH") && (category <>s "DI") && (category <>s "RG") then
      replace body "$TRUEFALSE" (convertValue value)
    else if category =s "SH" then replace body "$STATUS" (shutter_status value)
    else replace body "$STATUS" value in
  replace body "$COLOR" (extractValue msg "color").
End TE.

(** ** Class TransTab *)
Module TT.
Section table.
Context {P : Platform} {C : Config} {XP : XmlParser} {FS : PathNames}.
Definition load_entry (dir file : string) : M (option TransEntry) :=
  _ ←! Dirs.makeDir (homedir +:+ "/" +:+ dir) false;
  r ←! Params.load (Params.mk2 dir file); ok (TE.of_params r.2).
Fixpoint load_entries (dir : string) (l : list string) : M (option (list TransEntry)) :=
  match l with
  | [] => ok []
  | f :: l' => e ←! load_entry dir (FilePath.getStem f); es ←! load_entries dir l'; ok (e :: es)
  end.
Definition mk (dir : string) : M (option (list TransEntry)) :=
  let path := configdir +:+ "/" +:+ dir in
  d ← Dirs.isDir path;
  if d : bool then l ← Dirs.fileList path []; load_entries dir l.2 else ok [].
Definition get (t : list TransEntry) (params : list string) (mtd : string) : TransEntry :=
  match List.filter (fun e => TE.match_ e params mtd) t with e :: _ => e | [] => TE.noentry end.
End table.
End TT.

(** * The users of the interface server (WSServer/AuthManager*.cpp, User.cpp, JParser.cpp)

    A user is a parameter set: a password, a status and the operations it may do, each under its name or an
    alias of it.  The manager answers three requests, each under its mutex: the list or the description of
    the users, changes of the users, and the check of a password.  [None] is an exception of the JSON library, an
    access past the end of a container, or a thread that waits for ever for a mutex it holds. *)

(** ** Class JParser: the values of one to four names in each child *)
Module JP.
Section jparser.
Context {PT : PropertyTree}.
Fixpoint map_opt {A B} (f : A -> option B) (l : list A) : option (list B) :=
  match l with [] => Some [] | a :: l' => b ← f a; bs ← map_opt f l'; Some (b :: bs) end.
Definition parse2 (k1 k2 : string) (pt : ptree) : option (list (string * string)) :=
  map_opt (fun v => a ← get_string v k1; b ← get_string v k2; Some (a, b)) (ptree_children pt).
Definition parse1 (k1 : string) (pt : ptree) : option (list string) :=
  map_opt (fun v => get_string v k1) (ptree_children pt).
(** The third value, and the fourth, take the place of the second. *)
Definition parse3 (k1 k2 k3 : string) (pt : ptree) : option (list (string * string)) :=
  map_opt (fun v => a ← get_string v k1; b ← get_string v k2; c ← get_string v k3; Some (a, c)) (ptree_children pt).
Definition parse4 (k1 k2 k3 k4 : string) (pt : ptree) : option (list (string * string)) :=
  map_opt (fun v => a ← get_string v k1; b ← get_string v k2; c ← get_string v k3; d ← get_string v k4; Some (a, d))
    (ptree_children pt).
End jparser.
End JP.

(** ** Class User *)
Module User.
Definition empty : MParams := mkParams "nonname" "/tmp" "/tmp" [].
Definition getField (u : MParams) (field : string) : string :=
  let val := Params.get u field in
  if val <>s "" then val else Params.get u (Params.get_cat u field "alias").
Definition setField (u : MParams) (field value : string) : bool * MParams :=
  if (value <>s "true") && (value <>s "false") then (false, u)
  else if Params.get u field =s "" then (true, (Params.set u field value).2)
  else
    let name := Params.get_cat u field "alias" in
    if name <>s "" then (true, (Params.set u name value).2) else (false, u).
Section user.
Context {C : Config} {XP : XmlParser} {FS : PathNames}.
(** [User(dir, file)]: the constructor makes the directory of the saved copies. *)
Definition mk (dir file : string) : M (option MParams) :=
  _ ←! Dirs.makeDir (homedir +:+ "/" +:+ dir) false;
  r ←! Params.load (Params.mk2 dir file); ok r.2.
End user.
End User.

Record AuthManager := mkAuth { par : MParams; user_template : MParams; users : gmap string MParams }.
#[export] Instance AuthManager_rebuild : Rebuild AuthManager := fun a => mkAuth (par a) (user_template a) (users a).

Module Auth.
Implicit Types (a : AuthManager) (us : gmap string MParams).

Definition to_body (s : string) : MMessage := Msg.add Msg.dummy "body" s.

(** ** The check of a password *)
Definition admits (capability pwd : string) (u : MParams) : bool :=
  (Params.get u "passwd" =s pwd) && (User.getField u capability =s "true").
Fixpoint first_user (capability pwd : string) (l : list (string * MParams)) : string :=
  match l with
  | [] => ""
  | (n, u) :: l' => if admits capability pwd u then n else first_user capability pwd l'
  end.
(** The password is the part before the first dot; without users it is not looked at. *)
Definition getUserOf us (capability pwd : string) : option string :=
  match map_items us with
  | [] => Some ""
  | l => p ← head (NameList.of_string pwd "."); Some (first_user capability p l)
  end.
Definition execCheck (params : list string) a : option MMessage :=
  match params with
  | [_; _; capability; pwd] =>
      answer ← getUserOf (users a) capability pwd;
      let body := Params.get (par a) "passwd_check_answer" in
      Some (to_body (filterChar (if answer <>s "" then (strReplace body "$USERNAME" answer).2 else "Forbidden")))
  | _ => Some (to_body "Not found")
  end.

(** ** The description of the users *)
Definition tab : string := String "009" "".
Definition ok_head : string :=
  "{" +:+ quote "response" +:+ ":" +:+ Msg.endl +:+ tab +:+ "{" +:+ quote "message" +:+ ":" +:+ quote "ok" +:+ ",".
Definition user_line (first : bool) (n : string) (u : MParams) : string :=
  (if first then quote "users" +:+ ": [" else ",") +:+ Msg.endl +:+ tab +:+ tab +:+
  "{" +:+ quote "name" +:+ ":" +:+ quote n +:+ "," +:+ quote "enable_status" +:+ ":" +:+
  quote (Params.get u "enable_status") +:+ "}".
Fixpoint user_lines (first : bool) (l : list (string * MParams)) : string :=
  match l with [] => "" | (n, u) :: l' => user_line first n u +:+ user_lines false l' end.
Definition list_tail : string := Msg.endl +:+ tab +:+ tab +:+ "]" +:+ Msg.endl +:+ tab +:+ "}" +:+ Msg.endl +:+ "}" +:+ Msg.endl.
Definition operation (label value : string) : string := "{" +:+ quote label +:+ ":" +:+ quote value +:+ "}".
Definition tabs3 : string := tab +:+ tab +:+ tab.
Definition describe (u : MParams) : string :=
  ok_head +:+ quote "password" +:+ ":" +:+ quote (Params.get u "passwd") +:+ "," +:+ Msg.endl +:+ tab +:+ tab +:+
  quote "administration_access" +:+ ":" +:+ quote (Params.get u "Administration") +:+ "," +:+ Msg.endl +:+ tab +:+ tab +:+
  quote "Alarm_operations" +:+ ": [" +:+ Msg.endl +:+ tabs3 +:+
  operation "Manual" (Params.get u "Alarm_manual") +:+ "," +:+ Msg.endl +:+ tabs3 +:+
  operation "Auto" (Params.get u "Alarm_auto") +:+ "," +:+ Msg.endl +:+ tabs3 +:+
  operation "Zones" (Params.get u "Alarm_Zones") +:+ "," +:+ Msg.endl +:+ tabs3 +:+
  operation "On/OFF" (Params.get u "Alarm_OFF") +:+ Msg.endl +:+ tabs3 +:+ "]" +:+
  Msg.endl +:+ tab +:+ "}" +:+ Msg.endl +:+ "}" +:+ Msg.endl.
(** [users[name]] adds an empty user under a name that is missing. *)
Definition execGet (params : list string) a : option (MMessage * AuthManager) :=
  match params with
  | [_; _; _] => Some (to_body (ok_head +:+ user_lines true (map_items (users a)) +:+ list_tail), a)
  | [_; _; _; file] =>
      name ← head (NameList.of_string file ".");
      let us := match users a !! name with Some _ => users a | None => <[name := User.empty]> (users a) end in
      Some (to_body (describe (default User.empty (us !! name))), a <| users := us |>)
  | [] | [_] | [_; _] => Some (to_body "Not found", a)
  | _ => Some (Msg.dummy, a)
  end.

(** ** Changes *)
(** The administrator stays; [users.erase(end())] for a name that is missing. *)
Definition deleteUser (name : string) us : option (gmap string MParams) :=
  if name =s "admin" then Some us
  else match us !! name with Some _ => Some (delete name us) | None => None end.
Fixpoint delete_absent (l : list (string * bool)) us : option (gmap string MParams) :=
  match l with
  | [] => Some us
  | (n, present) :: l' => us ← (if present : bool then Some us else deleteUser n us); delete_absent l' us
  end.
Definition mark_absent us (current : gmap string bool) : gmap string bool :=
  fold_left (fun cur kv => let n := Params.get kv.2 "username" in
                           match cur !! n with Some _ => cur | None => <[n := false]> cur end)
    (map_items us) current.
Definition isUniquePasswd us (name passwd : string) : bool :=
  negb (existsb (fun kv => (kv.1 <>s name) && (Params.get kv.2 "passwd" =s passwd)) (map_items us)).

Section changes.
Context {P : Platform} {C : Config} {XP : XmlParser} {FS : PathNames} {PT : PropertyTree}.

(** One user of the request: the users not named so far are deleted at once. *)
Fixpoint set_loop (l : list (string * string)) (current : gmap string bool) us : M (option (gmap string MParams)) :=
  match l with
  | [] => ok us
  | (name, status) :: l' =>
      let current := <[name := true]> current in
      us ← match us !! name with
           | Some u => let u := (Params.set u "enable_status" status).2 in
                       Params.save u;; mret (<[name := u]> us)
           | None => mret us
           end;
      let current := mark_absent us current in
      us ←! lifto (delete_absent (map_items current) us);
      set_loop l' current us
  end.

(** The template's attributes, then the fields of the request. *)
Definition from_template (t : MParams) (u : MParams) : MParams :=
  fold_left (fun u x => Params.add_cat u (aname x) (category x) (avalue x)) (attrs t) u.
Definition three (answer upload name_ passwd : string) : string :=
  (strReplace (strReplace (strReplace answer "$UPLOAD" upload).2 "$UNIVOCALNAME" name_).2 "$UNIVOCALPASSWD" passwd).2.
(** The flag says whether the caller holds the mutex, which [addUser] takes. *)
Definition addUser (held : bool) (name body : string) a (res : MMessage) : M (option (bool * MMessage * AuthManager)) :=
  if held then crash
  else
    let answer := Params.get (par a) "add_user_answer" in
    match users a !! name with
    | Some _ => ok (false, Msg.add res "body" (filterChar (three answer "false" "false" "false")), a)
    | None =>
        u ←! User.mk "users" name;
        let u := Params.add (from_template (user_template a) u) "username" name in
        pt ←! lifto (read_json body);
        pw ←! lifto (get_string pt "password");
        let u := Params.add u "passwd" pw in
        ad ←! lifto (get_string pt "administration_access");
        let u := Params.add u "Administration" ad in
        ptu ←! lifto (get_child pt "alarm_operations");
        l ←! lifto (JP.parse2 "name" "selection_status" ptu);
        let u := fold_left (fun u kv => (User.setField u kv.1 kv.2).2) l u in
        Params.save u;;
        let a := a <| users := <[name := u]> (users a) |> in
        ok (true, Msg.add res "body" (filterChar (three answer "true" "true"
              (if isUniquePasswd (users a) name (Params.get u "passwd") then "true" else "false"))), a)
    end.

Definition execSet (params : list string) (body : string) a : M (option (MMessage * AuthManager)) :=
  match params with
  | _ :: _ :: what :: more =>
      r ←! (if (what =s "Users.json") && (body <>s "") then
              pt ←! lifto (read_json body);
              ptu ←! lifto (get_child pt "Users");
              l ←! lifto (JP.parse2 "name" "enable_status" ptu);
              us ←! set_loop l ∅ (users a);
              ok (to_body (filterChar (Params.get (par a) "wr_users_answer")), a <| users := us |>)
            else ok (Msg.dummy, a));
      let '(res, a) := r in
      match more with
      | [file] =>
          if what =s "Users" then
            name ←! lifto (head (NameList.of_string file "."));
            r ←! addUser true name body a res; ok (r.1.2, r.2)
          else ok (Msg.add res "body" "Not found", a)
      | _ => ok (Msg.add res "body" "Not found", a)
      end
  | _ => ok (to_body "Not found", a)
  end.

(** ** The start *)
Definition stems (l : list string) : list string := map FilePath.getStem l.
Fixpoint load_home (l : list string) us : M (option (gmap string MParams)) :=
  match l with
  | [] => ok us
  | n :: l' => u ←! User.mk "users" n; load_home l' (<[n := u]> us)
  end.
Fixpoint load_conf (l : list string) (t : MParams) us : M (option (MParams * gmap string MParams)) :=
  match l with
  | [] => ok (t, us)
  | n :: l' =>
      if n =s "user_template" then u ←! User.mk "users" n; load_conf l' u us
      else match us !! n with
           | Some _ => load_conf l' t us
           | None => u ←! User.mk "users" n; load_conf l' t (<[n := u]> us)
           end
  end.
(** The list of the files of the first directory is not cleared before the second. *)
Definition init (file : string) : M (option AuthManager) :=
  r ←! Params.load (Params.mk1 file);
  let home := homedir +:+ "/users" in
  let conf := configdir +:+ "/users" in
  d ← Dirs.isDir home;
  l1 ← (if d : bool then r ← Dirs.fileList home []; mret r.2 else mret []);
  us ←! load_home (stems l1) ∅;
  d ← Dirs.isDir conf;
  tu ←! (if d : bool then l2 ← Dirs.fileList conf l1; load_conf (stems l2.2) User.empty us else ok (User.empty, us));
  iterM (fun kv => Params.save kv.2;; mret tt) (map_items tu.2);;
  ok (mkAuth r.2 tu.1 tu.2).
End changes.
End Auth.
