(* ===== verification/NameTable.v ===== *)
(** * The agents and devices known to the interface server (WSServer/NameTable.cpp, DeviceManager.cpp)

    Each agent that announces itself is asked for its commands, its events and its devices; the table maps the
    name of an agent or of a device to the position of its agent.  Requests of the clients are translated by the
    table of [TransTab] and sent to the agent of the device.  [Network] is the answer of another host. *)
From S2P Require Import Prelude Doubles Hsrv Xml MMessage World MParams Subjects Archive ArchiveOps Users.

Class Network := { net_answer : nat -> string -> string -> string -> string }.

Record AgentDesc := mkAgent {
  ag_name : string; ag_port : string; ag_address : string; ag_time : string;
  ag_command : list string; ag_event : list string }.
#[export] Instance AgentDesc_rebuild : Rebuild AgentDesc := fun a =>
  mkAgent (ag_name a) (ag_port a) (ag_address a) (ag_time a) (ag_command a) (ag_event a).
Record NameTable := mkTab { agent : list AgentDesc; namelookup : gmap string nat; nt_category : list string }.
#[export] Instance NameTable_rebuild : Rebuild NameTable := fun t => mkTab (agent t) (namelookup t) (nt_category t).

Definition crlf : string := String "013" (String "010" "").

Module NT.
Implicit Types (t : NameTable) (a : AgentDesc).

(** ** Texts *)
(** The text in quotes after the first occurrence of a word from a position on, and the position
    reached: [None] stands for npos. *)
Definition getWord (body word : string) (i : option nat) : string * option nat :=
  match i ≫= sfind word body with
  | None => ("", None)
  | Some pos =>
      let pos := (pos + String.length word)%nat in
      if (String.length body <=? pos)%nat then ("", Some pos)
      else
        let rest := chars (drop_str pos body) in
        let skipped := TE.skip_while (fun c => negb (c =c TE.dquote)) rest in
        let word := TE.take_until (fun c => c =c TE.dquote) (tail skipped) in
        (of_chars word, Some (pos + (length rest - length skipped) + 1 + length word)%nat)
  end.
Definition getBody (message : string) : M string :=
  match sfind (crlf +:+ crlf) message 0 with
  | Some pos => mret (drop_str (pos + 4) message)
  | None => log_info ("WRONG MESSAGE FORMAT: " +:+ message);; mret ""
  end.
Definition cleanUp (s : string) : string :=
  of_chars (List.filter (fun c => negb ((c =c nul) || (c =c "013"%char) || (c =c "010"%char))) (chars s)).
Definition getCategory (name : string) : string :=
  if (3 <? String.length name)%nat && (cget name 2 =c "_"%char) then take_str 2 name else "".
Definition isDeviceAgent a : bool := contains "device" (ag_name a).

(** The words after each "name", until an empty one or the end of the text, with a turn per character. *)
Fixpoint words (fuel : nat) (body : string) (i : option nat) : option (list string) :=
  match fuel with
  | O => None
  | S n =>
      let '(w, i) := getWord body "name" i in
      if (w <>s "") && bool_decide (is_Some i) then l ← words n body i; Some (w :: l) else Some []
  end.
Definition names_in (body : string) (i : option nat) : option (list string) := words (S (S (String.length body))) body i.
Definition subtypes (types : list string) (l : list string) : list string :=
  omap (fun w => match NameList.of_string w "." with
                 | [st; ty] => if NameList.member types ty then Some st else None
                 | _ => None
                 end) l.
Definition extractCommand a (body : string) : option AgentDesc :=
  l ← names_in body (Some 0%nat); Some (a <| ag_command := ag_command a ++ subtypes ["cmd"] l |>).
Definition extractEvent a (body : string) : option AgentDesc :=
  l ← names_in body (Some 0%nat); Some (a <| ag_event := ag_event a ++ subtypes ["event"; "program"] l |>).

(** ** The table *)
Definition same_agent a (b : AgentDesc) : bool :=
  (ag_name b =s ag_name a) && (ag_port b =s ag_port a) && (ag_address b =s ag_address a).
Definition addifnew t a : bool * NameTable :=
  if existsb (same_agent a) (agent t) then (false, t) else (true, t <| agent := agent t ++ [a] |>).
(** The last agent of the table, which is the one that announces itself only when it is new. *)
Definition on_last (f : AgentDesc -> option AgentDesc) t : option NameTable :=
  a ← last (agent t);
  a ← f a;
  Some (t <| agent := take (length (agent t) - 1) (agent t) ++ [a] |>).
Definition getAgentDescription t (ag : string) : MMessage :=
  match List.find (fun a => ag_name a =s ag) (agent t) with
  | None => Msg.add Msg.dummy "name" "none"
  | Some a => Msg.add (Msg.add (Msg.add Msg.dummy "name" (ag_name a)) "port" (ag_port a)) "address" (ag_address a)
  end.
Definition getCategoryDevices t (cat : string) : list string :=
  List.filter (fun n => getCategory n =s cat) (map fst (map_items (namelookup t))).

Section network.
Context {P : Platform} {C : Config} {FS : PathNames} {N : Network}.
Variable arch : ArchiveManager.

Definition answer_of (port address message : string) : M string :=
  fun w => (net_answer (w_tick w) port address message, set_tick (S (w_tick w)) w).
(** [RpcCall::sendStringMessage] *)
Definition call (port address message : string) : M string :=
  log_info ("Message sent: " +:+ address +:+ ":" +:+ port +:+ " " +:+ message);;
  answer_of port address message.
Definition getPage (url : string) a : M string :=
  answer ← call (ag_port a) (ag_address a) ("GET " +:+ url +:+ " HTTP/1.1" +:+ crlf +:+ crlf +:+ crlf);
  getBody answer.
Definition getDeviceStatus t (name language : string) : M (option string) :=
  a ←! lifto (i ← namelookup t !! name; agent t !! i);
  page ← getPage ("/DynamicPage/" +:+ name +:+ "." +:+ language) a;
  let status := (getWord page "status" (Some 0%nat)).1 in
  ok (if language =s "json" then (if status =s "ON" then "true" else "false") else status).

(** One directory per category and device, with the status of the device in a resource. *)
Fixpoint mk_devices t (cat : string) (l : list string) : M (option unit) :=
  match l with
  | [] => ok tt
  | n :: l' =>
      if getCategory n =s cat then
        let devpath := "devices/" +:+ cat +:+ "/" +:+ n in
        _ ←! Dirs.makeDir devpath true;
        status ←! getDeviceStatus t n "json";
        Arc.updateResource arch (devpath +:+ "/data") ("{" +:+ quote "enable_status" +:+ ":" +:+ quote status +:+ "}");;
        mk_devices t cat l'
      else mk_devices t cat l'
  end.
Fixpoint mk_categories t (l : list string) : M (option unit) :=
  match l with
  | [] => ok tt
  | cat :: l' =>
      _ ←! Dirs.makeDir ("devices/" +:+ cat) true;
      _ ←! mk_devices t cat (map fst (map_items (namelookup t)));
      mk_categories t l'
  end.
Definition mkDeviceNames t : M (option unit) := mk_categories t (nt_category t).

(** The devices on the page of an agent, after the first name. *)
Definition devices_on (page : string) : option (list string) :=
  names_in page (getWord page "name" (Some 0%nat)).2.
Fixpoint table_loop (i : nat) (l : list AgentDesc) (m : gmap string nat) : M (option (gmap string nat)) :=
  match l with
  | [] => ok m
  | a :: l' =>
      page ← getPage "/DynamicPage.xml" a;
      let m := <[ag_name a := i]> m in
      if isDeviceAgent a then
        ds ←! lifto (devices_on (cleanUp page));
        table_loop (S i) l' (fold_left (fun m n => if getCategory n <>s "" then <[n := i]> m else m) ds m)
      else table_loop (S i) l' m
  end.
Definition mkTable t : M (option NameTable) :=
  m ←! table_loop 0 (agent t) ∅;
  let t := t <| namelookup := m |> in
  _ ←! mkDeviceNames t; ok t.
(** Every name is published with the name of its agent. *)
Definition printTable t : M (option unit) :=
  match JP.map_opt (fun kv => a ← agent t !! kv.2; Some (kv.1, ag_name a)) (map_items (namelookup t)) with
  | Some l => iterM (fun kv => publish kv.1 kv.2) l;; ok tt
  | None => crash
  end.
Definition announced (m : MMessage) : AgentDesc :=
  mkAgent (Msg.getString m "agentname") (Msg.getString m "port") (Msg.getString m "address") (Msg.getString m "time") [] [].
Definition update t (m : MMessage) : M (option (bool * NameTable)) :=
  if Msg.getString m "status" =s "waiting" then ok (false, t)
  else
    let a := announced m in
    let first := (Msg.getString m "first_announce" =s "TRUE") || (Msg.getString m "first_announce" =s "true") in
    let '(new, t) := addifnew t a in
    if new || first then
      body ← getPage "/subjects/imported" a;
      if contains "unknown" body then ok (false, t)
      else
        t ←! lifto (on_last (fun a => extractCommand a body) t);
        body ← getPage "/subjects/exported" a;
        if contains "unknown" body then ok (false, t)
        else
          t ←! lifto (on_last (fun a => extractEvent a body) t);
          t ←! mkTable t;
          _ ←! printTable t;
          ok (true, t)
    else ok (false, t).

(** ** Requests *)
Definition post (url body : string) : string :=
  "POST " +:+ url +:+ " HTTP/1.1" +:+ crlf +:+ "Content-Length: " +:+ unsigned2a (Z.of_nat (String.length body)) +:+
  crlf +:+ crlf +:+ body +:+ crlf +:+ crlf.
(** The answer of the agent of the device a message is for. *)
Definition ask t (m : MMessage) (request : string) : M (option string) :=
  match namelookup t !! msubtype m with
  | None => ok "Not Found"
  | Some i =>
      a ←! lifto (agent t !! i);
      answer ← call (ag_port a) (ag_address a) request;
      run (getBody answer)
  end.
Definition notify_device t (m : MMessage) : M (option string) :=
  let message := Msg.xmlEncode m 1 in
  let url := Msg.getString m "url" in
  let request := if url =s "" then post "/" message else post url (Msg.getString m "body") in
  match namelookup t !! msubtype m with
  | None => ok "Not Found"
  | Some _ =>
      body ←! ask t m request;
      (if contains "done" body then mret tt else log_info ("CMD: " +:+ message +:+ " fail!!!!"));;
      ok body
  end.
Definition getstatus t (m : MMessage) : M (option string) :=
  let message := Msg.xmlEncode m 1 in
  let url := Msg.getString m "url" in
  let len s := unsigned2a (Z.of_nat (String.length s)) in
  ask t m (if url =s "" then
             "GET / HTTP/1.1" +:+ crlf +:+ "Content-Length: " +:+ len message +:+ crlf +:+ crlf +:+ message +:+ crlf +:+ crlf
           else "GET " +:+ url +:+ " HTTP/1.1" +:+ crlf +:+ "Content-Length: " +:+ len (Msg.getString m "body") +:+
                crlf +:+ crlf +:+ crlf +:+ crlf).
Definition forward t (message ag : string) : M (option string) :=
  match namelookup t !! ag with
  | None => ok "Not Found"
  | Some i => a ←! lifto (agent t !! i); run (call (ag_port a) (ag_address a) message)
  end.
End network.

Section categories.
Context {C : Config} {XP : XmlParser} {FS : PathNames}.
(** A category that is "ON" is kept and gets its directory; a failure ends the process. *)
Fixpoint categories_loop (devdir : string) (l : list MAttribute) t : M (option NameTable) :=
  match l with
  | [] => ok t
  | x :: l' =>
      if avalue x =s "ON" then
        let t := t <| nt_category := nt_category t ++ [aname x] |> in
        _ ←! Dirs.makeDir (devdir +:+ "/" +:+ aname x) true;
        categories_loop devdir l' t
      else categories_loop devdir l' t
  end.
Definition loadCategories t : M (option NameTable) :=
  let devdir := homedir +:+ "/devices" in
  _ ←! Dirs.makeDir devdir true;
  r ←! Params.load (Params.mk1 "categories");
  categories_loop devdir (attrs r.2) t.
End categories.
End NT.
