(* ===== verification/RemoteAgent.v ===== *)
(** * Sending messages to another agent (minilibs/MRemoteAgent.cpp, iplocation.cpp, ObserverTCP.cpp)

    A remote agent is a parameter set with the address of an HTTP server.  A message is completed, encoded and posted;
    the answer is read until the peer closes or is silent for too long.  [ObserverTCP] is a remote agent that observes
    subjects of the bus.  [Tcp] is what the operating system answers.  [None] is a write or a read outside of a
    buffer. *)
From S2P Require Import Prelude Doubles Hsrv Xml MMessage World MParams Subjects NameTable.

(** The descriptor of a connection, and what the reads give before the time out: the bytes, no bytes when the peer
    closed, [None] when a read fails. *)
Class Tcp := {
  tcp_connect : nat -> string -> string -> option Z;
  tcp_reads : nat -> string -> string -> list (option string) }.
(** [hsrv::agentname] and [hsrv::agenttype], set at the start. *)
Class Identity := { agentname : string; agenttype : string }.

(** ** Class IPlocation *)
Module IP.
Record IPlocation := mkIP { targetip : string; targetport : string; sources : string }.
Definition before (c : ascii) (l : list ascii) : list ascii := (fix go l := match l with [] => [] | x :: l' => if x =c c then [] else x :: go l' end) l.
Definition after (c : ascii) (l : list ascii) : list ascii := (fix go l := match l with [] => [] | x :: l' => if x =c c then l' else go l' end) l.
Definition getip (s : string) : string := of_chars (before ":" (chars s)).
Definition getport (s : string) : string := of_chars (before "_" (after ":" (chars s))).
(** What follows the first "_", with that character on both sides; "_" alone stands for everybody. *)
Definition getsources (s : string) : string :=
  if existsb (fun c => c =c "_"%char) (chars s) then "_" +:+ of_chars (after "_" (chars s)) +:+ "_" else "_".
Definition issource (a : IPlocation) (s : string) : bool :=
  if sources a =s "_" then true else contains ("_" +:+ s +:+ "_") (sources a).
Definition of_string (addr : string) : IPlocation := mkIP (getip addr) (getport addr) (getsources addr).
(** [Net::checkip] *)
Definition checkip (adr : string) : bool :=
  forallb (fun c => bool_decide (is_Some (Ascii.is_nat c)) || (c =c "."%char)) (chars adr) &&
  (length (List.filter (fun c => c =c "."%char) (chars adr)) =? 3)%nat.
End IP.

(** ** Class MRemoteAgent *)
Record MRemoteAgent := mkRA {
  ra_par : MParams; ra_name : string; post : string; host : string; useragent : string; pragma : string;
  contenttype : string; ra_ip : string; ra_port : string }.
#[export] Instance MRemoteAgent_rebuild : Rebuild MRemoteAgent := fun r =>
  mkRA (ra_par r) (ra_name r) (post r) (host r) (useragent r) (pragma r) (contenttype r) (ra_ip r) (ra_port r).

Module RA.
Implicit Types (r : MRemoteAgent) (m : MMessage).
Definition get r (name : string) : string := Params.get (ra_par r) name.
(** The constructors: [init] after the parameter set. *)
Definition init (par : MParams) (n : string) : MRemoteAgent :=
  mkRA par n "/" "127.0.0.1" "Mozilla/4.0" "no-cache" " " (Params.get par "address") (Params.get par "port").
Definition or_own (v own : string) : string := if v <>s "" then v else own.
Definition set_fields r : MRemoteAgent :=
  mkRA (ra_par r) (ra_name r) (or_own (get r "post") (post r)) (host r) (or_own (get r "useragent") (useragent r))
    (or_own (get r "pragma") (pragma r)) (or_own (get r "contenttype") (contenttype r))
    (or_own (get r "address") (ra_ip r)) (or_own (get r "port") (ra_port r)).
Definition isTarget r (tg : string) : bool := (tg =s "") || (tg =s ra_name r) || (tg =s get r "target").

(** ** The request *)
Definition cmdexec_fields r m : MMessage :=
  let m := Msg.add m "source" (get r "relay") in
  let m := if Msg.getString m "value" =s "" then Msg.add m "value" (get r "command") else m in
  (Msg.remove (Msg.add m "duration" (get r "cmdduration")) "comment").2.
Definition reset_fields r m : MMessage :=
  let m := Msg.add (Msg.add m "source" (get r "relay")) "cmdname" "cmdexec" in
  (Msg.remove (Msg.add (Msg.add m "value" (get r "reset")) "duration" (get r "resetduration")) "comment").2.
Definition is_command m (name : string) : bool := (mtype m =s "cmd") && (Msg.getString m "cmdname" =s name).
Section request.
Context {I : Identity} {T : Tcp}.
Definition messageComplete r m : MMessage :=
  let m := if get r "language" <>s "" then Msg.add m "language" (get r "language") else m in
  let m := Msg.add m "agent" agentname in
  let m := if is_command m "cmdexec" then cmdexec_fields r m else m in
  if is_command m "reset" then reset_fields r m else m.
Definition encode r m : string := if get r "language" =s "xml" then Msg.xmlEncode m 1 else Msg.htmlPostEncode m.
(** [c_str()]: what comes before the first NUL. *)
Definition c_str (s : string) : string := of_chars (until_nul (chars s)).
Definition post_text r (message : string) : string :=
  "POST " +:+ c_str (post r) +:+ " HTTP/1.0" +:+ crlf +:+ "Host: " +:+ c_str (host r) +:+ crlf +:+
  "User-Agent: " +:+ c_str (useragent r) +:+ crlf +:+ "Pragma: " +:+ c_str (pragma r) +:+ crlf +:+
  "Content-Length: " +:+ pretty (wrap 32 (Z.of_nat (String.length (c_str message)))) +:+ crlf +:+
  "Content-type: " +:+ c_str (contenttype r) +:+ crlf +:+ crlf +:+ c_str message +:+ crlf +:+ crlf.
Definition aya_text r : string :=
  "GET /AYA HTTP/1.0" +:+ crlf +:+ "Host: " +:+ c_str (host r) +:+ crlf +:+ "User-Agent: " +:+ c_str (useragent r) +:+
  crlf +:+ "Pragma: " +:+ c_str (pragma r) +:+ crlf +:+ crlf +:+ crlf.

(** ** The exchange *)
(** Whether data or the end came before the time out, and what was read into the buffer of MAXB bytes. *)
Fixpoint read_loop (l : list (option string)) (acc : list ascii) : option (bool * list ascii) :=
  match l with
  | [] => Some (false, acc)
  | None :: _ => None
  | Some s :: l' =>
      match take (MAXB - 1 - length acc) (chars s) with
      | [] => Some (true, acc)
      | d => read_loop l' (acc ++ d)
      end
  end.
Definition exchange r (text : string) : M (option (bool * string)) := fun w =>
  if (MAXB <=? String.length text)%nat then (None, w)
  else
    let i := w_tick w in
    let w := set_tick (S i) w in
    match tcp_connect i (ra_ip r) (ra_port r) with
    | None => (Some (false, ""), w)
    | Some sd =>
        if 0 <? sd then
          (r ← read_loop (tcp_reads i (ra_ip r) (ra_port r)) []; Some (r.1, of_chars (until_nul r.2)), (emit (Written sd text) w).2)
        else (Some (false, ""), w)
    end.
Definition timed_out r : M unit :=
  log_info ("tcp connection timed out (host: " +:+ host r +:+ " - port: " +:+ ra_port r +:+ ")").
Definition sendStringMessage r (message : string) : M (option Z) :=
  a ←! exchange r (post_text r message);
  if a.1 : bool then ok 1 else timed_out r;; ok (-1).
(** The message, passed by reference, comes back completed. *)
Definition send r m : M (option (Z * MMessage)) :=
  if (ra_name r =s "none") || (get r "status" =s "OFF") then ok (0, m)
  else let m := messageComplete r m in z ←! sendStringMessage r (encode r m); ok (z, m).
Definition isAlive r : M (option bool) :=
  if ra_name r =s "none" then ok false
  else a ←! exchange r (aya_text r);
       if a.1 : bool then ok (contains "IAA" a.2) else timed_out r;; ok false.
End request.
End RA.

(** ** Class ObserverTCP: its queue is an observer of the bus *)
Record ObserverTCP := mkOT { ot_agent : MRemoteAgent; observes : list MAttribute; running : bool }.
#[export] Instance ObserverTCP_rebuild : Rebuild ObserverTCP := fun o => mkOT (ot_agent o) (observes o) (running o).
Module OTCP.
Section observer.
Context {C : Config} {XP : XmlParser} {FS : PathNames} {I : Identity} {T : Tcp}.
Definition at_canon (p : MParams) : MParams := mkParams (ty p) (canon (path p)) (canon (pathh p)) (attrs p).
Definition load (p : MParams) : M (option MParams) :=
  r ←! Params.load (at_canon p); ok (mkParams (ty r.2) (path p) (pathh p) (attrs r.2)).
(** The object, and the observer the bus will know it by. *)
Definition mk (dir n : string) : M (option (ObserverTCP * Observer)) :=
  _ ←! Dirs.makeDir (homedir +:+ "/" +:+ dir) false;
  let r := RA.init (Params.mk2 dir n) n in
  p ←! load (ra_par r);
  let r := RA.set_fields (r <| ra_par := p |>) in
  ok (mkOT r (Params.extractCategory p "observe") false,
      mkOb n (NameList.of_string (Params.get p "target") "+") Q.empty).
Definition start (b : Bus) (a : nat) (o : ObserverTCP) : Bus * ObserverTCP :=
  (fold_left (fun b x => (SubjSet.add_observer b (avalue x) (aname x) a).2) (observes o) b, o <| running := true |>).
Definition stop (o : ObserverTCP) : ObserverTCP := o <| running := false |>.
(** One message of the loop of [dispatcher]; [None] inside: the queue is empty. *)
Definition dispatch (b : Bus) (a : nat) (o : ObserverTCP) : M (option (option Bus)) :=
  match observers b !! a ≫= Ob.receive_message with
  | None => ok None
  | Some (m, ob) =>
      let b := b <| observers := <[a := ob]> (observers b) |> in
      if agent_status b then _ ←! RA.send (ot_agent o) m; ok (Some b) else ok (Some b)
  end.
End observer.
End OTCP.
