(* ===== verification/Managers.v ===== *)
(** * What the managers of the interface server share (WSServer/*Managersrv.cpp)

    Each manager keeps a copy of the same service functions: requests to the agent it manages, templates,
    temporary files, and the text between two marks.  [None] is an exception of the string or JSON library, or
    an access outside of a string.

    The second part translates the requests on devices (DeviceManager.cpp); the third holds facts on texts with marks. *)
From S2P Require Import Prelude Doubles Hsrv Xml MMessage World MParams Samples Subjects Archive ArchiveOps Users NameTable.

Module Mng.
(** [message.substr(message.find(...)+4)]: without the mark the position wraps to 3. *)
Definition getBody (message : string) : option string :=
  let pos := match sfind (crlf +:+ crlf) message 0 with Some p => (p + 4)%nat | None => 3%nat end in
  substr message pos (String.length message).

(** ** The text between two marks *)
Fixpoint index_from (c : ascii) (l : list ascii) (i : nat) : nat :=
  match l with [] => i | x :: l' => if x =c c then i else index_from c l' (S i) end.
(** From the position on down to 1: the position of the mark, or 0. *)
Fixpoint rindex (c : ascii) (l : list ascii) (i : nat) : nat :=
  match i with
  | O => O
  | S j => if bool_decide (l !! i = Some c) then i else rindex c l j
  end.
(** When nothing is left after the first mark, the search starts outside of the string. *)
Definition extractString (src : string) (first last : ascii) : option string :=
  if src =s "" then Some ""
  else
    let l := chars src in
    let i := index_from first l 0 in
    let l := if (i <? length l)%nat then drop (S i) l else l in
    match l with
    | [] => None
    | _ => let i := rindex last l (length l - 1) in Some (of_chars (if (0 <? i)%nat then take i l else l))
    end.
Definition replace (s dst src : string) : string := (strReplace s dst src).2.
Definition makeGetAnswer (template answer : string) : option string :=
  if answer =s "" then Some "" else tmp ← extractString answer "{" "}"; Some (replace template "$BODY" tmp).
Definition content_json (m : MMessage) : MMessage := Msg.add m "content" "application/json".

Section requests.
Context {P : Platform} {C : Config} {FS : PathNames} {N : Network}.

(** ** Files *)
Definition write_text (path text : string) : M unit :=
  o ← open_out path; if o : bool then append path text else mret tt.
Definition loadTemplate (file : string) : M string :=
  c ← contents file; mret (of_chars (until_nul (chars (default "" c)))).
Definition mkResource (tmp text : string) : M string := write_text tmp (text +:+ Msg.endl);; mret tmp.
(** The directories of a path below the home directory; the first must be there. *)
Fixpoint make_dirs (fullpath : string) (l : list string) : M (option unit) :=
  match l with
  | [] => ok tt
  | n :: l' =>
      let fullpath := fullpath +:+ "/" +:+ n in
      d ← Dirs.isDir fullpath;
      _ ←! (if d : bool then ok true else Dirs.makeDir fullpath false);
      make_dirs fullpath l'
  end.
Definition checkAndMakePath (path : string) : M (option bool) :=
  match NameList.of_string path "/" with
  | [] => ok false
  | n :: l =>
      if n =s "" then ok false
      else
        d ← Dirs.isDir (homedir +:+ "/" +:+ n);
        if negb d then ok false else _ ←! make_dirs (homedir +:+ "/" +:+ n) l; ok true
  end.

(** ** Requests to the agent *)
Definition sendCmd (t : NameTable) (ag file : string) : M (option string) := NT.forward t (NT.post "/" file) ag.
Definition accepted (answer : string) : bool :=
  negb (contains "Not Found" answer) && (contains "list" answer || contains "done" answer || contains "OK" answer).
Definition sendFile (t : NameTable) (ag url file : string) : M (option bool) :=
  answer ←! NT.forward t (NT.post url file) ag; ok (accepted answer).
Definition fileDownload (t : NameTable) (ag url : string) : M (option string) :=
  answer ←! NT.forward t ("GET " +:+ url +:+ " HTTP/1.1" +:+ crlf +:+ crlf +:+ crlf) ag;
  lifto (getBody answer).
End requests.
End Mng.

(** * The requests on devices of the interface server (WSServer/DeviceManager.cpp) *)

Record DeviceManager := mkDM { dm_par : MParams; trans_tab : list TransEntry }.

Module DM.
Implicit Types (d : DeviceManager) (t : NameTable) (params : list string).

(** The text in quotes after the first "=" that follows the keyword. *)
Definition extractValue (body keyword : string) : string :=
  match sfind keyword body 0 with
  | None => ""
  | Some pos =>
      let l := TE.skip_while (fun c => negb (c =c "="%char)) (chars (drop_str pos body)) in
      let l := tail (TE.skip_while (fun c => negb (c =c TE.dquote)) l) in
      of_chars (TE.take_until (fun c => (c =c TE.dquote) || (c =c ","%char)) l)
  end.
Definition remapValue (value : string) : string :=
  if value =s "ON" then "true" else if value =s "OFF" then "false" else value.
Definition replace (s dst src : string) : string := (strReplace s dst src).2.
Definition complain : MMessage := Msg.add Msg.dummy "body" "Not Supported".
Definition mkAnswer (body : string) (call : TransEntry) (mth : string) : MMessage :=
  Msg.add (Msg.add Msg.dummy "content" "application/json") "body"
    (if (mth =s "PUT") || (mth =s "POST") then TE.xml2jsonBody call body else TE.xml2jsonStatus call body).

Section manager.
Context {P : Platform} {C : Config} {XP : XmlParser} {FS : PathNames} {PT : PropertyTree} {N : Network}.

Definition init (file : string) : M (option DeviceManager) :=
  r ←! Params.load (Params.mk1 file);
  t ←! TT.mk "trans_tab";
  ok (mkDM r.2 t).

(** ** One device *)
Definition execGet d t params (mth body : string) : M (option MMessage) :=
  let call := TT.get (trans_tab d) params mth in
  if TE.isnoentry call then ok complain
  else answer ←! NT.getstatus t (TE.rpc2cmd call params body); ok (mkAnswer answer call "GET").
Definition execPut d t params (mth body : string) : M (option MMessage) :=
  let call := TT.get (trans_tab d) params mth in
  if TE.isnoentry call then ok complain
  else answer ←! NT.notify_device t (TE.rpc2cmd call params body); ok (mkAnswer answer call "PUT").
(** With an entry or without, nothing is sent. *)
Definition execPost d t params (mth body : string) : MMessage := complain.

(** ** The devices of a category *)
Definition device_url (n : string) : string := "/DynamicPage/" +:+ n +:+ ".xml".
Definition item_body d (status : string) : string :=
  replace (replace (Params.get (dm_par d) "dev_status_proto") "$NAME" (extractValue status "name")) "$STATUS"
    (remapValue (extractValue status "status")).
Fixpoint status_loop d t (m : MMessage) (l : list string) (body : string) : M (option string) :=
  match l with
  | [] => ok body
  | n :: l' =>
      let m := Msg.add (Msg.set_subtype (Msg.set_type m "cmd") n) "url" (device_url n) in
      status ←! NT.getstatus t m;
      status_loop d t m l' (if body =s "" then item_body d status else body +:+ "," +:+ item_body d status)
  end.
Definition execGetSet d t params : M (option MMessage) :=
  match params with
  | _ :: _ :: _ :: file :: _ =>
      body ←! status_loop d t Msg.dummy (NT.getCategoryDevices t (take_str 2 file)) "";
      ok (Msg.add (Msg.add Msg.dummy "body" "Not Found") "body"
            (replace (Params.get (dm_par d) "cat_status_answer") "$BODY" body))
  | _ => ok (Msg.add Msg.dummy "body" "Not Found")
  end.

(** ** Several devices *)
Definition status_url d (status name : string) : string :=
  replace (replace (Params.get (dm_par d) "set_device_status") "$STATUS" (if status =s "true" then "ON" else "OFF"))
    "$NAME" name.
(** How many commands were sent, and how many were done. *)
Fixpoint set_loop d t (m : MMessage) (l : list (string * string)) (done success : Z) : M (option (Z * Z)) :=
  match l with
  | [] => ok (done, success)
  | (status, name) :: l' =>
      let m := Msg.add (Msg.set_subtype m name) "url" (status_url d status name) in
      answer ←! NT.notify_device t m;
      set_loop d t m l' (done + 1) (if contains "done:" answer then success + 1 else success)
  end.
Definition execPostSet d t params (body : string) : M (option MMessage) :=
  match params with
  | _ :: _ :: _ :: _ =>
      pt ←! lifto (read_json body);
      ptdev ←! lifto (get_child pt "devices");
      l ←! lifto (JP.parse2 "enable_status" "name" ptdev);
      r ←! set_loop d t (Msg.set_type Msg.dummy "cmd") l 0 0;
      ok (Msg.add (Msg.add Msg.dummy "content" "application/json") "body"
            (replace (Params.get (dm_par d) "set_device_cat_answer") "$TRUEFALSE"
               (if r.2 =? r.1 then "true" else "false")))
  | _ => ok (Msg.add Msg.dummy "body" "Not supported")
  end.
End manager.
End DM.

(** * Facts on texts with marks: first occurrences, the text around them, replacements *)

Lemma index_head c k t0 rest :
  c ∉ chars t0 -> sfind (String c k) (t0 +:+ String c k +:+ rest) 0 = Some (String.length t0).
Proof.
  intros Hc. set (p := String c k). set (s := t0 +:+ p +:+ rest).
  assert (Hex : contains p s = true) by (by apply contains_at).
  unfold contains in Hex. apply bool_decide_eq_true in Hex as [pos E]. rewrite E. f_equal.
  destruct (sfind_split p s pos) as [Hs Hl]; [done|done|].
  destruct (Nat.lt_trichotomy pos (String.length t0)) as [H|[H|H]]; [|done|].
  - exfalso. apply Hc. apply (f_equal chars) in Hs. unfold s in Hs at 1. rewrite !chars_app, take_str_chars in Hs.
    apply (f_equal (fun l => l !! pos)) in Hs.
    rewrite lookup_app_l in Hs by (rewrite length_chars; lia).
    rewrite lookup_app_r in Hs by (rewrite length_take; lia).
    rewrite length_take, length_chars in Hs.
    replace (pos - pos `min` String.length s)%nat with 0%nat in Hs by lia.
    apply (list_elem_of_lookup_2 _ pos). rewrite Hs. done.
  - exfalso. unfold sfind in E. apply (String.index_correct2 _ _ _ _ E (String.length t0)); [lia|done|].
    assert (Hc' : chars (String.substring (String.length t0) (String.length p) s) = chars p).
    { unfold s. rewrite substring_chars, !chars_app, <- !length_chars, drop_app_length, take_app_length. done. }
    apply (f_equal of_chars) in Hc'. by rewrite !of_chars_chars in Hc'.
Qed.
Lemma replace_head c k v t0 rest :
  c ∉ chars t0 -> Mng.replace (t0 +:+ String c k +:+ rest) (String c k) v = t0 +:+ v +:+ rest.
Proof.
  intros Hc. unfold Mng.replace, strReplace. rewrite index_head by done. cbn [snd]. rewrite take_str_app. do 2 f_equal.
  rewrite <- length_sapp, <- (sapp_assoc t0). apply drop_str_app.
Qed.
