(* ===== verification/AgentConf.v ===== *)
(** * The agent itself: status, published pages, requests and files (minilibs/agentlib.cpp)

    The table of the pages is what [pageRegister] put in it: the [Registered] effects of the trace, the last one of
    each address.  The status of the agent is the one the bus looks at.  [None] is the end of the process or an access
    outside of a string. *)
From S2P Require Import Prelude Doubles Hsrv Xml MMessage World MParams Subjects Archive ArchiveOps Managers.

Module AConf.
(** ** Pages *)
Definition index_step (ix : gmap string MMessage) (e : effect) : gmap string MMessage :=
  match e with Registered url page => <[url := page]> ix | _ => ix end.
Definition urlindex (t : list effect) : gmap string MMessage := fold_left index_step t ∅.
Definition pageRegister (url : string) (page : MMessage) : M unit := emit (Registered url page).
Definition getStatus (url : string) (status : bool) : MMessage :=
  Msg.add_int (Msg.add (Msg.mk "answer" "*") "language" (if contains ".xml" url then "xml" else "html"))
    "status" (if status then 1 else 0).
Definition getIAA : MMessage := Msg.add (Msg.mk "answer" "*") "body" "IAA".
Definition mkIndexPage (url : string) (ix : gmap string MMessage) : MMessage :=
  Msg.add (fold_left (fun page kv => Msg.add page kv.1 "ON") (map_items ix) (Msg.mk "index" "*"))
    "language" (if url =s "/index.xml" then "xml" else "html").
Definition is_index (url : string) : bool := existsb (seqb url) ["/index"; "/index.xml"; "/index.html"; "/index.htm"].
Definition is_method (method : string) : bool := existsb (seqb method) ["get"; "GET"; "post"; "POST"].
Definition mkUnknownM (m : MMessage) : MMessage :=
  let r := Msg.getString m "language" in
  let answer := Msg.mk "answer" "*" in
  if r =s "xml" then Msg.add (Msg.add answer "language" r) (if is_method (Msg.getString m "method") then "method" else "url") "unknown"
  else Msg.add (Msg.add answer "language" "html") "body" "unknown".
Definition getPage_of (t : list effect) (m : MMessage) : MMessage :=
  let url := Msg.getString m "url" in
  if is_index url then mkIndexPage url (urlindex t)
  else match urlindex t !! url with Some page => page | None => mkUnknownM m end.
Definition getPage (m : MMessage) : M MMessage := fun w => (getPage_of (w_trace w) m, w).
(** The words of the page; the last one is taken again when white space follows it. *)
Fixpoint page_words (fuel : nat) (buffer : string) (l : list ascii) : list string :=
  match fuel with
  | O => []
  | S n =>
      let l := skip_space l in
      let w := of_chars (take_word l) in
      let rest := drop (String.length w) l in
      let buffer := if w =s "" then buffer else w in
      match rest with [] => [buffer] | _ => buffer :: page_words n buffer rest end
  end.

(** ** Texts *)
Definition hexCharDecode (c : ascii) : Z :=
  let n := Z.of_N (N_of_ascii c) in
  if (48 <=? n) && (n <=? 57) then n - 48
  else if (65 <=? n) && (n <=? 70) then n - 55
  else if (97 <=? n) && (n <=? 102) then n - 87 else 0.
Fixpoint hex_loop (l : list ascii) : list ascii :=
  match l with
  | a :: b :: l' => ascii_of_N (Z.to_N (wrap 8 (hexCharDecode a * 16 + hexCharDecode b))) :: hex_loop l'
  | _ => []
  end.
(** The bound is the length minus one: on the empty text it is the largest number. *)
Definition hex2ascii (str : string) : option string :=
  if str =s "" then None else Some (of_chars (hex_loop (chars str))).
Definition matchextension (fname ext : string) : bool := matchfile fname ext.
(** A backslash ends the line; the line after a closed bracket is indented. *)
Fixpoint file_text (flag : bool) (l : list ascii) : list ascii :=
  match l with
  | [] => []
  | c :: l' =>
      let flag := flag || (c =c "]"%char) in
      if c =c "\"%char then
        ("010"%char :: if flag then [" "; " "; " "] else [])%char ++ file_text false l'
      else c :: file_text flag l'
  end.

Section conf.
Context {P : Platform} {C : Config} {XP : XmlParser} {FS : PathNames}.

(** ** Status *)
Definition saveCurrent (file content : string) : M unit := Mng.write_text (homedir +:+ "/" +:+ file) (content +:+ Msg.endl).
Definition register_status (st : bool) : M unit :=
  pageRegister "/status" (getStatus "status" st);; pageRegister "/status.xml" (getStatus "status.xml" st).
Definition setStatus (st : bool) (b : Bus) : M Bus :=
  saveCurrent "CURRENTSTATUS" (if st then "ON" else "OFF");;
  register_status st;; mret (b <| agent_status := st |>).
(** The status of the last run. *)
Definition restoreStatus (b : Bus) : M Bus :=
  let file := homedir +:+ "/CURRENTSTATUS" in
  c ← contents file;
  st ← match c with
       | Some s => mret (first_word s =s "ON")
       | None => saveCurrent "CURRENTSTATUS" "ON";; mret true
       end;
  register_status st;; mret (b <| agent_status := st |>).
(** The constructor. *)
Definition start_pages : M unit :=
  register_status false;; pageRegister "/AYA" getIAA.
Definition isNewDay (currentday : string) : M bool := tmp ← getday 0; mret (currentday <>s tmp).
(** A copy of the agent that is already running left its lock. *)
Definition mklock (pid : Z) : M Z :=
  let lockname := homedir +:+ "/.lock" in
  c ← contents lockname;
  match c with
  | Some _ => mret (-1)
  | None => Mng.write_text lockname (pretty pid +:+ Msg.endl);; mret 0
  end.

(** ** Files *)
Definition local_path (t n : string) : string := "./" +:+ t +:+ "/" +:+ n.
Definition saveFile (t n body : string) (raw : bool) : M bool :=
  o ← open_out (local_path t n);
  if o : bool then append (local_path t n) (if raw then body else of_chars (file_text false (chars body)));; mret true
  else mret false.
Definition deleteFile (t n : string) : M bool :=
  c ← contents (local_path t n);
  match c with Some _ => unlink (canon (local_path t n));; mret true | None => mret false end.
Fixpoint make_path (cpath : string) (l : list string) : M (option unit) :=
  match l with
  | [] => ok tt
  | n :: l' => let cpath := cpath +:+ "/" +:+ n in _ ←! Dirs.makeDir cpath true; make_path cpath l'
  end.
Fixpoint make_paths (l : list MAttribute) : M (option unit) :=
  match l with
  | [] => ok tt
  | a :: l' =>
      _ ←! (if category a =s "configdir" then make_path configdir (NameList.of_string (avalue a) "/")
            else if category a =s "homedir" then make_path homedir (NameList.of_string (avalue a) "/") else ok tt);
      make_paths l'
  end.
(** A directory that cannot be made ends the process. *)
Definition install : M (option bool) :=
  _ ←! Dirs.makeDir homedir true;
  g ←! Params.load (Params.mk1 "global");
  _ ←! make_paths (attrs g.2); ok true.

(** ** Requests *)
Definition mkHomePage : M MMessage :=
  c ← contents (configdir +:+ "/index.html");
  let page := match c with
              | Some s => sconcat (map (fun w => w +:+ " ") (page_words (S (String.length s)) "" (chars s)))
              | None => ""
              end in
  let page := if (String.length page <? 2)%nat then page +:+ "Not available" else page in
  mret (Msg.add (Msg.add (Msg.mk "answer" "*") "language" "html") "body" page).
Definition getExecM (m : MMessage) : M MMessage := if Msg.getString m "url" =s "/" then mkHomePage else getPage m.
Definition done (answer : MMessage) (d : bool) : MMessage :=
  if d then Msg.add answer "result" "done" else Msg.add answer "error" "unknown".
Definition upload (m answer : MMessage) : M (option MMessage) :=
  let get := Msg.getString m in
  let encoding := get "encoding" in
  body ←! lifto (if (encoding =s "hex") || (encoding =s "hexr") then hex2ascii (get "filebody")
                 else strReplaceAll (S (String.length (get "filebody"))) (get "filebody") "'" (of_chars [Ascii.ascii_of_nat 34]));
  r ← saveFile (get "filetype") (get "filename") body (encoding =s "hexr"); ok (done answer r).
Definition postExecM (m : MMessage) (b : Bus) : M (option (MMessage * Bus)) :=
  let get := Msg.getString m in
  let t := mtype m in
  let answer := Msg.add (Msg.mk "answer" "*") "language" (if get "language" =s "xml" then "xml" else "html") in
  if Req.observed b t (msubtype m) then notify m;; ok (Msg.add answer "result" "done", b)
  else if t =s "upload" then a ←! upload m answer; ok (a, b)
  else if t =s "delete" then r ← deleteFile (get "filetype") (get "filename"); ok (done answer r, b)
  else if (t =s "cmd") && (get "cmdname" =s "setstatus") then
    if get "status" =s "ON" then b ← setStatus true b; ok (done answer true, b)
    else if get "status" =s "OFF" then b ← setStatus false b; ok (done answer true, b)
    else ok (done answer false, b)
  else ok (done answer false, b).
End conf.
End AConf.
