(* ===== verification/Udp.v ===== *)
(** * Datagrams between agents (minilibs/cipher.cpp, udpclient.cpp, udpserver.cpp)

    The announcements of an agent go to a multicast group.  With encryption a datagram is a header with three
    positions, the digest of the text under the public key, and the text followed by the time it was sent; the receiver
    refuses it when the digest is another or the time is too far.  [Crypto] is OpenSSL and the SHA1 of boost;
    [Datagrams] is what the operating system answers.  [None] is an access outside of a buffer or a string, a null
    key, or the use of a variable that was never set. *)
From S2P Require Import Prelude Doubles Hsrv Xml MMessage World MParams Subjects Archive ArchiveOps.

(** SHA1 is five words of 32 bits. *)
Class Crypto := {
  key : Type;
  read_public : string -> option key;
  read_private : string -> option key;
  rsa_size : key -> nat;
  rsa_encrypt : nat -> key -> list ascii -> option (list ascii);
  rsa_decrypt : key -> list ascii -> option (list ascii);
  sha1 : list ascii -> list Z }.
Inductive arrival := PollFailed | Nothing | Failed | Arrived (d : list ascii).
(** The result of [socket] and of [sendto], what arrives at a call, and what the buffer held before. *)
Class Datagrams := {
  udp_socket : nat -> option Z;
  udp_sent : nat -> list ascii -> Z;
  udp_arrival : nat -> arrival;
  udp_stale : nat -> list ascii }.

(** ** Class Cipher *)
Record Cipher {K : Crypto} := mkCipher { publickey : option key; privatekey : option key }.
Arguments mkCipher {K}.
Module Ciph.
Definition hex_digit (n : Z) : ascii := ascii_of_N (Z.to_N (if n <? 10 then 48 + n else 87 + n)).
Fixpoint hex_digits (n : nat) (v : Z) : list ascii :=
  match n with O => [] | S n => hex_digits n (v / 16) ++ [hex_digit (v mod 16)] end.
Section cipher.
Context {K : Crypto} {FS : PathNames}.
(** The hexadecimal digits of the words, the highest first, and the end of the line. *)
Definition digest (a : list ascii) : list ascii :=
  chars "SHA1: " ++ concat (map (hex_digits 8) (sha1 a)) ++ ["010"%char].
Definition read_key (s : string) : option key := match read_public s with Some k => Some k | None => read_private s end.
Definition getKey (pem : string) : M (option key) := c ← contents pem; mret (c ≫= read_key).
(** The private key stays null when it cannot be read, and the public one is then left alone. *)
Definition init (prkey pubkey : string) (c : Cipher) : M (bool * Cipher) :=
  pr ← getKey prkey;
  match pr with
  | None => mret (false, mkCipher (publickey c) None)
  | Some _ => pu ← getKey pubkey; mret (bool_decide (is_Some pu), mkCipher pu pr)
  end.
Definition public_encrypt (c : Cipher) (buff : list ascii) : M (option (option (list ascii))) := fun w =>
  match publickey c with
  | None => (None, w)
  | Some k => (Some (rsa_encrypt (w_tick w) k buff), set_tick (S (w_tick w)) w)
  end.
(** The text up to the first NUL. *)
Definition private_decrypt (c : Cipher) (buff : list ascii) : option (option (list ascii)) :=
  k ← privatekey c;
  if (length buff <? rsa_size k)%nat then None
  else Some (until_nul <$> rsa_decrypt k (take (rsa_size k) buff)).
End cipher.
End Ciph.

(** The text of a buffer up to its NUL, which must be there. *)
Definition c_text_of (buff : list ascii) : option (list ascii) :=
  if existsb (fun c => c =c nul) buff then Some (until_nul buff) else None.

(** ** The frame *)
Definition BGAP : nat := 12.
Definition EXTRACHARS : nat := 16.
Definition MAXLENGTH : nat := 65000.
Definition MAXDELAY : Z := 5.
Module Frame.
(** Bytes written over a buffer from a position on. *)
Definition put (i : nat) (d l : list ascii) : list ascii := take i l ++ d ++ drop (i + length d) l.
Definition pad3 (n : Z) : string := let s := pretty n in zeros (3 - String.length s) +:+ s.
Definition header (ks size : nat) : list ascii :=
  chars (pad3 (Z.of_nat BGAP) +:+ "," +:+ pad3 (Z.of_nat (ks + BGAP)) +:+ "," +:+ pad3s (Z.of_nat (size + BGAP + ks)) +:+ ",").
Definition seal (ks : nat) (enc msg : list ascii) : list ascii :=
  let cifrato := replicate (ks + length msg + EXTRACHARS) nul in
  let cifrato := put 0 (header ks (length msg) ++ [nul]) cifrato in
  put (ks + BGAP) (until_nul msg ++ [nul]) (put BGAP enc cifrato).
Definition stamp (time : double) : string :=
  "<>" +:+ of_chars [Ascii.ascii_of_nat 34] +:+ double2a time +:+ of_chars [Ascii.ascii_of_nat 34].

(** [sscanf("%d")], with what is left. *)
Definition scan_d (l : list ascii) : option (Z * list ascii) :=
  let '(neg, l) := scan_sign (skip_space l) in
  let '(v, n, l) := scan_digits 0 0 l in
  if bool_decide (n = 0%nat) then None else Some (swrap 32 (clamp_long (if neg then - v else v)), l).
Definition comma (l : list ascii) : option (list ascii) :=
  match l with c :: l' => if c =c ","%char then Some l' else None | [] => None end.
Definition positions (l : list ascii) : option (Z * Z * Z) :=
  '(k, l) ← scan_d l; l ← comma l; '(n, l) ← scan_d l; l ← comma l; '(m, _) ← scan_d l; Some (k, n, m).
(** The bytes of the text that are not NUL. *)
Definition text_at (n m : Z) (received : nat) (buff : list ascii) : list ascii :=
  let n := wrap 32 n in
  let e := Z.min (wrap 32 m) (Z.of_nat received) in
  List.filter (fun c => negb (c =c nul)) (take (Z.to_nat (e - n)) (drop (Z.to_nat n) buff)).
(** The text and the time, from the position of the mark; without a mark the position is the largest number. *)
Definition split_text (s : string) : option (string * string) :=
  let len := Z.of_nat (String.length s) in
  let pos := match sfind "<>" s 0 with Some p => Z.of_nat p | None => npos end in
  let upto x := Z.to_nat (Z.min (wrap 64 x) len) in
  if len <? wrap 64 (pos + 3) then None
  else time ← substr s (Z.to_nat (wrap 64 (pos + 3))) (upto (len - pos - 4)); Some (take_str (upto (pos - 1)) s, time).
End Frame.

(** ** Class UDPClient *)
Record UDPClient := mkClient { cl_ip : string; cl_port : string; cl_encrypt : bool; cl_sockfd : Z; cl_err : Z }.
#[export] Instance UDPClient_rebuild : Rebuild UDPClient := fun c =>
  mkClient (cl_ip c) (cl_port c) (cl_encrypt c) (cl_sockfd c) (cl_err c).
Module UC.
Section client.
Context {P : Platform} {K : Crypto} {D : Datagrams}.
Definition mk (ip port : string) : UDPClient := mkClient ip port false (-1) 0.
(** [errno] is not modelled: the error of a call of the system is 1. *)
Definition start (crypt : string) (c : UDPClient) : M (bool * UDPClient) := fun w =>
  let c := c <| cl_encrypt := cl_encrypt c || (crypt =s "ON") |> in
  if 0 <? cl_sockfd c then ((false, c <| cl_err := -1 |>), w)
  else
    (match udp_socket (w_tick w) with
     | Some fd => (true, (c <| cl_sockfd := fd |>) <| cl_err := 0 |>)
     | None => (false, (c <| cl_sockfd := -1 |>) <| cl_err := 1 |>)
     end, set_tick (S (w_tick w)) w).
Definition transmit (fd : Z) (d : list ascii) : M Z := fun w =>
  (udp_sent (w_tick w) d, set_tick (S (w_tick w)) (emit (Written fd (of_chars d)) w).2).
Definition frame (ciph : Cipher) (m : string) : M (option (option (list ascii))) :=
  now ← gettime;
  let msg := chars (m +:+ Frame.stamp now) in
  enc ←! Ciph.public_encrypt ciph (Ciph.digest msg);
  ok ((fun e => Frame.seal (default 0%nat (rsa_size <$> publickey ciph)) e msg) <$> enc).
(** The number of bytes sent, or -1. *)
Definition sendMsg (ciph : Cipher) (m : string) (c : UDPClient) : M (option (Z * UDPClient)) :=
  if (a2int (cl_port c) <=? 0) || (cl_ip c =s "") then ok (-1, c <| cl_err := -1 |>)
  else
    d ←! (if cl_encrypt c then frame ciph m else ok (Some (chars m)));
    match d with
    | None => ok (-1, c <| cl_err := 1 |>)
    | Some d =>
        sent ← transmit (cl_sockfd c) d;
        if (sent =? 0) || negb (sent =? Z.of_nat (length d)) then ok (-1, c <| cl_err := (if sent =? 0 then 1 else -1) |>)
        else ok (swrap 32 sent, c <| cl_err := 0 |>)
    end.
End client.
End UC.

(** ** Class UDPServer *)
Record UDPServer := mkUdp { sv_ip : string; sv_port : string; sv_encrypt : bool; sv_sockfd : Z; sv_err : Z }.
#[export] Instance UDPServer_rebuild : Rebuild UDPServer := fun s => mkUdp (sv_ip s) (sv_port s) (sv_encrypt s) (sv_sockfd s) (sv_err s).
(** What the system answers to [socket], to the option of the port, to [bind] and to the membership of the group. *)
Record opening := mkOpening { op_socket : Z; op_reuse : bool; op_bind : bool; op_member : bool }.
Module US.
Section server.
Context {P : Platform} {K : Crypto} {D : Datagrams}.
Definition mk (ip port : string) : UDPServer := mkUdp ip port false 0 0.
(** The lines of the log, which name [errno], are left out. *)
Definition open_socket (o : opening) (s : UDPServer) : bool * UDPServer :=
  if 0 <? sv_sockfd s then (false, s <| sv_err := -1 |>)
  else
    let s := s <| sv_sockfd := op_socket o |> in
    if op_socket o <? 0 then (false, s <| sv_err := 1 |>) else (true, s <| sv_err := 0 |>).
Definition setPortReuse (o : opening) (s : UDPServer) : bool * UDPServer :=
  if op_reuse o then (true, s) else (false, s <| sv_err := 1 |>).
Definition do_bind (o : opening) (s : UDPServer) : bool * UDPServer :=
  if op_bind o then (true, s <| sv_err := 0 |>) else (false, s <| sv_err := 1 |>).
Definition setMulticast (o : opening) (s : UDPServer) : bool * UDPServer :=
  if op_member o then (true, s <| sv_err := 0 |>) else (false, s <| sv_err := 1 |>).
Definition andthen (f : UDPServer -> bool * UDPServer) (r : bool * UDPServer) : bool * UDPServer := if r.1 then f r.2 else r.
Definition start (crypt : string) (o : opening) (s : UDPServer) : bool * UDPServer :=
  let s := s <| sv_encrypt := sv_encrypt s || (crypt =s "ON") |> <| sv_err := 0 |> in
  andthen (setMulticast o) (andthen (do_bind o) (andthen (setPortReuse o) (open_socket o s))).
Definition stop (s : UDPServer) : bool * UDPServer := (true, s <| sv_err := 0 |>).
Definition WRONG_KEY : Z := -2.
(** The text of the error, which is forgotten. *)
Definition getErr (strerror : Z -> string) (s : UDPServer) : string * UDPServer :=
  ((if 0 <? sv_err s then strerror (sv_err s)
    else if sv_err s =? -1 then "something goes wrong on class UDPServer"
    else if sv_err s =? WRONG_KEY then "wrong key used on cipher" else ""), s <| sv_err := 0 |>).
Definition refused (s : UDPServer) (e : Z) : M (option (Z * string * UDPServer)) := ok (-1, "", s <| sv_err := e |>).
Definition in_time (start_time arrival_time : double) : bool :=
  negb (dgtb (dsub arrival_time start_time) (d_of_Z MAXDELAY) || dgtb (dsub start_time arrival_time) (d_of_Z MAXDELAY)).
Definition open (ciph : Cipher) (received : nat) (buff : list ascii) (s : UDPServer) : M (option (Z * string * UDPServer)) :=
  p ←! lifto (c_text_of buff ≫= Frame.positions);
  let '(k, n, m) := p in
  if k <? 0 then crash
  else
    dec ←! lifto (Ciph.private_decrypt ciph (drop (Z.to_nat k) buff));
    match dec with
    | None => refused s 1
    | Some dec =>
        let tmpmsg := Frame.text_at n m received buff in
        if negb (bool_decide (Ciph.digest tmpmsg = dec)) then refused s (-1)
        else
          t ←! lifto (Frame.split_text (of_chars tmpmsg));
          arrival_time ← gettime;
          if in_time (a2double t.2) arrival_time then ok (swrap 32 (Z.of_nat received), t.1, s <| sv_err := 0 |>)
          else refused s (-1)
    end.
(** The bytes of a datagram over what the buffer held. *)
Definition buffer (i : nat) (d : list ascii) : list ascii := take MAXLENGTH (d ++ drop (length d) (udp_stale i)).
Definition recvMsg (ciph : Cipher) (s : UDPServer) : M (option (Z * string * UDPServer)) := fun w =>
  let i := w_tick w in
  let w := set_tick (S i) w in
  match udp_arrival i with
  | PollFailed => refused s (-1) w
  | Nothing => (Some (0, "", s), w)
  | Failed => crash w
  | Arrived [] => refused s (-1) w
  | Arrived d =>
      let buff := buffer i d in
      let received := Nat.min (length d) MAXLENGTH in
      if sv_encrypt s then open ciph received buff s w
      else (t ← c_text_of buff; Some (swrap 32 (Z.of_nat received), of_chars t, s <| sv_err := 0 |>), w)
  end.
End server.
(** A server that started listens on the socket it was given; one that did not has an error. *)
Lemma start_answer crypt o s : sv_sockfd s <= 0 ->
  let r := start crypt o s in
  r.1 = (0 <=? op_socket o) && op_reuse o && op_bind o && op_member o /\ sv_sockfd r.2 = op_socket o /\
  (r.1 = true <-> sv_err r.2 = 0).
Proof.
  intros H. cbv zeta. unfold start, andthen, open_socket. cbn. rewrite (proj2 (Z.ltb_ge _ _)) by done. rewrite (Z.leb_antisym (op_socket o) 0).
  destruct (op_socket o <? 0); cbn; [naive_solver|]. unfold setPortReuse, do_bind, setMulticast.
  destruct (op_reuse o); cbn; [|naive_solver]. destruct (op_bind o); cbn; [|naive_solver]. destruct (op_member o); naive_solver.
Qed.
(** Once its socket is open a server does not start again. *)
Lemma start_open_fails crypt o s : 0 < sv_sockfd s -> (start crypt o s).1 = false.
Proof. intros H. unfold start, andthen, open_socket. cbn. by rewrite (proj2 (Z.ltb_lt _ _) H). Qed.
Lemma start_once crypt o o' s : 0 < op_socket o -> (start crypt o s).1 = true -> (start crypt o' (start crypt o s).2).1 = false.
Proof.
  intros Ho Hs. apply start_open_fails. destruct (Z.leb_spec (sv_sockfd s) 0) as [H|H].
  - destruct (start_answer crypt o s H) as (_ & -> & _). done.
  - by rewrite start_open_fails in Hs.
Qed.
End US.
