(* ===== verification/AgentNet.v ===== *)
(** * How agents find each other (minilibs/agentnet.cpp)

    Every agent announces its name, its address and the events it observes to a multicast group.  An agent that hears
    another one which observes some of its subjects makes an observer of the bus that posts these events to it, and takes
    the observer away when the other has been silent for [validityTime] seconds.  Of two agents with one name, the one
    whose address is smaller waits.  [Interfaces] are the network interfaces of the host.  [None] is the end of the
    process, a null or dangling access or an exception. *)
From S2P Require Import Prelude Doubles Hsrv Xml MMessage World MParams Subjects Archive ArchiveOps NameTable RemoteAgent Managers AgentConf Udp.

(** The interfaces and their IPv4 addresses, when they can be listed. *)
Class Interfaces := { getifaddrs : nat -> option (list (string * option string)) }.

Record AgentInfo := mkInfo { info : MMessage; timestamp : Z; xmlformat : string }.
#[export] Instance AgentInfo_rebuild : Rebuild AgentInfo := fun i => mkInfo (info i) (timestamp i) (xmlformat i).

(** The observers made for other agents live in [remotes], under the address the bus knows them by. *)
Record Net := mkNet {
  tcp_observers : gmap string nat; remotes : gmap nat ObserverTCP; foreign_agents : gmap string AgentInfo; myinfo : AgentInfo;
  mysubjects : list string; externsubjects : list string; importedSubjects : MParams; exportedSubjects : MParams;
  wsserver_ip : string; wsserver_port : string; validityTime : Z; check_wait : Z; send_wait : Z; send_agent_info : bool;
  novelty : Z; last_subject_update : Z; netpar : MParams; crypt : string; mgroup : string; mport : string;
  private_key : string; public_key : string; ports : list Z; bus : Bus }.
#[export] Instance Net_rebuild : Rebuild Net := fun n =>
  mkNet (tcp_observers n) (remotes n) (foreign_agents n) (myinfo n) (mysubjects n) (externsubjects n) (importedSubjects n)
    (exportedSubjects n) (wsserver_ip n) (wsserver_port n) (validityTime n) (check_wait n) (send_wait n) (send_agent_info n)
    (novelty n) (last_subject_update n) (netpar n) (crypt n) (mgroup n) (mport n) (private_key n) (public_key n) (ports n) (bus n).

Module AN.
Implicit Types (n : Net) (m : MMessage).

(** ** Names of subjects: the subtype, a dot, the type *)
Definition split (source : string) : string * string :=
  (of_chars (IP.after "." (chars source)), of_chars (IP.before "." (chars source))).
Definition subject_name (a : MAttribute) : string := aname a +:+ "." +:+ avalue a.
Definition first_part (s : string) : string := match sfind "." s 0 with Some i => take_str i s | None => s end.
Definition last_part (s : string) : string := match sfind "." s 0 with Some i => drop_str (i + 1) s | None => s end.
Definition isStar (subj : string) : bool := contains "*" subj.
Definition serves (mine ev : string) : bool :=
  (mine =s ev) || ((isStar (first_part mine) || isStar (first_part ev)) && (last_part ev =s last_part mine)).
(** An event is kept once for each subject that serves it; the flag says that one is left. *)
Definition evFilter (subjects ev : list string) : list string :=
  concat (map (fun e => map (fun _ => e) (List.filter (fun s => serves s e) subjects)) ev).
Definition isIn (v : list string) (s : string) : bool := existsb (seqb s) v.

(** ** Class NetSubjects *)
Definition accept (cat : string) (accepted : list string) (subj : list MAttribute) (known : MParams) : MParams :=
  fold_left (fun p a => if (category a =s cat) && NameList.member accepted (avalue a)
                        then Params.add_cat p (aname a) cat (avalue a) else p) subj known.

Section agentnet.
Context {P : Platform} {C : Config} {XP : XmlParser} {FS : PathNames} {I : Identity} {T : Tcp} {K : Crypto} {D : Datagrams} {If : Interfaces}.

Definition initSubjects (fname : string) (subj : MParams) (imported : bool) n : M (option Net) :=
  p ←! Params.load (Params.mk1 fname);
  let accepted key := NameList.of_string (Params.get_cat p.2 key "netsubjects") "+" in
  ok (if imported then n <| importedSubjects := accept "observe" (accepted "import") (attrs subj) (importedSubjects n) |>
      else n <| exportedSubjects := accept "subject" (accepted "export") (attrs subj) (exportedSubjects n) |>).

(** ** The agent's own data *)
Definition time : M Z := tv ← read_clock; mret (tv_sec tv).
(** The seconds of the time of the day, truncated. *)
Definition gettime_t : M Z := t ← gettime; mret (default indet_long (Z_of_d t)).
Definition first_of (name : string) (l : list (string * option string)) : option string :=
  head (omap (fun x => if x.1 =s name then x.2 else None) l).
Definition retrieve_my_ip : M string := fun w =>
  (match getifaddrs (w_tick w) with
   | None => "127.0.0.1"
   | Some l => default "127.0.0.1" (head (omap (fun x => first_of x l) ["eth0"; "eth1"; "wlan0"]))
   end, set_tick (S (w_tick w)) w).
Definition retrieve_my_port n : string := Params.get (netpar n) "port".
(** A new announcement makes the agent active. *)
Definition retrieveInfo n : M Net :=
  ip ← retrieve_my_ip;
  let m := Msg.add (Msg.add (Msg.add Msg.dummy "agentname" agentname) "ip" ip) "port" (retrieve_my_port n) in
  let m := (Msg.add_list m "observe" (externsubjects n)).2 in
  b ← AConf.setStatus true (bus n);
  mret ((n <| myinfo := mkInfo (Msg.add m "status" "active") 0 (Msg.xmlEncode m 1) |>) <| bus := b |>).
Definition my n (field : string) : string := Msg.getString (info (myinfo n)) field.
Definition set_mine n (field v : string) : Net :=
  n <| myinfo := (myinfo n) <| info := Msg.add (info (myinfo n)) field v |> |>.
Definition subjects_page n : MMessage :=
  let page := fold_left (fun p s => Msg.add p s "exported") (mysubjects n) (Msg.mk "subjects" "*") in
  fold_left (fun p s => Msg.add p s "imported") (externsubjects n) page.
Definition MakePage n : M unit :=
  let page := Msg.add (subjects_page n) "language" "xml" in
  AConf.pageRegister "/subjects.xml" page;;
  AConf.pageRegister "/subjects" (Msg.add page "language" "html").
Definition add_subject_of (b : Bus) (s : string) : Bus := let '(ty, subty) := split s in SubjSet.add_subject b ty subty.
Definition addSubjects n : Net := n <| bus := fold_left add_subject_of (mysubjects n ++ externsubjects n) (bus n) |>.

(** ** Observers for other agents *)
Definition observer_file (ag : string) (m : MMessage) (events : list string) : MParams :=
  let p := Params.mk1 ("observers/" +:+ ag) in
  let p := mkParams ag (path p) (pathh p) (attrs p) in
  let p := Params.add (Params.add p "name" ag) "agent" ag in
  let p := Params.add (Params.add p "address" (Msg.getString m "ip")) "port" (Msg.getString m "port") in
  let p := Params.add (Params.add p "language" "xml") "status" "ON" in
  fold_left (fun p e => Params.add_cat p (split e).2 "observe" (split e).1) events p.
Definition mkTcpObserverXML m n : M unit :=
  let p := observer_file (Msg.getString m "agentname") m (evFilter (mysubjects n) (Msg.getList m "observe")) in
  Mng.write_text (pathh p) (Params.xmlEncode p 1 +:+ Msg.endl).
(** The new observer is lost when there is one already, which starts again. *)
Definition activateObserverTCP (name : string) n : M (option Net) :=
  r ←! OTCP.mk "observers/" name;
  let '(o, ob) := r in
  let fresh_addr := fresh (dom (observers (bus n))) in
  let n := (n <| remotes := <[fresh_addr := o]> (remotes n) |>)
             <| bus := bus n <| observers := <[fresh_addr := ob]> (observers (bus n)) |> |> in
  let a := default fresh_addr (tcp_observers n !! name) in
  o ←! lifto (remotes n !! a);
  let '(b, o) := OTCP.start (bus n) a o in
  ok (((n <| tcp_observers := <[name := a]> (tcp_observers n) |>) <| remotes := <[a := o]> (remotes n) |>) <| bus := b |>).
(** Without an observer of that name the end of the map is dereferenced. *)
Definition disactivateObserverTCP (name : string) n : option Net :=
  a ← tcp_observers n !! name;
  o ← remotes n !! a;
  Some (((n <| remotes := <[a := OTCP.stop o]> (remotes n) |>) <| bus := (SubjSet.remove_observer (bus n) a).2 |>)
          <| tcp_observers := delete name (tcp_observers n) |>).

(** ** Other agents *)
Definition agent_valid n (now : Z) (ag : string) : bool :=
  match foreign_agents n !! ag with Some i => now - timestamp i <=? validityTime n | None => false end.
Definition check_agent_status (ag : string) n : M bool := now ← time; mret (agent_valid n now ag).
Definition wsServerUpdate m n : Net :=
  if Msg.getString m "agentname" <>s "wsserver" then n
  else (n <| wsserver_ip := Msg.getString m "ip" |>) <| wsserver_port := Msg.getString m "port" |>.
Definition getWSServer n : string :=
  if (wsserver_ip n <>s "") && (wsserver_port n <>s "") then wsserver_ip n +:+ ":" +:+ wsserver_port n else "".
Definition set_foreign n (ag : string) (i : AgentInfo) : Net := n <| foreign_agents := <[ag := i]> (foreign_agents n) |>.
(** An agent heard for the first time: the message decodes its own text, which has no declaration. *)
Definition new_info m (ev : list string) : option AgentInfo :=
  let text := Msg.xmlEncode m 0 in
  d ← Msg.xmlDecode Msg.dummy text;
  let f := Msg.add (Msg.add (Msg.add d.2 "agentname" (Msg.getString m "agentname")) "ip" (Msg.getString m "ip"))
             "port" (Msg.getString m "port") in
  Some (mkInfo (Msg.add_list f "observe" ev).2 0 text).
Definition reconnect m (ag : string) n : M (option Net) :=
  mkTcpObserverXML m n;; activateObserverTCP ag n.
Definition connect m (ev : list string) n : M (option Net) :=
  let ag := Msg.getString m "agentname" in
  log_info ("agent " +:+ ag +:+ " requests communication: --- CONNECTED " +:+ Msg.getString m "ip" +:+ ":" +:+ Msg.getString m "port");;
  i ←! lifto (new_info m ev);
  reconnect m ag (set_foreign n ag i).
Definition change_ip m (i : AgentInfo) n : M (option Net) :=
  let ag := Msg.getString m "agentname" in
  let ip := Msg.getString m "ip" in
  if ip =s Msg.getString (info i) "ip" then ok n
  else
    n ←! lifto (disactivateObserverTCP ag n);
    log_info ("agent " +:+ ag +:+ " has now ip: " +:+ ip);;
    reconnect m ag (set_foreign n ag (i <| info := Msg.add (info i) "ip" ip |>)).
(** The events announced are in the field "observe": the two lists compared here are always empty. *)
Definition change_events m (i : AgentInfo) n : M (option Net) :=
  let ag := Msg.getString m "agentname" in
  if bool_decide (Msg.getList (info i) "events" = Msg.getList m "events") && negb (timestamp i <? last_subject_update n)
  then ok n
  else
    n ←! lifto (disactivateObserverTCP ag n);
    log_info ("agent " +:+ ag +:+ " updated event-list");;
    reconnect m ag (set_foreign n ag (i <| info := (Msg.add_list (info i) "events" (Msg.getList m "events")).2 |>)).
Definition update m n : M (option Net) :=
  let ag := Msg.getString m "agentname" in
  let n := wsServerUpdate m n in
  let ev := evFilter (mysubjects n) (Msg.getList m "observe") in
  if bool_decide (ev = []) then ok n
  else
    n ←! (match foreign_agents n !! ag with
          | None => connect m ev n
          | Some i =>
              n ←! change_ip m i n;
              i ←! lifto (foreign_agents n !! ag);
              change_events m i n
          end);
    now ← time;
    i ←! lifto (foreign_agents n !! ag);
    ok (set_foreign n ag (i <| timestamp := now |>)).

(** ** Silence *)
Definition dir : string := "observers/".
Definition disconnected (ag : string) : M unit := log_info ("agent " +:+ ag +:+ " doesn't autenticate: --- DISCONNECTED!!!").
Fixpoint find_expired n (l : list string) : M (list string) :=
  match l with
  | [] => mret []
  | ag :: l' =>
      valid ← check_agent_status ag n;
      if valid : bool then find_expired n l'
      else
        disconnected ag;;
        f ← Dirs.isFile_ext dir (ag +:+ ".xml");
        (if f : bool then Dirs.deleteFile dir (ag +:+ ".xml");; mret tt else mret tt);;
        rest ← find_expired n l'; mret (ag :: rest)
  end.
Fixpoint forget (l : list string) n : M (option Net) :=
  match l with
  | [] => ok n
  | ag :: l' =>
      disconnected ag;;
      n ←! lifto (disactivateObserverTCP ag n);
      Dirs.deleteFile dir (ag +:+ ".xml");;
      forget l' (n <| foreign_agents := delete ag (foreign_agents n) |>)
  end.
Definition check_expired n : M (option Net) :=
  tokill ← find_expired n (map fst (map_items (foreign_agents n))); forget tokill n.

(** ** Announcements *)
Definition testNovelty n : bool * Net :=
  if 0 <? novelty n then (true, n <| novelty := novelty n - 1 |>) else (false, n).
(** An agent that waits is active again when its twin has been silent for too long. *)
Definition wake n : M Net :=
  if my n "status" =s "active" then mret n
  else
    now ← gettime_t;
    let n := match foreign_agents n !! agentname with
             | Some i => n <| myinfo := (myinfo n) <| timestamp := timestamp i |> |>
             | None => n
             end in
    if validityTime n <? now - timestamp (myinfo n)
    then b ← AConf.setStatus true (bus n); mret ((set_mine n "status" "active") <| bus := b |>)
    else mret n.
Definition agent_info n (now : double) (first : bool) : MMessage :=
  let m := Msg.add (Msg.add (Msg.mk "net" "agent_info") "agentname" (my n "agentname")) "agenttype" agenttype in
  let m := Msg.add (Msg.add (Msg.add m "address" (my n "ip")) "port" (my n "port")) "status" (my n "status") in
  let m := Msg.add_double m "time" now in
  if first then Msg.add m "first_announce" "TRUE" else m.
(** One turn of the loop of [send_status]. *)
Definition send_turn (ciph : Cipher) (client : UDPClient) n : M (option (Net * UDPClient)) :=
  let msg := xmlformat (myinfo n) in
  n ← wake n;
  client ←! (if my n "status" =s "active" then
               r ←! UC.sendMsg ciph msg client;
               (if r.1 <? 0 then log_info "Invio multicast fallito!" else mret tt);; ok r.2
             else ok client);
  if send_agent_info n then
    now ← gettime;
    let '(first, n) := testNovelty n in
    notify (agent_info n now first);; ok (n, client)
  else ok (n, client).
(** A message of an agent with this name: the one with the greater address stays. *)
Definition twin m n : M Net :=
  if String.ltb (my n "ip") (Msg.getString m "ip") then
    now ← gettime_t;
    b ← AConf.setStatus false (bus n);
    mret ((set_mine (n <| myinfo := (myinfo n) <| timestamp := now |> |>) "status" "waiting") <| bus := b |>)
  else mret n.
Definition heard m n : M (option Net) :=
  if (Msg.getString m "agentname" =s agentname) && (agentname <>s "configurator") then run (twin m n) else update m n.
(** One turn of the loop of [recv_status]: after an error nobody is checked. *)
Definition recv_turn (ciph : Cipher) (server : UDPServer) n : M (option (Net * UDPServer)) :=
  r ←! US.recvMsg ciph server;
  let '(z, decifrato, server) := r in
  if z <? 0 then log_info "Recv_status: impossibile ricevere dati";; ok (n, server)
  else
    n ←! (if 0 <? z then
            d ←! lifto (Msg.xmlDecode (Msg.mk "agentinfo" "*") decifrato); heard d.2 n
          else ok n);
    n ←! check_expired n; ok (n, server).

(** ** Addresses *)
(** [operator[]] makes an entry for the agent's own name, whose time is 0. *)
Definition get_own (ag : string) n : AgentInfo * Net :=
  match foreign_agents n !! ag with
  | Some i => (i, n)
  | None => let i := mkInfo Msg.dummy 0 "" in (i, set_foreign n ag i)
  end.
Definition address_of (field other : string) (ag : string) n : M (string * Net) :=
  known ← (if ag =s agentname then mret true else check_agent_status ag n);
  if known : bool then let '(i, n) := get_own ag n in mret (Msg.getString (info i) field, n) else mret (other, n).
Definition getAgentIp : string -> Net -> M (string * Net) := address_of "ip" "127.0.0.1".
Definition getAgentPort : string -> Net -> M (string * Net) := address_of "port" "8888".
(** The first agent that observes the commands of the device. *)
Definition getAgentOf (device : string) n : string :=
  match find_first (fun kv => existsb (fun e => let '(ty, subty) := split e in (ty =s "cmd") && (subty =s device))
                                (Msg.getList (info kv.2) "observe")) (map_items (foreign_agents n)) with
  | Some i => match map_items (foreign_agents n) !! i with
              | Some kv => Msg.getString (info kv.2) "ip" +:+ ":" +:+ Msg.getString (info kv.2) "port"
              | None => "none"
              end
  | None => "none"
  end.

(** ** Start *)
Definition time_of n (key : string) (d : Z) : Z :=
  let tmp := Params.get_cat (netpar n) key "time" in if tmp <>s "" then a2int tmp else d.
Definition or_default (v d : string) : string := if v <>s "" then v else d.
Definition multicast : M (option MParams) :=
  let file := FilePath.getRoot configdir +:+ "/miniwww/multicast.xml" in
  let none := mkParams "nonname" "/tmp" "/tmp" [] in
  f ← Dirs.isFile file;
  if f : bool then r ←! Params.xmlLoad none file; ok r.2
  else log_info (file +:+ " not found! using default address");; ok none.
Definition init (name : string) n : M (option Net) :=
  par ←! Params.load (Params.mk1 name);
  let par := par.2 in
  mc ←! multicast;
  let n := n <| netpar := par |> <| mport := or_default (Params.get mc "mport") "54321" |>
             <| mgroup := or_default (Params.get mc "mgroup") "226.0.0.2" |> in
  log_info ("MPORT = " +:+ mport n +:+ ", MGROUP = " +:+ mgroup n);;
  let tells := existsb (seqb (Params.get par "send_agent_info")) ["YES"; "yes"] in
  let exported := if tells then Params.add_cat (exportedSubjects n) "agent_info" "subject" "net" else exportedSubjects n in
  let n := n <| private_key := configdir +:+ "/" +:+ Params.get par "private_key" |>
             <| public_key := configdir +:+ "/" +:+ Params.get par "public_key" |>
             <| crypt := Params.get_cat par "crypt" "mode" |>
             <| send_agent_info := send_agent_info n || tells |> <| exportedSubjects := exported |> in
  let n := n <| mysubjects := mysubjects n ++ map subject_name (Params.extractCategory par "subject") ++ map subject_name (attrs exported) |>
             <| externsubjects := externsubjects n ++ map subject_name (Params.extractCategory par "observe") ++
                                  map subject_name (attrs (importedSubjects n)) |> in
  MakePage n;;
  let others := List.filter (fun a => aname a <>s agentname) (Params.extractCategory par "port") in
  let n := n <| ports := ports n ++ map (fun a => a2unsigned (avalue a)) others |> in
  n ← retrieveInfo n;
  ok (addSubjects (n <| send_wait := time_of n "send_period" 10 |> <| check_wait := time_of n "check_period" 30 |>
                     <| validityTime := time_of n "validity_time" 180 |>)).
(** The subjects that are new since the start; no agent of the repository calls it. *)
Definition new_subjects (known : list string) (b : Bus) (attrs : list MAttribute) : list string * Bus :=
  fold_left (fun '(known, b) a =>
               if isIn known (subject_name a) then (known, b)
               else (known ++ [subject_name a], SubjSet.add_subject b (avalue a) (aname a))) attrs (known, b).
Definition SubjectsUpdate n : M Net :=
  let '(my, b) := new_subjects (mysubjects n) (bus n) (attrs (exportedSubjects n)) in
  let '(ext, b) := new_subjects (externsubjects n) b (attrs (importedSubjects n)) in
  n ← retrieveInfo (n <| mysubjects := my |> <| externsubjects := ext |> <| bus := b |>);
  MakePage n;; retrieveInfo n.
Definition SubjectDateUpdate n : M Net := now ← time; mret (n <| last_subject_update := now |>).
Definition events_text (l : list string) : string :=
  "<set type=" +:+ quote "events" +:+ ">" +:+
  sconcat (map (fun s => "<attribute name=" +:+ quote s +:+ " value=" +:+ quote "ON" +:+ "/>") l) +:+ "</set>" +:+ Msg.endl.
Definition register_list (a : ArchiveManager) (file url : string) (l : list string) : M (option unit) :=
  Mng.write_text file (events_text l);;
  _ ←! Arc.addResource a url (homedir +:+ "/" +:+ file) true;
  Dirs.deleteFile homedir file;; ok tt.
Definition SubjectRegister (a : ArchiveManager) n : M (option unit) :=
  _ ←! register_list a "imported.xml" "subjects/imported/data" (externsubjects n);
  register_list a "exported.xml" "subjects/exported/data" (mysubjects n).
End agentnet.
End AN.
