(* ===== verification/AlarmManager.v ===== *)
(** * The alarms of the interface server (WSServer/AlarmManager*.cpp)

    The manager translates the requests of the graphical client on the programs of the Alarm agent: the weekly
    schedule, the zones and the queues of actions.  It keeps them as resources of the archive in JSON, and sends them
    to the agent in XML.  [None] is an exception, a null or dangling access, or the end of the process. *)
From S2P Require Import Prelude Doubles Hsrv Xml MMessage World MParams Subjects Archive ArchiveOps Users NameTable Managers.

Record AlarmManager := mkAM {
  am_par : MParams; am_trans : list TransEntry; mksensors_called : bool; init_called : bool }.
#[export] Instance AlarmManager_rebuild : Rebuild AlarmManager := fun a =>
  mkAM (am_par a) (am_trans a) (mksensors_called a) (init_called a).

Module AM.
Implicit Types (a : AlarmManager) (t : NameTable).

(** ** Texts *)
Definition member_text (name : string) (fields : list (string * string)) : string :=
  "{" +:+ ML.commas (map (fun kv => quote kv.1 +:+ ":" +:+ quote kv.2) (("name", name) :: fields)) +:+ "}".
Definition list_text (key : string) (fields : list (string * string)) (names : list string) : string :=
  "{" +:+ quote key +:+ ": [" +:+ ML.commas (map (fun n => member_text n fields) names) +:+ "]}".
Definition selection_false : list (string * string) := [("selection_status", "false")].
Definition alarm_dir : string := "/program/programs/Alarm/".
(** The first "]" closes the list of the zones: the new zone goes before it. *)
Definition add_zone (zones stem : string) : string :=
  let i := Mng.index_from "]" (chars zones) 0 in
  take_str i zones +:+
  (if (1 <? i)%nat && negb (cget zones (i - 1) =c "[")%char && negb (cget zones (i - 2) =c "[")%char then "," else "") +:+
  member_text stem [("enable_status", "false")] +:+ drop_str i zones.

(** ** Queues of actions *)
Definition action_name (name mode : string) : string :=
  name +:+ (if contains "SH_" name then (if mode =s "true" then "_pup" else "_pdown")
            else if mode =s "true" then "_on" else "_off").
(** Each entry is its name, its status and its mode. *)
Fixpoint action_list (alist : string) (l : list (string * string * string)) : string :=
  match l with
  | [] => alist
  | (name, status, mode) :: l' =>
      action_list (if status =s "true"
                   then (if alist =s "" then "" else alist +:+ "+") +:+ action_name name mode else alist) l'
  end.
Definition queue_message (template program stem alist : string) : string :=
  let alist := if alist =s "" then "none" else alist in
  let m := Mng.replace template "$NAME" (if program =s "Auto" then "AUTOtriggered" else "MANUALtriggered") in
  if stem =s "Activation" then Mng.replace (Mng.replace m "$ENABLE" alist) "$DISABLE" ""
  else Mng.replace (Mng.replace m "$ENABLE" "") "$DISABLE" alist.

(** ** Translations *)
Definition fill_times (xschedule : string) (l : list (string * string)) : string :=
  fold_left (fun x p => Mng.replace (Mng.replace x "$TT" p.1) "$TT" p.2) l xschedule.
(** The sensors and actions selected that were not met before, an action as two names. *)
Fixpoint select_names (suffixes : list string) (l : list (string * string)) (seen : gset string) (alist : list string)
    : gset string * list string :=
  match l with
  | [] => (seen, alist)
  | (n, status) :: l' =>
      if (status =s "true") && negb (bool_decide (n ∈ seen))
      then select_names suffixes l' ({[n]} ∪ seen) (alist ++ map (fun s => n +:+ s) suffixes)
      else select_names suffixes l' seen alist
  end.
Definition alarm_line (n : string) : string := "<alarm name=" +:+ quote n +:+ "/>".

Section manager.
Context {P : Platform} {C : Config} {XP : XmlParser} {FS : PathNames} {PT : PropertyTree} {N : Network}.
Variable arch : ArchiveManager.
Variable t : NameTable.

Definition init (file : string) : M (option AlarmManager) :=
  r ←! Params.load (Params.mk1 file); tt ←! TT.mk "trans_tab"; ok (mkAM r.2 tt false false).
Definition agent_of a : string := Params.get (am_par a) "alarmag".
Definition download a (url : string) : M (option string) := Mng.fileDownload t (agent_of a) url.
Definition resource_file : string := homedir +:+ "/_tmp.Alarm".
Definition getAlarmFile (url : string) : M (option string) := Req.getFile arch (Msg.add Msg.dummy "url" url).
(** A resource made from a text, through a temporary file. *)
Definition store (path tmp text : string) : M (option unit) :=
  Mng.write_text tmp text;; _ ←! Arc.addResource arch path tmp true; Dirs.deleteFile tmp "";; ok tt.
Definition store_resource (path text : string) : M (option unit) := store path resource_file (text +:+ Msg.endl).

(** ** Sensors and actions *)
Definition names_from a (url : string) : M (option (list string)) :=
  answer ←! download a url;
  p ←! lifto (Params.xmlDecode User.empty (Msg.xml_header +:+ answer)); ok (map aname (attrs p.2)).
Definition unknown_agent a : bool := Msg.getString (NT.getAgentDescription t (agent_of a)) "name" =s "none".
Definition mkSensorsAndActions (mode : bool) a : M (option AlarmManager) :=
  if unknown_agent a then ok a
  else if mksensors_called a && mode then ok a
  else
    sensors ←! names_from a "/status/sensordevices.xml";
    _ ←! store (alarm_dir +:+ "sensors.json") (homedir +:+ "/_tmp") (list_text "sensors" selection_false sensors);
    actions ←! names_from a "/status/controldevices.xml";
    _ ←! store (alarm_dir +:+ "actions.json") (homedir +:+ "/_tmp_") (list_text "actions" selection_false actions);
    ok (a <| mksensors_called := true |>).

(** ** Queues *)
Definition queue_paths : list string :=
  map (fun p => alarm_dir +:+ p)
    ["Auto/Activation.json"; "Auto/Deactivation.json"; "Manual/Activation.json"; "Manual/Deactivation.json"].
Fixpoint add_all (paths : list string) (src : string) : M (option unit) :=
  match paths with
  | [] => ok tt
  | p :: paths' => _ ←! Arc.addResource arch p src true; add_all paths' src
  end.
Definition initExecutionQueues a : M (option unit) :=
  names ←! names_from a "/status/optcontroldevices.xml";
  let text := list_text "devices" [("selection_status", "false"); ("action", "false")] names in
  tmp ← Mng.mkResource resource_file text;
  _ ←! add_all queue_paths tmp;
  Dirs.deleteFile tmp "";; ok tt.
(** The third value of an entry is never set by the parser. *)
Definition setExecQueue (program qq jsbody : string) a : M (option string) :=
  message ← Mng.loadTemplate (configdir +:+ "/templates/settractions.xml");
  pt ←! lifto (read_json jsbody);
  ptu ←! lifto (get_child pt "devices");
  l ←! lifto (JP.parse3 "name" "selection_status" "action" ptu);
  let alist := action_list "" (map (fun p => (p.1, p.2, "")) l) in
  res ←! Mng.sendFile t (agent_of a) "/" (queue_message message program (FilePath.getStem qq) alist);
  ok (if res : bool then "true" else "false").

(** ** Zones and schedule *)
Definition initAuto : M (option unit) :=
  _ ←! Arc.addResource arch "program/programs/Alarm/Schedule.json" (configdir +:+ "/templates/scheduleproto.json") true; ok tt.
(** What the shell does for "rm -f dir/*". *)
Definition rm_visible (dir : string) : M unit :=
  es ← readdir dir;
  iterM (fun e => if negb e.2 && Dirs.not_hidden e.1 then unlink (canon (dir +:+ "/" +:+ e.1));; mret tt else mret tt) es.
Definition clear_zones : M unit :=
  let dir := homedir +:+ alarm_dir +:+ "Zones" in
  cmdExec ("rm -f " +:+ dir +:+ "/*");; if 1 <? debug then mret tt else rm_visible dir.
Definition initZones : M (option unit) :=
  sensors ←! getAlarmFile (alarm_dir +:+ "sensors.json");
  clear_zones;;
  actions ←! getAlarmFile (alarm_dir +:+ "actions.json");
  prg ← Mng.loadTemplate (configdir +:+ "/templates/defaultzone.json");
  s ←! lifto (Mng.extractString sensors "[" "]");
  c ←! lifto (Mng.extractString actions "[" "]");
  _ ←! store_resource (alarm_dir +:+ "Zones/default.json") (Mng.replace (Mng.replace prg "$SENSORS" s) "$ACTIONS" c);
  _ ←! Arc.addResource arch (alarm_dir +:+ "Zones.json") (configdir +:+ "/templates/zonesproto.json") true; ok tt.
Definition zoneUpdate (newz : string) : M (option bool) :=
  let stem := FilePath.getStem newz in
  zones ←! getAlarmFile (alarm_dir +:+ "Zones.json");
  if zones =s "Not Found" then ok false
  else if contains (quote "name" +:+ ":" +:+ quote stem) zones then ok true
  else _ ←! store_resource (alarm_dir +:+ "Zones.json") (add_zone zones stem); ok true.
Definition isZoneDefined : M (option bool) :=
  zones ←! getAlarmFile (alarm_dir +:+ "Zones.json"); ok ((zones <>s "Not Found") && contains "true" zones).
(** The files of the zones that the list does not name are deleted. *)
Fixpoint delete_zones (zonepath : string) (names l : list string) : M unit :=
  match l with
  | [] => mret tt
  | f :: l' =>
      (if negb (NameList.member names (FilePath.getStem f)) && (f <>s "default.json")
       then Dirs.deleteFile zonepath f;; mret tt else mret tt);;
      delete_zones zonepath names l'
  end.
Definition cleanZones (zonesjs : string) : M (option unit) :=
  pt ←! lifto (read_json zonesjs);
  ptu ←! lifto (get_child pt "zones");
  names ←! lifto (JP.parse1 "name" ptu);
  let zonepath := homedir +:+ alarm_dir +:+ "Zones" in
  r ← Dirs.fileList zonepath [];
  run (delete_zones zonepath names r.2).
Definition schedulej2x (jschedule : string) : M (option string) :=
  x ← Mng.loadTemplate (configdir +:+ "/templates/Auto.xml");
  pt ←! lifto (read_json jschedule);
  ptu ←! lifto (get_child pt "schedule_data");
  l ←! lifto (JP.parse2 "start" "end" ptu);
  ok (fill_times x l).
Definition zone_members (pt : ptree) (seen : gset string) (alist : list string) : option (gset string * list string) :=
  ptu ← get_child pt "sensors"; l ← JP.parse2 "name" "selection_status" ptu;
  let '(seen, alist) := select_names [""] l seen alist in
  ptu ← get_child pt "actions"; l ← JP.parse2 "name" "selection_status" ptu;
  Some (select_names ["_on"; "_off"] l seen alist).
Fixpoint zones_loop (zlist : list string) (seen : gset string) (alist : list string) : M (option (list string)) :=
  match zlist with
  | [] => ok alist
  | z :: zlist' =>
      text ←! getAlarmFile (alarm_dir +:+ "Zones/" +:+ z +:+ ".json");
      pt ←! lifto (read_json text);
      r ←! lifto (zone_members pt seen alist);
      zones_loop zlist' r.1 r.2
  end.
Definition zonesj2x (zonesjs : string) : M (option string) :=
  zonesxml ← Mng.loadTemplate (configdir +:+ "/templates/Zone.xml");
  pt ←! lifto (read_json zonesjs);
  ptu ←! lifto (get_child pt "zones");
  l ←! lifto (JP.parse2 "name" "enable_status" ptu);
  alist ←! zones_loop (map fst (List.filter (fun p => p.2 =s "true") l)) ∅ [];
  _ ←! cleanZones zonesjs;
  ok (Mng.replace zonesxml "$ALARMS" (sconcat (map alarm_line alist))).

(** ** The programs at the start *)
Fixpoint all_files (l : list string) : M bool :=
  match l with
  | [] => mret true
  | p :: l' => f ← Dirs.isFile p; if f : bool then all_files l' else mret false
  end.
Definition checkAndInitPrograms (mode : bool) a : M (option AlarmManager) :=
  if init_called a && mode then ok a
  else if unknown_agent a then ok a
  else
    autoxml ←! download a "/programs/AUTO";
    zonesxml ←! download a "/programs/ZONE";
    _ ←! (if contains "AUTO" autoxml then ok tt else initAuto);
    _ ←! (if contains "ZONE" zonesxml then ok tt else initZones);
    there ← all_files (map (fun p => homedir +:+ p) queue_paths);
    _ ←! (if there : bool then ok tt else initExecutionQueues a);
    ok (a <| init_called := true |>).
(** Every request starts with it. *)
Definition prepare a : M (option AlarmManager) :=
  a ←! mkSensorsAndActions true a; checkAndInitPrograms true a.

(** ** Requests *)
Definition getProgramStatus a : M (option string) :=
  response ←! download a (Params.get (am_par a) "get_prgstatus");
  pt ←! lifto (read_json response);
  data ←! lifto (get_child pt "prgstatus");
  program ←! lifto (get_string data "program");
  active ←! lifto (get_string data "active");
  ok (filterChar (Mng.replace (Mng.replace (Params.get (am_par a) "prg_answer") "$PROGRAM" program) "$PROGRAM_ACTIVE" active)).
Definition file_answer a (url : string) : M (option MMessage) :=
  answer ←! getAlarmFile url;
  text ←! lifto (Mng.makeGetAnswer (Params.get (am_par a) "get_answer") answer);
  ok (Msg.add Msg.dummy "body" text).
Definition get_answer (params : list string) a : M (option MMessage) :=
  match params with
  | [_; _; what] =>
      if what =s "Alarm.json" then answer ←! getProgramStatus a; ok (Msg.add Msg.dummy "body" answer)
      else if (what =s "Schedule.json") || (what =s "Zones.json") then file_answer a (alarm_dir +:+ what)
      else ok Msg.dummy
  | [_; _; what; file] =>
      if what =s "Zones" then
        answer ←! getAlarmFile (alarm_dir +:+ "Zones/" +:+ file);
        if answer =s "Not Found" then file_answer a (alarm_dir +:+ "Zones/default.json")
        else
          text ←! lifto (Mng.makeGetAnswer (Params.get (am_par a) "get_answer") answer);
          ok (Msg.add Msg.dummy "body" text)
      else if (what =s "Manual") || (what =s "Auto") then file_answer a (alarm_dir +:+ what +:+ "/" +:+ file)
      else ok Msg.dummy
  | _ => ok Msg.dummy
  end.
Definition execGet (params : list string) a : M (option (MMessage * AlarmManager)) :=
  a ←! prepare a; res ←! get_answer params a; ok (Mng.content_json res, a).

Definition execPut (params : list string) (mth body : string) a : M (option (MMessage * AlarmManager)) :=
  a ←! prepare a;
  file ←! lifto (last params);
  if file =s "reset_queue.json" then
    _ ←! initExecutionQueues a;
    a ←! mkSensorsAndActions false a;
    _ ←! initZones;
    _ ←! initAuto;
    ok (Msg.add (Mng.content_json Msg.dummy) "body" (Params.get (am_par a) "put_answer"), a)
  else
    refused ←! (if file =s "ZONE.json" then z ←! isZoneDefined; ok (negb z) else ok false);
    if refused : bool then ok (Mng.content_json (Msg.add Msg.dummy "body" (Params.get (am_par a) "zone_complain")), a)
    else
      let call := TT.get (am_trans a) params mth in
      if TE.isnoentry call then ok (DM.complain, a)
      else
        answer ←! Mng.sendCmd t (agent_of a) (Msg.xmlEncode (TE.rpc2cmd call params body) 1);
        ok (DM.mkAnswer answer call "PUT", a).

Definition post_answer a (result : string) : string := Mng.replace (Params.get (am_par a) "post_answer") "$TRUEFALSE" result.
Definition forbidden : MMessage := Msg.add Msg.dummy "Body" "Forbidden".
(** The schedule or the list of the zones, kept and sent to the agent. *)
Definition post_program (target file body : string) a : M (option MMessage) :=
  here ←! Mng.checkAndMakePath "program/programs/Alarm";
  if negb here then ok forbidden
  else
    _ ←! store_resource (alarm_dir +:+ file) body;
    done ←! (if target =s "Schedule" then
               x ←! schedulej2x body; Mng.sendFile t (agent_of a) (Params.get (am_par a) "sendAUTOurl") x
             else
               x ←! zonesj2x body; Mng.sendFile t (agent_of a) (Params.get (am_par a) "sendZONEurl") x);
    ok (Msg.add Msg.dummy "body" (post_answer a (if done : bool then "true" else "false"))).
(** One zone or one queue. *)
Definition post_part (what file body : string) a : M (option MMessage) :=
  let path := "program/programs/Alarm/" +:+ what +:+ "/" in
  here ←! Mng.checkAndMakePath path;
  if negb here then ok forbidden
  else
    _ ←! store_resource ("/" +:+ path +:+ "/" +:+ file) body;
    result ←! (if what =s "Zones" then _ ←! zoneUpdate file; ok "true" else setExecQueue what file body a);
    ok (Msg.add Msg.dummy "body" (post_answer a result)).
Definition execPost (params : list string) (body : string) a : M (option (MMessage * AlarmManager)) :=
  a ←! prepare a;
  file ←! lifto (last params);
  let target := FilePath.getStem file in
  res ←! (match params with
          | [_; _; _] =>
              if (target =s "Schedule") || (target =s "Zones") then post_program target file body a else ok Msg.dummy
          | [_; _; what; _] =>
              if (what =s "Zones") || (what =s "Manual") || (what =s "Auto") then post_part what file body a else ok Msg.dummy
          | _ => ok Msg.dummy
          end);
  ok (Mng.content_json res, a).
End manager.
End AM.
