(* ===== verification/GuiManagers.v ===== *)
(** * Rules, power and pages of the interface server (WSServer/AutomatismManager*.cpp, PwrManager*.cpp, ConfManager.cpp, GuiLib.cpp)

    The rules that switch by themselves and the timed rules are set and shown through the agent that runs them; the devices
    under the power scheduler are listed by priority and switched; the page of the graphical client is made from
    templates.  [None] is an exception, an access outside of a string, or a loop without an end. *)
From S2P Require Import Prelude Doubles Hsrv Xml MMessage World MParams Subjects Archive ArchiveOps Users NameTable Managers.

(** A tree with the names of the children and the values of the nodes; children are smaller. *)
Class NamedTree {PT : PropertyTree} := {
  named_children : ptree -> list (string * ptree);
  get_value : ptree -> string;
  tree_size : ptree -> nat;
  child_smaller : forall pt k c, (k, c) ∈ named_children pt -> (tree_size c < tree_size pt)%nat }.

(** ** Class AutomatismManager: a parameter set *)
Module Auto.
Definition cvtimej2x (src : string) : string := src +:+ ":00".
Definition cvtimex2j (src : string) : string := take_str 5 src.
Definition on_off (status : string) : string := if status =s "true" then "ON" else "OFF".
Definition category_at (params : list string) : string := take_str 2 (nth 3 params "").
(** The item that starts after the word. *)
Definition item_status (par : MParams) (lsrc category : string) (mark : ascii) : option string :=
  let name := DM.extractValue lsrc "name" in
  if (name <>s "") && (cget name 0 =c mark) then
    let alias := DM.extractValue lsrc "alias" in
    if (if (3 <? String.length alias)%nat then take_str 2 alias else "") =s category then
      let s := Mng.replace (Params.get par "item_status") "$ALIAS" alias in
      let s := Mng.replace s "$START" (cvtimex2j (DM.extractValue lsrc "from=")) in
      let s := Mng.replace s "$END" (cvtimex2j (DM.extractValue lsrc "to=")) in
      Some (Mng.replace s "$TRUEFALSE" (if DM.extractValue lsrc "status" =s "ON" then "true" else "false"))
    else None
  else None.
(** Each turn moves at least four characters on. *)
Fixpoint body_loop (fuel : nat) (par : MParams) (src category : string) (mark : ascii) (pos : nat) (body : string)
    : option string :=
  match fuel with
  | O => None
  | S n =>
      match sfind "item" src pos with
      | None => Some body
      | Some p =>
          let pos := (p + 4)%nat in
          let body := match item_status par (drop_str pos src) category mark with
                      | Some s => if body =s "" then body +:+ s else body +:+ "," +:+ s
                      | None => body
                      end in
          body_loop n par src category mark pos body
      end
  end.
Definition mkAnswerBody (par : MParams) (src category : string) (mark : ascii) : option string :=
  body_loop (S (S (String.length src))) par src category mark 0 "".
Definition rule_command (par : MParams) (what status name from to : string) : string :=
  let msg := Params.get par (if what =s "Programmed" then "set_trrule_status" else "set_rule_status") in
  Mng.replace (Mng.replace (Mng.replace (Mng.replace msg "$NAME" name) "$STATUS" (on_off status)) "$FROM" from) "$TO" to.

Section manager.
Context {P : Platform} {C : Config} {XP : XmlParser} {FS : PathNames} {PT : PropertyTree} {N : Network}.
Variable t : NameTable.
Definition init (file : string) : M (option MParams) := r ←! Params.load (Params.mk1 file); ok r.2.
Definition agent_of (par : MParams) : string := Params.get par "automatismag".
Definition about_rules (params : list string) (what : string) : bool :=
  (3 <? length params)%nat && (nth 2 params "" =s what) && (3 <? String.length (nth 3 params ""))%nat.
Definition list_rules (par : MParams) (params : list string) (mark : ascii) : M (option string) :=
  rulestatus ←! Mng.fileDownload t (agent_of par) (Params.get par "rule_status_req");
  body ←! lifto (mkAnswerBody par rulestatus (category_at params) mark);
  ok (Mng.replace (Params.get par "rule_status_answer") "$BODY" body).
Definition execGet (params : list string) (par : MParams) : M (option MMessage) :=
  answer ←! (if about_rules params "Programmed" then list_rules par params "_"
             else if about_rules params "SelfManaged" then list_rules par params "R" else ok "");
  ok (Mng.content_json (Msg.add Msg.dummy "body" answer)).
Definition execPut : MMessage := Mng.content_json Msg.dummy.
(** The name and the times: the parser leaves the fourth value in the place of the second, and the other two empty. *)
Fixpoint set_loop (par : MParams) (what : string) (l : list (string * string)) (done success : Z) : M (option (Z * Z)) :=
  match l with
  | [] => ok (done, success)
  | (status, name) :: l' =>
      answer ←! Mng.sendCmd t (agent_of par) (rule_command par what status name (cvtimej2x "") (cvtimej2x ""));
      set_loop par what l' (done + 1) (if contains "done" answer then success + 1 else success)
  end.
Definition execPost (params : list string) (body : string) (par : MParams) : M (option MMessage) :=
  match params with
  | _ :: _ :: what :: _ =>
      body ←! (if about_rules params "Programmed" || about_rules params "SelfManaged" then
                 pt ←! lifto (read_json body);
                 pta ←! lifto (get_child pt "automatisms");
                 l ←! lifto (JP.parse4 "enable_status" "name" "start" "end" pta);
                 r ←! set_loop par what l 0 0;
                 ok (Mng.replace (Params.get par "set_rule_status_answer") "$TRUEFALSE" (if r.2 =? r.1 then "true" else "false"))
               else ok body);
      ok (Mng.content_json (Msg.add Msg.dummy "body" body))
  | _ => ok (Msg.add Msg.dummy "body" "Not supported")
  end.
End manager.
End Auto.

(** ** Class PwrManager *)
Record DeviceDescriptor := mkDD { dd_name : string; dd_priority : string; dd_status : string }.
Record PwrManager := mkPM { pm_par : MParams; devCategories : list string }.
Module PM.
(** [std::sort] with [sortEval]: any order that puts smaller texts of priorities first. *)
Definition sortEval (a b : DeviceDescriptor) : Prop := String.le (dd_priority a) (dd_priority b).
Class Sorting := {
  sort : list DeviceDescriptor -> list DeviceDescriptor;
  sort_perm : forall l, sort l ≡ₚ l;
  sort_sorted : forall l, StronglySorted sortEval (sort l) }.
Definition device_text (d : DeviceDescriptor) : string :=
  "{" +:+ quote "name" +:+ ":" +:+ quote (dd_name d) +:+ "," +:+ quote "enable_status" +:+ ":" +:+
  quote (if dd_status d =s "ON" then "true" else "false") +:+ "}".
Definition mkAnswer (par : MParams) (devices : list DeviceDescriptor) : string :=
  Mng.replace (Params.get par "get_answer_template") "$BODY" (ML.commas (map device_text devices)).
Definition status_command (par : MParams) (name status priority : string) : string :=
  Mng.replace (Mng.replace (Mng.replace (Params.get par "set_device_cmd") "$NAME" name) "$PRIORITY" priority) "$STATUS"
    (Auto.on_off status).
Section tree.
Context {PT : PropertyTree} {NTr : NamedTree}.
Definition last_value (key : string) (pt : ptree) : string :=
  fold_left (fun v kc => if kc.1 =s key then get_value kc.2 else v) (named_children pt) "".
Definition mkDevDescription (pt : ptree) (category : string) (devices : list DeviceDescriptor) : list DeviceDescriptor :=
  let name := last_value "device" pt in
  if NT.getCategory name =s category
  then devices ++ [mkDD name (last_value "priority" pt) (last_value "status" pt)] else devices.
(** One level of the recursion per level of the tree. *)
Fixpoint getDevices (fuel : nat) (pt : ptree) (category : string) (devices : list DeviceDescriptor)
    : option (list DeviceDescriptor) :=
  match fuel with
  | O => None
  | S n =>
      (fix children (l : list (string * ptree)) devices :=
         match l with
         | [] => Some devices
         | (k, c) :: l' =>
             devices ← (if (k =s "type") && (get_value c =s "load") then Some (mkDevDescription pt category devices)
                        else getDevices n c category devices);
             children l' devices
         end) (named_children pt) devices
  end.
End tree.
Section manager.
Context {P : Platform} {C : Config} {XP : XmlParser} {FS : PathNames} {PT : PropertyTree} {NTr : NamedTree} {N : Network} {So : Sorting}.
Variable t : NameTable.
Definition init (file : string) : M (option PwrManager) :=
  r ←! Params.load (Params.mk1 file); ok (mkPM r.2 (NameList.of_string (Params.get r.2 "devCategories") "+")).
Definition agent_of (m : PwrManager) : string := Params.get (pm_par m) "pwrcontrol".
Definition execGet (params : list string) (m : PwrManager) : M (option MMessage) :=
  file ←! lifto (last params);
  queue ←! Mng.fileDownload t (agent_of m) (Params.get (pm_par m) "device_queue");
  rpt ←! lifto (read_json queue);
  pt ←! lifto (get_child rpt "list");
  devices ←! lifto (getDevices (S (tree_size pt)) pt (FilePath.getStem file) []);
  ok (Mng.content_json (Msg.add Msg.dummy "body" (mkAnswer (pm_par m) (sort devices)))).
Definition setDeviceStatus (m : PwrManager) (name status priority : string) : M (option bool) :=
  res ←! Mng.sendCmd t (agent_of m) (status_command (pm_par m) name status priority); ok (contains "done" res).
(** The priority is the place in the request, from 1. *)
Fixpoint set_loop (m : PwrManager) (l : list (string * string)) (ncmd ndone : Z) : M (option (Z * Z)) :=
  match l with
  | [] => ok (ncmd, ndone)
  | (name, status) :: l' =>
      r ←! setDeviceStatus m name status (int2a (ncmd + 1));
      set_loop m l' (ncmd + 1) (if r : bool then ndone + 1 else ndone)
  end.
Definition execPost (params : list string) (body : string) (m : PwrManager) : M (option MMessage) :=
  file ←! lifto (last params);
  let answer key := Msg.add (Mng.content_json Msg.dummy) "body" (Params.get (pm_par m) key) in
  if negb (NameList.member (devCategories m) (FilePath.getStem file)) then ok (answer "post_answer_fail")
  else
    rpt ←! lifto (read_json body);
    pt ←! lifto (get_child rpt "devices");
    l ←! lifto (JP.parse2 "name" "enable_status" pt);
    r ←! set_loop m l 0 0;
    ok (answer (if r.2 =? r.1 then "post_answer_ok" else "post_answer_fail")).
End manager.
End PM.

(** * The page of the graphical client and the tunnel (WSServer/ConfManager.cpp, GuiLib.cpp)

    The page is made from templates: an area holds the bar of each of its devices.  Every placeholder of a bar is
    replaced while there is one, for at most [turns] turns. *)

Record DeviceHolder := mkDH { device : string; dh_description : string }.
Record BarHolder := mkBar { bar_description : string; holders : list DeviceHolder }.

Module Gui.
Section gui.
Context {P : Platform} {C : Config} {XP : XmlParser} {FS : PathNames} {PT : PropertyTree} {N : Network}.
Variable turns : nat.
Variable t : NameTable.

(** ** GuiLib *)
Definition device_holder (name : string) : M (option DeviceHolder) :=
  cat ←! lifto (head (NameList.of_string name "_"));
  d ← Mng.loadTemplate (configdir +:+ "/guitemplates/" +:+ cat +:+ "_bholder.html");
  d ←! lifto (strReplaceAll turns d "$CAT" cat);
  d ←! lifto (strReplaceAll turns d "$NAME" (NameList.join "_" (tail (NameList.of_string name "_"))));
  ok (mkDH name d).
Definition bar_holder (area : string) : M (option BarHolder) :=
  d ← Mng.loadTemplate (configdir +:+ "/guitemplates/barholder.html");
  d ←! lifto (strReplaceAll turns d "$AREA" area);
  ok (mkBar d []).
Definition bar_html (b : BarHolder) : string :=
  Mng.replace (bar_description b) "$DEVICES" (sconcat (map dh_description (holders b))).

(** ** The parts of the page *)
Implicit Types (areas : gmap string BarHolder).
Definition each_area (f : string -> string) areas : string := sconcat (map (fun kv => f kv.1) (map_items areas)).
Definition mkButtons areas : string :=
  each_area (fun k => "<button id=" +:+ quote ("show_" +:+ k) +:+ ">" +:+ k +:+ "</button>") areas.
Definition mkShowfun areas : string :=
  each_area (fun k => "$(" +:+ quote ("#show_" +:+ k) +:+ ").click(function(){showOnly(" +:+ quote k +:+ ");});" +:+ Msg.endl) areas.
Fixpoint list_with (sep acc : string) (l : list string) : string :=
  match l with
  | [] => acc
  | x :: l' => list_with sep (acc +:+ (if acc =s "" then "" else sep) +:+ quote x) l'
  end.
Definition mkAreaList areas : string := list_with ", " "" (map fst (map_items areas)).
(** The text in quotes after "value"; the loops stop at a quote only. *)
Fixpoint to_dquote (l : list ascii) : option (list ascii * list ascii) :=
  match l with
  | [] => None
  | c :: l' => if c =c TE.dquote then Some ([], l') else r ← to_dquote l'; Some (c :: r.1, r.2)
  end.
Definition component_in (answer : string) : option string :=
  match sfind "$COMPONENT" answer 0 with
  | None => Some ""
  | Some pos =>
      pos ← sfind "value" answer pos;
      r ← to_dquote (chars (drop_str pos answer));
      r ← to_dquote r.2;
      Some (of_chars r.1)
  end.
Definition getComponentOf (name : string) : M (option string) :=
  answer ←! NT.forward t ("GET /devicemanifest/" +:+ name +:+ ".xml HTTP/1.1" +:+ crlf +:+ crlf +:+ crlf) "netdevices";
  lifto (component_in answer).
Fixpoint dev_descriptions (area : string) (l : list DeviceHolder) : M (option (list string)) :=
  match l with
  | [] => ok []
  | h :: l' =>
      c ←! getComponentOf (device h);
      ds ←! dev_descriptions area l';
      ok ((area +:+ "." +:+ device h +:+ (if c =s "" then "" else "+" +:+ c)) :: ds)
  end.
Fixpoint area_descriptions (l : list (string * BarHolder)) : M (option (list string)) :=
  match l with
  | [] => ok []
  | (k, b) :: l' => ds ←! dev_descriptions k (holders b); ds' ←! area_descriptions l'; ok (ds ++ ds')
  end.
Definition mkDevList areas : M (option string) :=
  l ←! area_descriptions (map_items areas); ok (list_with "," "" l).
Fixpoint add_devices (l : list (string * string)) areas : M (option (gmap string BarHolder)) :=
  match l with
  | [] => ok areas
  | (dev, area) :: l' =>
      b ←! (match areas !! area with Some b => ok b | None => bar_holder area end);
      h ←! device_holder dev;
      add_devices l' (<[area := mkBar (bar_description b) (holders b ++ [h])]> areas)
  end.

(** ** Class ConfManager: a parameter set *)
Definition init (file : string) : M (option MParams) := r ←! Params.load (Params.mk1 file); ok r.2.
(** The index of the loop over the devices is not initialised. *)
Definition make_gui (body : string) : M (option unit) :=
  gui ← Mng.loadTemplate (configdir +:+ "/guitemplates/gui-proto.html");
  rpt ←! lifto (read_json body);
  pt ←! lifto (get_child rpt "areas");
  l ←! lifto (JP.parse2 "name" "area" pt);
  areas ←! add_devices (drop TE.unset l) ∅;
  let gui := Mng.replace gui "$AREAS" (sconcat (map (fun kv => bar_html kv.2) (map_items areas))) in
  let gui := Mng.replace (Mng.replace gui "$HBUTTONS" (mkButtons areas)) "$SHOWFUNCTION" (mkShowfun areas) in
  devlist ←! mkDevList areas;
  let gui := Mng.replace (Mng.replace gui "$DEVDESCRIPTION" devlist) "$AREALIST" (mkAreaList areas) in
  Dirs.saveFile (configdir +:+ "/doc/gui.html") gui;; ok tt.
(** The port, then the host, then the user, as far as they are given. *)
Definition tunnel_command (start port host user : string) : string :=
  if port =s "" then start
  else start +:+ " " +:+ port +:+
       (if host =s "" then "" else " " +:+ host +:+ (if user =s "" then "" else " " +:+ user)).
Definition execPut (params : list string) (body : string) (par : MParams) : M (option MMessage) :=
  file ←! lifto (last params);
  let target := FilePath.getStem file in
  let answer key := Msg.add Msg.dummy "body" (Params.get par key) in
  if target =s "GUI" then _ ←! make_gui body; ok (answer "mkgui_answer")
  else if target =s "TunnelSTART" then
    cmdExec (Params.get par "tunnelhalt");; cmdExec (Params.get par "tunnelenable");;
    pt ←! lifto (read_json body);
    port ←! lifto (get_string pt "rport");
    host ←! lifto (get_string pt "host");
    user ←! lifto (get_string pt "user");
    cmdExec (tunnel_command (Params.get par "tunnelstart") port host user);;
    ok (Mng.content_json (answer "mkok_answer"))
  else if target =s "TunnelHALT" then
    cmdExec (Params.get par "tunnelhalt");; ok (Mng.content_json (answer "mkok_answer"))
  else ok (Mng.content_json (answer "fail_answer")).
Definition tunnel_answer (template : string) (tunnel : MParams) : string :=
  let get := Params.get tunnel in
  Mng.replace (Mng.replace (Mng.replace (Mng.replace template "$RPORT" (get "rport")) "$HOST" (get "host"))
    "$USER" (get "user")) "$STATUS" (get "status").
Definition execGet (params : list string) (par : MParams) : M (option MMessage) :=
  file ←! lifto (last params);
  if FilePath.getStem file =s "Tunnel" then
    let tunnelh := FilePath.getRoot homedir +:+ "/sshtunnel/tunnel.xml" in
    let tunnelc := FilePath.getRoot configdir +:+ "/sshtunnel/tunnel.xml" in
    f ← Dirs.isFile tunnelh;
    r ←! Params.xmlLoad User.empty (if f : bool then tunnelh else tunnelc);
    ok (Mng.content_json (Msg.add Msg.dummy "body" (tunnel_answer (Params.get par "tunnel_answer") r.2)))
  else ok (Mng.content_json (Msg.add Msg.dummy "body" (Params.get par "fail_answer"))).
End gui.
End Gui.
