(* ===== verification/LogManagers.v ===== *)
(** * Logs of the interface server (WSServer/Translator.cpp, LogManager.cpp, SrvManager.cpp, UserLog.cpp)

    The log of the users is a line of JSON per message, made from the prototype of its class.  A request selects lines
    of it by date and translates each one into a sentence.  Placeholders are replaced one after the other for at most
    [turns] turns.  [None] is an exception, an access outside of a string, or a loop without an end.

    The second part marks the messages of the bus and appends them to the log files (Receiver.cpp, ArchiveThread.cpp). *)
From S2P Require Import Prelude Doubles Hsrv Xml MMessage World MParams Subjects Archive ArchiveOps ArchiveQueries Users NameTable Managers.

(** ** Class Translator: a parameter set *)
Module Tr8.
Definition key_end (c : ascii) : bool :=
  ((c =c " ") || (c =c ",") || (c =c ";") || (c =c TE.dquote) || (c =c "."))%char.
(** The name after the first dollar sign. *)
Definition getKey (proto : string) : string :=
  match sfind "$" proto 0 with
  | None => ""
  | Some pos => of_chars (TE.take_until key_end (chars (drop_str (pos + 1) proto)))
  end.
(** The category before "_" and what follows the name are cut; a value shorter than two is read past its end. *)
Definition clean (v : string) : option string :=
  if (String.length v <? 2)%nat then None
  else
    let res := if cget v 2 =c "_"%char then drop_str 3 v else v in
    Some (match sfind "_" res 0 with Some pos => take_str pos res | None => res end).
Definition remap (tr : MParams) (cat v : string) : option string :=
  let value := Params.get_cat tr v cat in if value =s "" then clean v else Some value.
Definition sub (s : string) (pos n : nat) : string := String.substring pos n s.
Definition timeFormat (t : string) : string :=
  if (String.length t <? 14)%nat then t
  else sub t 6 2 +:+ "-" +:+ sub t 4 2 +:+ "-" +:+ sub t 0 4 +:+ " - " +:+
       sub t 8 2 +:+ ":" +:+ sub t 10 2 +:+ ":" +:+ sub t 12 2.
(** What stands for a key of an entry. *)
Definition key_value (tr : MParams) (evtype key raw : string) : option string :=
  remap tr evtype (if key =s "time" then timeFormat raw else raw).
(** The keys are replaced while there is one. *)
Fixpoint fill_keys (turns : nat) (value_of : string -> option string) (res : string) : option string :=
  match turns with
  | O => None
  | S n =>
      let key := getKey res in
      if key =s "" then Some res
      else v ← value_of key; fill_keys n value_of (Mng.replace res ("$" +:+ key) v)
  end.
Section tree.
Context {PT : PropertyTree}.
Definition log2text (turns : nat) (tr : MParams) (v : ptree) : option string :=
  evtype ← get_string v "type";
  let res := Params.get_cat tr evtype "proto" in
  if res =s "" then Some ""
  else fill_keys turns (fun key => raw ← get_string v key; key_value tr evtype key raw) res.
End tree.
End Tr8.

(** ** Class LogManager *)
Record LogManager := mkLM { lm_par : MParams; translator : MParams }.
Module LM.
Section manager.
Context {P : Platform} {C : Config} {XP : XmlParser} {FS : PathNames} {K : Calendar} {PT : PropertyTree}.
Variable arch : ArchiveManager.
Variable turns : nat.
Definition init (file : string) : M (option LogManager) :=
  r ←! Params.load (Params.mk1 file); tr ←! Params.load (Params.mk1 "translator"); ok (mkLM r.2 tr.2).
(** Year, month and day turned round. *)
Definition turned (date : string) : option string :=
  d ← substr date 6 2; m ← substr date 4 2; y ← substr date 0 4; Some (d +:+ m +:+ y).
Definition fill_range (request sd ed st et : string) : string :=
  Mng.replace (Mng.replace (Mng.replace (Mng.replace request "$start_date" sd) "$end_date" ed) "$start_time" st) "$end_time" et.
Definition mkRequest (m : LogManager) (body logcategory : string) : option string :=
  let lc := FilePath.getStem logcategory in
  pt ← read_json body;
  startdate ← get_string pt "start_date";
  enddate ← get_string pt "end_date";
  starttime ← get_string pt "start_time";
  endtime ← get_string pt "end_time";
  fulllog ← get_string pt "full_log";
  let request := Params.get_cat (lm_par m) (if fulllog =s "true" then "full_log" else "short_log") lc in
  sd ← turned startdate; ed ← turned enddate;
  Some (fill_range request sd ed starttime endtime).
Definition log_query (url request : string) : M (option string) :=
  Query.getSubLog arch (Msg.add (Msg.add (Msg.mk "httprequest" "*") "url" url) "body" request).
(** The last entry comes first. *)
Definition newline2 : string := "\n\n".
Definition mkAnswer (m : LogManager) (logData : list string) : string :=
  Params.get (lm_par m) "answer_prefix" +:+ sconcat (map (fun l => l +:+ newline2) (rev logData)) +:+
  Params.get (lm_par m) "answer_suffix".
Definition execPost (params : list string) (body : string) (m : LogManager) : M (option MMessage) :=
  file ←! lifto (last params);
  request ←! lifto (mkRequest m body file);
  log ←! log_query ("/logs/" +:+ FilePath.getStem file) request;
  pt ←! lifto (read_json log);
  logData ←! lifto (JP.map_opt (Tr8.log2text turns (translator m)) (ptree_children pt));
  ok (Mng.content_json (Msg.add Msg.dummy "body" (mkAnswer m logData))).
End manager.
End LM.

(** ** Class SrvManager: a parameter set; the time of the last request of each client is kept in a file *)
Module SM.
Section manager.
Context {P : Platform} {C : Config} {XP : XmlParser} {FS : PathNames} {K : Calendar} {PT : PropertyTree}.
Variable arch : ArchiveManager.
Definition init (file : string) : M (option MParams) := r ←! Params.load (Params.mk1 file); ok r.2.
Definition now20 : M string := t ← getasciitimecompact; mret ("20" +:+ t).
Definition mac_dir (mac : string) : string := homedir +:+ "/logs/" +:+ mac.
Definition macLastTime (mac : string) : M (option string) :=
  let file := mac_dir mac +:+ "/data" in
  f ← Dirs.isFile file;
  if negb f then ok ""
  else c ← contents file; pt ←! lifto (read_json (default "" c)); lifto (get_string pt "time").
Definition macTimeUpdate (mac : string) : M (option unit) :=
  time ← now20;
  _ ←! Dirs.makeDir (mac_dir mac) true;
  run (Mng.write_text (mac_dir mac +:+ "/data") ("{" +:+ quote "time" +:+ ":" +:+ quote time +:+ "}" +:+ Msg.endl)).
Definition clock_text (time : string) : option string :=
  h ← substr time 8 2; m ← substr time 10 2; Some (h +:+ ":" +:+ m).
Definition mkRequest (par : MParams) (starttime endtime : string) : option string :=
  sd ← LM.turned starttime; ed ← LM.turned endtime; st ← clock_text starttime; et ← clock_text endtime;
  Some (LM.fill_range (Params.get par "log_request") sd ed st et).
Definition execGet (params : list string) (par : MParams) : M (option MMessage) :=
  file ←! lifto (last params);
  current ← now20;
  last_time ←! macLastTime (FilePath.getStem file);
  if last_time =s "" then ok (Mng.content_json (Msg.add Msg.dummy "body" (Params.get par "answer_complain")))
  else
    request ←! lifto (mkRequest par last_time current);
    log ←! LM.log_query arch ("/logs/" +:+ Params.get par "push_log") request;
    ok (Mng.content_json (Msg.add Msg.dummy "body"
          (Params.get par "answer_prefix" +:+ log +:+ Params.get par "answer_postfix"))).
Definition execPut (params : list string) (par : MParams) : M (option MMessage) :=
  file ←! lifto (last params);
  _ ← now20;
  _ ←! macTimeUpdate (FilePath.getStem file);
  ok (Mng.content_json (Msg.add Msg.dummy "body" (Params.get par "mac_post_answer"))).
End manager.
End SM.

(** ** Class UserLog *)
Record UserLog := mkUL {
  logmap : gmap string (list string); pathname : gmap string string; proto : gmap string string;
  source : gmap string (list string) }.
Module UL.
Implicit Types (u : UserLog).
(** Each log is entered under every class of its value. *)
Definition add_class (log : string) (lm : gmap string (list string)) (class_ : string) : gmap string (list string) :=
  <[class_ := default [] (lm !! class_) ++ [log]]> lm.
Definition add_log (lm : gmap string (list string)) (x : MAttribute) : gmap string (list string) :=
  fold_left (add_class (aname x)) (NameList.of_string (avalue x) "+") lm.
Definition add_source (s : gmap string (list string)) (x : MAttribute) : gmap string (list string) :=
  <[aname x := NameList.of_string (avalue x) "+"]> s.
Definition checkSource u (target ag : string) : bool :=
  match source u !! target with Some l => NameList.member l ag | None => true end.
Definition remap (v : string) : string := if v =s "ON" then "true" else if v =s "OFF" then "false" else v.
(** The text from the first dollar sign to a quote, which must be there. *)
Fixpoint to_dquote (l : list ascii) : option (list ascii) :=
  match l with [] => None | c :: l' => if c =c TE.dquote then Some [] else r ← to_dquote l'; Some (c :: r) end.
Definition getKey (proto : string) : option string :=
  match sfind "$" proto 0 with
  | None => Some ""
  | Some pos => r ← to_dquote (chars (drop_str (pos + 1) proto)); Some (of_chars r)
  end.
Definition key_value (m : MMessage) (key : string) : string :=
  if key =s "program" then Msg.getString m key else remap (Msg.getString m key).
Fixpoint fill_keys (turns : nat) (m : MMessage) (prototype : string) : option string :=
  match turns with
  | O => None
  | S n =>
      key ← getKey prototype;
      if key =s "" then Some prototype
      else fill_keys n m (Mng.replace prototype ("$" +:+ key) (key_value m key))
  end.
(** The fields the prototypes refer to. *)
Definition log_fields (m : MMessage) (time : string) : MMessage :=
  let msubtype := Msg.getString m "feature" in
  let msubtype := match sfind "_state" msubtype 0 with Some pos => take_str pos msubtype | None => msubtype end in
  let m' := Msg.add (Msg.add m "mtype" (Msg.getString m "class")) "msubtype" msubtype in
  let m' := if Msg.getString m' "agent" <>s "" then Msg.add m' "agentname" (Msg.getString m' "agent") else m' in
  let m' := if Msg.getString m' "Ipower" <>s "" then Msg.add m' "value" (Msg.getString m' "Ipower") else m' in
  Msg.add m' "time" time.

Section log.
Context {P : Platform} {C : Config} {FS : PathNames}.
Variable turns : nat.
Definition log_dir (name : string) : string := homedir +:+ "/logs/" +:+ name.
Fixpoint make_logs (l : list MAttribute) : M (option unit) :=
  match l with
  | [] => ok tt
  | x :: l' => _ ←! Dirs.makeDir (log_dir (aname x)) true; make_logs l'
  end.
Definition mk (p : MParams) : M (option UserLog) :=
  let logs := Params.extractCategory p "log" in
  let lm := fold_left add_log logs ∅ in
  _ ←! make_logs logs;
  ok (mkUL lm (fold_left (fun pn x => <[aname x := log_dir (aname x) +:+ "/data"]> pn) logs ∅)
        (map_imap (fun k _ => Some (Params.get_cat p k "proto")) lm)
        (fold_left add_source (Params.extractCategory p "source") ∅)).
Definition append_line (path line : string) : M unit :=
  o ← open_app path; if o : bool then append path (line +:+ Msg.endl) else mret tt.
Fixpoint write_logs u (ag line : string) (l : list string) : M unit :=
  match l with
  | [] => mret tt
  | x :: l' =>
      (if checkSource u x ag then append_line (default "" (pathname u !! x)) line else mret tt);;
      write_logs u ag line l'
  end.
(** The message is passed by reference and comes back with the fields. *)
Definition log u (m : MMessage) : M (option (bool * MMessage)) :=
  let class_ := Msg.getString m "class" in
  match logmap u !! class_ with
  | None => ok (false, m)
  | Some l =>
      match proto u !! class_ with
      | None => log_info ("ERROR: no prototype for " +:+ class_);; ok (false, m)
      | Some p =>
          time ← getasciitimecompact;
          let m := log_fields m ("20" +:+ time) in
          line ←! lifto (fill_keys turns m p);
          write_logs u (Msg.getString m "agentname") line l;;
          ok (true, m)
      end
  end.
End log.
End UL.

(** * The log of the messages of the interface server (WSServer/ArchiveThread.cpp, Receiver.cpp)

    The receiver marks each message of the bus with its class and feature; the archive thread appends it as a line of
    JSON to the file of its class and feature, and hands it to the log of the users.  The purge of the thread, the day
    directory and the horus_status page have no caller. *)

Record ArchiveThread := mkAT {
  day : string; workingdir : string; horus_status : string; at_trace : MParams; disaggregate : MParams; userlog : UserLog }.
#[export] Instance ArchiveThread_rebuild : Rebuild ArchiveThread := fun t =>
  mkAT (day t) (workingdir t) (horus_status t) (at_trace t) (disaggregate t) (userlog t).

Module AT.
Implicit Types (t : ArchiveThread) (m : MMessage).
(** ** Texts *)
Definition is_logged (field : string) : bool :=
  negb (existsb (seqb field) ["class"; "feature"; "method"; "language"; "url"]).
Definition logged_fields m : list (string * string) :=
  map (fun kv => (kv.1, ML.getString kv.2)) (List.filter (fun kv => is_logged kv.1) (map_items (fields m))).
Definition log_text m : string := "{" +:+ ML.commas (map (fun kv => quote kv.1 +:+ ":" +:+ quote kv.2) (logged_fields m)) +:+ "}".
Definition mkItem m : string := "{" +:+ ML.commas (map (fun kv => kv.1 +:+ ":" +:+ kv.2) (logged_fields m)) +:+ "}".
Definition yes_for (p : MParams) (name : string) : bool := (Params.get p "all" =s "yes") || (Params.get p name =s "yes").
Definition isToTrace t (feature : string) : bool := yes_for (at_trace t) feature.
Definition isToDisaggregate t (class_ : string) : bool := yes_for (disaggregate t) class_.
(** A time that is too short is an exception. *)
Definition isInCurrentDay t (daytime : string) : option bool :=
  if daytime =s "" then Some true
  else
    y ← substr daytime 0 2; mo ← substr daytime 2 2; d ← substr daytime 4 2;
    Some (day t =s ("20" +:+ y +:+ "_" +:+ mo +:+ "_" +:+ d)).
Definition getTimeInSecond {P : Platform} (time : string) : double :=
  if (String.length time <? 12)%nat then d0
  else
    let at_ i := a2double (String.substring i 2 time) in
    dadd (dadd (dmul (at_ 6%nat) (d_of_Z 3600)) (dmul (at_ 8%nat) (d_of_Z 60))) (at_ 10%nat).
Definition mkDate (day : string) : string :=
  match NameList.of_string day "_" with
  | y :: m :: d :: _ => d +:+ " - " +:+ m +:+ " - " +:+ y
  | _ => ""
  end.

Section thread.
Context {P : Platform} {C : Config} {XP : XmlParser} {FS : PathNames} {K : Calendar} {PT : PropertyTree}.
Variable turns : nat.
(** [hsrv::behaviour] *)
Variable behaviour : string.

(** ** Construction *)
Definition mk (n : string) : M (option ArchiveThread) :=
  params ←! Params.load (Params.mk1 ("threads/" +:+ n));
  _ ←! Params.load (Params.mk1 "archive");
  today ← getday 0;
  let status := homedir +:+ "/horus_status" in
  d ← opendir status;
  _ ←! (if d : bool then ok true else Dirs.makeDir status true);
  tr ←! Params.load (Params.mk1 "trace");
  dis ←! Params.load (Params.mk1 "disaggregate");
  u ←! UL.mk params.2;
  ok (mkAT today (homedir +:+ "/") status tr.2 dis.2 u).

(** ** Lines *)
Definition writelog (lfile : string) m : M unit :=
  o ← open_app lfile;
  if o : bool then append lfile (log_text m +:+ Msg.endl)
  else log_info ("FILE " +:+ lfile +:+ "  cannot be open!").
(** The directories of a path, each made when it is not there. *)
Fixpoint make_dirs (dir : string) (l : list string) : M (option string) :=
  match l with
  | [] => ok dir
  | n :: l' =>
      let dir := dir +:+ n in
      d ← Dirs.isDir dir;
      _ ←! (if d : bool then ok true else Dirs.makeDir dir false);
      make_dirs (dir +:+ "/") l'
  end.
Definition log_path t m : list string :=
  [Msg.getString m "class"; Msg.getString m "feature"] ++
  (if isToDisaggregate t (Msg.getString m "class") then [Msg.getString m "agent"] else []).
Definition remote_item t m : MMessage :=
  Msg.add (Msg.add (Msg.mk "rscmd" "serversend") "url"
    (day t +:+ "/" +:+ Msg.getString m "class" +:+ "/" +:+ Msg.getString m "feature")) "item" (mkItem m).
Definition trace_message t m : M (option unit) :=
  dir ←! make_dirs (homedir +:+ "/") (log_path t m);
  today ←! lifto (isInCurrentDay t (Msg.getString m "timeofday"));
  (if today : bool then writelog (dir +:+ "data") m
   else log_info ("Out of time message arrived: " +:+ Msg.xmlEncode m 0));;
  (if behaviour =s "active" then notify (remote_item t m) else mret tt);;
  _ ←! UL.log turns (userlog t) m; ok tt.

(** ** The change of the day: the archive is purged when a quarter of an hour ago it was still yesterday *)
Definition update (a : ArchiveManager) t : M (option (ArchiveManager * ArchiveThread)) :=
  currentday ← getday 0;
  yesterday ← getday (-900);
  if currentday =s day t then ok (a, t)
  else if yesterday <>s day t then ok (a, t <| day := currentday |>)
  else a ←! Req.purge a; ok (a, t <| day := currentday |>).
(** One message of the loop of [do_work]. *)
Definition handle (a : ArchiveManager) t m : M (option (ArchiveManager * ArchiveThread)) :=
  if (mtype m =s "trigger") && (msubtype m =s "archiveupd") then update a t
  else if (mtype m =s "logcmd") && (msubtype m =s "archive") then
    if isToTrace t (Msg.getString m "feature") then _ ←! trace_message t m; ok (a, t) else ok (a, t)
  else ok (a, t).
End thread.
End AT.

(** ** Class Receiver: one message of its loop *)
Module Recv.
Definition mark_agent (m : MMessage) : MMessage :=
  let out := Msg.set_subtype (Msg.set_type m "logcmd") "archive" in
  let out := Msg.add (Msg.add out "class" (mtype m)) "feature" (msubtype m) in
  let out := if Msg.getString m "agent" <>s "" then Msg.add out "agentname" (Msg.getString m "agent") else out in
  if Msg.getString m "Ipower" <>s "" then Msg.add out "value" (Msg.getString m "Ipower") else out.
Definition stamp {P : Platform} (m : MMessage) : M MMessage :=
  _ ← getasciitimecompact;
  out ← (if Msg.getString m "timeofday" =s "" then t ← getasciitimecompact; mret (Msg.add (mark_agent m) "timeofday" t)
         else mret (mark_agent m));
  mret (Msg.add out "time" (Msg.getString m "time")).
Definition handle {P : Platform} (m : MMessage) : M unit := out ← stamp m; notify out.
End Recv.
