(* ===== verification/Push.v ===== *)
(** * The clients of the interface server that are told of events (WSServer/PushConnection.cpp, PushThread.cpp)

    A client registers for devices and agents, and a line of JSON is written to it for each event it registered for.
    One connection stands for the log of the events and for the file read by the web socket server.  Every poll asks
    each client whether it is alive and forgets one that did not answer in time.  A text is copied to a buffer of [MAXB]
    bytes before it is written.  [Sockets] is what the operating system
    answers; [JsonNodes] is libjson, a vendored library.  [None] is an exception, a dangling access or a buffer overrun. *)
From S2P Require Import Prelude Doubles Hsrv Xml MMessage World MParams Users Managers.

(** The result of a write, and the pieces read before the time out. *)
Class Sockets := { sock_write : nat -> Z -> Z; sock_read : nat -> Z -> list string }.
Class JsonNodes := {
  jnode : Type; json_parse : string -> option jnode; jchildren : jnode -> list jnode;
  jname : jnode -> string; jstring : jnode -> string }.

Record PushConnection := mkPC {
  logfile : string; logpush : string; logevents : list string; connection : Z; events : gmap string string;
  mode : string; address : string; port : string; ttl : Z }.
#[export] Instance PushConnection_rebuild : Rebuild PushConnection := fun c =>
  mkPC (logfile c) (logpush c) (logevents c) (connection c) (events c) (mode c) (address c) (port c) (ttl c).

Module PC.
Implicit Types (c : PushConnection).
(** ** Texts *)
Definition json_device (l : list (string * string)) : string :=
  "{" +:+ quote "device" +:+ ": {" +:+ ML.commas (map (fun kv => quote kv.1 +:+ ":" +:+ quote kv.2) l) +:+ "}}" +:+ Msg.endl.
Definition describe c : string :=
  "<" +:+ address c +:+ ":" +:+ port c +:+ ">[" +:+ sconcat (map (fun kv => kv.1 +:+ "; ") (map_items (events c))) +:+ "]".
Definition remapDimmer {P : Platform} (value : string) : string :=
  let val := a2double value in
  let above n := dltb (d_of_Z n) val in
  if dltb val (d_of_Z 1) then "0" else if above 91 then "100" else if above 81 then "90" else if above 71 then "80"
  else if above 61 then "70" else if above 51 then "60" else if above 41 then "50" else if above 31 then "40"
  else if above 21 then "30" else if above 11 then "20" else if above 1 then "10" else "0".
Definition is_switch (device : string) : bool := existsb (seqb device) ["LI"; "SO"; "SA"; "GA"; "GV"; "IR"].
Definition shutter (value : string) : string :=
  if value =s "UP" then "up" else if value =s "DOWN" then "down" else if value =s "OFF" then "off" else value.
(** The name the clients know and the value they are told: [None] for an event that is not told. *)
Definition device_event {P : Platform} (featurename value : string) : option (string * string) :=
  match NameList.of_string featurename "_" with
  | [] => None
  | [name] => Some ("XX_" +:+ name, value)
  | [device; name] => Some (device +:+ "_" +:+ name, value)
  | [device; name; third] =>
      if third <>s "state" then None
      else Some (device +:+ "_" +:+ name,
                 if is_switch device then TE.convertValue value
                 else if device =s "DI" then remapDimmer value
                 else if device =s "SH" then shutter value else value)
  | device :: name :: _ => Some (device +:+ "_" +:+ name, value)
  end.
Definition isToLog c (event : string) : bool := NameList.member (logevents c) "all" || NameList.member (logevents c) event.
Definition checkRegister c (name : string) : bool :=
  match events c !! name with None => false | Some v => (mode c =s "*") || (mode c =s v) end.
Definition isRegistration (msg : string) : bool := contains "devices" msg.
Definition isIAA (msg : string) : bool := contains "IAA" msg.
Definition after (p s : string) : string := match sfind p s 0 with Some i => drop_str (i + 1) s | None => s end.
Definition log_line (time ty m : string) : string :=
  let tolog := after "{" (drop_str 3 m) in
  let tolog := take_str (match sfind "}" tolog 0 with Some i => i + 1 | None => 0 end) tolog in
  "{" +:+ quote "time" +:+ ":" +:+ quote time +:+ "," +:+ quote "type" +:+ ":" +:+ quote ty +:+ "," +:+ tolog +:+ Msg.endl.

(** ** The registration *)
Section registration.
Context {J : JsonNodes}.
(** The first child of each child of the first node named "devices". *)
Fixpoint devices_node (l : list jnode) : option jnode :=
  match l with [] => None | n :: l' => if jname n =s "devices" then Some n else devices_node l' end.
Fixpoint register_all (l : list jnode) (ev : gmap string string) : option (gmap string string) :=
  match l with
  | [] => Some ev
  | n :: l' => f ← head (jchildren n); register_all l' (<[jstring f := "*"]> ev)
  end.
Definition getRegistration c (msg : string) : option (bool * PushConnection) :=
  if msg =s "" then Some (false, c)
  else
    n ← json_parse msg;
    ev ← (match devices_node (jchildren n) with Some d => register_all (jchildren d) ∅ | None => Some ∅ end);
    Some (true, c <| events := ev |>).
End registration.

Section connection.
Context {P : Platform} {C : Config} {FS : PathNames} {J : JsonNodes} {So : Sockets}.

(** ** The socket *)
Definition c_text (s : string) : string := of_chars (until_nul (chars s)).
Definition write_fd (fd : Z) (s : string) : M Z := fun w =>
  (sock_write (w_tick w) fd, set_tick (S (w_tick w)) (emit (Written fd (c_text s)) w).2).
Definition write_socket c (s : string) : M Z := write_fd (connection c) s.
Definition fits (s : string) : bool := (String.length (c_text s) <? MAXB)%nat.
Definition write_text (fd : Z) (s : string) : M (option Z) := if fits s then run (write_fd fd s) else crash.
Fixpoint split_nl (l : list ascii) : list ascii * bool :=
  match l with
  | [] => ([], false)
  | x :: l' => if x =c "010"%char then ([], true) else let '(a, b) := split_nl l' in (x :: a, b)
  end.
(** The line, or the content of the buffer, where a piece covers the start of the one before. *)
Fixpoint read_line (l : list string) (msg : string) (buffer : list ascii) : string + string :=
  match l with
  | [] => inr (of_chars (until_nul buffer))
  | x :: l' =>
      let '(a, ended) := split_nl (chars x) in
      if ended then inl (msg +:+ of_chars a)
      else read_line l' (msg +:+ of_chars a) (chars x ++ drop (String.length x) buffer)
  end.
Definition getJsonMessage c : M string := fun w =>
  if connection c <=? 0 then ("", w)
  else
    match read_line (sock_read (w_tick w) (connection c)) "" [] with
    | inl msg => (msg, set_tick (S (w_tick w)) w)
    | inr m => ("", set_tick (S (w_tick w))
                      (log_info ("non JSON message arrived: (" +:+ unsigned2a (Z.of_nat (String.length m)) +:+ ") " +:+ m) w).2)
    end.
Definition AYAsend c : M bool :=
  count ← write_socket c ("{" +:+ quote "device" +:+ ":{" +:+ quote "name" +:+ ":" +:+ quote "AYA" +:+ "}}" +:+ Msg.endl);
  mret (0 <? count).
Definition IAAreceive c : M (option (bool * PushConnection)) :=
  msg ← getJsonMessage c;
  if msg =s "" then ok (false, c)
  else if isRegistration msg then r ←! lifto (getRegistration c msg); ok (true, r.2)
  else ok (isIAA msg, c).

(** ** Construction *)
Definition unset_connection : Z := indet_int.
Definition mk_client (fd : Z) (addr prt : string) (maxttl : Z) : M (option PushConnection) :=
  let c := mkPC "" "" [] fd ∅ "*" addr prt maxttl in
  msg ← getJsonMessage c;
  r ←! lifto (getRegistration c msg); ok r.2.
Definition mk_log (file evs : string) : M (option PushConnection) :=
  let dir := homedir +:+ "/logs/" +:+ file in
  _ ←! Dirs.makeDir dir true;
  ok (mkPC (dir +:+ "/data") (homedir +:+ "/LOGPUSH") (NameList.of_string evs "+") unset_connection ∅ "" "" "" indet_int).

(** ** Events *)
Definition logMessage (ty m file : string) : M Z :=
  o ← open_app file;
  time ← getasciitimecompact;
  (if o : bool then append file (log_line ("20" +:+ time) ty m) else mret tt);; mret 1.
(** What is common: the text goes to the log of the web sockets; then to the log, or to the client. *)
Definition tell c (class_ msg : string) (logged registered : bool) : M (option Z) :=
  (if logpush c <>s "" then logMessage class_ msg (logpush c);; mret tt else mret tt);;
  if logfile c <>s "" then (if logged then run (logMessage class_ msg (logfile c)) else ok 0)
  else if registered then write_text (connection c) msg else ok 0.
Definition notifyProgramChange c (m : MMessage) : M (option bool) :=
  let get := Msg.getString m in
  let cname := if get "source" =s "" then get "agent" else get "source" in
  let msg := json_device [("name", cname); ("mode", get "status"); ("active", get "program_active")] in
  count ←! tell c (get "class") msg (isToLog c (get "class")) (checkRegister c cname); ok (0 <? count).
Definition notifyDeviceChange c (m : MMessage) : M (option bool) :=
  let get := Msg.getString m in
  match device_event (get "feature") (get "value") with
  | None => ok false
  | Some (cname, value) =>
      let msg := json_device ([("name", cname); ("status", value)] ++ (if get "color" =s "" then [] else [("color", get "color")])) in
      count ←! tell c (get "class") msg (isToLog c cname) (bool_decide (is_Some (events c !! cname))); ok (0 <? count)
  end.
(** The count is unsigned here: a failure counts as success. *)
Definition notifyAlarm c (m : MMessage) : M (option bool) :=
  let get := Msg.getString m in
  let msg := json_device [("name", get "agentname"); ("alarm", get "feature"); ("source", get "source"); ("video", get "video")] in
  count ←! tell c (get "class") msg (isToLog c (get "class")) (checkRegister c (get "agentname")); ok (negb (count =? 0)).
Definition switch_value (value : string) : string :=
  if (value =s "ON") || (value =s "1") then "true" else if (value =s "OFF") || (value =s "0") then "false" else value.
Definition notifyCmdChange c (m : MMessage) : M (option bool) :=
  let get := Msg.getString m in
  let cname := get "agentname" in
  if cname =s "Alarm" then ok false
  else
    let msg := json_device [("name", cname); ("action", get "feature"); ("value", switch_value (get "value"))] in
    count ←! tell c (get "class") msg (isToLog c (get "feature")) (checkRegister c cname); ok (negb (count =? 0)).
Definition is_archive (m : MMessage) : bool := (mtype m =s "logcmd") && (msubtype m =s "archive").
Definition notifyEvent c (m : MMessage) : M (option bool) :=
  let class_ := Msg.getString m "class" in
  let featurename := Msg.getString m "feature" in
  if is_archive m && existsb (seqb class_) ["event"; "program"; "cmd"; "alarm"] then
    if featurename =s "" then ok false
    else if class_ =s "alarm" then notifyAlarm c m
    else if featurename =s "prgstatus" then notifyProgramChange c m
    else if class_ =s "cmd" then notifyCmdChange c m
    else notifyDeviceChange c m
  else ok false.
End connection.
End PC.

(** ** Class PushThread *)
Record PushThread := mkPT {
  logconnection : PushConnection; connections : list PushConnection; maxttl : Z; pollperiod : Z; pt_port : string; pt_page : MMessage }.
#[export] Instance PushThread_rebuild : Rebuild PushThread := fun p =>
  mkPT (logconnection p) (connections p) (maxttl p) (pollperiod p) (pt_port p) (pt_page p).
Module PTh.
Implicit Types (p : PushThread).
Section thread.
Context {P : Platform} {C : Config} {XP : XmlParser} {FS : PathNames} {J : JsonNodes} {So : Sockets}.
(** The page is registered as XML and as HTML. *)
Definition register_page (page : MMessage) : M MMessage :=
  let page := Msg.add page "language" "xml" in
  emit (Registered "/PushService.xml" page);;
  let page := Msg.add page "language" "html" in
  emit (Registered "/PushService" page);; mret page.
(** The port is the one of the agent and two. *)
Definition mk : M (option PushThread) :=
  r ←! Params.load (Params.mk1 "threads/PushThread");
  let get := Params.get r.2 in
  let mt := if get "maxttl" <>s "" then a2int (get "maxttl") else 2 in
  let pp := if get "pollperiod" <>s "" then a2long (get "pollperiod") else indet_long in
  n ←! Params.load (Params.mk1 "agentnet");
  let prt := int2a (a2int (Params.get n.2 "port") + 2) in
  page ← register_page (Msg.add (Msg.mk "PushService" "*") "port" prt);
  l ←! PC.mk_log (get "logfile") (get "logevents");
  ok (mkPT l [] mt pp prt page).
Definition updateStatusPage p (client : string) (added : bool) : M PushThread :=
  page ← (if added then tv ← getasciitimeday; mret (Msg.add (pt_page p) client tv)
          else mret (Msg.set_fields (pt_page p) (delete client (fields (pt_page p)))));
  page ← register_page page;
  mret (p <| pt_page := page |>).
(** A client that connects. *)
Definition do_register (fd : Z) (addr prt : string) p : M (option PushThread) :=
  c ←! PC.mk_client fd addr prt (maxttl p);
  run (updateStatusPage (p <| connections := connections p ++ [c] |>) (PC.describe c) true).
Definition poll_one (mt : Z) (c : PushConnection) : M (option PushConnection) :=
  sent ← PC.AYAsend c;
  if negb sent then ok (c <| ttl := -1 |>)
  else r ←! PC.IAAreceive c; ok (r.2 <| ttl := if r.1 then mt else ttl r.2 - 1 |>).
Fixpoint poll_all (mt : Z) (l : list PushConnection) : M (option (list PushConnection)) :=
  match l with [] => ok [] | c :: l' => c ←! poll_one mt c; cs ←! poll_all mt l'; ok (c :: cs) end.
(** The first client whose time is over. *)
Fixpoint take_expired (l : list PushConnection) : option (PushConnection * list PushConnection) :=
  match l with
  | [] => None
  | c :: l' => if ttl c <=? 0 then Some (c, l') else r ← take_expired l'; Some (r.1, c :: r.2)
  end.
Definition clearExpired p : M PushThread :=
  match take_expired (connections p) with
  | None => mret p
  | Some (c, l) => p ← updateStatusPage p (PC.describe c) false; mret (p <| connections := l |>)
  end.
(** One turn of the poll. *)
Definition do_poll p : M (option PushThread) :=
  l ←! poll_all (maxttl p) (connections p); run (clearExpired (p <| connections := l |>)).
Fixpoint notify_all (l : list PushConnection) (m : MMessage) : M (option unit) :=
  match l with [] => ok tt | c :: l' => _ ←! PC.notifyEvent c m; notify_all l' m end.
Definition notifyEvent p (m : MMessage) : M (option unit) :=
  _ ←! PC.notifyEvent (logconnection p) m; notify_all (connections p) m.
(** One message of the loop of [do_signal]. *)
Definition do_signal p (m : MMessage) : M (option unit) := if PC.is_archive m then notifyEvent p m else ok tt.
End thread.
End PTh.
