(* ===== verification/Logger.v ===== *)
(** * The logger agent (logger/PushConnection.cpp, PushThread.cpp, ArchiveThread.cpp, Receiver.cpp)

    The logger appends the messages of the bus to log files and tells the clients that registered for a device what
    happened to it.  It is the first form of the log and event threads of the interface server ([LogManagers], [Push]):
    the clients register for names only, the day changes on any message, and days that are too old are removed by
    shell commands.  The operations that are the same text in both agents are those of [AT], [PC] and [Dirs];
    RemoteServerThread.cpp is the same file and is in [Hosts].  installday, mkHorusStatusPage and mkDayTime have no caller.
    [None] is an exception, a dangling access or a buffer overrun. *)
From S2P Require Import Prelude Doubles Hsrv Xml MMessage World MParams Subjects Archive ArchiveOps Users Managers LogManagers Push.

(** ** A client *)
Record LogClient := mkLC { lc_connection : Z; lc_events : gmap string bool; lc_address : string; lc_port : string; lc_ttl : Z }.
#[export] Instance LogClient_rebuild : Rebuild LogClient := fun c =>
  mkLC (lc_connection c) (lc_events c) (lc_address c) (lc_port c) (lc_ttl c).

Module LPC.
Implicit Types (c : LogClient) (m : MMessage).
Definition describe c : string :=
  "<" +:+ lc_address c +:+ ":" +:+ lc_port c +:+ ">[" +:+ sconcat (map (fun kv => kv.1 +:+ "; ") (map_items (lc_events c))) +:+ "]".
Definition remapDimmer {P : Platform} (value : string) : string :=
  let val := a2double value in
  let above n := dltb (d_of_Z n) val in
  if dltb val (d_of_Z 1) then "0" else if above 1000 then "100" else if above 500 then "80" else if above 200 then "60"
  else if above 100 then "40" else if above 50 then "20" else "0".
(** The name the clients know and the value they are told.  [otherwise] is a label no one jumps to: names of five
    parts and more are told as they are.  The second test of a shutter looks at its name, where the third part is meant. *)
Definition device_event {P : Platform} (featurename value : string) : option (string * string) :=
  match NameList.of_string featurename "_" with
  | [] => None
  | [name] => Some ("XX_" +:+ name, value)
  | [device; name] => Some (device +:+ "_" +:+ name, value)
  | [device; name; third] =>
      if third <>s "state" then None
      else Some (device +:+ "_" +:+ name,
                 if (device =s "LI") && (value =s "1") then "true" else if (device =s "LI") && (value =s "0") then "false"
                 else if device =s "DI" then remapDimmer value else value)
  | [device; name; third; _] =>
      if (device =s "SH") && (third <>s "up") && (name <>s "down") then None
      else Some (device +:+ "_" +:+ name,
                 if ((value =s "0") || (value =s "OFF")) && ((third =s "up") || (third =s "down")) then "off" else third)
  | device :: name :: _ => Some (device +:+ "_" +:+ name, value)
  end.
(** The quote that should end the key of the program stands after its colon. *)
Definition program_text (cname mode program_name : string) : string :=
  "{" +:+ quote "device" +:+ ": {" +:+ quote "name" +:+ ":" +:+ quote cname +:+ "," +:+ quote "mode" +:+ ":" +:+ quote mode +:+
  "," +:+ quote "program_name:" +:+ program_name +:+ String TE.dquote "}}" +:+ Msg.endl.

(** ** The registration: the first child of each child of the first node named "devices" *)
Section registration.
Context {J : JsonNodes}.
Fixpoint register_all (l : list jnode) (ev : gmap string bool) : option (gmap string bool) :=
  match l with
  | [] => Some ev
  | n :: l' => f ← head (jchildren n); register_all l' (<[jstring f := true]> ev)
  end.
Definition registered (msg : string) : option (gmap string bool) :=
  n ← json_parse msg;
  match PC.devices_node (jchildren n) with Some d => register_all (jchildren d) ∅ | None => Some ∅ end.
End registration.

Section client.
Context {P : Platform} {J : JsonNodes} {So : Sockets}.
(** ** The socket *)
Fixpoint read_line (l : list string) (msg : string) : option string :=
  match l with
  | [] => None
  | x :: l' => let '(a, ended) := PC.split_nl (chars x) in
               if ended then Some (msg +:+ of_chars a) else read_line l' (msg +:+ of_chars a)
  end.
Definition getJsonMessage (fd : Z) : M string := fun w =>
  if fd <=? 0 then ("", w)
  else
    let w' := set_tick (S (w_tick w)) w in
    match read_line (sock_read (w_tick w) fd) "" with
    | Some msg => (msg, w')
    | None => ("", (log_info "non JSON message arrived" w').2)
    end.
Definition AYAsend c : M bool :=
  count ← PC.write_fd (lc_connection c) ("{" +:+ quote "device" +:+ ":{" +:+ quote "name" +:+ ":" +:+ quote "AYA" +:+ "}}" +:+ Msg.endl);
  mret (0 <? count).
Definition IAAreceive c : M bool := msg ← getJsonMessage (lc_connection c); mret (msg <>s "").
(** An empty text is parsed too. *)
Definition mk (fd : Z) (addr prt : string) (maxttl : Z) : M (option LogClient) :=
  msg ← getJsonMessage fd; ev ←! lifto (registered msg); ok (mkLC fd ev addr prt maxttl).

(** ** Events *)
Definition tell c (cname text : string) : M (option bool) :=
  if bool_decide (is_Some (lc_events c !! cname)) then count ←! PC.write_text (lc_connection c) text; ok (0 <? count) else ok false.
Definition notifyProgramChange c m : M (option bool) :=
  let get := Msg.getString m in tell c (get "source") (program_text (get "source") (get "mode") (get "value")).
Definition notifyDeviceChange c m : M (option bool) :=
  match device_event (Msg.getString m "feature") (Msg.getString m "value") with
  | None => ok false
  | Some (cname, value) => tell c cname (PC.json_device [("name", cname); ("status", value)])
  end.
Definition notifyEvent c m : M (option bool) :=
  let class_ := Msg.getString m "class" in
  if PC.is_archive m && ((class_ =s "event") || (class_ =s "program")) then
    if Msg.getString m "feature" =s "" then ok false
    else if Msg.getString m "feature" =s "setprogram" then notifyProgramChange c m else notifyDeviceChange c m
  else ok false.
End client.
End LPC.

(** ** Class PushThread *)
Record LogPush := mkLP { lp_connections : list LogClient; lp_maxttl : Z; lp_pollperiod : Z; lp_port : string; lp_page : MMessage }.
#[export] Instance LogPush_rebuild : Rebuild LogPush := fun p =>
  mkLP (lp_connections p) (lp_maxttl p) (lp_pollperiod p) (lp_port p) (lp_page p).
Module LPT.
Implicit Types (p : LogPush).
Section thread.
Context {P : Platform} {C : Config} {XP : XmlParser} {J : JsonNodes} {So : Sockets}.
(** The port is the one of the agent and one. *)
Definition mk : M (option LogPush) :=
  r ←! Params.load (Params.mk1 "threads/PushThread");
  let get := Params.get r.2 in
  let mt := if get "maxttl" <>s "" then a2int (get "maxttl") else 2 in
  let pp := if get "pollperiod" <>s "" then a2long (get "pollperiod") else indet_long in
  n ←! Params.load (Params.mk1 "agentnet");
  let prt := int2a (a2int (Params.get n.2 "port") + 1) in
  page ← PTh.register_page (Msg.add (Msg.mk "PushService" "*") "port" prt);
  ok (mkLP [] mt pp prt page).
Definition updateStatusPage p (client : string) (added : bool) : M LogPush :=
  page ← (if added then tv ← getasciitimeday; mret (Msg.add (lp_page p) client tv)
          else mret (Msg.set_fields (lp_page p) (delete client (fields (lp_page p)))));
  page ← PTh.register_page page;
  mret (p <| lp_page := page |>).
(** A client that connects. *)
Definition do_register (fd : Z) (addr prt : string) p : M (option LogPush) :=
  c ←! LPC.mk fd addr prt (lp_maxttl p);
  run (updateStatusPage (p <| lp_connections := lp_connections p ++ [c] |>) (LPC.describe c) true).
Definition poll_one (mt : Z) (c : LogClient) : M LogClient :=
  sent ← LPC.AYAsend c;
  if negb sent then mret (c <| lc_ttl := -1 |>)
  else alive ← LPC.IAAreceive c; mret (c <| lc_ttl := if alive : bool then mt else lc_ttl c - 1 |>).
Fixpoint take_expired (l : list LogClient) : option (LogClient * list LogClient) :=
  match l with
  | [] => None
  | c :: l' => if lc_ttl c <=? 0 then Some (c, l') else r ← take_expired l'; Some (r.1, c :: r.2)
  end.
Definition clearExpired p : M LogPush :=
  match take_expired (lp_connections p) with
  | None => mret p
  | Some (c, l) => p ← updateStatusPage p (LPC.describe c) false; mret (p <| lp_connections := l |>)
  end.
(** One turn of the poll. *)
Definition do_poll p : M LogPush :=
  l ← mapM_M (poll_one (lp_maxttl p)) (lp_connections p); clearExpired (p <| lp_connections := l |>).
Fixpoint notifyEvent (l : list LogClient) (m : MMessage) : M (option unit) :=
  match l with [] => ok tt | c :: l' => _ ←! LPC.notifyEvent c m; notifyEvent l' m end.
(** One message of the loop of [do_signal]. *)
Definition do_signal p (m : MMessage) : M (option unit) := if PC.is_archive m then notifyEvent (lp_connections p) m else ok tt.
End thread.
End LPT.

(** ** Class ArchiveThread *)
Record LogArchive := mkLA { la_day : string; la_workingdir : string; la_conf : MParams; la_trace : MParams }.
#[export] Instance LogArchive_rebuild : Rebuild LogArchive := fun t =>
  mkLA (la_day t) (la_workingdir t) (la_conf t) (la_trace t).
Module LAT.
Implicit Types (t : LogArchive) (m : MMessage).
(** A time that is too short is an exception: [substr] past the end of the text. *)
Definition getTimeInSecond {P : Platform} (time : string) : option double :=
  h ← substr time 6 2; mi ← substr time 8 2; s ← substr time 10 2;
  Some (dadd (dadd (dmul (a2double h) (d_of_Z 3600)) (dmul (a2double mi) (d_of_Z 60))) (a2double s)).
Section thread.
Context {P : Platform} {C : Config} {XP : XmlParser} {FS : PathNames} {K : Calendar} {PT : PropertyTree}.
(** [hsrv::behaviour] *)
Variable behaviour : string.
Definition mk (name : string) : M (option LogArchive) :=
  _ ←! Params.load (Params.mk1 ("threads/" +:+ name));
  conf ←! Params.load (Params.mk1 "archive");
  today ← getday 0;
  let status := homedir +:+ "/horus_status" in
  d ← opendir status;
  _ ←! (if d : bool then ok true else Dirs.makeDir status true);
  tr ←! Params.load (Params.mk1 "trace");
  ok (mkLA today (homedir +:+ "/") conf.2 tr.2).

(** ** Lines *)
Definition isToTrace t (feature : string) : bool := AT.yes_for (la_trace t) feature.
Definition remote_item t m : MMessage :=
  Msg.add (Msg.add (Msg.mk "rscmd" "serversend") "url"
    (la_day t +:+ "/" +:+ Msg.getString m "class" +:+ "/" +:+ Msg.getString m "feature")) "item" (AT.mkItem m).
Definition trace_message t m : M (option unit) :=
  dir ←! AT.make_dirs (homedir +:+ "/") [Msg.getString m "class"; Msg.getString m "feature"];
  AT.writelog (dir +:+ "data") m;;
  (if behaviour =s "active" then notify (remote_item t m) else mret tt);; ok tt.

(** ** The days that are kept: the oldest directories of the agent are handed to the shell *)
Definition replaced (n : nat) (cmd path : string) : string := Nat.iter n (fun s => (strReplace s "$PATH" path).2) cmd.
Definition purge_day t (dir : string) : M unit :=
  let pathfile := la_workingdir t +:+ "/" +:+ dir in
  let conf := Params.get (la_conf t) in
  (if conf "compresscmd" <>s "" then cmdExec (replaced 2 (conf "compresscmd") pathfile);; mret tt else mret tt);;
  (if conf "uploadcmd" <>s "" then cmdExec (replaced 1 (conf "uploadcmd") pathfile);; mret tt else mret tt);;
  cmdExec ("rm -r " +:+ pathfile);; cmdExec ("rm " +:+ pathfile +:+ ".*");; mret tt.
Definition purge t : M bool :=
  let tmp := Params.get (la_conf t) "maxdaynumber" in
  if tmp =s "" then mret false
  else
    let max_day_number := a2unsigned tmp in
    if max_day_number =? 0 then mret false
    else
      r ← Dirs.dirList (la_workingdir t) [];
      let n := Z.of_nat (length r.2) in
      if n <=? max_day_number then mret false
      else iterM (purge_day t) (take (Z.to_nat (n - max_day_number)) (merge_sort String.le r.2));; mret true.

(** ** The loop *)
Definition update (a : ArchiveManager) t : M (option (ArchiveManager * LogArchive)) :=
  currentday ← getday 0;
  if currentday =s la_day t then ok (a, t) else a ←! Req.purge a; ok (a, t <| la_day := currentday |>).
(** One message of the loop of [do_work], which begins with [purge]. *)
Definition handle (a : ArchiveManager) t m : M (option (ArchiveManager * LogArchive)) :=
  r ←! update a t;
  if PC.is_archive m && isToTrace r.2 (Msg.getString m "feature") then _ ←! trace_message r.2 m; ok r else ok r.
End thread.
End LAT.

(** ** Class Receiver: one message of its loop *)
Module LRecv.
Definition stamp {P : Platform} (m : MMessage) : M MMessage :=
  _ ← getasciitimecompact;
  let out := Msg.set_subtype (Msg.set_type m "logcmd") "archive" in
  let out := Msg.add (Msg.add out "class" (mtype m)) "feature" (msubtype m) in
  t ← getasciitimecompact;
  mret (Msg.add (Msg.add out "timeofday" t) "time" (Msg.getString m "time")).
Definition handle {P : Platform} (m : MMessage) : M unit := out ← stamp m; notify out.
End LRecv.

(** ** What the clients are told of a shutter *)

(** The end of the way down of a shutter is told to no client, unless the shutter is called "down"; the way up is. *)
Lemma shutter_down_is_not_told {P : Platform} name place value :
  "_"%char ∉ chars name -> "_"%char ∉ chars place -> place <> "" -> name <> "down" ->
  let event third := NameList.join "_" ["SH"; name; third; place] in
  LPC.device_event (event "down") value = None /\
  LPC.device_event (event "up") value = Some ("SH_" +:+ name, if (value =s "0") || (value =s "OFF") then "off" else "up").
Proof.
  intros Hn Hp He Hd event.
  assert (H : forall third, "_"%char ∉ chars third -> NameList.of_string (event third) "_" = ["SH"; name; third; place]).
  { intros third Ht. unfold NameList.of_string, NameList.init. rewrite (seqb_ne (event third)) by (unfold event; done).
    unfold event. rewrite NameList.init_join; [done| |done]. repeat apply Forall_cons_2; try done.
    by apply (bool_decide_unpack ("_"%char ∉ chars "SH")). }
  unfold LPC.device_event. rewrite (H "down"), (H "up") by (by apply (bool_decide_unpack (_ ∉ chars _))). rewrite (seqb_ne _ _ Hd). cbn. by destruct (_ || _).
Qed.

(** ** The purge of the days *)

(** The commands a computation hands to the shell, in order. *)
Definition commands (t : list effect) : list string := omap (fun e => match e with Command s => Some s | _ => None end) t.
Definition orders {A} (c : M A) (l : list string) : Prop :=
  forall w, exists t, w_trace (final c w) = w_trace w ++ t /\ commands t = l.
Lemma orders_ret {A} (a : A) : orders (mret a) [].
Proof. intros w. exists []. by rewrite app_nil_r. Qed.
Lemma orders_bind {A B} (c : M A) (k : A -> M B) l1 l2 : orders c l1 -> (forall a, orders (k a) l2) -> orders (c ≫= k) (l1 ++ l2).
Proof.
  intros Hc Hk w. rewrite final_bind. destruct (Hc w) as (t1 & E1 & W1). destruct (Hk (result c w) (final c w)) as (t2 & E2 & W2).
  exists (t1 ++ t2). rewrite E2, E1, <- (assoc_L (++)). split; [done|]. unfold commands. rewrite omap_app. by rewrite <- W1, <- W2.
Qed.
Lemma orders_then {A B} (c : M A) (b : B) l : orders c l -> orders (c;; mret b) l.
Proof. intros H. rewrite <- (app_nil_r l). apply orders_bind; [done|]. intros. apply orders_ret. Qed.
Lemma orders_iterM {A} (f : A -> M unit) (g : A -> list string) l :
  (forall a, orders (f a) (g a)) -> orders (iterM f l) (concat (map g l)).
Proof.
  intros H. induction l as [|a l IH]; simpl; [apply orders_ret|]. apply orders_bind; [apply H|]. intros _. apply IH.
Qed.

Lemma sorted_apart {A} (R : relation A) n l : StronglySorted R l -> Forall (fun o => Forall (R o) (drop n l)) (take n l).
Proof.
  intros Hs. revert n. induction Hs as [|x l Hs IH Hx]; intros [|n]; [apply Forall_nil_2..|].
  cbn. apply Forall_cons_2; [by apply Forall_drop|apply IH].
Qed.

Section purge.
Context {P : Platform} {C : Config} {FS : PathNames}.
Hypothesis running : debug <= 1.
Lemma orders_cmdExec s : orders (cmdExec s) [s].
Proof. intros w. unfold cmdExec. destruct (1 <? debug) eqn:E; [lia|]. by exists [Command s]. Qed.
(** The commands for a day: those of the configuration that are set, then its removal. *)
Definition day_commands (t : LogArchive) (dir : string) : list string :=
  let path := la_workingdir t +:+ "/" +:+ dir in
  let conf := Params.get (la_conf t) in
  (if conf "compresscmd" <>s "" then [LAT.replaced 2 (conf "compresscmd") path] else []) ++
  (if conf "uploadcmd" <>s "" then [LAT.replaced 1 (conf "uploadcmd") path] else []) ++
  ["rm -r " +:+ path; "rm " +:+ path +:+ ".*"].
Lemma orders_purge_day t dir : orders (LAT.purge_day t dir) (day_commands t dir).
Proof.
  unfold LAT.purge_day, day_commands. cbv zeta. apply orders_bind; [|intros _; apply orders_bind; [|intros _]].
  1,2: destruct (_ <>s ""); [apply orders_then, orders_cmdExec|apply orders_ret].
  apply (orders_bind _ _ [_] [_]); [apply orders_cmdExec|]. intros _. apply orders_then, orders_cmdExec.
Qed.
(** With a limit of [n] days, the purge hands the oldest directories to the shell, in the order of their names, and
    exactly [n] remain, none of which is older than one that goes; with fewer it does nothing. *)
Lemma purge_removes_the_oldest t w :
  let text := Params.get (la_conf t) "maxdaynumber" in
  let dirs := (result (Dirs.dirList (la_workingdir t) []) w).2 in
  text <> "" -> 0 < a2unsigned text < Z.of_nat (length dirs) ->
  exists old kept tr, old ++ kept ≡ₚ dirs /\ Z.of_nat (length kept) = a2unsigned text /\
    Forall (fun o => Forall (String.le o) kept) old /\
    w_trace (final (LAT.purge t) w) = w_trace (final (Dirs.dirList (la_workingdir t) []) w) ++ tr /\
    commands tr = concat (map (day_commands t) old).
Proof.
  intros text dirs Ht [H0 Hn]. set (n := Z.to_nat (Z.of_nat (length dirs) - a2unsigned text)).
  set (l := merge_sort String.le dirs). exists (take n l), (drop n l).
  assert (Hp : l ≡ₚ dirs) by apply merge_sort_Permutation.
  destruct (orders_iterM (LAT.purge_day t) (day_commands t) (take n l) (orders_purge_day t)
    (final (Dirs.dirList (la_workingdir t) []) w)) as (tr & E & W).
  exists tr. split_and!; [by rewrite take_drop|rewrite length_drop, Hp; lia| |  |done].
  - apply sorted_apart, (StronglySorted_merge_sort String.le).
  - unfold LAT.purge. fold text. rewrite (seqb_ne _ _ Ht), (proj2 (Z.eqb_neq _ 0)) by lia.
    rewrite final_bind. fold dirs. rewrite (proj2 (Z.leb_gt _ _)) by lia. by rewrite final_bind.
Qed.
End purge.
