(* ===== verification/RpcServer.v ===== *)
(** * The requests of the graphical client (WSServer/RpcServer.cpp, RpcRoutingMap.cpp, AgentInterface.cpp)

    The interface server is the target of routes whose method names a manager and an operation of it. *)
From S2P Require Import Prelude Doubles Hsrv Xml MMessage World MParams Subjects Archive ArchiveOps Rpc Routes Users NameTable Managers AlarmManager GuiManagers LogManagers.

Record Services := mkServices {
  s_device : DeviceManager; s_auth : AuthManager; s_alarm : AlarmManager; s_auto : MParams; s_log : LogManager;
  s_pwr : PwrManager; s_srv : MParams; s_conf : MParams; s_names : NameTable }.
#[export] Instance Services_rebuild : Rebuild Services := fun s =>
  mkServices (s_device s) (s_auth s) (s_alarm s) (s_auto s) (s_log s) (s_pwr s) (s_srv s) (s_conf s) (s_names s).

Module RS.
Section server.
Context {P : Platform} {C : Config} {XP : XmlParser} {FS : PathNames} {K : Calendar} {PT : PropertyTree} {NTr : NamedTree} {N : Network} {So : PM.Sorting}.
Variable arch : ArchiveManager.
Variable turns : nat.
Implicit Types (s : Services).

(** The start of the managers, in the order of [Agent::Agent]. *)
Definition init : M (option Services) :=
  dev ←! DM.init "devicemanager";
  alarm ←! AM.init "alarmmanager";
  auto ←! Auto.init "automatismmanager";
  auth ←! Auth.init "authmanager";
  lg ←! LM.init "logmanager";
  pwr ←! PM.init "pwrmanager";
  srv ←! SM.init "srvmanager";
  conf ←! Gui.init "confmanager";
  ok (mkServices dev auth alarm auto lg pwr srv conf (mkTab [] ∅ [])).

(** An answer that leaves the managers alone. *)
Definition pure_answer s (r : M (option MMessage)) : M (option (MMessage * Services)) := m ←! r; ok (m, s).
Definition with_auth s (r : M (option (MMessage * AuthManager))) : M (option (MMessage * Services)) :=
  r ←! r; ok (r.1, s <| s_auth := r.2 |>).
Definition with_alarm s (r : M (option (MMessage * AlarmManager))) : M (option (MMessage * Services)) :=
  r ←! r; ok (r.1, s <| s_alarm := r.2 |>).
Definition exec (uri : string) (params : list string) (mth body : string) s : M (option (MMessage * Services)) :=
  let called := seqb mth in
  let t := s_names s in
  if called "rpcExecGet" then pure_answer s (DM.execGet (s_device s) t params mth body)
  else if called "rpcExecGetSet" then pure_answer s (DM.execGetSet (s_device s) t params)
  else if called "rpcExecPut" then pure_answer s (DM.execPut (s_device s) t params mth body)
  else if called "rpcExecPost" then ok (DM.execPost (s_device s) t params mth body, s)
  else if called "rpcExecPostSet" then pure_answer s (DM.execPostSet (s_device s) t params body)
  else if called "rpcAuthMngGet" then with_auth s (lifto (Auth.execGet params (s_auth s)))
  else if called "rpcAuthMngSet" then with_auth s (Auth.execSet params body (s_auth s))
  else if called "rpcAuthMngCheck" then pure_answer s (lifto (Auth.execCheck params (s_auth s)))
  else if called "rpcAlarmMngGet" then with_alarm s (AM.execGet arch t params (s_alarm s))
  else if called "rpcAlarmMngPut" then with_alarm s (AM.execPut arch t params mth body (s_alarm s))
  else if called "rpcAlarmMngPost" then with_alarm s (AM.execPost arch t params body (s_alarm s))
  else if called "rpcAutomatismMngGet" then pure_answer s (Auto.execGet t params (s_auto s))
  else if called "rpcAutomatismMngPut" then ok (Auto.execPut, s)
  else if called "rpcAutomatismMngPost" then pure_answer s (Auto.execPost t params body (s_auto s))
  else if called "rpcLogMngPost" then pure_answer s (LM.execPost arch turns params body (s_log s))
  else if called "rpcPwrMngGet" then pure_answer s (PM.execGet t params (s_pwr s))
  else if called "rpcPwrMngPost" then pure_answer s (PM.execPost t params body (s_pwr s))
  else if called "rpcSrvMngGet" then pure_answer s (SM.execGet arch params (s_srv s))
  else if called "rpcSrvMngPut" then pure_answer s (SM.execPut params (s_srv s))
  else if called "rpcConfMngGet" then pure_answer s (Gui.execGet params (s_conf s))
  else if called "rpcConfMngPut" then pure_answer s (Gui.execPut turns t params body (s_conf s))
  else ok (Msg.dummy, s).
End server.

(** ** Class AgentInterface *)
Section interface.
Context {P : Platform} {C : Config} {XP : XmlParser} {FS : PathNames} {N : Network}.
(** What the shell does for "rm -rf dir/*": hidden entries stay. *)
Definition rm_tree (dir n : string) : M unit := fun w =>
  let p := child (canon dir) n in
  let below q := (q =s p) || String.prefix (p +:+ "/") q in
  (tt, set_files (filter (fun kv => below kv.1 = false) (w_files w))
         (set_dirs (filter (fun q => below q = false) (w_dirs w)) w)).
Definition rm_all (dir : string) : M unit :=
  es ← readdir dir; iterM (fun e => if Dirs.not_hidden e.1 then rm_tree dir e.1 else mret tt) es.
Fixpoint reset_loop (l : list string) : M unit :=
  match l with
  | [] => mret tt
  | cat :: l' =>
      let dir := homedir +:+ "/devices/" +:+ cat in
      cmdExec ("rm -rf " +:+ dir +:+ "/*");; (if 1 <? debug then mret tt else rm_all dir);; reset_loop l'
  end.
Definition reset (t : NameTable) : M unit := reset_loop (nt_category t).
(** The start of the thread, and one message of its loop. *)
Definition start (t : NameTable) : M (option NameTable) := t ←! NT.loadCategories t; reset t;; ok t.
Definition handle (arch : ArchiveManager) (t : NameTable) (m : MMessage) : M (option NameTable) :=
  if (mtype m =s "net") && (msubtype m =s "agent_info") then r ←! NT.update arch t m; ok r.2 else ok t.
End interface.
End RS.

(** ** Class RpcRoutingMap: the targets of the interface server *)
Inductive rpc_target := RBasic (t : basic_target) | TRpcServer.
Definition rpc_targets : list rpc_target :=
  [RBasic TArchive; RBasic TCmd; RBasic TLogger; TRpcServer; RBasic TDefault].
Section routing.
Context {P : Platform} {C : Config} {XP : XmlParser} {FS : PathNames} {K : Calendar} {PT : PropertyTree} {NTr : NamedTree} {N : Network} {So : PM.Sorting} {R : Regex}.
Variables (others : RpcWaitTable -> RpcWaitTable) (turns : nat).
Definition rpc_exec (t : rpc_target) (uri : string) (params : list string) (mth body : string) (s : Server * Services)
    : M (option (MMessage * (Server * Services))) :=
  match t with
  | RBasic t => r ←! basic_exec others t uri params mth body s.1; ok (r.1, (r.2, s.2))
  | TRpcServer => r ←! RS.exec (archive s.1) turns uri params mth body s.2; ok (r.1, (s.1, r.2))
  end.
Definition rpc_router : RouterExec rpc_target (Server * Services) := {|
  exec_name := fun t => match t with RBasic t => basic_name t | TRpcServer => "rpcserver" end;
  exec := rpc_exec |}.
#[local] Existing Instance rpc_router.
(** The file is loaded with the targets of the base class and again with its own. *)
Definition RpcRoutingMap (file : string) : M (option (RoutingMap rpc_target)) :=
  _ ←! RMap.mk (T := rpc_target) (map RBasic basic_targets) file;
  r ←! RMap.load (mkMap [] rpc_targets) file; ok r.2.
End routing.
