(* ===== verification/UserClaims.v ===== *)
(** * Properties of the users and of the devices of the interface server *)
From S2P Require Import Prelude Doubles Hsrv Xml MMessage World MParams Samples Subjects Archive ArchiveOps ArchiveFacts Users NameTable.
Import Params.

(** ** Updates of a map at a key that is there *)
Lemma keys_sorted_map {V} (g : string * V -> string * V) l :
  (forall x, (g x).1 = x.1) -> StronglySorted key_le l -> StronglySorted key_le (map g l).
Proof.
  intros Hg. induction 1 as [|x l Hs IH Hf]; simpl; constructor; [done|].
  apply Forall_map. eapply Forall_impl; [exact Hf|]. intros y. unfold key_le. by rewrite !Hg.
Qed.
Definition at_key {V} (k : string) (v : V) (kv : string * V) : string * V := if kv.1 =s k then (kv.1, v) else kv.
Lemma at_key_fst {V} k (v : V) x : (at_key k v x).1 = x.1.
Proof. unfold at_key. by destruct (x.1 =s k). Qed.
Lemma map_items_update {V} (m : gmap string V) k v v0 :
  m !! k = Some v0 -> map_items (<[k := v]> m) = map (at_key k v) (map_items m).
Proof.
  intros Hk. apply (StronglySorted_unique_strong key_le).
  - intros x y Hx Hy Hle Hge. assert (Ek : x.1 = y.1) by by apply (anti_symm String.le).
    apply list_elem_of_fmap in Hy as ([k2 v2] & -> & Hy). destruct x as [k1 v1]. rewrite at_key_fst in Ek. simpl in Ek. subst k2.
    apply elem_of_map_items in Hx, Hy. unfold at_key. simpl. destruct (k1 =s k) eqn:E.
    + apply seqb_true in E as ->. rewrite lookup_insert_eq in Hx. congruence.
    + rewrite lookup_insert_ne in Hx; [congruence|]. intros ->. by rewrite seqb_refl in E.
  - apply map_items_sorted.
  - apply keys_sorted_map; [apply at_key_fst|apply map_items_sorted].
  - apply NoDup_Permutation.
    + apply (NoDup_fmap_1 fst), map_items_NoDup_keys.
    + apply (NoDup_fmap_1 fst). change (fst <$> map (at_key k v) (map_items m)) with (map fst (map (at_key k v) (map_items m))).
      rewrite map_map. rewrite (map_ext _ fst) by apply at_key_fst. apply map_items_NoDup_keys.
    + intros [k1 v1]. rewrite elem_of_map_items. split.
      * intros H. apply list_elem_of_fmap. destruct (decide (k1 = k)) as [->|Hne].
        -- rewrite lookup_insert_eq in H. injection H as <-. exists (k, v0). unfold at_key. simpl. rewrite seqb_refl.
           split; [done|]. by apply elem_of_map_items.
        -- rewrite lookup_insert_ne in H by done. exists (k1, v1). unfold at_key. simpl. rewrite seqb_ne by done.
           split; [done|]. by apply elem_of_map_items.
      * intros ([k2 v2] & E & H)%list_elem_of_fmap. apply elem_of_map_items in H. unfold at_key in E. simpl in E.
        destruct (k2 =s k) eqn:E2; injection E as -> ->.
        -- apply seqb_true in E2 as ->. by rewrite lookup_insert_eq.
        -- rewrite lookup_insert_ne; [done|]. intros ->. by rewrite seqb_refl in E2.
Qed.

(** ** The check of a password *)
Lemma first_user_sound cap p l n :
  Auth.first_user cap p l = n -> n <> "" -> exists u, (n, u) ∈ l /\ Auth.admits cap p u = true.
Proof.
  induction l as [|[m u] l IH]; simpl; [by intros <-|]. destruct (Auth.admits cap p u) eqn:E.
  - intros <- _. exists u. split; [set_solver|done].
  - intros H Hn. destruct (IH H Hn) as (v & Hv & Ha). exists v. split; [set_solver|done].
Qed.
(** C18: nobody is admitted without a password: when the check of a request names a user, that user exists,
    the part of the request before the first dot is its password, and the operation is granted
    to it, under its own name or under its alias. *)
Theorem check_sound us cap pwd n :
  Auth.getUserOf us cap pwd = Some n -> n <> "" ->
  exists u p, us !! n = Some u /\ head (NameList.of_string pwd ".") = Some p /\
    get u "passwd" = p /\ (get u cap = "true" \/ get u cap = "" /\ get u (get_cat u cap "alias") = "true").
Proof.
  unfold Auth.getUserOf. destruct (map_items us) as [|x l] eqn:E; [by intros [= <-]|].
  destruct (head (NameList.of_string pwd ".")) as [p|]; [|done]. intros [= H] Hn.
  destruct (first_user_sound cap p (x :: l) n H Hn) as (u & Hu & Ha). exists u, p. rewrite <- E in Hu.
  apply elem_of_map_items in Hu. unfold Auth.admits in Ha. apply andb_true_iff in Ha as [H1 H2].
  apply seqb_true in H1, H2. split_and!; [done|done|done|]. unfold User.getField in H2.
  destruct (get u cap =s "") eqn:Ec; simpl in H2; [right|by left]. by apply seqb_true in Ec.
Qed.

Lemma admits_status cap p u status :
  cap <> "enable_status" -> get_cat u cap "alias" <> "enable_status" ->
  Auth.admits cap p (set u "enable_status" status).2 = Auth.admits cap p u.
Proof.
  intros Hc Ha. unfold Auth.admits, User.getField. unfold get, set.
  rewrite (get_cat_set_ne u "enable_status" "generic" status "passwd") by congruence.
  rewrite (get_cat_set_ne u "enable_status" "generic" status cap "generic") by congruence.
  rewrite (get_cat_set_ne u "enable_status" "generic" status cap "alias") by congruence.
  by rewrite (get_cat_set_ne u "enable_status" "generic" status (get_cat u cap "alias")) by congruence.
Qed.
Lemma first_user_at cap p name u' l :
  (forall u, (name, u) ∈ l -> Auth.admits cap p u = Auth.admits cap p u') ->
  Auth.first_user cap p (map (at_key name u') l) = Auth.first_user cap p l.
Proof.
  induction l as [|[m u] l IH]; intros Hu; simpl; [done|]. unfold at_key at 1. simpl.
  assert (IH' : Auth.first_user cap p (map (at_key name u') l) = Auth.first_user cap p l)
    by (apply IH; intros; apply Hu; set_solver).
  destruct (m =s name) eqn:E; simpl; rewrite IH'; [|done]. apply seqb_true in E as ->.
  rewrite <- (Hu u) by set_solver. done.
Qed.

Lemma getUserOf_status us name u status cap pwd :
  us !! name = Some u -> cap <> "enable_status" -> get_cat u cap "alias" <> "enable_status" ->
  Auth.getUserOf (<[name := (set u "enable_status" status).2]> us) cap pwd = Auth.getUserOf us cap pwd.
Proof.
  intros Hu Hc Ha. unfold Auth.getUserOf. rewrite (map_items_update _ _ _ u) by done.
  assert (Hf : forall p, Auth.first_user cap p (map (at_key name (set u "enable_status" status).2) (map_items us)) =
                         Auth.first_user cap p (map_items us)).
  { intros p. apply first_user_at. intros v Hv. apply elem_of_map_items in Hv. rewrite Hu in Hv. injection Hv as <-.
    by rewrite admits_status. }
  set (f := at_key name (set u "enable_status" status).2) in *. clearbody f.
  destruct (map_items us) as [|x l]; [done|]. change (map f (x :: l)) with (f x :: map f l) in *.
  cbv iota. destruct (head (NameList.of_string pwd ".")) as [p|]; [|done]. exact (f_equal Some (Hf p)).
Qed.
(** The status of a user is kept and shown but never asked: whatever "enable_status" is set to, the check
    of a password answers the same, so a user that was disabled is still admitted. *)
Lemma disabled_user_is_admitted a name u status params :
  users a !! name = Some u -> nth 2 params "" <> "enable_status" ->
  get_cat u (nth 2 params "") "alias" <> "enable_status" ->
  Auth.execCheck params (a <| users := <[name := (set u "enable_status" status).2]> (users a) |>) =
  Auth.execCheck params a.
Proof.
  intros Hu Hc Ha. unfold Auth.execCheck. destruct params as [|x0 [|x1 [|cap [|pwd [|? ?]]]]]; try done.
  simpl in Hc, Ha. 
  pose proof (getUserOf_status _ _ u status cap pwd Hu Hc Ha) as E. by rewrite <- E.
Qed.

(** ** The changes of the list *)
Definition keyed (us : gmap string MParams) : Prop := forall n u, us !! n = Some u -> get u "username" = n.
Lemma fold_mark_lookup l (cur : gmap string bool) n :
  fold_left (fun (cur : gmap string bool) (kv : string * MParams) => let n := get kv.2 "username" in
               match cur !! n with Some _ => cur | None => <[n := false]> cur end) l cur !! n =
  match cur !! n with
  | Some b => Some b
  | None => if existsb (fun kv => get kv.2 "username" =s n) l then Some false else None
  end.
Proof.
  revert cur. induction l as [|kv l IH]; intros cur; cbn [fold_left existsb]; [by destruct (cur !! n)|].
  rewrite IH. cbv zeta. destruct (get kv.2 "username" =s n) eqn:E; simpl.
  - apply seqb_true in E as ->. destruct (cur !! n) as [b|] eqn:En; [by rewrite En|]. by rewrite lookup_insert_eq.
  - destruct (cur !! get kv.2 "username"); [done|]. rewrite lookup_insert_ne; [done|].
    intros Hn. by rewrite Hn, seqb_refl in E.
Qed.
Lemma mark_absent_lookup us cur n :
  keyed us -> Auth.mark_absent us cur !! n =
    match cur !! n with Some b => Some b | None => (fun _ => false) <$> us !! n end.
Proof.
  intros Hk. unfold Auth.mark_absent. rewrite fold_mark_lookup. destruct (cur !! n); [done|].
  destruct (existsb _ _) eqn:H; destruct (us !! n) as [u|] eqn:E; try done.
  - apply existsb_exists in H as ([m u] & Hm & En). apply list_elem_of_In, elem_of_map_items in Hm.
    apply seqb_true in En. simpl in En. rewrite (Hk m u Hm) in En. congruence.
  - apply not_true_iff_false in H. destruct H. apply existsb_exists. exists (n, u).
    split; [by apply list_elem_of_In, elem_of_map_items|]. simpl. rewrite (Hk n u E). apply seqb_refl.
Qed.
Lemma deleteUser_spec n us us' :
  Auth.deleteUser n us = Some us' -> us' = if decide (n = "admin") then us else delete n us.
Proof.
  unfold Auth.deleteUser. destruct (n =s "admin") eqn:E.
  - apply seqb_true in E as ->. by intros [= ->].
  - destruct (us !! n); [|done]. intros [= <-]. rewrite decide_False; [done|]. intros ->. by rewrite seqb_refl in E.
Qed.
Lemma delete_absent_spec l us us' n :
  Auth.delete_absent l us = Some us' ->
  us' !! n = if decide ((n, false) ∈ l /\ n <> "admin") then None else us !! n.
Proof.
  revert us. induction l as [|[m b] l IH]; intros us; simpl; [by intros [= ->]|].
  destruct b; simpl.
  - intros H. rewrite (IH _ H). apply decide_ext. set_solver.
  - destruct (Auth.deleteUser m us) as [us1|] eqn:E; [|done]. simpl. intros H. rewrite (IH _ H).
    apply deleteUser_spec in E as ->. destruct (decide (m = n)) as [->|Hn].
    + destruct (decide (n = "admin")) as [->|Ha].
      * rewrite !decide_False by tauto. done.
      * rewrite lookup_delete_eq. rewrite (decide_True (P := (n, false) ∈ (n, false) :: l /\ _)) by (split; [left|done]). by case_decide.
    + assert (Hx : (n, false) ∈ l /\ n <> "admin" <-> (n, false) ∈ (m, false) :: l /\ n <> "admin")
        by (rewrite elem_of_cons; naive_solver).
      rewrite (decide_ext _ _ _ _ Hx). destruct (decide (m = _)); [done|]. by rewrite lookup_delete_ne.
Qed.
Lemma delete_absent_crash l us n :
  (n, false) ∈ l -> n <> "admin" -> us !! n = None -> Auth.delete_absent l us = None.
Proof.
  intros Hl Ha. revert us. induction l as [|[m b] l IH]; intros us Hu; [set_solver|].
  apply elem_of_cons in Hl as [[= <- <-]|Hl]; simpl.
  - unfold Auth.deleteUser. rewrite seqb_ne by done. by rewrite Hu.
  - destruct b; simpl; [by apply IH|]. destruct (Auth.deleteUser m us) as [us1|] eqn:E; [|done]. simpl.
    apply IH; [done|]. apply deleteUser_spec in E as ->. case_decide; [done|].
    destruct (decide (m = n)) as [->|]; [apply lookup_delete_eq|by rewrite lookup_delete_ne].
Qed.

(** What one user of the request does to the users. *)
Definition restatus (n status : string) us : gmap string MParams :=
  match us !! n with Some u => <[n := (set u "enable_status" status).2]> us | None => us end.
Lemma get_restatus u status : get (set u "enable_status" status).2 "username" = get u "username".
Proof. unfold get, set. by rewrite (get_cat_set_ne u "enable_status" "generic" status "username") by congruence. Qed.
Lemma keyed_restatus n status us : keyed us -> keyed (restatus n status us).
Proof.
  intros Hk m u. unfold restatus. destruct (us !! n) as [v|] eqn:E; [|apply Hk].
  destruct (decide (n = m)) as [->|Hn]; [|rewrite lookup_insert_ne by done; apply Hk].
  rewrite lookup_insert_eq. intros H. apply (inj Some) in H as <-. rewrite get_restatus. by apply Hk.
Qed.
Lemma restatus_dom n status us m : is_Some (restatus n status us !! m) <-> is_Some (us !! m).
Proof.
  unfold restatus. destruct (us !! n) as [v|] eqn:E; [|done].
  destruct (decide (n = m)) as [->|Hn]; [|by rewrite lookup_insert_ne]. rewrite lookup_insert_eq, E. split; by eexists.
Qed.
Section set_loop.
Context {P : Platform} {C : Config} {XP : XmlParser} {FS : PathNames} {PT : PropertyTree}.
Lemma set_loop_cons n status l current us w :
  let us1 := restatus n status us in
  let current1 := Auth.mark_absent us1 (<[n := true]> current) in
  exists w1, Auth.set_loop ((n, status) :: l) current us w =
    match Auth.delete_absent (map_items current1) us1 with
    | Some us' => Auth.set_loop l current1 us' w1
    | None => (None, w1)
    end.
Proof.
  intros us1 current1. exists (match us !! n with Some u => final (save (set u "enable_status" status).2) w | None => w end).
  transitivity ((us ←! lifto (Auth.delete_absent (map_items current1) us1); Auth.set_loop l current1 us)
    (match us !! n with Some u => final (save (set u "enable_status" status).2) w | None => w end)).
  - cbn [Auth.set_loop]. unfold current1, us1, restatus, mbind, M_bind. cbv zeta. unfold final.
    destruct (us !! n) as [u|]; [by destruct (save _ w)|done].
  - by destruct (Auth.delete_absent _ _).
Qed.
Definition kept (n1 n : string) : Prop := n = n1 \/ n = "admin".
#[global] Instance kept_dec n1 n : Decision (kept n1 n).
Proof. unfold kept. apply _. Qed.
(** The users after one step, when the names marked before are those of the step and of users to be kept. *)
Lemma step_lookup n1 n status (current : gmap string bool) us us' m :
  keyed us -> (current !! n1 = Some true \/ n = n1) -> (forall k, current !! k = None \/ kept n1 k \/ us !! k = None) ->
  (n = n1 \/ forall k, is_Some (us !! k) -> kept n1 k) ->
  let us1 := restatus n status us in
  Auth.delete_absent (map_items (Auth.mark_absent us1 (<[n := true]> current))) us1 = Some us' ->
  us' !! m = if decide (kept n1 m) then us1 !! m else None.
Proof.
  intros Hk H1 Hcur Hn us1 Hd. rewrite (delete_absent_spec _ _ _ m Hd).
  assert (Hin : (m, false) ∈ map_items (Auth.mark_absent us1 (<[n := true]> current)) <->
    match <[n := true]> current !! m with Some b => b = false | None => is_Some (us !! m) end).
  { rewrite elem_of_map_items, mark_absent_lookup by by apply keyed_restatus.
    destruct (<[n := true]> current !! m) as [b|]; [naive_solver|]. rewrite <- (restatus_dom n status us m). fold us1.
    destruct (us1 !! m); simpl; split; eauto; done. }
  destruct (decide (kept n1 m)) as [Hm|Hm].
  - apply decide_False. rewrite Hin. intros [E Ha]. destruct Hm as [->| ->]; [|done]. destruct (decide (n = n1)) as [->|Hne].
    + by rewrite lookup_insert_eq in E.
    + destruct H1 as [H1|]; [|done]. by rewrite lookup_insert_ne, H1 in E.
  - case_decide as Hd'; [done|]. apply eq_None_not_Some. intros Hs%restatus_dom.
    destruct Hn as [->|Hn]; [|by apply Hm, Hn].
    apply Hd'. unfold kept in Hm. split; [|tauto]. apply Hin.
    rewrite lookup_insert_ne by (intros ->; tauto). destruct (Hcur m) as [->|[Hc|Hc]]; [done|by destruct Hm|].
    rewrite Hc in Hs. by destruct Hs.
Qed.
Lemma set_loop_keeps n1 l (current : gmap string bool) us w us' w' :
  keyed us -> current !! n1 = Some true -> (forall k, current !! k = None \/ kept n1 k \/ us !! k = None) ->
  (forall k, is_Some (us !! k) -> kept n1 k) ->
  Auth.set_loop l current us w = (Some us', w') -> dom us' = dom us.
Proof.
  revert current us w. induction l as [|[n s] l IH]; intros current us w Hk H1 Hcur Hd; [by intros [= <- _]|].
  destruct (set_loop_cons n s l current us w) as [w1 ->]. cbv zeta.
  set (us1 := restatus n s us). set (current1 := Auth.mark_absent us1 (<[n := true]> current)).
  destruct (Auth.delete_absent (map_items current1) us1) as [us2|] eqn:E; [|done].
  assert (Hl : forall m, us2 !! m = us1 !! m).
  { intros m. rewrite (step_lookup n1 n s current us us2 m); auto. fold us1. case_decide as Hm; [done|].
    symmetry. apply eq_None_not_Some. intros H%restatus_dom. by apply Hm, Hd. }
  apply map_eq in Hl as ->. intros H. rewrite (IH current1 us1 w1); [|..|exact H].
  - apply set_eq. intros m. rewrite !elem_of_dom. apply restatus_dom.
  - by apply keyed_restatus.
  - unfold current1. rewrite mark_absent_lookup by by apply keyed_restatus.
    destruct (decide (n = n1)) as [->|]; [by rewrite lookup_insert_eq|by rewrite lookup_insert_ne, H1].
  - intros k. destruct (us1 !! k) as [u|] eqn:Eu; [|by right; right]. right; left. apply Hd, (restatus_dom n s). by exists u.
  - intros k Hs%restatus_dom. by apply Hd.
Qed.
Lemma step_current n status (current : gmap string bool) us m :
  keyed us ->
  Auth.mark_absent (restatus n status us) (<[n := true]> current) !! m =
    match <[n := true]> current !! m with Some b => Some b | None => (fun _ => false) <$> us !! m end.
Proof.
  intros Hk. rewrite mark_absent_lookup by by apply keyed_restatus. destruct (<[n := true]> current !! m); [done|].
  pose proof (restatus_dom n status us m) as H. destruct (us !! m), (restatus n status us !! m); try done.
  - by destruct (proj2 H) as [? ?].
  - by destruct (proj1 H) as [? ?].
Qed.
(** A request with a list of users keeps the first of the list and the administrator and nobody else: the
    users that the list names further on are deleted at the first turn.  When a user is known that is neither of
    them nor the second of the list, the second turn erases past the end of the users. *)
Lemma user_list_keeps_first us n1 s1 l w us' w' :
  keyed us ->
  (Auth.set_loop ((n1, s1) :: l) ∅ us w = (Some us', w') -> dom us' = filter (kept n1) (dom us)) /\
  (forall n n2 s2 l', l = (n2, s2) :: l' -> is_Some (us !! n) -> ~ kept n1 n -> n <> n2 ->
     result (Auth.set_loop ((n1, s1) :: l) ∅ us) w = None).
Proof.
  intros Hk. destruct (set_loop_cons n1 s1 l ∅ us w) as [w1 E]. cbv zeta in E. unfold result. rewrite E. clear E.
  set (us1 := restatus n1 s1 us) in *. set (current1 := Auth.mark_absent us1 (<[n1 := true]> ∅)) in *.
  destruct (Auth.delete_absent (map_items current1) us1) as [us2|] eqn:E2; [|split; [done|by intros]].
  assert (Hl : forall m, us2 !! m = if decide (kept n1 m) then us1 !! m else None)
    by (intros m; apply (step_lookup n1 n1 s1 ∅ us us2 m); auto).
  assert (Hk2 : keyed us2).
  { intros m u Hm. rewrite Hl in Hm. case_decide; [|done]. by apply (keyed_restatus n1 s1 us Hk). }
  assert (Hd : forall m, is_Some (us2 !! m) <-> kept n1 m /\ is_Some (us !! m)).
  { intros m. rewrite Hl. rewrite <- (restatus_dom n1 s1 us m). fold us1. case_decide; [tauto|]. split; [by intros []|tauto]. }
  split.
  - intros H. rewrite (set_loop_keeps n1 l current1 us2 w1 us' w'); [|done|..|done].
    + apply set_eq. intros m. rewrite elem_of_filter, !elem_of_dom. apply Hd.
    + unfold current1, us1. rewrite step_current by done. by rewrite lookup_insert_eq.
    + intros k. destruct (decide (kept n1 k)); [by right; left|]. right; right. apply eq_None_not_Some. by intros [? _]%Hd.
    + intros k [? _]%Hd. done.
  - intros n n2 s2 l' -> Hn Hx H2. destruct (set_loop_cons n2 s2 l' current1 us2 w1) as [w2 ->]. cbv zeta.
    rewrite (delete_absent_crash _ _ n); [done|..].
    + apply elem_of_map_items. rewrite step_current by done. rewrite lookup_insert_ne by done.
      unfold current1, us1. rewrite step_current by done. unfold kept in Hx. rewrite lookup_insert_ne by (intros ->; tauto).
      rewrite lookup_empty. by destruct Hn as [u ->].
    + unfold kept in Hx. tauto.
    + apply eq_None_not_Some. intros [? _]%(restatus_dom n2)%Hd. done.
Qed.
End set_loop.

(** ** Witnesses *)
Import Samples.Instances.
#[local] Instance no_json : PropertyTree := {|
  ptree := unit; read_json := fun _ => None; get_child := fun _ _ => None; get_string := fun _ _ => None;
  get_float := fun _ _ => None; ptree_children := fun _ => [] |}.
Definition sample_user (n pw alarm : string) : MParams :=
  mkParams n ("/etc/hat/users/" +:+ n +:+ ".xml") ("/home/hat/users/" +:+ n +:+ ".xml")
    [mkAttr "username" "generic" n; mkAttr "passwd" "generic" pw; mkAttr "enable_status" "generic" "true";
     mkAttr "Alarm_manual" "generic" alarm; mkAttr "Alarm_manual" "alias" "Manual"].
Definition sample_users : gmap string MParams :=
  {[ "admin" := sample_user "admin" "root" "true"; "anna" := sample_user "anna" "1234" "true";
     "bert" := sample_user "bert" "5678" "false"; "carl" := sample_user "carl" "9999" "true" ]}.
Definition sample_auth : AuthManager :=
  mkAuth (mkParams "auth" "" "" [mkAttr "passwd_check_answer" "generic" "$USERNAME"]) User.empty sample_users.
Definition check_params : list string := ["WebServer"; "check"; "Alarm_manual"; "1234.json"].

Lemma check_sound_witness :
  Auth.getUserOf sample_users "Alarm_manual" "5678.json" = Some "" /\
  exists u, sample_users !! "anna" = Some u /\ get u "passwd" = "1234".
Proof.
  split; [by vm_compute|].
  destruct (check_sound sample_users "Alarm_manual" "1234.json" "anna") as (u & p & Hu & Hp & E & _).
  - by vm_compute.
  - done.
  - exists u. split; [exact Hu|]. rewrite E. vm_compute in Hp. by injection Hp as <-.
Defined.
