(* ===== verification/NameClaims.v ===== *)
(** * Properties of the table of names and of the requests on devices *)
From S2P Require Import Prelude Doubles Hsrv Xml MMessage World MParams Samples Subjects Archive ArchiveOps ArchiveFacts Users NameTable Managers.

(** ** The reading of the names ends *)
Lemma getWord_advances body word i w j :
  word <> "" -> NT.getWord body word (Some i) = (w, Some j) -> w <> "" -> (i < j /\ i <= String.length body)%nat.
Proof.
  intros Hw. unfold NT.getWord. simpl. destruct (sfind word body i) as [pos|] eqn:E; [|by intros [= <- _]].
  unfold sfind in E. apply index_bounds in E; [|done]. destruct (_ <=? _)%nat; [by intros [= <- _]|]. intros [= _ <-] _. lia.
Qed.
(** The names of a page are read in a bounded number of turns: with a turn per character and two more the
    loop over the words ends, whatever the page and wherever it starts. *)
Lemma names_in_ends body i : exists l, NT.names_in body i = Some l.
Proof.
  unfold NT.names_in. destruct i as [i|]; [|by exists []].
  assert (H : (String.length body < S (String.length body) + i)%nat) by lia. revert H.
  generalize (S (String.length body)). intros fuel. revert i.
  induction fuel as [|fuel IH]; intros i Hf; cbn [NT.words].
  - destruct (NT.getWord body "name" (Some i)) as [w [j|]] eqn:E; [|rewrite andb_false_r; by eexists].
    destruct (decide (w = "")) as [->|Hw]; [by eexists|]. apply getWord_advances in E; [|done..]. lia.
  - destruct (NT.getWord body "name" (Some i)) as [w [j|]] eqn:E; [|rewrite andb_false_r; by eexists].
    destruct (decide (w = "")) as [->|Hw]; [by eexists|]. apply getWord_advances in E; [|done..].
    destruct (IH j) as [l Hl]; [lia|]. change (exists l0, (if (w <>s "") && bool_decide (is_Some (Some j)) then
      (l ← NT.words (S fuel) body (Some j); Some (w :: l)) else Some []) = Some l0).
    rewrite Hl. destruct (_ && _); by eexists.
Qed.

(** ** The positions of the table *)
Definition lookup_sound (t : NameTable) : Prop :=
  forall n i, namelookup t !! n = Some i -> (i < length (agent t))%nat.
Lemma lookup_agent t n i : lookup_sound t -> namelookup t !! n = Some i -> exists a, agent t !! i = Some a.
Proof. intros Hs Hn. destruct (lookup_lt_is_Some_2 (agent t) i (Hs n i Hn)) as [a Ha]. by exists a. Qed.
Lemma longer_sound t t' :
  lookup_sound t -> namelookup t' = namelookup t -> (length (agent t) <= length (agent t'))%nat -> lookup_sound t'.
Proof. intros Hs Hn Hl n i. rewrite Hn. intros H%Hs. lia. Qed.
Lemma addifnew_sound t a : lookup_sound t -> lookup_sound (NT.addifnew t a).2.
Proof.
  intros Hs. unfold NT.addifnew. destruct (existsb _ _); [done|]. apply (longer_sound t); [done..|].
  simpl. rewrite length_app. lia.
Qed.
Lemma on_last_sound f t t' : lookup_sound t -> NT.on_last f t = Some t' -> lookup_sound t'.
Proof.
  intros Hs. unfold NT.on_last. destruct (last (agent t)) as [a|] eqn:El; [|done]. simpl. destruct (f a) as [b|]; [|done]. simpl.
  intros [= <-]. apply (longer_sound t); [done..|]. simpl. rewrite length_app, length_take. simpl. lia.
Qed.
Section table.
Context {P : Platform} {C : Config} {FS : PathNames} {N : Network}.
Variable arch : ArchiveManager.
Lemma device_names_bound (i n : nat) ds (m : gmap string nat) :
  (i < n)%nat -> (forall k j, m !! k = Some j -> (j < n)%nat) ->
  forall k j, fold_left (fun m d => if NT.getCategory d <>s "" then <[d := i]> m else m) ds m !! k = Some j -> (j < n)%nat.
Proof.
  intros Hi. revert m. induction ds as [|d ds IH]; intros m Hm; simpl; [done|]. apply IH. intros k j.
  destruct (NT.getCategory d <>s ""); [|apply Hm]. destruct (decide (d = k)) as [->|Hd].
  - rewrite lookup_insert_eq. by intros [= <-].
  - rewrite lookup_insert_ne by done. apply Hm.
Qed.
Lemma table_loop_bound (n : nat) l i m :
  (i + length l <= n)%nat -> (forall k j, m !! k = Some j -> (j < n)%nat) ->
  outcome (fun m' : gmap string nat => forall k j, m' !! k = Some j -> (j < n)%nat) (NT.table_loop i l m).
Proof.
  revert i m. induction l as [|a l IH]; intros i m Hl Hm; cbn [NT.table_loop]; [by apply outcome_ok|]. simpl in Hl.
  assert (Ha : forall k j, <[ag_name a := i]> m !! k = Some j -> (j < n)%nat).
  { intros k j. destruct (decide (ag_name a = k)) as [->|Hd].
    - rewrite lookup_insert_eq. intros [= <-]. lia.
    - rewrite lookup_insert_ne by done. apply Hm. }
  apply outcome_bind. intros page. cbv zeta. destruct (NT.isDeviceAgent a); [|apply IH; [lia|done]].
  eapply outcome_bindo; [apply outcome_any|]. intros ds _. apply IH; [lia|].
  apply device_names_bound; [lia|done].
Qed.
Lemma mkTable_sound t : outcome lookup_sound (NT.mkTable arch t).
Proof.
  unfold NT.mkTable. eapply outcome_bindo; [apply (table_loop_bound (length (agent t))); [lia|by intros k j]|].
  intros m Hm. cbv zeta. eapply outcome_bindo; [apply outcome_any|]. intros _ _. by apply outcome_ok.
Qed.
Lemma update_sound t m : lookup_sound t -> outcome (fun r => lookup_sound r.2) (NT.update arch t m).
Proof.
  intros Hs. unfold NT.update. destruct (Msg.getString m "status" =s "waiting"); [by apply outcome_ok|].
  pose proof (addifnew_sound t (NT.announced m) Hs) as H1. destruct (NT.addifnew t (NT.announced m)) as [new t1]. simpl in H1.
  cbv zeta beta iota. destruct (new || _); [|by apply outcome_ok].
  apply outcome_bind. intros body. destruct (contains "unknown" body); [by apply outcome_ok|].
  eapply outcome_bindo; [apply outcome_lifto; intros t2 H; exact (on_last_sound _ t1 t2 H1 H)|]. intros t2 H2.
  apply outcome_bind. intros body2. destruct (contains "unknown" body2); [by apply outcome_ok|].
  eapply outcome_bindo; [apply outcome_lifto; intros t3 H; exact (on_last_sound _ t2 t3 H2 H)|]. intros t3 H3.
  eapply outcome_bindo; [apply mkTable_sound|]. intros t4 H4.
  eapply outcome_bindo; [apply outcome_any|]. intros _ _. by apply outcome_ok.
Qed.
(** The announcements the server receives, one after the other. *)
Fixpoint announce (l : list MMessage) (t : NameTable) : M (option NameTable) :=
  match l with [] => ok t | m :: l' => r ←! NT.update arch t m; announce l' r.2 end.
Lemma announce_sound l t : lookup_sound t -> outcome lookup_sound (announce l t).
Proof.
  revert t. induction l as [|m l IH]; intros t Hs; cbn [announce]; [by apply outcome_ok|].
  eapply outcome_bindo; [by apply update_sound|]. intros [b t1] H1. by apply IH.
Qed.
Lemma ask_answers t m request w : lookup_sound t -> is_Some (result (NT.ask t m request) w).
Proof.
  intros Hs. unfold NT.ask, result. destruct (namelookup t !! msubtype m) as [i|] eqn:E; [|by eexists].
  destruct (lookup_agent t _ i Hs E) as [a Ha]. rewrite Ha. unfold lifto. rewrite bindo_run.
  unfold mret, M_ret. cbv iota beta. rewrite run_bind, run_run. by eexists.
Qed.
Lemma getstatus_answers t m w : lookup_sound t -> is_Some (result (NT.getstatus t m) w).
Proof. apply ask_answers. Qed.
Lemma notify_answers t m w : lookup_sound t -> is_Some (result (NT.notify_device t m) w).
Proof.
  intros Hs. unfold NT.notify_device. destruct (namelookup t !! msubtype m) as [i|]; [|by eexists].
  cbv zeta. unfold result. rewrite bindo_run.
  match goal with |- context [NT.ask t m ?request w] => pose proof (ask_answers t m request w Hs) as Hb;
    unfold result in Hb; destruct (NT.ask t m request w) as [[b|] w1] end; [|by destruct Hb].
  rewrite run_bind. by eexists.
Qed.
Lemma forward_answers t message ag w : lookup_sound t -> is_Some (result (NT.forward t message ag) w).
Proof.
  intros Hs. unfold NT.forward, result. destruct (namelookup t !! ag) as [i|] eqn:E; [|by eexists].
  destruct (lookup_agent t _ i Hs E) as [a Ha]. rewrite Ha. unfold lifto. rewrite bindo_run.
  unfold mret, M_ret. cbv iota beta. rewrite run_run. by eexists.
Qed.
(** C22: whatever agents announce themselves, in whatever order and whatever the network answers, a request on a device
    is answered: the position that the table keeps for a name is that of an agent, so neither the commands nor the
    questions nor the messages that are forwarded are looked up past the end of the agents. *)
Theorem requests_are_answered cats l t w w' :
  announce l (mkTab [] ∅ cats) w = (Some t, w') ->
  forall m message ag w2, is_Some (result (NT.notify_device t m) w2) /\ is_Some (result (NT.getstatus t m) w2) /\
    is_Some (result (NT.forward t message ag) w2).
Proof.
  intros H. assert (Hs : lookup_sound t).
  { refine (announce_sound l _ _ w t w' H). intros n i. simpl. by rewrite lookup_empty. }
  intros m message ag w2. auto using notify_answers, getstatus_answers, forward_answers.
Qed.
End table.

(** ** Witnesses *)
Import Samples.Instances.
Definition plain_archive : ArchiveManager := mkArchive (mkParams "archive" "" "" []) "archive" "/home/hat/archive" [] ∅.
(** Every agent answers with the same page of two names. *)
#[local] Instance one_page : Network := {| net_answer := fun _ _ _ _ =>
  "HTTP/1.1 200 OK" +:+ crlf +:+ crlf +:+ "<cmd name=" +:+ quote "first.cmd" +:+ "/><cmd name=" +:+ quote "lamp.cmd" +:+ "/>" |}.
Definition hello (n : string) : MMessage :=
  fold_left (fun m kv => Msg.add m kv.1 kv.2)
    [("agentname", n); ("port", "9001"); ("address", "127.0.0.1"); ("status", "running")] Msg.dummy.
Lemma requests_are_answered_witness :
  exists t, result (announce plain_archive [hello "alpha"; hello "beta"] (mkTab [] ∅ [])) (world_at early) = Some t /\
    is_Some (result (NT.notify_device t (Msg.mk "cmd" "beta")) (world_at early)).
Proof.
  destruct (announce plain_archive [hello "alpha"; hello "beta"] (mkTab [] ∅ []) (world_at early)) as [[t|] w'] eqn:E.
  - exists t. split; [unfold result; by rewrite E|].
    apply (requests_are_answered plain_archive [] _ t _ w' E (Msg.mk "cmd" "beta") "" "" (world_at early)).
  - exfalso. apply (f_equal (fun r => bool_decide (is_Some r.1))) in E. vm_compute in E. discriminate E.
Defined.
Example beta_is_known :
  (fun t => (namelookup t !! "beta", map ag_command (agent t))) <$>
    result (announce plain_archive [hello "alpha"; hello "beta"] (mkTab [] ∅ [])) (world_at early) =
  Some (Some 1%nat, [["first"; "lamp"]; ["first"; "lamp"]]).
Proof. vm_compute. reflexivity. Qed.
