(* ===== verification/LogClaims.v ===== *)
(** * Properties of the logs of the interface server *)
From S2P Require Import Prelude Doubles Hsrv Xml MMessage World MParams Samples Subjects Archive ArchiveOps ArchiveFacts Users NameTable Managers LogManagers.

(** ** Prototypes as texts with keys *)
Section template.
Variable ends : ascii -> bool.
(** A key, and the text up to the next key, which starts with a character that ends a key. *)
Definition piece : Type := string * string.
Definition ended (t : string) : Prop := exists c t', t = String c t' /\ ends c = true.
Definition piece_ok (p : piece) : Prop :=
  p.1 <> "" /\ (forall c, c ∈ chars p.1 -> ends c = false) /\ ended p.2 /\ dollar ∉ chars p.2.
Definition render (value : string -> string) (l : list piece) : string := sconcat (map (fun p => value p.1 +:+ p.2) l).
Definition placeholder (k : string) : string := String dollar k.
Lemma render_step t0 k t (f : string -> string) l :
  t0 +:+ render f ((k, t) :: l) = t0 +:+ f k +:+ (t +:+ render f l).
Proof. unfold render. simpl. by rewrite !sapp_assoc. Qed.
End template.
Lemma render_cons f k t l : render f ((k, t) :: l) = f k +:+ t +:+ render f l.
Proof. unfold render. simpl. by rewrite sapp_assoc. Qed.
Lemma ended_head ends t rest : ended ends t -> exists c l, chars (t +:+ rest) = c :: l /\ ends c = true.
Proof. intros (c & t' & -> & Hc). by exists c, (chars (t' +:+ rest)). Qed.
Lemma dollar_free_app a b : dollar ∉ chars a -> dollar ∉ chars b -> dollar ∉ chars (a +:+ b).
Proof. rewrite chars_app. set_solver. Qed.
Lemma sfind_dollar t0 rest : dollar ∉ chars t0 -> sfind "$" (t0 +:+ String dollar rest) 0 = Some (String.length t0).
Proof. intros H. apply (index_head dollar "" t0 rest H). Qed.
Lemma sfind_no_dollar t : dollar ∉ chars t -> sfind "$" t 0 = None.
Proof.
  intros H. destruct (sfind "$" t 0) as [pos|] eqn:E; [|done]. destruct (sfind_split "$" t pos) as [Hs _]; [done|done|].
  exfalso. apply H. rewrite Hs, !chars_app. simpl. set_solver.
Qed.
Lemma after_dollar t0 k rest : drop_str (String.length t0 + 1) (t0 +:+ placeholder k +:+ rest) = k +:+ rest.
Proof.
  unfold placeholder. replace (String.length t0 + 1)%nat with (String.length (t0 +:+ "$")) by by rewrite length_sapp.
  change (String dollar k +:+ rest) with ("$" +:+ (k +:+ rest)). rewrite <- (sapp_assoc t0). apply drop_str_app.
Qed.
(** A loop that replaces the first key by its value ends after one turn per key, with every key replaced. *)
Section fill.
Variables (ends : ascii -> bool) (fill : nat -> string -> option string) (value : string -> string) (good : string -> Prop).
Hypothesis fill_stop : forall n t, dollar ∉ chars t -> fill (S n) t = Some t.
Hypothesis fill_step : forall n t0 k t rest, dollar ∉ chars t0 -> piece_ok ends (k, t) -> good k ->
  fill (S n) (t0 +:+ placeholder k +:+ t +:+ rest) = fill n (Mng.replace (t0 +:+ placeholder k +:+ t +:+ rest) (placeholder k) (value k)).
Lemma fill_renders n t0 l :
  dollar ∉ chars t0 -> Forall (piece_ok ends) l -> (forall k, k ∈ map fst l -> good k /\ dollar ∉ chars (value k)) -> (length l < n)%nat ->
  fill n (t0 +:+ render placeholder l) = Some (t0 +:+ render value l).
Proof.
  revert n t0. induction l as [|[k t] l IH]; intros n t0 Ht Hl Hv Hn; destruct n as [|n]; try (simpl in Hn; lia).
  - apply fill_stop. unfold render. simpl. by rewrite sapp_nil_r.
  - apply Forall_cons in Hl as [Hk Hl]. rewrite !render_cons. rewrite fill_step by (done || (apply Hv; set_solver)).
    unfold placeholder at 1 2. rewrite replace_head by done. rewrite <- !(sapp_assoc t0), <- (sapp_assoc (t0 +:+ value k)).
    rewrite IH; [by rewrite !sapp_assoc|..].
    + apply dollar_free_app; [apply dollar_free_app; [done|apply Hv; set_solver]|apply Hk].
    + done.
    + intros j Hj. apply Hv. set_solver.
    + simpl in Hn. lia.
Qed.
End fill.

(** ** The log of the users *)
Definition is_dquote (c : ascii) : bool := c =c TE.dquote.
Lemma to_dquote_key k c l :
  (forall x, x ∈ k -> is_dquote x = false) -> is_dquote c = true -> UL.to_dquote (k ++ c :: l) = Some k.
Proof.
  intros Hk Hc. induction k as [|x k IH]; simpl.
  - unfold is_dquote in Hc. by rewrite Hc.
  - pose proof (Hk x ltac:(set_solver)) as Hx. unfold is_dquote in Hx. rewrite Hx. rewrite IH by (intros; apply Hk; set_solver). done.
Qed.
Lemma user_key t0 k t rest :
  dollar ∉ chars t0 -> piece_ok is_dquote (k, t) -> UL.getKey (t0 +:+ placeholder k +:+ t +:+ rest) = Some k.
Proof.
  intros Ht (_ & Hk & He & _). unfold UL.getKey, placeholder at 1.
  change (String dollar k +:+ t +:+ rest) with (String dollar (k +:+ t +:+ rest)). rewrite sfind_dollar by done.
  change (String dollar (k +:+ t +:+ rest)) with (placeholder k +:+ t +:+ rest). rewrite after_dollar, chars_app.
  destruct (ended_head is_dquote t rest He) as (c & l & -> & Hc). rewrite to_dquote_key by done.
  simpl. by rewrite of_chars_chars.
Qed.
(** A line of the log of the users is its prototype with every key replaced by the value of the field of the
    message, in one turn per key, when the keys of the prototype end with a quote and no value holds a dollar sign. *)
Lemma prototype_is_filled m t0 l turns :
  dollar ∉ chars t0 -> Forall (piece_ok is_dquote) l -> (forall k, k ∈ map fst l -> dollar ∉ chars (UL.key_value m k)) ->
  (length l < turns)%nat ->
  UL.fill_keys turns m (t0 +:+ render placeholder l) = Some (t0 +:+ render (UL.key_value m) l).
Proof.
  intros Ht Hl Hv Hn. apply (fill_renders is_dquote (fun n p => UL.fill_keys n m p) _ (fun _ => True)); auto.
  - intros n t Hd. cbn [UL.fill_keys]. unfold UL.getKey. by rewrite sfind_no_dollar.
  - intros n t1 k t rest Hd Hp _. cbn [UL.fill_keys]. rewrite user_key by done. cbn. destruct Hp as (Hk & _).
    by rewrite seqb_ne by done.
Qed.

(** ** The sentences of the log *)
Lemma take_until_key p k c l : (forall x, x ∈ k -> p x = false) -> p c = true -> TE.take_until p (k ++ c :: l) = k.
Proof.
  intros Hk Hc. induction k as [|x k IH]; simpl; [by rewrite Hc|]. rewrite (Hk x) by set_solver.
  rewrite IH by (intros; apply Hk; set_solver). done.
Qed.
Lemma sentence_key t0 k t rest :
  dollar ∉ chars t0 -> piece_ok Tr8.key_end (k, t) -> Tr8.getKey (t0 +:+ placeholder k +:+ t +:+ rest) = k.
Proof.
  intros Ht (_ & Hk & He & _). unfold Tr8.getKey, placeholder at 1.
  change (String dollar k +:+ t +:+ rest) with (String dollar (k +:+ t +:+ rest)). rewrite sfind_dollar by done.
  change (String dollar (k +:+ t +:+ rest)) with (placeholder k +:+ t +:+ rest). rewrite after_dollar, chars_app.
  destruct (ended_head Tr8.key_end t rest He) as (c & l & -> & Hc). rewrite take_until_key by done. apply of_chars_chars.
Qed.
Lemma sentence_is_filled value_of value t0 l turns :
  (forall k, k ∈ map fst l -> value_of k = Some (value k) /\ dollar ∉ chars (value k)) ->
  dollar ∉ chars t0 -> Forall (piece_ok Tr8.key_end) l -> (length l < turns)%nat ->
  Tr8.fill_keys turns value_of (t0 +:+ render placeholder l) = Some (t0 +:+ render value l).
Proof.
  intros Hv Ht Hl Hn.
  apply (fill_renders Tr8.key_end (fun n p => Tr8.fill_keys n value_of p) value (fun k => value_of k = Some (value k))); auto.
  - intros n t Hd. cbn [Tr8.fill_keys]. unfold Tr8.getKey. by rewrite sfind_no_dollar.
  - intros n t1 k t rest Hd Hp Hk. cbn [Tr8.fill_keys]. rewrite sentence_key by done. cbv zeta.
    rewrite seqb_ne by apply Hp. by rewrite Hk.
Qed.

(** ** Files *)
Section files.
Context {P : Platform} {C : Config} {XP : XmlParser} {FS : PathNames} {K : Calendar} {PT : PropertyTree}.
Lemma isDir_known p w : canon p ∈ w_dirs w -> Dirs.isDir p w = (true, w).
Proof. intros H. unfold Dirs.isDir, opendir, mbind, M_bind. by rewrite bool_decide_eq_true_2. Qed.
Lemma open_out_run p w : may_create (canon p) w = true -> open_out p w = (true, set_files (<[canon p := ""]> (w_files w)) w).
Proof. intros H. unfold open_out. by rewrite H. Qed.
Lemma open_app_run p w : may_create (canon p) w = true ->
  open_app p w = (true, set_files (<[canon p := default "" (w_files w !! canon p)]> (w_files w)) w).
Proof. intros H. unfold open_app. by rewrite H. Qed.
Lemma write_text_run p s w :
  may_create (canon p) w = true ->
  Mng.write_text p s w = (tt, set_files (<[canon p := s]> (w_files w)) w).
Proof.
  intros H. unfold Mng.write_text, mbind, M_bind. rewrite open_out_run by done. unfold append. simpl.
  rewrite lookup_insert_eq, insert_insert_eq. done.
Qed.
(** The time a client is served is the time found at its next request, if the JSON library reads back
    what is written. *)
Lemma client_time_roundtrip mac w pt :
  let now := "20" +:+ getasciitimecompact_of (w_clock w (w_tick w)) in
  let file := SM.mac_dir mac +:+ "/data" in
  canon (SM.mac_dir mac) ∈ w_dirs w -> may_create (canon file) w = true ->
  read_json ("{" +:+ quote "time" +:+ ":" +:+ quote now +:+ "}" +:+ Msg.endl) = Some pt -> get_string pt "time" = Some now ->
  result (SM.macTimeUpdate mac) w = Some tt /\
  result (SM.macLastTime mac) (final (SM.macTimeUpdate mac) w) = Some now.
Proof.
  intros now file Hd Hf Hj Ht.
  set (text := "{" +:+ quote "time" +:+ ":" +:+ quote now +:+ "}" +:+ Msg.endl) in *.
  assert (E : SM.macTimeUpdate mac w = (Some tt, set_files (<[canon file := text]> (w_files w)) (set_tick (S (w_tick w)) w))).
  { unfold SM.macTimeUpdate. rewrite run_bind.
    change (result SM.now20 w) with now. change (final SM.now20 w) with (set_tick (S (w_tick w)) w).
    rewrite bindo_run. unfold Dirs.makeDir. rewrite run_bind. unfold result, final. rewrite isDir_known by done.
    unfold ok, mret, M_ret. cbn [fst snd]. rewrite run_run. unfold result, final. fold file. fold text.
    rewrite write_text_run by done. done. }
  unfold result, final. rewrite E. split; [done|]. cbn [snd fst]. unfold SM.macLastTime. fold file.
  unfold Dirs.isFile, FM.isFile, is_file, mbind, M_bind. cbn. rewrite lookup_insert_eq.
  rewrite bool_decide_eq_true_2 by by eexists. cbn. rewrite lookup_insert_eq. cbn.
  unfold bindo, lifto, mbind, M_bind, mret, M_ret. rewrite Hj. cbn. done.
Qed.

(** ** From the bus to the file of a class *)
Lemma sent_notify_bind {A} (c : M A) (m : A -> MMessage) w :
  w_trace (final c w) = w_trace w -> sent_by (x ← c; notify (m x)) w = [m (result c w)].
Proof.
  intros Ht. unfold sent_by. rewrite final_bind. change (w_trace (final (notify (m (result c w))) (final c w)))
    with (w_trace (final c w) ++ [Notified (m (result c w))]). by rewrite Ht, sent_app, drop_app_length.
Qed.
Definition marked (c f : string) (o : MMessage) : Prop :=
  MsgFacts.flat o /\ Msg.getString o "class" = c /\ Msg.getString o "feature" = f /\ mtype o = "logcmd" /\ msubtype o = "archive".
Lemma marked_add c f o k v : k <> "class" -> k <> "feature" -> marked c f o -> marked c f (Msg.add o k v).
Proof.
  intros Hc Hf (Ho & H1 & H2 & H3 & H4). unfold marked. rewrite !MsgFacts.getString_add_ne by done. split_and!; auto with hat.
  - by rewrite MsgFacts.mtype_add.
  - by rewrite MsgFacts.msubtype_add.
Qed.
Lemma stamp_marked m w :
  MsgFacts.flat m -> marked (mtype m) (msubtype m) (result (Recv.stamp m) w) /\ same_fs w (final (Recv.stamp m) w) /\
    w_trace (final (Recv.stamp m) w) = w_trace w.
Proof.
  intros H. assert (Hm : marked (mtype m) (msubtype m) (Recv.mark_agent m)).
  { unfold Recv.mark_agent. cbv zeta. set (o := Msg.set_subtype (Msg.set_type m "logcmd") "archive").
    assert (Ho : MsgFacts.flat o) by (unfold o; auto with hat).
    assert (H1 : marked (mtype m) (msubtype m) (Msg.add (Msg.add o "class" (mtype m)) "feature" (msubtype m))).
    { split_and!; auto with hat.
      - rewrite MsgFacts.getString_add_ne by done. by apply MsgFacts.getString_add_flat.
      - apply MsgFacts.getString_add_flat. auto with hat.
      - by rewrite !MsgFacts.mtype_add.
      - by rewrite !MsgFacts.msubtype_add. }
    destruct (_ <>s ""), (_ <>s ""); repeat (apply marked_add; [done..|]); done. }
  unfold Recv.stamp. rewrite result_bind, final_bind, result_bind, final_bind.
  destruct (Msg.getString m "timeofday" =s ""); (split; [repeat (apply marked_add; [done..|]); done|done]).
Qed.

Lemma writelog_files p m w :
  may_create (canon p) w = true ->
  w_files (final (AT.writelog p m) w) !! canon p = Some (default "" (w_files w !! canon p) +:+ AT.log_text m +:+ Msg.endl).
Proof.
  intros H. unfold AT.writelog, final, mbind, M_bind. rewrite open_app_run by done. simpl. by rewrite !lookup_insert_eq.
Qed.
(** The file of a path of directories under the home, and that each of them is there. *)
Definition dir_of (dir : string) (l : list string) : string := dir +:+ sconcat (map (fun n => n +:+ "/") l).
Definition log_file (l : list string) : string := dir_of (homedir +:+ "/") l +:+ "data".
Fixpoint dirs_known (dir : string) (l : list string) (w : world) : Prop :=
  match l with [] => True | n :: l' => canon (dir +:+ n) ∈ w_dirs w /\ dirs_known (dir +:+ n +:+ "/") l' w end.
Lemma make_dirs_known l dir w : dirs_known dir l w -> AT.make_dirs dir l w = (Some (dir_of dir l), w).
Proof.
  revert dir. induction l as [|n l IH]; intros dir H; cbn [AT.make_dirs].
  { unfold dir_of. simpl. by rewrite sapp_nil_r. }
  destruct H as [Hn H]. cbv zeta. rewrite run_bind. unfold result, final. rewrite isDir_known by done. cbn [fst snd].
  rewrite bindo_run. unfold ok, mret, M_ret. cbv iota beta. rewrite sapp_assoc, IH by done. unfold dir_of. simpl. by rewrite !sapp_assoc.
Qed.
Lemma dirs_known_ext dir l w w' : w_dirs w' = w_dirs w -> dirs_known dir l w -> dirs_known dir l w'.
Proof. intros E. revert dir. induction l as [|n l IH]; intros dir; simpl; [done|]. rewrite E. intros [? ?]. auto. Qed.

(** The log of the users only adds to files, and only to its own. *)
Definition only_adds {A} (c : M A) (paths : list string) : Prop :=
  forall w p s, w_files w !! p = Some s ->
    exists rest, w_files (final c w) !! p = Some (s +:+ rest) /\ (p ∉ paths -> rest = "").
Lemma adds_nothing {A} (c : M A) paths : (forall w, w_files (final c w) = w_files w) -> only_adds c paths.
Proof. intros H w p s Hs. exists "". by rewrite H, sapp_nil_r. Qed.
Lemma logged_bind {A B} (c : M A) (k : A -> M B) paths :
  only_adds c paths -> (forall a, only_adds (k a) paths) -> only_adds (c ≫= k) paths.
Proof.
  intros Hc Hk w p s Hs. destruct (Hc w p s Hs) as (r1 & E1 & N1). rewrite final_bind.
  destruct (Hk (result c w) (final c w) p _ E1) as (r2 & E2 & N2). exists (r1 +:+ r2). rewrite E2, sapp_assoc. split; [done|].
  intros Hp. by rewrite N1, N2.
Qed.
Lemma adds_bindo {A B} (c : M (option A)) (k : A -> M (option B)) paths :
  only_adds c paths -> (forall a, only_adds (k a) paths) -> only_adds (bindo c k) paths.
Proof. intros Hc Hk. apply logged_bind; [done|]. intros [a|]; [apply Hk|by apply adds_nothing]. Qed.
Lemma adds_line p line paths : canon p ∈ paths -> only_adds (UL.append_line p line) paths.
Proof.
  intros Hp w q s Hs. unfold UL.append_line, final, mbind, M_bind, open_app. destruct (may_create (canon p) w); simpl.
  - destruct (decide (q = canon p)) as [->|Hne].
    + rewrite !lookup_insert_eq, Hs. simpl. by exists (line +:+ Msg.endl).
    + rewrite !lookup_insert_ne by done. exists "". by rewrite sapp_nil_r.
  - exists "". by rewrite sapp_nil_r.
Qed.
Definition user_files (u : UserLog) (class_ : string) : list string :=
  map (fun x => canon (default "" (pathname u !! x))) (default [] (logmap u !! class_)).
Lemma adds_write_logs u ag line l paths :
  (forall x, x ∈ l -> canon (default "" (pathname u !! x)) ∈ paths) -> only_adds (UL.write_logs u ag line l) paths.
Proof.
  intros H. induction l as [|x l IH]; [by apply adds_nothing|]. cbn [UL.write_logs]. apply logged_bind.
  - destruct (UL.checkSource u x ag); [apply adds_line, H; set_solver|by apply adds_nothing].
  - intros _. apply IH. set_solver.
Qed.
Lemma adds_user_log turns u m : only_adds (UL.log turns u m) (user_files u (Msg.getString m "class")).
Proof.
  unfold UL.log, user_files. destruct (logmap u !! _) as [l|]; [|by apply adds_nothing].
  destruct (proto u !! _); [|by apply adds_nothing]. apply logged_bind; [by apply adds_nothing|]. intros time.
  apply adds_bindo; [by apply adds_nothing|]. intros line. apply logged_bind; [|intros _; by apply adds_nothing].
  apply adds_write_logs. intros x Hx. apply list_elem_of_fmap. by exists x.
Qed.
Lemma trace_files turns behaviour t m w :
  let l := AT.log_path t m in let file := log_file l in
  AT.isInCurrentDay t (Msg.getString m "timeofday") = Some true ->
  dirs_known (homedir +:+ "/") l w -> may_create (canon file) w = true ->
  exists rest, w_files (final (AT.trace_message turns behaviour t m) w) !! canon file =
      Some (default "" (w_files w !! canon file) +:+ AT.log_text m +:+ Msg.endl +:+ rest) /\
    (canon file ∉ user_files (userlog t) (Msg.getString m "class") -> rest = "").
Proof.
  intros l file Hday Hd Hc. unfold AT.trace_message. fold l. unfold final at 1.
  rewrite bindo_run, make_dirs_known by done. unfold lifto. rewrite bindo_run. unfold mret at 1, M_ret at 1. cbv iota beta.
  rewrite Hday. change (dir_of (homedir +:+ "/") l +:+ "data") with file.
  set (told := if behaviour =s "active" then notify (AT.remote_item t m) else mret tt).
  assert (Ht : only_adds (told;; _ ←! UL.log turns (userlog t) m; ok tt) (user_files (userlog t) (Msg.getString m "class"))).
  { apply logged_bind; [unfold told; destruct (behaviour =s "active"); by apply adds_nothing|]. intros _.
    apply adds_bindo; [apply adds_user_log|]. intros _. by apply adds_nothing. }
  destruct (Ht _ _ _ (writelog_files file m w Hc)) as (rest & E & N). exists rest. rewrite !sapp_assoc in E. split; [|exact N].
  rewrite <- E. unfold final at 1. by rewrite (run_bind (AT.writelog file m)).
Qed.
Lemma stamp_agent m w : Msg.getString (result (Recv.stamp m) w) "agent" = Msg.getString m "agent".
Proof.
  assert (Msg.getString (Recv.mark_agent m) "agent" = Msg.getString m "agent") as H.
  { unfold Recv.mark_agent. cbv zeta. repeat split_match; by rewrite ?MsgFacts.getString_add_ne. }
  unfold Recv.stamp. rewrite !result_bind. destruct (Msg.getString m "timeofday" =s ""); rewrite result_ret, ?result_bind, ?result_ret;
    by rewrite !MsgFacts.getString_add_ne.
Qed.
(** C24: a message of the bus is in the log: the receiver notifies it with its class and its feature, and the archive
    thread appends it as one line of JSON to the file of that class and feature - of that class, feature and agent when the
    class is disaggregated - when the feature is traced, the time of the message is of today, the directories of the file are
    there and it can be opened.  The log of the users, when the class has one, adds its lines after it; it adds nothing to
    this file unless the file is one of its own. *)
Theorem received_message_is_logged turns behaviour a t m w :
  let out := result (Recv.stamp m) w in
  let l := [mtype m; msubtype m] ++ (if AT.isToDisaggregate t (mtype m) then [Msg.getString m "agent"] else []) in
  let file := log_file l in
  MsgFacts.flat m -> AT.isToTrace t (msubtype m) = true ->
  AT.isInCurrentDay t (Msg.getString out "timeofday") = Some true ->
  dirs_known (homedir +:+ "/") l w -> may_create (canon file) w = true ->
  sent_by (Recv.handle m) w = [out] /\
  exists rest, w_files (final (AT.handle turns behaviour a t out) (final (Recv.handle m) w)) !! canon file =
      Some (default "" (w_files w !! canon file) +:+ AT.log_text out +:+ Msg.endl +:+ rest) /\
    (canon file ∉ user_files (userlog t) (mtype m) -> rest = "").
Proof.
  intros out l file Hf Htr Hday Hd Hc. destruct (stamp_marked m w Hf) as ((_ & Ec & Ef & E1 & E2) & Hfs & Ht).
  fold out in Ec, Ef, E1, E2. split; [exact (sent_notify_bind (Recv.stamp m) (fun x => x) w Ht)|].
  unfold Recv.handle. rewrite final_bind. fold out. set (w1 := final (notify out) (final (Recv.stamp m) w)).
  assert (Hw1 : same_fs w w1) by done. destruct Hw1 as (F1 & F2 & F3).
  assert (AT.log_path t out = l) as El by (unfold AT.log_path; rewrite Ec, Ef; unfold out; by rewrite stamp_agent).
  destruct (trace_files turns behaviour t out w1) as (rest & E & N); rewrite ?El.
  - done.
  - by apply (dirs_known_ext _ _ w).
  - unfold may_create. by rewrite F2, F3.
  - rewrite El, F1 in E. rewrite El, Ec in N. fold file in E, N. exists rest. split; [|exact N]. rewrite <- E.
    unfold AT.handle. rewrite E1, E2. rewrite (seqb_ne "logcmd" "trigger") by done. rewrite !seqb_refl.
    cbv beta iota delta [andb]. rewrite Ef, Htr. unfold final at 1. rewrite bindo_run.
    unfold final. destruct (AT.trace_message turns behaviour t out w1) as [[[]|] w2]; done.
Qed.
End files.

(** ** Witnesses *)
Import Samples.Instances.
#[local] Instance no_json : PropertyTree := {|
  ptree := unit; read_json := fun _ => None; get_child := fun _ _ => None; get_string := fun _ _ => None;
  get_float := fun _ _ => None; ptree_children := fun _ => [] |}.
#[local] Instance no_days : Calendar := {| day_number := fun _ _ _ => None |}.
Definition lamp_event : MMessage :=
  fold_left (fun m kv => Msg.add m kv.1 kv.2) [("value", "ON"); ("source", "LI_hall"); ("agent", "hall"); ("timeofday", "210314073000")]
    (Msg.mk "event" "lamp").
Definition dq : string := String TE.dquote "".
Definition log_world : world :=
  set_dirs {[ "/"; "/home"; "/home/hat"; "/home/hat/event"; "/home/hat/event/lamp"; "/home/hat/event/lamp/hall" ]} (world_at early).
(** The events are disaggregated and the users have a log of them. *)
Definition sample_log : UserLog :=
  mkUL {["event" := ["user"]]} {["user" := "/home/hat/logs/user/data"]} {["event" := "an event"]} ∅.
Definition sample_thread : ArchiveThread := mkAT "2021_03_14" "/home/hat/" "/home/hat/horus_status"
  (mkParams "trace" "" "" [mkAttr "all" "generic" "yes"]) (mkParams "disaggregate" "" "" [mkAttr "event" "generic" "yes"]) sample_log.
Lemma received_message_is_logged_witness :
  w_files (final (AT.handle 9 "passive" (mkArchive (mkParams "archive" "" "" []) "archive" "/home/hat" [] ∅) sample_thread
    (result (Recv.stamp lamp_event) log_world)) (final (Recv.handle lamp_event) log_world)) !! "/home/hat/event/lamp/hall/data" =
  Some ("{" +:+ quote "agent" +:+ ":" +:+ quote "hall" +:+ "," +:+ quote "agentname" +:+ ":" +:+ quote "hall" +:+ "," +:+
        quote "source" +:+ ":" +:+ quote "LI_hall" +:+ "," +:+ quote "time" +:+ ":" +:+ quote "" +:+ "," +:+
        quote "timeofday" +:+ ":" +:+ quote "210314073000" +:+ "," +:+ quote "value" +:+ ":" +:+ quote "ON" +:+ "}" +:+ Msg.endl).
Proof.
  destruct (received_message_is_logged 9 "passive" (mkArchive (mkParams "archive" "" "" []) "archive" "/home/hat" [] ∅)
    sample_thread lamp_event log_world) as (_ & rest & H & N).
  - unfold lamp_event. simpl. auto with hat.
  - by vm_compute.
  - by vm_compute.
  - cbn [dirs_known app]. unfold log_file. repeat split; apply (bool_decide_unpack _); vm_compute; exact I.
  - by vm_compute.
  - assert (rest = "") as Hr.
    { apply N. intros Hin. apply (bool_decide_pack _) in Hin. vm_compute in Hin. exact Hin. }
    rewrite Hr in H. refine (eq_trans H _). vm_compute. reflexivity.
Defined.
