(* ===== verification/AlarmClaims.v ===== *)
(** * Properties of the alarms, rules and power of the interface server *)
From S2P Require Import Prelude Doubles Hsrv Xml MMessage World MParams Samples Subjects Archive ArchiveOps ArchiveFacts Users NameTable Managers AlarmManager GuiManagers.

(** ** The text between two marks *)
Section marks.
Variables (a b c : list ascii) (f l : ascii).
Lemma index_from_at i : f ∉ a -> Mng.index_from f (a ++ f :: c) i = (i + length a)%nat.
Proof.
  revert i. induction a as [|x a' IH]; intros i Hf; simpl.
  - unfold ceqb. rewrite Ascii.eqb_refl. lia.
  - apply not_elem_of_cons in Hf as [Hx Ha]. unfold ceqb at 1. destruct (Ascii.eqb_spec x f) as [->|_]; [done|].
    rewrite IH by done. lia.
Qed.
Lemma rindex_at i : l ∉ c -> (length b <= i <= length b + length c)%nat -> (0 < length b)%nat ->
  Mng.rindex l (b ++ l :: c) i = length b.
Proof.
  intros Hl Hi Hb. induction i as [|i IH]; [lia|]. cbn [Mng.rindex].
  destruct (decide (S i = length b)) as [E|E].
  - rewrite bool_decide_eq_true_2; [done|]. by rewrite E, list_lookup_middle.
  - rewrite bool_decide_eq_false_2.
    + apply IH. lia.
    + rewrite lookup_app_r by lia. replace (S i - length b)%nat with (S (i - length b)) by lia.
      simpl. intros H%list_elem_of_lookup_2. done.
Qed.
Lemma rindex_first i : l ∉ c -> Mng.rindex l (l :: c) i = 0%nat.
Proof.
  intros Hl. induction i as [|i IH]; [done|]. cbn [Mng.rindex]. rewrite bool_decide_eq_false_2; [done|].
  simpl. intros H%list_elem_of_lookup_2. done.
Qed.
End marks.
(** Between a first mark and the last occurrence of another the text is extracted, but not when it is empty: then
    the closing mark and what follows stay, and when nothing at all follows the first mark the search leaves the string. *)
Lemma extracted_text a b c f l :
  f ∉ a -> l ∉ c ->
  Mng.extractString (of_chars (a ++ f :: b ++ l :: c)) f l =
    Some (of_chars (if bool_decide (b = []) then l :: c else b)) /\
  Mng.extractString (of_chars (a ++ [f])) f l = None.
Proof.
  intros Hf Hl. assert (Hne : forall x, (of_chars (a ++ f :: x) =s "") = false).
  { intros x. apply seqb_ne. intros H%(f_equal chars). rewrite chars_of_chars in H. by destruct a. }
  unfold Mng.extractString. rewrite !Hne, !chars_of_chars, !index_from_at by done. cbn [Nat.add].
  split.
  - assert (Hlt : (length a <? length (a ++ f :: b ++ l :: c))%nat = true)
      by (apply Nat.ltb_lt; rewrite length_app; simpl; lia).
    cbv zeta. rewrite Hlt. replace (S (length a)) with (length (a ++ [f])) by (rewrite length_app; simpl; lia).
    replace (a ++ f :: b ++ l :: c) with ((a ++ [f]) ++ b ++ l :: c) by by rewrite <- (assoc_L (++)).
    rewrite drop_app_length. destruct b as [|x b].
    + simpl. by rewrite rindex_first.
    + rewrite bool_decide_eq_false_2 by done. cbn [app]. change (x :: b ++ l :: c) with ((x :: b) ++ l :: c).
      rewrite rindex_at; [|done|rewrite length_app; simpl; lia|simpl; lia].
      rewrite take_app_length. done.
  - assert (Hlt : (length a <? length (a ++ [f]))%nat = true) by (apply Nat.ltb_lt; rewrite length_app; simpl; lia).
    cbv zeta. rewrite Hlt. replace (S (length a)) with (length (a ++ [f])) by (rewrite length_app; simpl; lia).
    by rewrite drop_all.
Qed.

(** ** The list of the zones *)
Lemma cget_chars l i : cget (of_chars l) i = default nul (l !! i).
Proof.
  unfold cget. revert i. induction l as [|c l IH]; intros [|i]; simpl; done || apply IH.
Qed.
(** A new zone is added at the end of the list, after a comma when the list holds two characters or more:
    nothing of the list is lost and the text around it stays. *)
Lemma zone_is_added p b q stem :
  "]"%char ∉ p -> "]"%char ∉ b -> "["%char ∉ b ->
  AM.add_zone (of_chars (p ++ "["%char :: b ++ "]"%char :: q)) stem =
    of_chars (p ++ "["%char :: b) +:+ (if (length b <=? 1)%nat then "" else ",") +:+
    AM.member_text stem [("enable_status", "false")] +:+ of_chars ("]"%char :: q).
Proof.
  intros Hp Hb Hb'. unfold AM.add_zone. rewrite chars_of_chars.
  set (pre := p ++ "["%char :: b).
  replace (p ++ "["%char :: b ++ "]"%char :: q) with (pre ++ "]"%char :: q)
    by (unfold pre; by rewrite <- (assoc_L (++))).
  assert (Hpre : "]"%char ∉ pre) by (unfold pre; set_solver).
  rewrite index_from_at by done. cbn [Nat.add]. cbv zeta.
  assert (Hlen : length pre = (length p + S (length b))%nat) by (unfold pre; by rewrite length_app).
  rewrite of_chars_app. assert (Hl : length pre = String.length (of_chars pre)) by by rewrite <- length_chars, chars_of_chars.
  rewrite Hl, take_str_app, drop_str_app, <- Hl. do 2 f_equal.
  assert (Hat : forall k, (k < length b)%nat -> (cget (of_chars pre +:+ of_chars ("]"%char :: q)) (length pre - S k) =c "["%char) = false).
  { intros k Hk. rewrite <- of_chars_app, cget_chars, lookup_app_l by lia. rewrite Hlen. unfold pre.
    rewrite lookup_app_r by lia. replace (length p + S (length b) - S k - length p)%nat with (S (length b - S k)) by lia. simpl.
    destruct (lookup_lt_is_Some_2 b (length b - S k)) as [x Hx]; [lia|]. rewrite Hx. simpl. unfold ceqb.
    apply Ascii.eqb_neq. intros ->. by apply list_elem_of_lookup_2 in Hx. }
  assert (Hopen : (cget (of_chars pre +:+ of_chars ("]"%char :: q)) (length p) =c "["%char) = true).
  { rewrite <- of_chars_app, cget_chars, lookup_app_l by lia. unfold pre. rewrite list_lookup_middle by done. done. }
  destruct b as [|x [|y b]].
  - replace (length pre - 1)%nat with (length p) by (simpl in Hlen; lia). rewrite Hopen. simpl.
    by rewrite andb_false_r.
  - replace (length pre - 2)%nat with (length p) by (simpl in Hlen; lia). rewrite Hopen. simpl.
    by rewrite andb_false_r.
  - rewrite !Hat by (simpl; lia). simpl length. rewrite (proj2 (Nat.ltb_lt _ _)) by (simpl in Hlen; lia). done.
Qed.

(** ** The queues of actions *)
Definition off_name (name : string) : string := name +:+ (if contains "SH_" name then "_pdown" else "_off").
Definition plus_join (l : list string) : string :=
  match l with [] => "" | x :: l' => x +:+ sconcat (map (fun y => "+" +:+ y) l') end.
Lemma name_suffix_ne a b : b <> "" -> a +:+ b <> "".
Proof. intros Hb H%(f_equal String.length). rewrite length_sapp in H. destruct b; [done|]. simpl in H. lia. Qed.
Lemma off_name_ne n : off_name n <> "".
Proof. apply name_suffix_ne. by destruct (contains _ _). Qed.
Definition selected (l : list (string * string)) : list string :=
  map (fun p => off_name p.1) (List.filter (fun p => p.2 =s "true") l).
Lemma action_list_more alist l :
  alist <> "" ->
  AM.action_list alist (map (fun p => (p.1, p.2, "")) l) = alist +:+ sconcat (map (fun y => "+" +:+ y) (selected l)).
Proof.
  unfold selected. revert alist. induction l as [|[n st] l IH]; intros alist Ha; cbn [map List.filter AM.action_list].
  - by rewrite sapp_nil_r.
  - cbn [fst snd]. destruct (st =s "true") eqn:E; [|by apply IH]. rewrite seqb_ne by done.
    change (AM.action_name n "") with (off_name n). rewrite IH by apply name_suffix_ne, off_name_ne.
    cbn [map fst sconcat]. by rewrite !sapp_assoc.
Qed.
Lemma action_list_off l : AM.action_list "" (map (fun p => (p.1, p.2, "")) l) = plus_join (selected l).
Proof.
  induction l as [|[n st] l IH]; [done|]. unfold selected. cbn [map List.filter AM.action_list fst snd].
  destruct (st =s "true") eqn:E; [|exact IH]. rewrite seqb_refl, sapp_nil_l.
  change (AM.action_name n "") with (off_name n). rewrite action_list_more by apply off_name_ne. done.
Qed.
Section queues.
Context {P : Platform} {C : Config} {FS : PathNames} {PT : PropertyTree} {N : Network}.
(** A queue of actions sent to the Alarm agent never switches anything on: the parser of the request loses the mode
    of each action, so the message names every action whose last field is "true" with the suffix that switches
    it off, whatever the client asked for. *)
Lemma queue_switches_off t a program qq jsbody pt devices l w :
  read_json jsbody = Some pt -> get_child pt "devices" = Some devices ->
  JP.parse3 "name" "selection_status" "action" devices = Some l ->
  let template := result (Mng.loadTemplate (configdir +:+ "/templates/settractions.xml")) w in
  AM.setExecQueue t program qq jsbody a w =
  (res ←! Mng.sendFile t (AM.agent_of a) "/"
     (AM.queue_message template program (FilePath.getStem qq) (plus_join (selected l)));
   ok (if res : bool then "true" else "false")) w.
Proof.
  intros Hj Hc Hl template. unfold AM.setExecQueue. rewrite run_bind. fold template.
  unfold lifto. rewrite bindo_run. unfold mret at 1, M_ret at 1. rewrite Hj. cbv iota beta.
  rewrite bindo_run. unfold mret at 1, M_ret at 1. rewrite Hc. cbv iota beta.
  rewrite bindo_run. unfold mret at 1, M_ret at 1. rewrite Hl. cbv iota beta zeta. by rewrite action_list_off.
Qed.
End queues.

(** ** The list of the rules *)
Lemma body_loop_ends fuel par src category mark pos body :
  (String.length src < fuel + pos)%nat -> is_Some (Auto.body_loop (S fuel) par src category mark pos body).
Proof.
  revert pos body. induction fuel as [|fuel IH]; intros pos body Hf; cbn [Auto.body_loop];
    destruct (sfind "item" src pos) as [p|] eqn:E; try by eexists.
  - unfold sfind in E. apply index_bounds in E; [|done]. lia.
  - unfold sfind in E. apply index_bounds in E; [|done]. cbv zeta. apply IH. lia.
Qed.
Lemma mkAnswerBody_ends par src category mark : is_Some (Auto.mkAnswerBody par src category mark).
Proof. apply body_loop_ends. lia. Qed.

(** ** The devices under the power scheduler *)
Section tree.
Context {PT : PropertyTree} {NTr : NamedTree}.
Lemma getDevices_ends n pt category devices :
  (tree_size pt < n)%nat -> is_Some (PM.getDevices n pt category devices).
Proof.
  revert pt devices. induction n as [|n IH]; intros pt devices Hn; [lia|]. cbn [PM.getDevices].
  assert (Hc : forall k c, (k, c) ∈ named_children pt -> (tree_size c < n)%nat)
    by (intros k c H%child_smaller; lia).
  revert devices Hc. generalize (named_children pt). intros l. induction l as [|[k c] l IHl]; intros devices Hc; [by eexists|].
  destruct ((k =s "type") && (get_value c =s "load")).
  - cbn. apply IHl. intros k' c' H. apply (Hc k'). set_solver.
  - destruct (IH c devices) as [ds Hds]; [apply (Hc k); set_solver|]. rewrite Hds. cbn. apply IHl.
    intros k' c' H. apply (Hc k'). set_solver.
Qed.
Definition in_category (category : string) (d : DeviceDescriptor) : Prop := NT.getCategory (dd_name d) = category.
Lemma mkDevDescription_category pt category devices :
  Forall (in_category category) devices -> Forall (in_category category) (PM.mkDevDescription pt category devices).
Proof.
  intros H. unfold PM.mkDevDescription. cbv zeta. destruct (NT.getCategory _ =s category) eqn:E; [|done].
  apply Forall_app_2; [done|]. apply Forall_singleton. by apply seqb_true in E.
Qed.
Lemma getDevices_category n pt category devices ds :
  PM.getDevices n pt category devices = Some ds -> Forall (in_category category) devices -> Forall (in_category category) ds.
Proof.
  revert pt devices ds. induction n as [|n IH]; intros pt devices ds; [done|]. cbn [PM.getDevices].
  generalize (named_children pt). intros l. revert devices. induction l as [|[k c] l IHl]; intros devices; [by intros [= <-]|].
  destruct ((k =s "type") && (get_value c =s "load")).
  - cbn. intros H Hd. apply (IHl _ H). by apply mkDevDescription_category.
  - destruct (PM.getDevices n c category devices) as [ds1|] eqn:E; [|done]. cbn. intros H Hd.
    apply (IHl _ H). by apply (IH c devices).
Qed.
Section manager.
Context {P : Platform} {C : Config} {XP : XmlParser} {FS : PathNames} {N : Network} {So : PM.Sorting}.
(** A request for the devices under the power scheduler ends, however deep the tree that the scheduler sends:
    it lists devices of the category asked for only, in the order of the texts of their priorities. *)
Lemma power_list_is_answered t m params file queue rpt pt w :
  last params = Some file ->
  result (Mng.fileDownload t (PM.agent_of m) (Params.get (pm_par m) "device_queue")) w = Some queue ->
  read_json queue = Some rpt -> get_child rpt "list" = Some pt ->
  exists devices,
    result (PM.execGet t params m) w =
      Some (Mng.content_json (Msg.add Msg.dummy "body" (PM.mkAnswer (pm_par m) (PM.sort devices)))) /\
    PM.getDevices (S (tree_size pt)) pt (FilePath.getStem file) [] = Some devices /\
    Forall (in_category (FilePath.getStem file)) (PM.sort devices) /\ StronglySorted PM.sortEval (PM.sort devices).
Proof.
  intros Hf Hq Hj Hc. destruct (getDevices_ends (S (tree_size pt)) pt (FilePath.getStem file) []) as [devices Hd]; [lia|].
  exists devices. split_and!; [|done| |apply PM.sort_sorted].
  - unfold PM.execGet, result, lifto. rewrite bindo_run. unfold mret at 1, M_ret at 1. rewrite Hf. cbv iota beta. rewrite bindo_run.
    unfold result in Hq. destruct (Mng.fileDownload t _ _ w) as [o w1]. simpl in Hq. subst o.
    rewrite bindo_run. unfold mret at 1, M_ret at 1. rewrite Hj. cbv iota beta.
    rewrite bindo_run. unfold mret at 1, M_ret at 1. rewrite Hc. cbv iota beta.
    rewrite bindo_run. unfold mret at 1, M_ret at 1. rewrite Hd. done.
  - rewrite PM.sort_perm. by apply (getDevices_category _ _ _ _ _ Hd).
Qed.
End manager.
End tree.

(** ** Witnesses *)
Import Samples.Instances.
(** A tree of names and values; one text is JSON, that of the queue of the two samples below. *)
Inductive json := Json (v : string) (l : list (string * json)).
Definition jpairs (j : json) : list (string * json) := match j with Json _ l => l end.
Definition jvalue (j : json) : string := match j with Json v _ => v end.
Fixpoint jsize (j : json) : nat := match j with Json _ l => S (list_sum (map (fun kc => jsize kc.2) l)) end.
Definition jchild (j : json) (k : string) : option json := snd <$> List.find (fun kc => kc.1 =s k) (jpairs j).
Definition leaf (k v : string) : string * json := (k, Json v []).
Definition actions_json : json := Json "" [("devices", Json ""
  [("", Json "" [leaf "name" "LI_hall"; leaf "selection_status" "true"; leaf "action" "true"]);
   ("", Json "" [leaf "name" "SH_hall"; leaf "selection_status" "true"; leaf "action" "true"])])].
Definition load_json (dev pri st : string) : string * json :=
  ("", Json "" [leaf "type" "load"; leaf "device" dev; leaf "priority" pri; leaf "status" st]).
Definition queue_json : json := Json "" [("list", Json ""
  [load_json "SO_wash" "2" "ON"; load_json "SO_oven" "10" "OFF"; load_json "LI_hall" "1" "ON"])].
#[local] Instance sample_json : PropertyTree := {|
  ptree := json;
  read_json := fun s => if s =s "actions" then Some actions_json else if s =s "queue" then Some queue_json else None;
  get_child := jchild; get_string := fun j k => jvalue <$> jchild j k; get_float := fun _ _ => None;
  ptree_children := fun j => map snd (jpairs j) |}.
#[local, refine] Instance sample_named : NamedTree := {|
  named_children := jpairs; get_value := jvalue; tree_size := jsize |}.
Proof.
  intros [v l] k c. simpl. induction l as [|[k' c'] l IH]; simpl; [set_solver|].
  intros [[= -> ->]|H]%elem_of_cons; [lia|]. specialize (IH H). lia.
Defined.
#[local] Instance sortEval_dec : RelDecision PM.sortEval.
Proof. unfold PM.sortEval. intros a b. apply _. Defined.
#[local] Instance sortEval_trans : Transitive PM.sortEval.
Proof. unfold PM.sortEval. intros a b c. apply (transitivity (R := String.le)). Qed.
#[local] Instance sortEval_total : Total PM.sortEval.
Proof. unfold PM.sortEval. intros a b. apply (total String.le). Qed.
#[local, refine] Instance sample_sort : PM.Sorting := {| PM.sort := merge_sort PM.sortEval |}.
Proof.
  - intros l. apply merge_sort_Permutation.
  - intros l. apply (StronglySorted_merge_sort _).
Defined.
Definition answers (text : string) : Network := {| net_answer := fun _ _ _ _ => "HTTP/1.1 200 OK" +:+ crlf +:+ crlf +:+ text |}.
Definition one_agent (n : string) : NameTable := mkTab [mkAgent n "9001" "127.0.0.1" "" [] []] {[n := 0%nat]} [].
Definition sample_pm : PwrManager := mkPM (mkParams "pwrmanager" "" ""
  [mkAttr "pwrcontrol" "generic" "PwrControl"; mkAttr "get_answer_template" "generic" "$BODY"]) ["SO"].
Definition sample_am : AlarmManager := mkAM (mkParams "alarmmanager" "" "" [mkAttr "alarmag" "generic" "Alarm"]) [] false false.

