(* ===== verification/PushClaims.v ===== *)
(** * Properties of the connections that are told of events *)
From S2P Require Import Prelude Doubles Hsrv Xml MMessage World MParams Samples ArchiveFacts Users Managers Push.

(** ** What is written to the clients *)
Definition written (t : list effect) : list (Z * string) :=
  omap (fun e => match e with Written fd s => Some (fd, s) | _ => None end) t.
(** [adds c l]: the computation writes exactly these texts. *)
Definition adds {A} (c : M A) (l : list (Z * string)) : Prop :=
  forall w, exists t, w_trace (final c w) = w_trace w ++ t /\ written t = l.
Lemma adds_ret {A} (a : A) : adds (mret a) [].
Proof. intros w. exists []. by rewrite app_nil_r. Qed.
Lemma adds_bind {A B} (c : M A) (k : A -> M B) l1 l2 : adds c l1 -> (forall a, adds (k a) l2) -> adds (c ≫= k) (l1 ++ l2).
Proof.
  intros Hc Hk w. rewrite final_bind. destruct (Hc w) as (t1 & E1 & W1). destruct (Hk (result c w) (final c w)) as (t2 & E2 & W2).
  exists (t1 ++ t2). rewrite E2, E1, <- (assoc_L (++)). split; [done|]. unfold written. rewrite omap_app. by rewrite <- W1, <- W2.
Qed.
Lemma adds_bind_nil {A B} (c : M A) (k : A -> M B) l : adds c [] -> (forall a, adds (k a) l) -> adds (c ≫= k) l.
Proof. apply (adds_bind c k [] l). Qed.
Lemma adds_quiet {A} (c : M A) : (forall w, w_trace (final c w) = w_trace w) -> adds c [].
Proof. intros H w. exists []. by rewrite app_nil_r. Qed.
Lemma adds_ok {A} (a : A) : adds (ok a) [].
Proof. apply adds_ret. Qed.
(** [tells c l]: the computation writes exactly these texts and does not fail. *)
Definition tells {A} (c : M (option A)) (l : list (Z * string)) : Prop :=
  forall w, exists a w' t, c w = (Some a, w') /\ w_trace w' = w_trace w ++ t /\ written t = l.
Lemma tells_run {A} (c : M A) l : adds c l -> tells (run c) l.
Proof. intros H w. destruct (H w) as (t & E & W). rewrite run_run. by exists (result c w), (final c w), t. Qed.
Lemma tells_ok {A} (a : A) : tells (ok a) [].
Proof. intros w. exists a, w, []. by rewrite app_nil_r. Qed.
Lemma tells_bind {A B} (c : M A) (k : A -> M (option B)) l1 l2 :
  adds c l1 -> (forall a, tells (k a) l2) -> tells (c ≫= k) (l1 ++ l2).
Proof.
  intros Hc Hk w. rewrite run_bind. destruct (Hc w) as (t1 & E1 & W1).
  destruct (Hk (result c w) (final c w)) as (b & w' & t2 & -> & E2 & W2).
  exists b, w', (t1 ++ t2). rewrite E2, E1, <- (assoc_L (++)). split_and!; [done|done|]. unfold written.
  rewrite omap_app. by rewrite <- W1, <- W2.
Qed.
Lemma tells_bindo {A B} (c : M (option A)) (k : A -> M (option B)) l1 l2 :
  tells c l1 -> (forall a, tells (k a) l2) -> tells (bindo c k) (l1 ++ l2).
Proof.
  intros Hc Hk w. rewrite bindo_run. destruct (Hc w) as (a & w1 & t1 & -> & E1 & W1).
  destruct (Hk a w1) as (b & w' & t2 & -> & E2 & W2).
  exists b, w', (t1 ++ t2). rewrite E2, E1, <- (assoc_L (++)). split_and!; [done|done|]. unfold written.
  rewrite omap_app. by rewrite <- W1, <- W2.
Qed.
Lemma tells_map {A B} (c : M (option A)) (f : A -> B) l : tells c l -> tells (x ←! c; ok (f x)) l.
Proof. intros H. rewrite <- (app_nil_r l). apply tells_bindo; [done|]. intros. apply tells_ok. Qed.
Create HintDb writes.
#[export] Hint Resolve adds_ret : writes.

Section push.
Context {P : Platform} {C : Config} {XP : XmlParser} {FS : PathNames} {J : JsonNodes} {So : Sockets}.
Implicit Types (c : PushConnection) (m : MMessage).
Lemma adds_logMessage ty s file : adds (PC.logMessage ty s file) [].
Proof.
  unfold PC.logMessage. apply adds_bind_nil.
  { apply adds_quiet. intros w. unfold open_app, final. by destruct (may_create _ w). }
  intros o. apply adds_bind_nil; [by apply adds_quiet|]. intros time. apply adds_bind_nil; [|intros; apply adds_ret].
  destruct o; [by apply adds_quiet|apply adds_ret].
Qed.
Lemma adds_write_socket c s : adds (PC.write_socket c s) [(connection c, PC.c_text s)].
Proof. intros w. by exists [Written (connection c) (PC.c_text s)]. Qed.
Lemma tells_write_text fd s : PC.fits s = true -> tells (PC.write_text fd s) [(fd, PC.c_text s)].
Proof. intros H. unfold PC.write_text. rewrite H. apply tells_run. intros w. by exists [Written fd (PC.c_text s)]. Qed.
(** A client has no log file; the connection of the log has one. *)
Lemma tells_tell c class_ msg logged registered :
  PC.fits msg = true ->
  tells (PC.tell c class_ msg logged registered)
    (if (logfile c =s "") && registered then [(connection c, PC.c_text msg)] else []).
Proof.
  intros Hf. unfold PC.tell. apply (tells_bind _ _ []).
  { destruct (logpush c <>s ""); [|apply adds_ret].
    apply adds_bind_nil; [apply adds_logMessage|intros; apply adds_ret]. }
  intros _. destruct (logfile c =s "") eqn:E; simpl.
  - destruct registered; [by apply tells_write_text|apply tells_ok].
  - destruct logged; [by apply tells_run, adds_logMessage|apply tells_ok].
Qed.

(** The name under which clients register for an event, and the text they are told. *)
Definition device_text (cname value color : string) : string :=
  PC.json_device ([("name", cname); ("status", value)] ++ (if color =s "" then [] else [("color", color)])).
Definition for_client c (cname text : string) : list (Z * string) :=
  if (logfile c =s "") && bool_decide (is_Some (events c !! cname)) then [(connection c, PC.c_text text)] else [].
Lemma tells_device_change c m cname value :
  PC.device_event (Msg.getString m "feature") (Msg.getString m "value") = Some (cname, value) ->
  PC.fits (device_text cname value (Msg.getString m "color")) = true ->
  tells (PC.notifyDeviceChange c m) (for_client c cname (device_text cname value (Msg.getString m "color"))).
Proof. intros H Hf. unfold PC.notifyDeviceChange. cbv zeta. rewrite H. by apply tells_map, tells_tell. Qed.
Lemma tells_all m (g : PushConnection -> list (Z * string)) l :
  (forall c, tells (PC.notifyEvent c m) (g c)) -> tells (PTh.notify_all l m) (concat (map g l)).
Proof.
  intros H. induction l as [|c l IH]; simpl; [apply tells_ok|]. apply tells_bindo; [apply H|]. intros _. apply IH.
Qed.
Definition is_device_event m : Prop :=
  PC.is_archive m = true /\ (Msg.getString m "class" = "event" \/ Msg.getString m "class" = "program") /\
  Msg.getString m "feature" <> "" /\ Msg.getString m "feature" <> "prgstatus".
Lemma notifyEvent_device c m : is_device_event m -> PC.notifyEvent c m = PC.notifyDeviceChange c m.
Proof.
  intros (Ha & Hc & Hf & Hp). unfold PC.notifyEvent. cbv zeta. rewrite Ha, (seqb_ne _ _ Hf), (seqb_ne _ _ Hp).
  destruct Hc as [-> | ->]; done.
Qed.
(** C27: when the state of a device changes, each client that registered for it is written one line, with the
    state in the words of the clients, and no other client is written anything; the clients are
    served in the order in which they connected, as long as the line fits the buffer. *)
Theorem event_reaches_its_clients p m cname value w :
  is_device_event m ->
  PC.device_event (Msg.getString m "feature") (Msg.getString m "value") = Some (cname, value) ->
  PC.fits (device_text cname value (Msg.getString m "color")) = true ->
  logfile (logconnection p) <> "" -> Forall (fun c => logfile c = "") (connections p) ->
  let text := PC.c_text (device_text cname value (Msg.getString m "color")) in
  exists w' t, PTh.do_signal p m w = (Some tt, w') /\ w_trace w' = w_trace w ++ t /\
    written t = map (fun c => (connection c, text)) (List.filter (fun c => bool_decide (is_Some (events c !! cname))) (connections p)).
Proof.
  intros Hd He Hf Hl Hc text. assert (Ha : PC.is_archive m = true) by apply Hd.
  assert (Ht : forall c, tells (PC.notifyEvent c m) (for_client c cname (device_text cname value (Msg.getString m "color")))).
  { intros c. rewrite notifyEvent_device by done. by apply tells_device_change. }
  assert (H : tells (PTh.do_signal p m)
    (concat (map (fun c => for_client c cname (device_text cname value (Msg.getString m "color"))) (connections p)))).
  { unfold PTh.do_signal. rewrite Ha. unfold PTh.notifyEvent. apply (tells_bindo _ _ []).
    - assert (E : for_client (logconnection p) cname (device_text cname value (Msg.getString m "color")) = [])
        by (unfold for_client; by rewrite seqb_ne).
      rewrite <- E. apply Ht.
    - intros _. by apply tells_all. }
  destruct (H w) as ([] & w' & t & E & Et & W). exists w', t. split_and!; [done|done|]. rewrite W. clear -Hc.
  induction (connections p) as [|c l IH]; [done|]. apply Forall_cons in Hc as [Hc Hl]. cbn [map concat List.filter].
  unfold for_client at 1. rewrite Hc, seqb_refl. cbn [andb]. rewrite (IH Hl). by destruct (bool_decide _).
Qed.

(** ** Clients that are silent *)
Definition silent : Prop := forall n fd, sock_read n fd = [].
Definition older c c' : Prop := exists x, c' = (c <| ttl := x |>) /\ (x = -1 \/ x = ttl c - 1).
Lemma older_bound c c' (b : Z) : 0 <= b -> older c c' -> ttl c <= b -> ttl c' <= Z.max (b - 1) (-1).
Proof. intros Hb (x & -> & Hx) Hc. simpl. lia. Qed.
Lemma poll_one_silent mt c w : silent -> exists c' w', PTh.poll_one mt c w = (Some c', w') /\ older c c'.
Proof.
  intros Hs. unfold PTh.poll_one. rewrite run_bind. set (sent := result (PC.AYAsend c) w). set (w1 := final (PC.AYAsend c) w).
  destruct sent; simpl.
  - rewrite bindo_run. assert (E : exists w2, PC.IAAreceive c w1 = (Some (false, c), w2)).
    { unfold PC.IAAreceive. rewrite run_bind. exists (final (PC.getJsonMessage c) w1).
      assert (Em : result (PC.getJsonMessage c) w1 = "").
      { unfold PC.getJsonMessage, result. rewrite Hs. by destruct (connection c <=? 0). }
      by rewrite Em. }
    destruct E as [w2 ->]. eexists _, _. split; [reflexivity|]. exists (ttl c - 1). auto.
  - eexists _, _. split; [reflexivity|]. exists (-1). auto.
Qed.
Lemma poll_all_silent mt l w : silent -> exists l' w', PTh.poll_all mt l w = (Some l', w') /\ Forall2 older l l'.
Proof.
  intros Hs. revert w. induction l as [|c l IH]; intros w; cbn [PTh.poll_all]; [by exists [], w|].
  rewrite bindo_run. destruct (poll_one_silent mt c w Hs) as (c' & w1 & -> & Hc).
  rewrite bindo_run. destruct (IH w1) as (l' & w2 & -> & Hl). exists (c' :: l'), w2. split; [done|]. by constructor.
Qed.
Lemma take_expired_incl l c l' : PTh.take_expired l = Some (c, l') -> l' ⊆ l /\ length l = S (length l').
Proof.
  revert l'. induction l as [|x l IH]; intros l'; [done|]. simpl. destruct (ttl x <=? 0).
  - intros [= -> ->]. split; [set_solver|done].
  - destruct (PTh.take_expired l) as [[c' l1]|]; [|done]. simpl. intros [= <- <-].
    destruct (IH l1 eq_refl) as [Hi Hl]. split; [set_solver|]. simpl. by rewrite Hl.
Qed.
Lemma take_expired_all l c : Forall (fun c => ttl c <= 0) (c :: l) -> exists r, PTh.take_expired (c :: l) = Some (c, r) /\ r = l.
Proof. intros [H _]%Forall_cons. simpl. rewrite (proj2 (Z.leb_le _ _) H). eauto. Qed.
Lemma clearExpired_connections p w :
  connections (result (PTh.clearExpired p) w) =
  match PTh.take_expired (connections p) with Some (_, l) => l | None => connections p end.
Proof. unfold PTh.clearExpired. destruct (PTh.take_expired (connections p)) as [[c l]|]; [|done]. by rewrite result_bind. Qed.
Definition within (b : Z) p : Prop := Forall (fun c => ttl c <= b) (connections p).
Lemma do_poll_silent p w (b : Z) :
  silent -> 0 <= b -> within b p ->
  exists p' w', PTh.do_poll p w = (Some p', w') /\ within (Z.max (b - 1) (-1)) p' /\
    (length (connections p') <= length (connections p) - (if (b =? 0)%Z then 1 else 0))%nat.
Proof.
  intros Hs Hb Hp. unfold PTh.do_poll. rewrite bindo_run.
  destruct (poll_all_silent (maxttl p) (connections p) w Hs) as (l' & w1 & -> & Hl).
  assert (Hlen : length l' = length (connections p)) by (symmetry; by eapply Forall2_length).
  assert (Hb' : Forall (fun c => ttl c <= Z.max (b - 1) (-1)) l').
  { clear -Hl Hb Hp. unfold within in Hp. induction Hl as [|c c' l l' Hc _ IH]; [done|].
    apply Forall_cons in Hp as [Hc0 Hp]. constructor; [by eapply older_bound|by apply IH]. }
  rewrite run_run. eexists _, _. split; [reflexivity|]. unfold within. rewrite clearExpired_connections. simpl.
  destruct (PTh.take_expired l') as [[c r]|] eqn:E.
  - destruct (take_expired_incl _ _ _ E) as [Hi Hlr]. split.
    + rewrite Forall_forall in Hb' |- *. auto.
    + destruct (b =? 0); lia.
  - split; [done|]. destruct (Z.eqb_spec b 0) as [->|_]; [|lia].
    destruct l' as [|c l']; [simpl in *; lia|]. exfalso.
    assert (H0 : Forall (fun c => ttl c <= 0) (c :: l')) by (eapply Forall_impl; [exact Hb'|]; simpl; lia).
    destruct (take_expired_all _ _ H0) as (r & Er & _). congruence.
Qed.
Fixpoint polls (n : nat) p : M (option PushThread) :=
  match n with O => ok p | S n => p ←! PTh.do_poll p; polls n p end.
(** A client that does not answer any more is forgotten: when all the clients are silent, none is left after as many
    polls as the time to live and the number of clients together, one poll for each client that is forgotten. *)
Lemma silent_clients_are_forgotten n b p w :
  silent -> within (Z.of_nat b) p -> (b + length (connections p) <= n)%nat ->
  exists p', result (polls n p) w = Some p' /\ connections p' = [].
Proof.
  intros Hs. revert b p w. induction n as [|n IH]; intros b p w Hp Hn; cbn [polls].
  - exists p. split; [done|]. apply length_zero_iff_nil. lia.
  - destruct (do_poll_silent p w (Z.of_nat b) Hs) as (p' & w' & E & Hp' & Hl); [lia|done|].
    unfold result. rewrite bindo_run, E. apply (IH (pred b)).
    + eapply Forall_impl; [exact Hp'|]. simpl. lia.
    + destruct (Z.eqb_spec (Z.of_nat b) 0) as [Hb|Hb]; [|lia]. destruct (connections p); simpl in *; lia.
Qed.
End push.

(** ** Witnesses *)
Import Samples.Instances.
#[local] Instance no_answer : Sockets := {| sock_write := fun _ _ => 1; sock_read := fun _ _ => [] |}.
#[local] Instance no_nodes : JsonNodes := {|
  jnode := unit; json_parse := fun _ => None; jchildren := fun _ => []; jname := fun _ => ""; jstring := fun _ => "" |}.
Definition client (fd life : Z) (names : list string) : PushConnection :=
  mkPC "" "" [] fd (list_to_map (map (fun n => (n, "*")) names)) "*" "127.0.0.1" "4000" life.
Definition two_clients : PushThread := mkPT
  (mkPC "/home/hat/logs/push/data" "/home/hat/LOGPUSH" ["all"] 0 ∅ "" "" "" 0)
  [client 5 2 ["LI_hall"]; client 6 2 ["SH_hall"]] 2 1 "9003" Msg.dummy.
Definition lamp_on : MMessage :=
  fold_left (fun m kv => Msg.add m kv.1 kv.2) [("class", "event"); ("feature", "LI_hall_state"); ("value", "ON")]
    (Msg.mk "logcmd" "archive").
Lemma event_reaches_its_clients_witness :
  exists w' t, PTh.do_signal two_clients lamp_on (world_at early) = (Some tt, w') /\ w_trace w' = t /\
    written t = [(5, device_text "LI_hall" "true" "")].
Proof.
  apply (event_reaches_its_clients two_clients lamp_on "LI_hall" "true" (world_at early)).
  - split_and!; [done|by left|done|done].
  - by vm_compute.
  - by vm_compute.
  - done.
  - by repeat apply Forall_cons_2.
Defined.
