(* ===== verification/Hosts.v ===== *)
(** * The start of a process, its log and the tools of the host

    The global settings (hsrv.cpp, [load]), the queue of the log and its writer (logger.cpp, message.h, template.h), the
    process that restarts an agent (main.cpp), and the programs that start the agents and the tunnel (starter, sshtunnel,
    utils).  Sleeping, forking and the identity of the user are left out; [None] is the end of the process.

    The second part holds small agents: the page server MiniWWW, the remote server and the demonstration agents. *)
From S2P Require Import Prelude Doubles Hsrv Xml MMessage World MParams Pages Subjects Archive ArchiveOps Configurator NameTable RemoteAgent Managers AgentConf Udp AgentNet.

(** ** The settings of a process (hsrv.cpp) *)
Record Globals := mkGlobals {
  g_configdir : string; g_bindir : string; g_homedir : string; g_logfile : string; g_agenttype : string;
  g_agentname : string; g_behaviour : string; g_mqtt : string; g_mqtt_domain : string; g_configurator : string;
  g_debug : Z; g_agentnet : string }.
#[export] Instance Globals_rebuild : Rebuild Globals := fun g =>
  mkGlobals (g_configdir g) (g_bindir g) (g_homedir g) (g_logfile g) (g_agenttype g) (g_agentname g) (g_behaviour g)
    (g_mqtt g) (g_mqtt_domain g) (g_configurator g) (g_debug g) (g_agentnet g).

Module Start.
Definition initial : Globals := mkGlobals "" "" "" "LOG" "*" "*" "*" "OFF" "*" "*" 0 "".
(** The settings the other components read. *)
Definition config_of (g : Globals) : Config := {|
  configdir := g_configdir g; homedir := g_homedir g; configurator := g_configurator g; has_rpctab := true; debug := g_debug g |}.
Section load.
Context {P : Platform} {XP : XmlParser} {FS : PathNames}.
Definition or_default (v d : string) : string := if v =s "" then d else v.
(** The values of "global.xml"; [rooted]: the directory above the home directory is there. *)
Definition settings (p : MParams) (hname : string) (rooted : bool) (g : Globals) : Globals :=
  let get := Params.get p in
  g <| g_homedir := if rooted then get "homedir" else get "emergency_homedir" |>
    <| g_logfile := get "logfile" |> <| g_agenttype := get "agenttype" |>
    <| g_agentname := (strReplace (get "agentname") "$HOST" hname).2 |>
    <| g_behaviour := or_default (get "behaviour") "*" |>
    <| g_mqtt := if get "mqtt" =s "ON" then "ON" else "OFF" |> <| g_mqtt_domain := or_default (get "mqtt_domain") "local" |>
    <| g_configurator := get "configurator" |>
    <| g_debug := if get "debug" =s "" then g_debug g else a2int (get "debug") |>
    <| g_agentnet := or_default (get "agentnet") "agentnet" |>.
Definition load (path0 path1 : string) (g : Globals) : M (option (bool * Globals)) :=
  hname ← getHostName (C := config_of g);
  let g := g <| g_configdir := path1 |> <| g_bindir := extractBin path0 |> in
  d ← Dirs.isDir path1;
  if negb d then ok (false, g)
  else
    r ←! Params.load (Params.mk1 (C := config_of g) "global");
    rooted ← Dirs.isDir (FilePath.getRoot (Params.get r.2 "homedir"));
    ok (true, settings r.2 hname rooted g).
End load.
End Start.

(** ** Class Message and the queue of them (message.h, template.h) *)
Record Message := mkMessage { om_type : string; om_priority : Z; om_fields : gmap string string }.
Module OldMsg.
Definition add (m : Message) (f v : string) : Message := mkMessage (om_type m) (om_priority m) (<[f := v]> (om_fields m)).
Definition add_int (m : Message) (f : string) (v : Z) : Message := add m f (int2a v).
Definition remove (m : Message) (f : string) : Message := mkMessage (om_type m) (om_priority m) (delete f (om_fields m)).
Definition getString (m : Message) (f : string) : string := default "" (om_fields m !! f).
Definition getInt {P : Platform} (m : Message) (f : string) : Z := match om_fields m !! f with Some v => a2int v | None => 0 end.
Section default_message.
Context {P : Platform}.
(** The default constructor leaves the priority out. *)
Definition dummy : Message := mkMessage "*" indet_int ∅.
Definition mk (t : string) : Message := mkMessage t 0 ∅.
End default_message.
(** message.cpp *)
Definition field (kv : string * string) : string := "<field name=" +:+ quote kv.1 +:+ " value=" +:+ quote kv.2 +:+ "/>".
Definition open_tag (m : Message) : string := "<message type=" +:+ quote (om_type m) +:+ ">".
Definition xmlEncode (m : Message) (md : Z) : string :=
  (if 0 <? md then Msg.xml_header else "") +:+ open_tag m +:+ sconcat (map field (map_items (om_fields m))) +:+ "</message>".
Definition xmlPrint (m : Message) (md : Z) : string :=
  (if 0 <? md then Msg.xml_header +:+ Msg.endl else "") +:+ open_tag m +:+ Msg.endl +:+
  sconcat (map (fun kv => field kv +:+ Msg.endl) (map_items (om_fields m))) +:+ "</message>" +:+ Msg.endl.
Definition pair (kv : string * string) : string := kv.1 +:+ "=" +:+ kv.2.
Definition htmlEncode (m : Message) : string :=
  match om_fields m !! "body" with
  | Some b => b
  | None => "<html><body>" +:+ sconcat (map (fun kv => pair kv +:+ "<br>") (map_items (om_fields m))) +:+ "</body></html>"
  end.
Definition htmlPostEncode (m : Message) : string :=
  match om_fields m !! "body" with Some b => b | None => NameList.join "&" (map pair (map_items (om_fields m))) end.
(** The fields of the children, which must be elements: another node has no attributes to read. *)
Definition take_field (m : Message) (c : xnode) : Message := add m (child_attr c "name") (child_attr c "value").
Definition of_node (m : Message) (n : xnode) : Message := fold_left take_field (children n) m.
Definition with_type (m : Message) (t : string) : Message := mkMessage t (om_priority m) (om_fields m).
Section decode.
Context {XP : XmlParser}.
(** [None]: the document has no first node. *)
Definition xmlAppend (m : Message) (desc : string) : option (bool * Message) :=
  match NextSibling (parse_document desc) with
  | None => None
  | Some [] => Some (false, m)
  | Some (n :: _) => Some (true, of_node (with_type m (child_attr n "type")) n)
  end.
Definition xmlDecode (m : Message) (desc : string) : option (bool * Message) :=
  match NextSibling (parse_document desc) with
  | None => None
  | Some [] => Some (false, m)
  | Some (n :: _) => Some (true, of_node (mkMessage (child_attr n "type") (om_priority m) ∅) n)
  end.
End decode.
(** A field is stored at "&"; the last one only if neither part is empty. *)
Definition store (m : Message) (n v : string) : Message := if n =s "type" then with_type m v else add m n v.
Fixpoint html_loop (l : list ascii) (flag : bool) (n v : string) (m : Message) : Message :=
  match l with
  | [] => if n =s "type" then with_type m v else if (n <>s "") && (v <>s "") then add m n v else m
  | c :: l' =>
      if c =c "=" then html_loop l' true n v m
      else if c =c " " then html_loop l' flag n v m
      else if c =c "&" then html_loop l' false "" "" (store m n v)
      else if flag then html_loop l' flag n (v +:+ String c "") m
      else html_loop l' flag (n +:+ String c "") v m
  end.
Definition htmlAppend (m : Message) (body : string) : Message := html_loop (chars body) false "" "" m.
End OldMsg.

(** ** The queue of the log: the first message of the greatest priority is taken, one of the least is dropped *)
Module MsgQ.
Fixpoint pick (better : Z -> Z -> bool) (l : list Message) (i r : nat) (best : Z) : nat :=
  match l with
  | [] => r
  | m :: l' => if better (om_priority m) best then pick better l' (S i) i (om_priority m) else pick better l' (S i) r best
  end.
Definition index_of (better : Z -> Z -> bool) (q : list Message) : nat :=
  match q with [] => 0%nat | m :: _ => pick better q 0 0 (om_priority m) end.
Definition remove_at (q : list Message) (i : nat) : list Message := take i q ++ drop (S i) q.
Definition purge (maxlength : nat) (q : list Message) : list Message :=
  if bool_decide (maxlength = 0%nat) || (length q <=? maxlength)%nat then q else remove_at q (index_of Z.ltb q).
Definition send (maxlength : nat) (m : Message) (q : list Message) : list Message := purge maxlength (q ++ [m]).
(** [None]: the caller waits. *)
Definition receive (q : list Message) : option (Message * list Message) :=
  let i := index_of Z.gtb q in m ← q !! i; Some (m, remove_at q i).
Definition priority (q : list Message) : Z := fold_left (fun c m => if c <? om_priority m then om_priority m else c) q (-1).
End MsgQ.

(** ** Class HorusLogger (logger.cpp) *)
Record HorusLogger := mkLog { layout : string; output_type : Z; layouts : gmap string string; lg_queue : list Message }.
#[export] Instance HorusLogger_rebuild : Rebuild HorusLogger := fun l =>
  mkLog (layout l) (output_type l) (layouts l) (lg_queue l).
Module Lg.
Section logger.
Context {P : Platform} {FS : PathNames}.
Implicit Types (l : HorusLogger).
Definition initLayouts : gmap string string :=
  <["verbose" := "[%datetime%](%level%) %message% [%file%:%line%]"]> (<["basic" := "(%level%) %message%"]> ∅).
Definition setLayout (s : string) l : HorusLogger := l <| layout := s |>.
Definition getLayout l : string := default "" (layouts l !! layout l).
Definition setOutputType (t : string) l : HorusLogger :=
  l <| output_type := if t =s "stdout" then 0 else if t =s "stderr" then 1 else 2 |>.
Definition mk (debug_build : bool) : HorusLogger :=
  setLayout "verbose" (setOutputType (if debug_build then "stdout" else "file") (mkLog "" 0 initLayouts [])).
Definition message (text file function : string) (line : Z) (level : string) : Message :=
  let m := OldMsg.add (OldMsg.add OldMsg.dummy "message" text) "level" level in
  OldMsg.add_int (OldMsg.add (OldMsg.add m "file" file) "function" function) "line" line.
Definition send (text file function : string) (line : Z) (level : string) l : HorusLogger :=
  l <| lg_queue := MsgQ.send 0 (message text file function line level) (lg_queue l) |>.
(** [debug], [info], [error], [alert], [warning] and [fatal] differ in the level. *)
Definition at_level (level text file function : string) (line : Z) : HorusLogger -> HorusLogger := send text file function line level.
Definition subst (s dst src : string) : string := (strReplace s dst src).2.
Definition line_of (layout_text : string) (date : string) (m : Message) : string :=
  let get := OldMsg.getString m in
  let s := subst layout_text "%level%" (get "level") in
  let s := subst s "%datetime%" date in
  let s := subst s "%message%" (get "message") in
  let s := subst s "%file%" (if get "file" <>s "" then get "file" else "(file not specified)") in
  let line := OldMsg.getInt m "line" in
  subst s "%line%" (if negb (line =? 0) then int2a line else "(line not specified)").
Definition log_path (g : Globals) : string :=
  if cget (g_logfile g) 0 =c "/" then g_logfile g else g_homedir g +:+ "/" +:+ g_logfile g.
(** What goes to the console is left out. *)
Definition writeLog (g : Globals) (m : Message) l : M unit :=
  day ← mySQLdate ""; hour ← getasciitimeday;
  let s := line_of (getLayout l) (day +:+ " " +:+ hour) m +:+ Msg.endl in
  if output_type l =? 2 then
    o ← open_app (log_path g);
    if o : bool then append (log_path g) s else mret tt
  else mret tt.
(** One turn of [log_thread] of main.cpp. *)
Definition log_turn (g : Globals) l : M (option HorusLogger) :=
  match MsgQ.receive (lg_queue l) with
  | None => mret None
  | Some (m, q) => writeLog g m l;; mret (Some (l <| lg_queue := q |>))
  end.
End logger.
End Lg.

(** ** main.cpp of the agents *)
Module Main.
Section main.
Context {P : Platform} {C : Config} {XP : XmlParser} {FS : PathNames}.
(** What the shell does for "rm file". *)
Definition rm (file : string) : M unit := _ ← unlink (canon file); mret tt.
(** The parent process after the agent has ended with a status: true if it sleeps first, which it does not after [exit(1)]. *)
Definition after_end (status : Z) : M bool :=
  let file := homedir +:+ "/.lock" in
  cmdExec ("rm " +:+ file);; (if 1 <? debug then mret tt else rm file);;
  log_info ("status: " +:+ int2a status +:+ ",  restarting!!!!" +:+ Msg.endl);; mret (negb (status =? 256)).
End main.
End Main.

(** ** starter/main.cpp *)
Module Starter.
Definition CONFIG : string := "/home/horus/CONFIG".
Definition BIN : string := "/home/horus/bin".
Section starter.
Context {P : Platform} {C : Config} {XP : XmlParser} {FS : PathNames}.
Definition nameless : MParams := mkParams "nonname" "/tmp" "/tmp" [].
Definition loaded_at (path : string) : M (option MParams) := r ←! Params.xmlLoad nameless path; ok r.2.
(** What the shell does for "rm -f home/*/.lock": hidden directories are not looked at. *)
Definition is_lock (home p : string) : bool :=
  String.prefix (home +:+ "/") p &&
  match NameList.of_string (drop_str (S (String.length home)) p) "/" with
  | [d; f] => (f =s ".lock") && Dirs.not_hidden d
  | _ => false
  end.
Definition rm_locks (home : string) : M unit := fun w =>
  (tt, set_files (filter (fun kv => negb (is_lock (canon home) kv.1) || negb (w_writable w kv.1) = true) (w_files w)) w).
Definition clean (home : string) : M unit :=
  d ← Dirs.isDir home;
  if d : bool then cmdExec ("rm -f " +:+ home +:+ "/*/.lock");; (if 1 <? debug then mret tt else rm_locks home) else mret tt.
Definition command (agent : string) (global : MParams) : string :=
  BIN +:+ "/" +:+ Params.get global "agenttype" +:+ " " +:+ CONFIG +:+ "/" +:+ agent +:+ "&".
Fixpoint commands (agents : list string) : M (option (list string)) :=
  match agents with
  | [] => ok []
  | a :: agents' =>
      g ←! loaded_at (CONFIG +:+ "/" +:+ a +:+ "/global.xml"); l ←! commands agents'; ok (command a g :: l)
  end.
Fixpoint exec_each (l : list string) : M unit :=
  match l with [] => mret tt | c :: l' => cmdExec c;; exec_each l' end.
(** [system(c)]: also run when debugging. *)
Fixpoint system_each (l : list string) : M unit :=
  match l with [] => mret tt | c :: l' => emit (Command c);; system_each l' end.
(** The locks go, then the scripts of the board run, then each agent is started. *)
Definition main : M (option unit) :=
  clean "/home/horus/horus/horus_home";; clean "/home/horus/horus_home";;
  agents ← Dirs.dirList CONFIG [];
  cmds ←! commands agents.2;
  init ←! loaded_at (CONFIG +:+ "/bbdevices/init.xml");
  exec_each (map avalue (Params.extractCategory init "script"));; system_each cmds;; ok tt.
End starter.
End Starter.

(** ** utils/enableconf.cpp *)
Definition enableconf {P : Platform} {FS : PathNames} : M unit :=
  o ← open_out "/home/horus/CONFIGURE";
  now ← gettime; if o : bool then append "/home/horus/CONFIGURE" (double2a now +:+ Msg.endl) else mret tt.

(** ** sshtunnel/sshtunnel.cpp *)
Module Tunnel.
Section tunnel.
Context {P : Platform} {C : Config} {XP : XmlParser} {FS : PathNames}.
Definition mkPort (p : string) : string := pretty (wrap 32 (a2unsigned p + 1)).
Definition fill (cmd lport rport host user : string) : string :=
  let r s dst src := (strReplace s dst src).2 in
  r (r (r (r cmd "$LPORT" lport) "$RPORT" rport) "$HOST" host) "$USER" user.
Definition set_status (t : MParams) (s : string) : M (option unit) := Params.save (Params.add t "status" s);; ok tt.
Definition argument (args : list string) (i : nat) (t : MParams) (key : string) : string :=
  match args !! i with Some a => a | None => Params.get t key end.
(** The port may be the first argument, whatever it says: also "start" when the tunnel is on. *)
Definition open (args : list string) (global wsglobal t : MParams) : M (option unit) :=
  let lport := Params.get wsglobal "port" in
  let rport := argument args 0 t "rport" in
  let rport := if rport =s "" then lport else rport in
  let t := Params.add t "rport" rport in
  let host := argument args 1 t "host" in
  let user := argument args 2 t "user" in
  let t := Params.add (Params.add t "host" host) "user" user in
  Params.save t;;
  let cmd := Params.get global "cmd" in
  cmdExec (fill cmd lport rport host user);;
  cmdExec (fill cmd (mkPort lport) (mkPort rport) host user);; ok tt.
(** What follows [hsrv::load]; [args] are the arguments after the directory of the configuration.  To drop a slash at the
    end of that directory the code erases the end of the string, which is not an element. *)
Definition main (args : list string) : M (option unit) :=
  _ ←! lifto (if cget configdir (String.length configdir - 1) =c "/" then None else Some tt);
  _ ←! Dirs.makeDir homedir true;
  wsglobal ←! Starter.loaded_at (FilePath.getRoot configdir +:+ "/wsserver/agentnet.xml");
  t ←! Params.load (Params.mk1 "tunnel");
  global ←! Params.load (Params.mk1 "global");
  let t := t.2 in
  let global := global.2 in
  let first := default "" (head args) in
  if first =s "halt" then
    cmdExec (Params.get global "haltAutossh");; cmdExec (Params.get global "haltSsh");; set_status t "OFF"
  else if (first =s "start") && (Params.get t "status" =s "OFF") then set_status t "ON"
  else if Params.get t "status" =s "OFF" then ok tt
  else open args global wsglobal t.
End tunnel.
End Tunnel.

(** * Small agents and threads: the page server MiniWWW, the remote server and the demonstration agent

    MiniWWW/Configurator.cpp installs the configurations of agents and MiniWWW/agent.cpp writes the home page;
    WSServer/RemoteServerThread.cpp forwards items to a server by a shell command; agentdemo sends and shows messages.
    [None] is the end of the process or an endless loop. *)

(** ** MiniWWW: installation (Configurator.cpp) *)
Module Mini.
Section configurator.
Context {P : Platform} {C : Config} {XP : XmlParser} {FS : PathNames}.
(** What the shell does for "cp -r src dst". *)
Variable cp_r : string -> string -> M unit.
Implicit Types (m : MMessage).
Definition sources : list string :=
  ["/home/horus/HAT/agents/CONFIGURATIONS"; "/home/horus/CONFIGURATIONS"; "/home/horus/agents/CONFIGURATIONS"].
(** The first of the three directories that is there; the last is returned when none is. *)
Fixpoint first_dir (l : list string) : M string :=
  match l with
  | [] => mret ""
  | [d] => mret d
  | d :: l' => b ← Dirs.isDir d; if b : bool then mret d else first_dir l'
  end.
Definition conf_root : string := FilePath.getRoot configdir.
Definition deleteDir (path : string) : M (option bool) := fun w => Dirs.deleteDir (S (size (w_dirs w))) path w.
Fixpoint delete_agents (l : list string) : M (option unit) :=
  match l with
  | [] => ok tt
  | a :: l' =>
      _ ←! (if a <>s "miniwww" then deleteDir (conf_root +:+ "/" +:+ a) else ok true); delete_agents l'
  end.
Definition clean : M (option unit) := r ← Dirs.dirList conf_root []; delete_agents r.2.
Definition copy (src dst : string) : M unit :=
  cmdExec ("/bin/cp -r " +:+ src +:+ " " +:+ dst);; if 1 <? debug then mret tt else cp_r src dst.
Definition tunnel (configuration : string) : M unit := copy (configuration +:+ "/sshtunnel") (conf_root +:+ "/sshtunnel").
Definition copy_agent (configuration agent : string) : M unit :=
  copy (configuration +:+ "/" +:+ agent) (conf_root +:+ "/" +:+ FilePath.getStem agent);;
  (if agent =s "wsserverws" then copy (configuration +:+ "/wspusher") (conf_root +:+ "/websocket");; tunnel configuration else mret tt);;
  (if agent =s "wsserver" then copy (configuration +:+ "/websocket") (conf_root +:+ "/websocket");; tunnel configuration else mret tt).
Fixpoint copy_agents (configuration : string) (l : list string) : M unit :=
  match l with [] => mret tt | a :: l' => copy_agent configuration a;; copy_agents configuration l' end.
Definition installer m : M (option bool) :=
  configuration ← first_dir sources;
  d ← Dirs.isDir configuration;
  if negb d then ok false
  else _ ←! clean; copy_agents configuration (NameList.of_string (Msg.getString m "agents") "+");; ok true.
Definition doReset : M (option bool) := _ ←! clean; cmdExec "/sbin/reboot";; ok true.
Definition serve (params : list string) m : M (option string) :=
  back ←! lifto (last params);
  r ←! (if back =s "install" then r ←! installer m; ok (if r : bool then "done" else "Fail") else ok "");
  if back =s "reset" then r ←! doReset; ok (if r : bool then "done" else "Fail")
  else if back =s "reboot" then emit (Command "/sbin/reboot");; ok "done" else ok r.
Definition exec (params : list string) (mth body : string) : M (option MMessage) :=
  enabled ← checkConfigureEnabled;
  if negb enabled || (mth <>s "configure") then ok (Conf.body_answer "Not Found")
  else
    m ←! lifto (if body <>s "" then Conf.addBody Msg.dummy body else Some Msg.dummy);
    r ←! serve params m; ok (Conf.body_answer r).
End configurator.

(** ** MiniWWW: the home page (agent.cpp) *)
Section pages.
Context {P : Platform} {C : Config} {XP : XmlParser} {FS : PathNames} {I : Identity}.
Definition hidden_agents : list string := ["miniwww"; "logger"; "sshtunnel"; "websocket"].
Definition getAgentList (all : bool) : M (list string) :=
  r ← Dirs.dirList conf_root []; mret (if all then r.2 else List.filter (fun a => negb (NameList.member hidden_agents a)) r.2).
Definition read_page (file : string) : M string :=
  c ← contents (configdir +:+ "/" +:+ file); mret (of_chars (until_nul (chars (default "" c)))).
Definition write_page (page : string) : M unit := Mng.write_text (configdir +:+ "/doc/index.html") page.
(** The configurations of boards: "bbdevices" with an extension. *)
Definition choice (file : string) : string :=
  if FilePath.getStem file =s "bbdevices"
  then "<input type=" +:+ quote "radio" +:+ " class=" +:+ quote "inrb" +:+ " name=" +:+ quote "boardname" +:+ " value=" +:+ quote file +:+ ">" +:+
       FilePath.getExt file +:+ Msg.endl
  else "".
Definition getBBlist : M string :=
  configuration ← first_dir sources; r ← Dirs.dirList configuration []; mret (sconcat (map choice r.2)).
Definition mkInstallPage : M unit :=
  list ← getBBlist; page ← read_page "installtemplate.html"; write_page (strReplace page "$CAPETYPE" list).2.
(** The part of the directory of the configuration, which is not empty, up to its last slash if that is not the first character. *)
Definition conf_prefix : option string :=
  match FilePath.find_last_of configdir "/" with Some (S i) => Some (take_str (S (S i)) configdir) | _ => None end.
Definition param_of (file key ag : string) : M (option string) :=
  match conf_prefix with
  | None => ok ""
  | Some d => p ←! Starter.loaded_at (d +:+ ag +:+ "/" +:+ file); ok (Params.get p key)
  end.
Definition get_port_of : string -> M (option string) := param_of "agentnet.xml" "port".
Definition get_description_of : string -> M (option string) := param_of "global.xml" "description".
Fixpoint links (ip : string) (l : list string) : M (option string) :=
  match l with
  | [] => ok ""
  | a :: l' =>
      port ←! get_port_of a; text ←! get_description_of a; rest ←! links ip l';
      ok ("<li> <a href=" +:+ quote ("http://" +:+ ip +:+ ":" +:+ port) +:+ ">" +:+ text +:+ "</a> </li>" +:+ Msg.endl +:+ rest)
  end.
Definition mkIndexPage (n : Net) : M (option bool) :=
  host ← cmdExec "hostname";
  agents ← getAgentList false;
  page ← read_page "indextemplate.html";
  l ←! links (AN.my n "ip") agents;
  write_page (strReplace (strReplace page "$HOSTNAME" host).2 "$AGENTS" l).2;; ok true.
Definition mkHomePage (n : Net) : M (option bool) :=
  l ← getAgentList true;
  match l with
  | [] => ok false
  | [a] => if a =s "miniwww" then mkInstallPage;; ok true else ok false
  | _ => mkIndexPage n
  end.
End pages.
End Mini.

(** ** The remote server (WSServer/RemoteServerThread.cpp) *)
Record RemoteServer := mkRS {
  rs_params : MParams; rs_server : string; urlroot : string; cmdtemplate : string; installer_code : string; authentication : string }.
#[export] Instance RemoteServer_rebuild : Rebuild RemoteServer := fun s =>
  mkRS (rs_params s) (rs_server s) (urlroot s) (cmdtemplate s) (installer_code s) (authentication s).
Module RS.
Section server.
Context {P : Platform} {C : Config} {XP : XmlParser} {FS : PathNames}.
Implicit Types (s : RemoteServer).
Definition load s : M (option RemoteServer) :=
  r ←! Params.load (rs_params s);
  let get := Params.get r.2 in
  ok (mkRS r.2 (get "server") (get "urlroot") (get "sendcmd") (get "installer_code") (get "authentication")).
Definition is_configured s : bool :=
  negb ((rs_server s =s "") || (rs_server s =s "$SERVER") || (urlroot s =s "") || (cmdtemplate s =s "")).
(** The password is put into the command that is kept, so the next digest finds no placeholder; the text with the time
    that is to be digested is not used. *)
Definition sign s : M (string * RemoteServer) :=
  if (installer_code s <>s "") && (authentication s <>s "") then
    _ ← gettime;
    let cmd := (strReplace (authentication s) "$PASSWD" (configdir +:+ "/keys/" +:+ installer_code s)).2 in
    digest ← cmdExec cmd; mret (digest, s <| authentication := cmd |>)
  else mret ("", s).
Definition command s (url msg digest : string) : string :=
  let cmd := (strReplace (cmdtemplate s) "$URL" (urlroot s +:+ "/" +:+ url)).2 in
  let cmd := (strReplace cmd "$SERVER" (rs_server s)).2 in
  let cmd := (strReplace cmd "$BODY" (quote msg)).2 in
  if digest <>s "" then cmd +:+ " -d " +:+ digest else cmd.
(** "200 OK" is missed only at the very beginning of the answer: an answer without it counts as one with it. *)
Definition restSend s (url msg : string) : M (bool * RemoteServer) :=
  if negb (is_configured s) then mret (false, s)
  else
    r ← sign s; res ← cmdExec (command r.2 url msg r.1); mret (negb (String.prefix "200 OK" res), r.2).
(** One turn of [do_work]. *)
Definition do_work s (m : MMessage) : M RemoteServer :=
  if (mtype m =s "rscmd") && (msubtype m =s "serversend")
  then r ← restSend s (Msg.getString m "url") (Msg.getString m "item"); mret r.2 else mret s.
End server.
End RS.

(** ** The demonstration agent (agentdemo) *)
Record DummySource := mkDS { ds_subjects : list MAttribute; ds_i : nat; ds_out : MMessage }.
Module Dummy.
Section dummy.
Context {P : Platform}.
(** One turn of [DummySource::do_work]: the subjects in turn. *)
Definition source_work (s : DummySource) (m : MMessage) : M DummySource :=
  if (mtype m =s "trigger") && (msubtype m =s "poll") then
    match ds_subjects s !! ds_i s with
    | None => mret s
    | Some x =>
        let out := Msg.set_subtype (Msg.set_type (ds_out s) (avalue x)) (aname x) in
        let out := Msg.add (Msg.add out "A1" (aname x)) "A2" "TEST1" in
        let i := if (length (ds_subjects s) <=? S (ds_i s))%nat then 0%nat else S (ds_i s) in
        notify out;; mret (mkDS (ds_subjects s) i out)
    end
  else mret s.
(** What [DummyPit::do_work] shows of a message. *)
Definition is_shown (f : string) : bool := negb (existsb (seqb f) ["time"; "agent"; "language"; "url"; "method"]).
Definition shown (m : MMessage) : string :=
  sconcat (map (fun kv => kv.1 +:+ " = " +:+ Msg.getString m kv.1 +:+ "; ") (List.filter (fun kv => is_shown kv.1) (map_items (fields m)))).
Definition pit_line (behaviour now : string) (m : MMessage) : string :=
  if behaviour =s "logger" then now +:+ " - " +:+ shown m +:+ " time = " +:+ Msg.getString m "time"
  else "DummyPIT-----: " +:+ Msg.xmlEncode m 0.
End dummy.
End Dummy.
