(* ===== verification/Http.v ===== *)
(** * The first web server of the agents (minilibs/httpserver.cpp, agentlib.cpp)

    A request is read from a connection until its head and the announced length of its body are there, made into a
    message, handed to the agent and answered.  [accepted] is what the operating system gives: the bytes of each
    read, [None] when a read fails; after the last one the peer has closed.  Sizes and positions are those of a machine with
    64-bit sizes, cast to 32 bits where the code does.  No agent starts this server any more.  [None] is an exception, a
    null node or an access outside of a buffer. *)
From S2P Require Import Prelude Doubles Hsrv Xml MMessage World MParams Subjects NameTable RemoteAgent AgentConf Push Hosts.

Inductive accepted := Refused (interrupted : bool) | Accepted (fd : Z) (reads : list (option string)).
(** The port of the configuration, and the address the meeting socket is made for. *)
Record HttpServer := mkHS { hs_port : string; hs_targetip : string; hs_targetport : string }.

Module HS.
(** ** Positions *)
Definition size (s : string) : Z := Z.of_nat (String.length s).
Definition find (pat s : string) (from : Z) : Z :=
  if size s <? from then npos else match sfind pat s (Z.to_nat from) with Some i => Z.of_nat i | None => npos end.
Definition substr (s : string) (pos n : Z) : option string :=
  if size s <? pos then None else Some (take_str (Z.to_nat (Z.min n (size s - pos))) (drop_str (Z.to_nat pos) s)).
Definition plus (a b : Z) : Z := wrap 64 (a + b).
Definition cast (a : Z) : Z := wrap 32 a.

(** ** The head *)
Definition end_of_head : string := crlf +:+ crlf.
Fixpoint length_text (l : list ascii) : list ascii :=
  match l with
  | [] => []
  | c :: l' => if c =c "013" then [] else if c =c " " then length_text l' else c :: length_text l'
  end.
Definition getBodyLength (hd : string) : Z :=
  match sfind "Content-Length:" hd 0 with
  | None => 0
  | Some i => atoi (of_chars (length_text (chars (drop_str (i + 15) hd))))
  end.

(** ** The connection: [limit] bytes at most in a read, in a buffer of [MAXB] that is cleared before *)
Section reading.
Variable limit : nat.
Definition piece (s : string) : option string :=
  let s := take_str limit s in if (String.length s <? MAXB)%nat then Some (of_chars (until_nul (chars s))) else None.
(** The text, and what is left to read, after [while(more && count > 0)]: a failed read has a count, the largest one. *)
Fixpoint read_while (more : string -> bool) (l : list (option string)) (message : string)
    : option (string * list (option string) * bool) :=
  if more message then
    match l with
    | [] => Some (message, [], false)
    | None :: l' => read_while more l' message
    | Some s :: l' =>
        p ← piece s;
        if s =s "" then Some (message, l', false) else read_while more l' (message +:+ p)
    end
  else Some (message, l, true).
End reading.
(** The head, and the body when all of it is there. *)
Definition request_text (limit : nat) (more_head : string -> bool) (reads : list (option string)) : option (string * string) :=
  '(message, reads, open) ← read_while limit more_head reads "";
  let i := find end_of_head message 0 in
  hd ← substr message 0 (cast i);
  let i := plus i 4 in
  let k := wrap 64 (getBodyLength hd) in
  let all := cast (plus i k) in
  message ← (if open : bool then (fun r => r.1.1) <$> read_while limit (fun m => size m <? all) reads message else Some message);
  if all <=? size message then body ← substr message (cast i) (cast k); Some (hd, body) else Some (hd, "").
(** The first two words of the head. *)
Definition request_line (hd : string) : option (string * string) :=
  let k := find " " hd 1 in
  mtd ← substr hd 0 k;
  let i := find " " hd (plus 1 k) in
  url ← substr hd (plus k 1) (wrap 64 (i - k - 1));
  Some (mtd, url).
Definition no_head (message : string) : bool := find end_of_head message 0 =? npos.

Section server.
Context {P : Platform} {C : Config} {XP : XmlParser} {FS : PathNames} {So : Sockets}.
Definition accept_failed (interrupted : bool) : M unit :=
  if interrupted then mret tt else log_info "accept failed".
(** ** Requests and answers as [MMessage] *)
Definition request_message (mtd url body : string) : option MMessage :=
  let m := Msg.add (Msg.add (Msg.mk "httprequest" "*") "method" mtd) "url" url in
  if isXmlstring body then snd <$> Msg.xmlAppend (Msg.add m "language" "xml") (body +:+ crlf)
  else Some (Msg.htmlAppend (Msg.add m "language" "html") body).
Definition getRequestM (a : accepted) : M (option (option MMessage)) :=
  match a with
  | Refused e => accept_failed e;; ok None
  | Accepted _ reads =>
      lifto ('(hd, body) ← request_text MAXB no_head reads; '(mtd, url) ← request_line hd;
             m ← request_message mtd url body; Some (Some m))
  end.
Definition answer_text (body : string) : string :=
  "HTTP/1.1 200 OK" +:+ crlf +:+ "Connection: close" +:+ crlf +:+ "Content-type: text/html" +:+ crlf +:+ crlf +:+
  of_chars (until_nul (chars body)) +:+ crlf.
Definition is_language (l : string) : bool := (l =s "xml") || (l =s "html").
Definition sendAnswerM (fd : Z) (answer : MMessage) : M (Z * MMessage) :=
  let language := Msg.getString answer "language" in
  let answer := if is_language language then (Msg.remove answer "language").2 else answer in
  let body := if language =s "xml" then Msg.xmlEncode answer 1 else Msg.htmlEncode answer in
  r ← PC.write_fd fd (answer_text body); mret (swrap 32 r, answer).
(** ** Requests and answers as [Message]: the test of the loop is inverted, so nothing of the head is read *)
Definition request_old (mtd url body : string) : option Message :=
  let m := OldMsg.add (OldMsg.add (OldMsg.mk "httprequest") "method" mtd) "url" url in
  if isXmlstring body then snd <$> OldMsg.xmlAppend (OldMsg.add m "language" "xml") (body +:+ crlf)
  else Some (OldMsg.htmlAppend (OldMsg.add m "language" "html") body).
Definition getRequest (a : accepted) : M (option (option Message)) :=
  match a with
  | Refused e => accept_failed e;; ok None
  | Accepted _ reads =>
      lifto ('(hd, body) ← request_text (MAXB - 1) (fun m => negb (no_head m)) reads; '(mtd, url) ← request_line hd;
             m ← request_old mtd url body; Some (Some m))
  end.
Definition sendAnswer (fd : Z) (answer : Message) : M (Z * Message) :=
  let language := OldMsg.getString answer "language" in
  let answer := if is_language language then OldMsg.remove answer "language" else answer in
  let body := if language =s "xml" then OldMsg.xmlEncode answer 1 else OldMsg.htmlEncode answer in
  r ← PC.write_fd fd (answer_text body); mret (swrap 32 r, answer).

(** ** The configuration; the port of the agent network stands for a file that is not there *)
Definition init (s : HttpServer) : HttpServer :=
  let addr := "127.0.0.1:" +:+ hs_port s in mkHS (hs_port s) (IP.getip addr) (IP.getport addr).
Definition of_document (s : HttpServer) (d : xptr) : option (Z * HttpServer) :=
  prg ← NextSibling d;
  match prg with
  | [] => Some (0, mkHS "8082" (hs_targetip s) (hs_targetport s))
  | n :: _ => let port := child_attr n "port" in
              Some (1, mkHS (if port =s "*" then "8082" else port) (hs_targetip s) (hs_targetport s))
  end.
Definition load_file (path : string) (s : HttpServer) : M (option (Z * HttpServer)) :=
  c ← contents path;
  match c with
  | Some text => if parse_ok text then lifto (of_document s (load_document text)) else ok (0, s)
  | None => ok (0, s)
  end.
Definition has_xml (path : string) : M bool :=
  c ← contents path; mret (match c with Some text => contains "xml" (first_word text) | None => false end).
Definition with_port (s : HttpServer) (port : string) : HttpServer := mkHS port (hs_targetip s) (hs_targetport s).
Definition xmlLoad (agent_port xmlfile : string) (s : HttpServer) : M (option (Z * HttpServer)) :=
  let xmldesc := configdir +:+ "/" +:+ xmlfile in
  f ← has_xml xmldesc; load_file xmldesc (if f : bool then s else with_port s agent_port).
Definition xmlLoad_at (path xml_file : string) (s : HttpServer) : M (option (Z * HttpServer)) :=
  let xmldesc := path +:+ "/" +:+ xml_file in
  f ← has_xml xmldesc; if f : bool then load_file xmldesc s else ok (0, with_port s "8082").
Definition load (agent_port : string) (s : HttpServer) : M (option HttpServer) :=
  r ←! xmlLoad agent_port "HttpServer.xml" s; ok (init r.2).
Definition load_at (path : string) (s : HttpServer) : M (option HttpServer) :=
  r ←! xmlLoad_at path "HttpServer.xml" s; ok (init r.2).
Definition xmlEncode (s : HttpServer) (md : Z) : string :=
  (if 0 <? md then Msg.xml_header else "") +:+ "<class type=" +:+ quote "HttpServer" +:+ " port=" +:+ quote (hs_port s) +:+ "/>".
Definition xmlSave (s : HttpServer) : M Z :=
  let path := configdir +:+ "/HttpServer.xml" in
  o ← open_out path; (if o : bool then append path (xmlEncode s 1 +:+ Msg.endl) else mret tt);; mret 1.

(** ** One turn of the loop of [AgentConf::start_server] *)
Definition answer_of (req : MMessage) (b : Bus) : M (option (MMessage * Bus)) :=
  let method := Msg.getString req "method" in
  if (method =s "get") || (method =s "GET") then a ← AConf.getExecM req; ok (a, b)
  else if (method =s "post") || (method =s "POST") then AConf.postExecM req b
  else ok (AConf.mkUnknownM req, b).
Definition serve (a : accepted) (b : Bus) : M (option Bus) :=
  req ←! getRequestM a;
  match a, req with
  | Accepted fd _, Some req => r ←! answer_of req b; sendAnswerM fd r.1;; ok r.2
  | _, _ => ok b
  end.
End server.
End HS.

(** ** What is read does not depend on how the bytes arrive *)

Lemma substring_prefix i n a b : (i + n <= String.length a)%nat -> String.substring i n (a +:+ b) = String.substring i n a.
Proof.
  intros H. rewrite <- (of_chars_chars (String.substring i n (a +:+ b))), <- (of_chars_chars (String.substring i n a)).
  f_equal. rewrite !substring_chars, chars_app, drop_app_le, take_app_le by (rewrite ?length_drop, length_chars; lia). done.
Qed.
Lemma sfind_prefix p a b i : p <> "" -> sfind p a 0 = Some i -> sfind p (a +:+ b) 0 = Some i.
Proof.
  intros Hp H. destruct (index_bounds _ _ _ _ H Hp) as [_ Hi].
  pose proof (String.index_correct1 _ _ _ _ H) as H1. rewrite <- (substring_prefix _ _ _ b) in H1 by done.
  destruct (sfind p (a +:+ b) 0) as [j|] eqn:E; [|by destruct (String.index_correct3 _ i _ _ E Hp ltac:(lia))].
  f_equal. destruct (lt_eq_lt_dec j i) as [[Hj| ->]|Hj]; [|done|].
  - destruct (String.index_correct2 0 i p a H j ltac:(lia) Hj). rewrite <- (substring_prefix _ _ _ b) by lia.
    by apply (String.index_correct1 _ _ _ _ E).
  - by destruct (String.index_correct2 0 j p (a +:+ b) E i ltac:(lia) Hj).
Qed.
(** Pieces as reads give them: some bytes, fewer than the buffer holds, without NUL. *)
Definition readable (s : string) : Prop := s <> "" /\ (String.length s < MAXB)%nat /\ nul ∉ chars s.
Lemma piece_readable limit s : (MAXB - 1 <= limit)%nat -> readable s -> HS.piece limit s = Some s.
Proof.
  intros Hlim (_ & Hl & Hn). unfold HS.piece. assert (E : take_str limit s = s).
  { rewrite <- (of_chars_chars (take_str limit s)), take_str_chars, take_ge by (rewrite length_chars; lia). apply of_chars_chars. }
  rewrite E. destruct (Nat.ltb_spec (String.length s) MAXB); [|lia]. by rewrite until_nul_all, of_chars_chars.
Qed.
Lemma read_until more l message :
  Forall readable l -> more (message +:+ sconcat l) = false ->
  exists m l', HS.read_while MAXB more (map Some l) message = Some (m, map Some l', true) /\
    more m = false /\ m +:+ sconcat l' = message +:+ sconcat l /\ Forall readable l'.
Proof.
  revert message. induction l as [|s l IH]; intros message Hl Hm.
  - simpl. simpl in Hm. rewrite sapp_nil_r in Hm. rewrite Hm. exists message, [].
    split_and!; [done|done|done|apply Forall_nil_2].
  - cbn [map HS.read_while]. destruct (more message) eqn:E.
    + apply Forall_cons in Hl as [Hs Hl]. rewrite (piece_readable MAXB _ ltac:(lia) Hs). cbn [mbind option_bind].
      rewrite (seqb_ne s "") by apply Hs. cbn [sconcat] in Hm |- *. rewrite <- sapp_assoc in Hm |- *.
      by apply (IH (message +:+ s)).
    + exists message, (s :: l). by split_and!.
Qed.

Lemma substr_at a b c : HS.substr (a +:+ b +:+ c) (HS.size a) (HS.size b) = Some b.
Proof.
  unfold HS.substr, HS.size. rewrite !length_sapp. destruct (Z.ltb_spec (Z.of_nat (String.length a + (String.length b + String.length c))) (Z.of_nat (String.length a))); [lia|].
  f_equal. rewrite Nat2Z.id, drop_str_app. replace (Z.to_nat _) with (String.length b) by lia. apply take_str_app.
Qed.
Lemma prefix_of a b c d : a +:+ b = c +:+ d -> (String.length c <= String.length a)%nat -> exists e, a = c +:+ e.
Proof.
  intros H Hl. apply (f_equal chars) in H. rewrite !chars_app in H. exists (drop_str (String.length c) a).
  assert (E : chars a = chars (c +:+ drop_str (String.length c) a)).
  { rewrite chars_app, drop_str_chars by done. apply (f_equal (take (String.length c))) in H.
    rewrite <- (length_chars c), <- (length_chars a) in *. rewrite take_app_le, take_app_length in H by done.
    rewrite <- H at 1. by rewrite take_drop. }
  apply (f_equal of_chars) in E. by rewrite !of_chars_chars in E.
Qed.
Lemma found_head m i : sfind HS.end_of_head m 0 = Some i -> HS.find HS.end_of_head m 0 = Z.of_nat i.
Proof. intros H. unfold HS.find, HS.size. destruct (Z.ltb_spec (Z.of_nat (String.length m)) 0); [lia|]. change (Z.to_nat 0) with 0%nat. by rewrite H. Qed.
Lemma no_head_found m i : sfind HS.end_of_head m 0 = Some i -> HS.size m < 2 ^ 32 -> HS.no_head m = false.
Proof.
  intros H Hs. unfold HS.no_head. rewrite (found_head _ _ H). apply Z.eqb_neq. unfold HS.size in Hs.
  destruct (index_bounds _ _ _ _ H); [done|]. lia.
Qed.
Lemma head_found m : HS.no_head m = false -> exists i, sfind HS.end_of_head m 0 = Some i.
Proof.
  unfold HS.no_head, HS.find, HS.size. destruct (Z.ltb_spec (Z.of_nat (String.length m)) 0); [lia|]. change (Z.to_nat 0) with 0%nat.
  destruct (sfind _ m 0) as [i|]; [eauto|]. by rewrite Z.eqb_refl.
Qed.
Lemma size_app a b : HS.size (a +:+ b) = HS.size a + HS.size b.
Proof. unfold HS.size. rewrite length_sapp. lia. Qed.
Lemma size_nonneg a : 0 <= HS.size a.
Proof. unfold HS.size. lia. Qed.
Lemma size_zero a : HS.size a = 0 -> a = "".
Proof. unfold HS.size. destruct a; simpl; [done|lia]. Qed.
(** A head without an empty line in it, and a body of the length it announces, cut into reads at any places, are read as
    they were written. *)
Lemma request_is_read_whole pieces hd body :
  sconcat pieces = hd +:+ HS.end_of_head +:+ body -> Forall readable pieces ->
  sfind HS.end_of_head (hd +:+ HS.end_of_head) 0 = Some (String.length hd) ->
  HS.getBodyLength hd = HS.size body -> HS.size (hd +:+ HS.end_of_head +:+ body) < 2 ^ 32 ->
  HS.request_text MAXB HS.no_head (map Some pieces) = Some (hd, body).
Proof.
  intros Ht Hp Hf Hb Hsz. assert (Hne : HS.end_of_head <> "") by done.
  set (total := hd +:+ HS.end_of_head +:+ body) in *.
  assert (Hfind : sfind HS.end_of_head total 0 = Some (String.length hd)) by (unfold total; rewrite <- sapp_assoc; by apply sfind_prefix).
  assert (Hlen : HS.size total = HS.size hd + 4 + HS.size body) by (unfold total; rewrite !size_app; change (HS.size HS.end_of_head) with 4; lia).
  pose proof (size_nonneg hd). pose proof (size_nonneg body).
  unfold HS.request_text. destruct (read_until HS.no_head pieces "") as (m1 & l1 & -> & H1 & E1 & Hl1); [done| |].
  { change ("" +:+ sconcat pieces) with (sconcat pieces). rewrite Ht. by apply (no_head_found _ _ Hfind). }
  change ("" +:+ sconcat pieces) with (sconcat pieces) in E1. rewrite Ht in E1. cbn [mbind option_bind].
  apply head_found in H1 as [i H1]. assert (i = String.length hd) as ->.
  { apply (sfind_prefix _ _ (sconcat l1)) in H1; [|done]. rewrite E1 in H1. congruence. }
  rewrite (found_head _ _ H1). fold (HS.size hd).
  destruct (index_bounds _ _ _ _ H1 Hne) as [_ Hi]. destruct (prefix_of m1 (sconcat l1) hd (HS.end_of_head +:+ body) E1) as [e ->]; [lia|].
  assert (Hcast : forall x, 0 <= x < 2 ^ 32 -> HS.cast x = x) by (intros x Hx; by apply wrap_small).
  rewrite (Hcast (HS.size hd)) by lia. rewrite (substr_at "" hd e : HS.substr (hd +:+ e) 0 (HS.size hd) = Some hd).
  cbn [mbind option_bind fmap option_fmap option_map]. rewrite Hb, (wrap_small 64 (HS.size body)) by lia.
  unfold HS.plus. rewrite (wrap_small 64 (HS.size hd + 4)) by lia. rewrite (wrap_small 64 (HS.size hd + 4 + HS.size body)) by lia.
  rewrite <- Hlen, !Hcast by lia.
  destruct (read_until (fun m => HS.size m <? HS.size total) l1 (hd +:+ e)) as (m2 & l2 & -> & H2 & E2 & _); [done| |].
  { rewrite E1. apply Z.ltb_irrefl. }
  rewrite E1 in E2. apply Z.ltb_ge in H2. assert (sconcat l2 = "").
  { apply size_zero. apply (f_equal HS.size) in E2. rewrite size_app in E2. pose proof (size_nonneg (sconcat l2)). lia. }
  rewrite H3, sapp_nil_r in E2. subst m2. cbn [fmap option_fmap option_map fst mbind option_bind].
  rewrite Z.leb_refl. replace (HS.size hd + 4) with (HS.size (hd +:+ HS.end_of_head)) by (by rewrite size_app).
  unfold total. rewrite <- sapp_assoc, <- (sapp_nil_r body) at 1. by rewrite substr_at.
Qed.

(** The words of the head. *)
Lemma sfind_first p s n i :
  p <> "" -> (n <= i)%nat -> String.substring i (String.length p) s = p ->
  (forall j, (n <= j < i)%nat -> String.substring j (String.length p) s <> p) -> sfind p s n = Some i.
Proof.
  intros Hp Hn Hi Hj. destruct (sfind p s n) as [k|] eqn:E; [|by destruct (String.index_correct3 _ i _ _ E Hp Hn)].
  destruct (index_bounds _ _ _ _ E Hp) as [Hk _]. f_equal. destruct (lt_eq_lt_dec k i) as [[H| ->]|H]; [|done|].
  - destruct (Hj k); [lia|]. by apply (String.index_correct1 _ _ _ _ E).
  - by destruct (String.index_correct2 n k p s E i Hn H).
Qed.
Lemma substring_char j a c : (j < String.length a)%nat -> " "%char ∉ chars a -> String.substring j 1 (a +:+ c) <> " ".
Proof.
  intros Hj Ha H. rewrite substring_prefix in H by lia. apply (f_equal chars) in H. rewrite substring_chars in H.
  apply Ha. apply (list_elem_of_lookup_2 _ j). rewrite <- (take_drop j (chars a)), lookup_app_r by (rewrite length_take; lia).
  rewrite length_take, length_chars, Nat.min_l, Nat.sub_diag by lia.
  destruct (drop j (chars a)); [done|]. simpl in H. by injection H as ->.
Qed.
Lemma substring_shift a j n b : String.substring (String.length a + j) n (a +:+ b) = String.substring j n b.
Proof. induction a as [|c a IH]; [done|exact IH]. Qed.
Lemma request_line_words mtd url rest :
  mtd <> "" -> " "%char ∉ chars mtd -> " "%char ∉ chars url -> HS.size (mtd +:+ " " +:+ url +:+ " " +:+ rest) < 2 ^ 32 ->
  HS.request_line (mtd +:+ " " +:+ url +:+ " " +:+ rest) = Some (mtd, url).
Proof.
  intros Hm Hsm Hsu Hsz. set (hd := mtd +:+ " " +:+ url +:+ " " +:+ rest) in *.
  assert (Hl : HS.size hd = HS.size mtd + 1 + HS.size url + 1 + HS.size rest) by (unfold hd; rewrite !size_app; change (HS.size " ") with 1; lia).
  pose proof (size_nonneg rest). pose proof (size_nonneg url).
  assert (1 <= HS.size mtd) by (unfold HS.size; destruct mtd; [done|simpl; lia]).
  assert (E1 : HS.find " " hd 1 = HS.size mtd).
  { unfold HS.find. destruct (Z.ltb_spec (HS.size hd) 1); [lia|].
    rewrite (sfind_first " " hd _ (String.length mtd)); [done|done|unfold HS.size in *; lia|apply substring_mid|].
    intros j Hj. apply substring_char; [lia|done]. }
  assert (E2 : HS.find " " hd (HS.size mtd + 1) = HS.size mtd + 1 + HS.size url).
  { unfold HS.find. destruct (Z.ltb_spec (HS.size hd) (HS.size mtd + 1)); [lia|].
    assert (Eh : hd = (mtd +:+ " " +:+ url) +:+ " " +:+ rest) by (unfold hd; by rewrite !sapp_assoc).
    rewrite (sfind_first " " hd _ (String.length (mtd +:+ " " +:+ url))).
    - fold (HS.size (mtd +:+ " " +:+ url)). rewrite !size_app. change (HS.size " ") with 1. lia.
    - done.
    - unfold HS.size. rewrite !length_sapp. simpl. lia.
    - rewrite Eh. apply substring_mid.
    - intros j Hj. rewrite !length_sapp in Hj. unfold HS.size in Hj. simpl in Hj.
      replace j with (String.length (mtd +:+ " ") + (j - String.length (mtd +:+ " ")))%nat by (rewrite length_sapp; simpl; lia).
      unfold hd. rewrite <- (sapp_assoc mtd " "), substring_shift. apply substring_char; [rewrite length_sapp; simpl; lia|done]. }
  unfold HS.request_line. rewrite E1. unfold HS.plus. rewrite (wrap_small 64 (1 + _)), (Z.add_comm 1), E2 by lia.
  rewrite (wrap_small 64 (HS.size mtd + 1)), (wrap_small 64 (_ - _ - _)) by lia.
  assert (S1 : HS.substr hd 0 (HS.size mtd) = Some mtd) by apply (substr_at "" mtd).
  assert (S2 : HS.substr hd (HS.size mtd + 1) (HS.size mtd + 1 + HS.size url - HS.size mtd - 1) = Some url).
  { replace (HS.size mtd + 1 + HS.size url - HS.size mtd - 1) with (HS.size url) by lia.
    replace (HS.size mtd + 1) with (HS.size (mtd +:+ " ")) by (by rewrite size_app). unfold hd. rewrite <- (sapp_assoc mtd " ").
    apply substr_at. }
  rewrite S1. cbn [mbind option_bind]. by rewrite S2.
Qed.
(** The test of the loop of [getRequest] is inverted: whatever is sent, the request it makes has no method and no url. *)
Lemma read_while_ends limit more l message :
  (MAXB - 1 <= limit)%nat -> Forall readable l -> is_Some (HS.read_while limit more (map Some l) message).
Proof.
  intros Hlim. revert message. induction l as [|s l IH]; intros message Hl; cbn [map HS.read_while]; destruct (more message); [by eexists..| |by eexists].
  apply Forall_cons in Hl as [Hs Hl]. rewrite (piece_readable _ _ Hlim Hs). cbn [mbind option_bind].
  rewrite (seqb_ne s "") by apply Hs. by apply IH.
Qed.
Lemma old_request_is_empty pieces :
  Forall readable pieces -> HS.request_text (MAXB - 1) (fun m => negb (HS.no_head m)) (map Some pieces) = Some ("", "").
Proof.
  intros Hp. unfold HS.request_text.
  assert (E : HS.read_while (MAXB - 1) (fun m => negb (HS.no_head m)) (map Some pieces) "" = Some ("", map Some pieces, true))
    by (by destruct pieces).
  rewrite E. cbn [mbind option_bind].
  assert (Es : HS.substr "" 0 (HS.cast (HS.find HS.end_of_head "" 0)) = Some "") by done. rewrite Es. cbn [mbind option_bind].
  set (all := HS.cast _). assert (Ea : all = 3) by done. rewrite Ea.
  destruct (read_while_ends (MAXB - 1) (fun m => HS.size m <? 3) pieces "") as [[[m l] o] ->]; [done|done|].
  cbn [fmap option_fmap option_map mbind option_bind fst]. destruct (Z.leb_spec 3 (HS.size m)); [|done].
  set (k := HS.cast (wrap 64 (HS.getBodyLength ""))). assert (Ek : k = 0) by done. rewrite Ek.
  replace (HS.cast (HS.plus (HS.find HS.end_of_head "" 0) 4)) with 3 by done. unfold HS.substr. destruct (Z.ltb_spec (HS.size m) 3); [lia|].
  rewrite Z.min_l by lia. cbn [mbind option_bind]. unfold take_str. by destruct (drop_str _ m).
Qed.
(** A request whose body is no XML: its method, its url and the fields of its body, however it was cut. *)
Lemma request_makes_its_message {XP : XmlParser} fd pieces mtd url rest body w
    (hd := mtd +:+ " " +:+ url +:+ " " +:+ rest) :
  sconcat pieces = hd +:+ HS.end_of_head +:+ body -> Forall readable pieces ->
  mtd <> "" -> " "%char ∉ chars mtd -> " "%char ∉ chars url ->
  sfind HS.end_of_head (hd +:+ HS.end_of_head) 0 = Some (String.length hd) ->
  HS.getBodyLength hd = HS.size body -> HS.size (hd +:+ HS.end_of_head +:+ body) < 2 ^ 32 -> isXmlstring body = false ->
  HS.getRequestM (Accepted fd (map Some pieces)) w =
  (Some (Some (Msg.htmlAppend (Msg.add (Msg.add (Msg.add (Msg.mk "httprequest" "*") "method" mtd) "url" url) "language" "html") body)), w).
Proof.
  intros Ht Hp Hm Hsm Hsu Hf Hb Hs Hx. unfold HS.getRequestM. rewrite (request_is_read_whole _ _ _ Ht Hp Hf Hb Hs).
  cbn [mbind option_bind]. unfold hd in *. rewrite request_line_words; [|done..|].
  - cbn [mbind option_bind]. unfold HS.request_message. by rewrite Hx.
  - rewrite size_app in Hs. pose proof (size_nonneg (HS.end_of_head +:+ body)). lia.
Qed.
