(* ===== verification/Legacy.v ===== *)
(** * Classes of the common library that no agent uses any more (minilibs/attribute.cpp, phone.cpp, alarm.cpp,
    template.h, agentlib.h, remoteagent.cpp, WebSocket.cpp)

    Attributes, phones and alarms are elements of the set template and are written to and read from XML; [Params] is a
    set of attributes with its files; a remote agent of that time posts messages as [MRemoteAgent] does, into buffers it does
    not bound; a web socket keeps its connections and who subscribed to which events.  [None] is a null node or an access
    outside of a buffer.  A connection of a web socket is named by the text of its address. *)
From S2P Require Import Prelude Doubles Hsrv Xml MMessage World MParams Subjects NameTable RemoteAgent Hosts.

(** ** The set template *)

(** What an element of a set must offer: its text, its printed text, its construction from a node, its membership test. *)
Class Element (T : Type) := {
  el_encode : T -> string; el_print : T -> string; el_of_node : xnode -> T; el_member : T -> string -> bool }.
Record setof (T : Type) := mkSet { set_ty : string; elements_of : list T }.
Arguments mkSet {T} _ _.
Arguments set_ty {T} _.
Arguments elements_of {T} _.
Module SetOf.
Section setof.
Context {T : Type} {E : Element T}.
Implicit Types (s : setof T).
Definition open_tag s : string := if set_ty s =s "" then "<set>" else "<set type=" +:+ quote (set_ty s) +:+ ">".
Definition xmlEncode s (md : Z) : string :=
  (if 0 <? md then Msg.xml_header else "") +:+ open_tag s +:+ sconcat (map el_encode (elements_of s)) +:+ "</set>".
Definition xmlPrint s (md : Z) : string :=
  (if 0 <? md then Msg.xml_header +:+ Msg.endl else "") +:+ open_tag s +:+ Msg.endl +:+
  sconcat (map (fun e => el_print e +:+ Msg.endl) (elements_of s)) +:+ "</set>" +:+ Msg.endl.
Definition xmlDecode_node s (desc : xptr) : Z * setof T :=
  match desc with [] => (0, s) | n :: _ => (1, mkSet (child_attr n "type") (map el_of_node (children n))) end.
Definition member s (n : string) : bool := existsb (fun e => el_member e n) (elements_of s).
Context {C : Config} {XP : XmlParser}.
Definition xmlDecode s (xmldesc : string) : option (Z * setof T) := xmlDecode_node s <$> NextSibling (parse_document xmldesc).
Definition xmlLoad s (name : string) : M (option (Z * setof T)) :=
  f ← isfile_type name "xml";
  if f : bool then
    c ← read_file name;
    let text := default "" c in
    if parse_ok text then mret (xmlDecode_node s <$> NextSibling (load_document text)) else ok (0, s)
  else ok (0, s).
Definition xmlSave s (name : string) : M Z := o ← write_file name (xmlEncode s 1 +:+ Msg.endl); mret (if o : bool then 1 else 0).
End setof.
End SetOf.

(** [xmlLoad] of the classes of one element: the second node of a file of XML. *)
Definition load_node {XP : XmlParser} {A} (decode : A -> xptr -> Z * A) (a : A) (name : string) : M (option (Z * A)) :=
  f ← isfile_type name "xml";
  if f : bool then
    c ← read_file name;
    let text := default "" c in
    if parse_ok text then mret (decode a <$> NextSibling (load_document text)) else ok (0, a)
  else ok (0, a).
(** [xmlSave]: a file that cannot be opened is not noticed. *)
Definition save_text (name text : string) : M Z := write_file name (text +:+ Msg.endl);; mret 1.

(** ** Class Attribute *)
Record Attribute := mkAt { at_name : string; at_value : string }.
Module Att.
Section att.
Context {XP : XmlParser}.
Definition on (name : string) : Attribute := mkAt name "ON".
Definition xmlEncode (a : Attribute) (md : Z) : string :=
  (if 0 <? md then Msg.xml_header else "") +:+ "<attribute name=" +:+ quote (at_name a) +:+ " value=" +:+ quote (at_value a) +:+ "/>".
Definition xmlDecode_node (a : Attribute) (desc : xptr) : Z * Attribute :=
  match desc with XElement _ _ _ as n :: _ => (1, mkAt (child_attr n "name") (child_attr n "value")) | _ => (0, a) end.
Definition of_node (n : xnode) : Attribute := (xmlDecode_node (mkAt "" "") [n]).2.
(** A text is given up when [Parse] returns a pointer: when anything, a space included, follows its last node. *)
Definition xmlDecode {XE : XmlEnd} (a : Attribute) (xmldesc : string) : Z * Attribute :=
  if parse_returns xmldesc then (0, a)
  else match parse_document xmldesc with _ :: prg => xmlDecode_node a prg | [] => (0, a) end.
Definition xmlLoad (a : Attribute) (name : string) : M (option (Z * Attribute)) := load_node xmlDecode_node a name.
Definition xmlSave (a : Attribute) (name : string) : M Z := save_text name (xmlEncode a 1).
Definition member (a : Attribute) (n : string) : bool := (n =s at_name a) && ((at_value a =s "ON") || (at_value a =s "true")).
End att.
End Att.
(** The same operations of [MAttribute] (Mattribute.cpp), which read no category. *)
Module MAtt.
Section att.
Context {XP : XmlParser}.
Implicit Types (a : MAttribute).
Definition xmlDecode {XE : XmlEnd} a (xmldesc : string) : Z * MAttribute :=
  if parse_returns xmldesc then (0, a)
  else match parse_document xmldesc with
       | _ :: (XElement _ _ _ as n) :: _ =>
           (1, mkAttr (child_attr n "name") (if category a =s "*" then "generic" else category a) (child_attr n "value"))
       | _ => (0, a)
       end.
Definition xmlLoad a (name : string) : M (option (Z * MAttribute)) :=
  load_node (fun a p => let r := Attr.xmlDecode_node a p in (if r.1 : bool then 1 else 0, r.2)) a name.
Definition xmlSave a (name : string) : M Z := save_text name (Attr.xmlEncode a 1).
End att.
End MAtt.
#[export] Instance Attribute_element : Element Attribute := {|
  el_encode := fun a => Att.xmlEncode a 0; el_print := fun a => Att.xmlEncode a 0; el_of_node := Att.of_node; el_member := Att.member |}.

(** ** Class Phone *)
Record Phone := mkPhone { ph_ty : string; ph_name : string; ph_number : string; ph_alarms : setof Attribute }.
Module Ph.
Section phone.
Context {XP : XmlParser}.
Implicit Types (p : Phone).
Definition mk : Phone := mkPhone "normal" "" "" (mkSet "" []).
Definition of_strings (ty name number : string) : Phone := mkPhone ty name number (mkSet "alarms" []).
Definition head_text p : string :=
  "<phone type=" +:+ quote (ph_ty p) +:+ " name=" +:+ quote (ph_name p) +:+ " number=" +:+ quote (ph_number p).
Definition no_alarms p : bool := bool_decide (elements_of (ph_alarms p) = []).
Definition xmlPrint p (md : Z) : string :=
  if no_alarms p then (if 0 <? md then Msg.xml_header else "") +:+ head_text p +:+ "/>"
  else head_text p +:+ ">" +:+ Msg.endl +:+ SetOf.xmlPrint (ph_alarms p) 0 +:+ "</phone>".
Definition xmlEncode p (md : Z) : string :=
  (if 0 <? md then Msg.xml_header else "") +:+ head_text p +:+
  (if no_alarms p then "/>" else ">" +:+ SetOf.xmlEncode (ph_alarms p) 0 +:+ "</phone>").
Definition fill p (n : xnode) : Phone :=
  mkPhone (child_attr n "type") (child_attr n "name") (child_attr n "number") (SetOf.xmlDecode_node (ph_alarms p) (children n)).2.
(** The constructor from a node takes "*" from a node that is no element. *)
Definition of_node (n : xnode) : Phone := fill (mkPhone "" "" "" (mkSet "" [])) n.
Definition xmlDecode_node p (desc : xptr) : Z * Phone :=
  match desc with XElement _ _ _ as n :: _ => (1, fill p n) | _ => (0, p) end.
(** A text without a second node is a null node. *)
Definition xmlDecode {XE : XmlEnd} p (xmldesc : string) : option (Z * Phone) :=
  if parse_returns xmldesc then Some (0, p)
  else prg ← NextSibling (parse_document xmldesc); match prg with n :: _ => Some (1, fill p n) | [] => None end.
Definition xmlLoad p (name : string) : M (option (Z * Phone)) := load_node xmlDecode_node p name.
Definition xmlSave p (name : string) : M Z := save_text name (xmlEncode p 1).
Definition member p (al : string) : bool := SetOf.member (ph_alarms p) al.
Definition alarmAdd p (al : string) : Phone :=
  mkPhone (ph_ty p) (ph_name p) (ph_number p) (mkSet (set_ty (ph_alarms p)) (elements_of (ph_alarms p) ++ [mkAt al "ON"])).
End phone.
End Ph.
#[export] Instance Phone_element : Element Phone := {|
  el_encode := fun p => Ph.xmlEncode p 0; el_print := fun p => Ph.xmlPrint p 0; el_of_node := Ph.of_node; el_member := Ph.member |}.

(** ** Class Alarm *)
Record Alarm := mkAlarm {
  al_name : string; al_source : string; al_comment : string; al_priority : Z; al_nrepeat : Z; phonelist : setof Phone }.
Module Al.
Section alarm.
Context {P : Platform} {XP : XmlParser}.
Implicit Types (a : Alarm).
Definition mk : Alarm := mkAlarm "" "" "" 0 0 (mkSet "phonelist" []).
Definition of_values (n : string) (p r : Z) : Alarm := mkAlarm n "" "" p r (mkSet "phonelist" []).
Definition head_text a : string :=
  "<alarm name=" +:+ quote (al_name a) +:+ " priority=" +:+ quote (int2a (al_priority a)) +:+
  " nrepeat=" +:+ quote (unsigned2a (al_nrepeat a)).
Definition has_phones a : bool := (0 <? length (elements_of (phonelist a)))%nat.
Definition xmlPrint a (md : Z) : string :=
  (if 0 <? md then Msg.xml_header +:+ Msg.endl else "") +:+ head_text a +:+
  (if has_phones a then ">" +:+ Msg.endl +:+ SetOf.xmlPrint (phonelist a) 0 +:+ "</alarm>" else "/>") +:+ Msg.endl.
Definition xmlEncode a (md : Z) : string :=
  (if 0 <? md then Msg.xml_header else "") +:+ head_text a +:+
  (if has_phones a then ">" +:+ SetOf.xmlEncode (phonelist a) 0 +:+ "</alarm>" else "/>").
Definition fill a (n : xnode) : Alarm :=
  mkAlarm (child_attr n "name") (al_source a) (al_comment a) (a2int (child_attr n "priority"))
    (a2unsigned (child_attr n "nrepeat")) (SetOf.xmlDecode_node (phonelist a) (children n)).2.
Definition xmlDecode_node a (desc : xptr) : Z * Alarm :=
  match desc with XElement _ _ _ as n :: _ => (1, fill a n) | _ => (0, a) end.
Definition xmlDecode {XE : XmlEnd} a (xmldesc : string) : option (Z * Alarm) :=
  if parse_returns xmldesc then Some (0, a)
  else prg ← NextSibling (parse_document xmldesc); match prg with n :: _ => Some (1, fill a n) | [] => None end.
Definition xmlLoad a (name : string) : M (option (Z * Alarm)) := load_node xmlDecode_node a name.
Definition xmlSave a (name : string) : M Z := save_text name (xmlEncode a 1).
(** The phones that list the alarm, without their alarms. *)
Definition initPhoneList a (ph : setof Phone) : Alarm :=
  mkAlarm (al_name a) (al_source a) (al_comment a) (al_priority a) (al_nrepeat a)
    (mkSet (set_ty (phonelist a)) (map (fun p => Ph.of_strings (ph_ty p) (ph_name p) (ph_number p))
      (List.filter (fun p => Ph.member p (al_name a)) (elements_of ph)))).
End alarm.
End Al.

(** ** Class Params *)
Record Params_ := mkOldParams { op_set : setof Attribute; op_path : string; op_pathh : string }.
Module OldP.
Section params.
Context {C : Config} {XP : XmlParser} {FS : PathNames}.
Implicit Types (p : Params_).
Definition with_set p (s : setof Attribute) : Params_ := mkOldParams s (op_path p) (op_pathh p).
Definition mk1 (name : string) : Params_ :=
  mkOldParams (mkSet name []) (configdir +:+ "/" +:+ name +:+ ".xml") (homedir +:+ "/" +:+ name +:+ ".xml").
Definition mk2 (dir name : string) : M (option Params_) :=
  _ ←! Dirs.makeDir (homedir +:+ "/" +:+ dir) false;
  ok (mkOldParams (mkSet name []) (configdir +:+ "/" +:+ dir +:+ "/" +:+ name +:+ ".xml")
       (homedir +:+ "/" +:+ dir +:+ "/" +:+ name +:+ ".xml")).
Definition xmlLoad p (name : string) : M (option (Z * Params_)) := r ←! SetOf.xmlLoad (op_set p) name; ok (r.1, with_set p r.2).
Definition load p : M (option (Z * Params_)) := f ← is_file (op_pathh p); xmlLoad p (if f : bool then op_pathh p else op_path p).
Definition reset p : M (option (Z * Params_)) := xmlLoad p (op_path p).
Definition save p : M Z := SetOf.xmlSave (op_set p) (op_pathh p).
(** The first value of the name that is not empty. *)
Definition get p (name : string) : string :=
  default "" (head (List.filter (fun v => v <>s "") (map at_value (List.filter (fun a => at_name a =s name) (elements_of (op_set p)))))).
Definition set p (name value : string) : Z * Params_ :=
  (if existsb (fun a => at_name a =s name) (elements_of (op_set p)) then 1 else 0,
   with_set p (mkSet (set_ty (op_set p)) (update_first (fun a => at_name a =s name) (fun a => mkAt (at_name a) value) (elements_of (op_set p))))).
Definition checkValue p (value : string) : bool := existsb (fun a => at_value a =s value) (elements_of (op_set p)).
Definition named_by (m : Message) (a : Attribute) : bool := OldMsg.getString m (at_name a) <>s "".
Definition update p (m : Message) : M (Z * Params_) :=
  let l := elements_of (op_set p) in
  let p := with_set p (mkSet (set_ty (op_set p))
    (map (fun a => if named_by m a then mkAt (at_name a) (OldMsg.getString m (at_name a)) else a) l)) in
  save p;; mret (Z.of_nat (length (List.filter (named_by m) l)), p).
End params.
End OldP.

(** ** Class RemoteAgent: it sends messages of both classes *)

(** What a message offers to the agent that completes and encodes it. *)
Class Sendable (T : Type) := {
  s_type : T -> string; s_get : T -> string -> string; s_add : T -> string -> string -> T; s_remove : T -> string -> T;
  s_xml : T -> string; s_post : T -> string }.
#[export] Instance MMessage_sendable : Sendable MMessage := {|
  s_type := mtype; s_get := Msg.getString; s_add := Msg.add; s_remove := fun m f => (Msg.remove m f).2;
  s_xml := fun m => Msg.xmlEncode m 1; s_post := Msg.htmlPostEncode |}.
#[export] Instance Message_sendable : Sendable Message := {|
  s_type := om_type; s_get := OldMsg.getString; s_add := OldMsg.add; s_remove := OldMsg.remove;
  s_xml := fun m => OldMsg.xmlEncode m 1; s_post := OldMsg.htmlPostEncode |}.
Record RemoteAgent := mkOldRA {
  ora_par : Params_; ora_name : string; ora_post : string; ora_host : string; ora_useragent : string; ora_pragma : string;
  ora_contenttype : string; ora_ip : string; ora_port : string }.
Module ORA.
Implicit Types (r : RemoteAgent).
Definition get r (name : string) : string := OldP.get (ora_par r) name.
Definition init (par : Params_) (n : string) : RemoteAgent :=
  mkOldRA par n "/" "127.0.0.1" "Mozilla/4.0" "no-cache" " " (OldP.get par "address") (OldP.get par "port").
Definition set_fields r : RemoteAgent :=
  let or_own name own := if get r name <>s "" then get r name else own in
  mkOldRA (ora_par r) (ora_name r) (or_own "post" (ora_post r)) (ora_host r) (or_own "useragent" (ora_useragent r))
    (or_own "pragma" (ora_pragma r)) (or_own "contenttype" (ora_contenttype r)) (or_own "address" (ora_ip r)) (or_own "port" (ora_port r)).
Definition isTarget r (tg : string) : bool := (tg =s "") || (tg =s ora_name r) || (tg =s get r "target").
Section agent.
Context {C : Config} {XP : XmlParser} {FS : PathNames} {I : Identity} {T : Tcp}.
Definition load r : M (option RemoteAgent) :=
  p ←! OldP.load (ora_par r);
  ok (set_fields (mkOldRA p.2 (ora_name r) (ora_post r) (ora_host r) (ora_useragent r) (ora_pragma r) (ora_contenttype r) (ora_ip r) (ora_port r))).
Section message.
Context {Ms : Type} {S : Sendable Ms}.
Implicit Types (m : Ms).
Definition is_command m (name : string) : bool := (s_type m =s "cmd") && (s_get m "cmdname" =s name).
Definition cmdexec_fields r m : Ms :=
  let m := s_add m "source" (get r "relay") in
  let m := if s_get m "value" =s "" then s_add m "value" (get r "command") else m in
  s_remove (s_add m "duration" (get r "cmdduration")) "comment".
Definition reset_fields r m : Ms :=
  let m := s_add (s_add m "source" (get r "relay")) "cmdname" "cmdexec" in
  s_remove (s_add (s_add m "value" (get r "reset")) "duration" (get r "resetduration")) "comment".
Definition messageComplete r m : Ms :=
  let m := if get r "language" <>s "" then s_add m "language" (get r "language") else m in
  let m := s_add m "agent" agentname in
  let m := if is_command m "cmdexec" then cmdexec_fields r m else m in
  if is_command m "reset" then reset_fields r m else m.
Definition encode r m : string := if get r "language" =s "xml" then s_xml m else s_post m.
End message.
(** ** The exchange: each read may bring as many bytes as the whole buffer holds, and a failed one moves back by one *)
Fixpoint read_loop (l : list (option string)) (acc : list ascii) : option (bool * list ascii) :=
  match l with
  | [] => Some (false, acc)
  | None :: l' => match acc with [] => None | _ => read_loop l' (removelast acc) end
  | Some s :: l' =>
      match take MAXB (chars s) with
      | [] => Some (true, acc)
      | d => if (length acc + length d <? MAXB)%nat then read_loop l' (acc ++ d) else None
      end
  end.
Definition exchange r (text : string) : M (option (bool * string)) := fun w =>
  if (MAXB <=? String.length text)%nat then (None, w)
  else
    let i := w_tick w in
    let w := set_tick (S i) w in
    match tcp_connect i (ora_ip r) (ora_port r) with
    | Some sd =>
        if 0 <? sd then
          (a ← read_loop (tcp_reads i (ora_ip r) (ora_port r)) []; Some (a.1, of_chars (until_nul a.2)), (emit (Written sd text) w).2)
        else (Some (false, ""), w)
    | None => (Some (false, ""), w)
    end.
Definition c_str (s : string) : string := of_chars (until_nul (chars s)).
Definition post_text r (message : string) : string :=
  "POST " +:+ c_str (ora_post r) +:+ " HTTP/1.0" +:+ crlf +:+ "Host: " +:+ c_str (ora_host r) +:+ crlf +:+
  "User-Agent: " +:+ c_str (ora_useragent r) +:+ crlf +:+ "Pragma: " +:+ c_str (ora_pragma r) +:+ crlf +:+
  "Content-Length: " +:+ pretty (wrap 32 (Z.of_nat (String.length (c_str message)))) +:+ crlf +:+
  "Content-type: " +:+ c_str (ora_contenttype r) +:+ crlf +:+ crlf +:+ c_str message +:+ crlf +:+ crlf.
Definition aya_text r : string :=
  "GET /AYA HTTP/1.0" +:+ crlf +:+ "Host: " +:+ c_str (ora_host r) +:+ crlf +:+ "User-Agent: " +:+ c_str (ora_useragent r) +:+
  crlf +:+ "Pragma: " +:+ c_str (ora_pragma r) +:+ crlf +:+ crlf +:+ crlf.
Definition timed_out r : M unit :=
  log_info ("tcp connection timed out (host: " +:+ ora_host r +:+ " - port: " +:+ get r "port" +:+ ")").
Definition sendStringMessage r (message : string) : M (option Z) :=
  a ←! exchange r (post_text r message); if a.1 : bool then ok 1 else timed_out r;; ok (-1).
Definition send {Ms} {S : Sendable Ms} r (m : Ms) : M (option (Z * Ms)) :=
  if (ora_name r =s "none") || (get r "status" =s "OFF") then ok (0, m)
  else let m := messageComplete r m in z ←! sendStringMessage r (encode r m); ok (z, m).
(** Without a connection the text that is searched is the buffer as it was: it is not, as the call has returned before. *)
Definition isAlive r : M (option bool) :=
  if ora_name r =s "none" then ok false
  else a ←! exchange r (aya_text r); if a.1 : bool then ok (contains "IAA" a.2) else timed_out r;; ok false.

(** ** Class RemoteAgentSet: the agents of a directory, and the queue of messages for them *)
Fixpoint load_all (l : list RemoteAgent) : M (option (list RemoteAgent)) :=
  match l with [] => ok [] | r :: l' => r ←! load r; rs ←! load_all l'; ok (r :: rs) end.
Fixpoint make_all (dir : string) (files : list string) : M (option (list RemoteAgent)) :=
  match files with
  | [] => ok []
  | f :: l => p ←! OldP.mk2 dir (FilePath.getStem f); rs ←! make_all dir l; ok (init p (FilePath.getStem f) :: rs)
  end.
Definition mk_set (dir : string) (files : list string) : M (option (list RemoteAgent)) := l ←! make_all dir files; load_all l.
(** Each agent gets a copy of the message. *)
Fixpoint send_all (target : string) (m : Message) (l : list RemoteAgent) : M (option Z) :=
  match l with
  | [] => ok 0
  | r :: l' =>
      if isTarget r target then _ ←! send r m; n ←! send_all target m l'; ok (n + 1) else send_all target m l'
  end.
(** [None] inside: the queue is empty and the caller waits. *)
Definition exec (l : list RemoteAgent) (input : list Message) : M (option (option (Z * list Message))) :=
  match MsgQ.receive input with
  | None => ok None
  | Some (m, input) => n ←! send_all (OldMsg.getString m "target") m l; ok (Some (n, input))
  end.
End agent.
End ORA.

(** ** Class WebSocket *)
Record WebSocket := mkWS { ws_connections : gset string; ws_subscriptions : gmap string (list string) }.
Module WS.
Implicit Types (s : WebSocket).
Definition on_open s (conn : string) : WebSocket := mkWS ({[conn]} ∪ ws_connections s) (ws_subscriptions s).
(** The loop steps over the element that follows the one it erases. *)
Fixpoint erase_loop (conn : string) (l : list string) : list string :=
  match l with
  | [] => []
  | x :: l' => if x =s conn then match l' with [] => [] | y :: l'' => y :: erase_loop conn l'' end else x :: erase_loop conn l'
  end.
Definition on_close s (conn : string) : WebSocket := mkWS (ws_connections s ∖ {[conn]}) (erase_loop conn <$> ws_subscriptions s).
(** The connections that are sent the data, in order. *)
Definition send_to_all s : list string := elements (ws_connections s).
Definition send_to_subscribers s (event_type : string) : list string := default [] (ws_subscriptions s !! event_type).
Definition subscribe s (conn event_type : string) : bool * WebSocket :=
  if bool_decide (conn ∈ ws_connections s)
  then (true, mkWS (ws_connections s) (<[event_type := send_to_subscribers s event_type ++ [conn]]> (ws_subscriptions s)))
  else (false, s).
Definition unsubscribe s (conn event_type : string) : bool * WebSocket :=
  match ws_subscriptions s !! event_type with
  | Some l => (true, mkWS (ws_connections s) (<[event_type := erase_loop conn l]> (ws_subscriptions s)))
  | None => (false, s)
  end.
End WS.

(** ** Properties *)

(** Two neighbours of a list that are both [c]. *)
Fixpoint twice (c : string) (l : list string) : bool :=
  match l with x :: ((y :: _) as l') => ((x =s c) && (y =s c)) || twice c l' | _ => false end.
Lemma twice_tail c x l : twice c (x :: l) = false -> twice c l = false.
Proof. destruct l as [|y l]; [done|]. intros [_ H]%orb_false_iff. exact H. Qed.
(** The loop removes a connection that is nowhere twice in a row, and nothing else. *)
Lemma erase_loop_removes c n l :
  (length l <= n)%nat -> twice c l = false -> WS.erase_loop c l = List.filter (fun x => x <>s c) l.
Proof.
  revert l. induction n as [|n IH]; intros [|x l] Hn Ht; simpl in Hn; [done|lia|done|].
  cbn [WS.erase_loop List.filter]. destruct (x =s c) eqn:E; cbn [negb].
  - destruct l as [|y l]; [done|]. cbn [twice] in Ht. apply orb_false_iff in Ht as [Hy Ht]. rewrite E in Hy. simpl in Hy.
    cbn [List.filter]. rewrite Hy. cbn [negb]. f_equal. apply IH; [simpl in Hn; lia|by eapply twice_tail].
  - f_equal. apply IH; [lia|by eapply twice_tail].
Qed.
(** After a connection is closed no data is sent to it, if it never subscribed to an event twice in a row. *)
Lemma closed_connection_is_silent s c e :
  twice c (WS.send_to_subscribers s e) = false ->
  c ∉ WS.send_to_subscribers (WS.on_close s c) e /\ c ∉ WS.send_to_all (WS.on_close s c).
Proof.
  intros H. split.
  - unfold WS.send_to_subscribers, WS.on_close in *. simpl. rewrite lookup_fmap.
    destruct (ws_subscriptions s !! e) as [l|]; simpl in *; [|by intros ?%elem_of_nil].
    rewrite (erase_loop_removes c (length l)) by done. rewrite list_elem_of_In, filter_In, seqb_refl. naive_solver.
  - unfold WS.send_to_all, WS.on_close. simpl. rewrite elem_of_elements. set_solver.
Qed.
(** One that subscribed twice in a row stays among the subscribers. *)
Lemma second_subscription_survives s c e :
  c ∈ ws_connections s -> WS.send_to_subscribers s e = [] ->
  let s' := (WS.subscribe (WS.subscribe s c e).2 c e).2 in
  WS.send_to_subscribers (WS.on_close s' c) e = [c].
Proof.
  assert (H : forall t, c ∈ ws_connections t -> (WS.subscribe t c e).2 =
      mkWS (ws_connections t) (<[e := WS.send_to_subscribers t e ++ [c]]> (ws_subscriptions t)))
    by (intros t Ht; unfold WS.subscribe; by rewrite bool_decide_eq_true_2).
  intros Hc He. cbv zeta. rewrite (H s Hc), H by done. unfold WS.on_close, WS.send_to_subscribers in *. cbn [ws_subscriptions].
  rewrite He, lookup_fmap, !lookup_insert_eq. simpl. by rewrite seqb_refl.
Qed.
(** An attribute reads back what it writes; a text that goes on after its element is not read. *)
Example attribute_text_is_read_back :
  let written := Att.xmlEncode (mkAt "lamp" "ON") 1 in
  Att.xmlDecode (XP := tinyxml) (mkAt "" "") written = (1, mkAt "lamp" "ON") /\
  Att.xmlDecode (XP := tinyxml) (mkAt "" "") (written +:+ " x") = (0, mkAt "" "").
Proof. split; by vm_compute. Qed.
