(* ===== verification/Services.v ===== *)
(** * Services that the agents hardly call any more (minilibs/hsrv.cpp, filemanager.cpp, agentlib.cpp, iplocation.cpp,
    RestHttpServer.cpp, WSpusher/wspusher.cpp)

    Listings and files by extension, the line of the log file, what the kernel says of a process, the connection of an
    [IPlocation], the start of the REST service, and the process that passes events between web sockets.  What a call of
    the system answers is an argument.  [None] is an access outside of a buffer or through a null pointer. *)
From S2P Require Import Prelude Doubles Hsrv Xml MMessage World MParams Subjects Archive NameTable RemoteAgent Managers AgentConf Udp AgentNet.

(** ** Listings and files *)
Module Svc.
Section files.
Context {P : Platform} {C : Config} {FS : PathNames}.
(** The names a directory lists; the two dots come first, and only the extension "." lets one of them through. *)
Definition names_in (dir : string) : M (list string) := es ← readdir dir; mret ("." :: ".." :: map fst es).
Definition getdirlist (dir ext : string) : M (option (list string)) :=
  d ← opendir dir;
  if d : bool then l ← names_in dir; mret (Some (List.filter (fun n => matchfile n ext) l)) else mret None.
Definition getlistof (dir ext : string) : M (list string) := l ← getdirlist dir ext; mret (default [] l).
(** [AgentConf::getFilelist]: the names are added to the list, which is then sorted. *)
Definition str_le (a b : string) : Prop := String.leb a b = true.
#[local] Instance str_le_dec : RelDecision str_le := fun a b => decide (String.leb a b = true).
Definition getFilelist (path : string) (flist : list string) : M (Z * list string) :=
  d ← opendir path;
  if d : bool then
    es ← readdir path;
    let l := flist ++ map fst es in
    mret (match l with [] => (0, l) | _ => (1, merge_sort str_le l) end)
  else mret (0, flist).
Definition readFile (name : string) : M string := FM.readFile (canon name).
(** A backslash ends the line; the text of the body is the one [AgentConf] writes. *)
Definition saveFile (ty name body : string) : M bool :=
  let path := "./" +:+ ty +:+ "/" +:+ name in
  o ← open_out path;
  if o : bool then append path (of_chars (AConf.file_text false (chars body)));; mret true else mret false.
Definition deleteFile (ty name : string) : M bool :=
  let path := homedir +:+ "/" +:+ ty +:+ "/" +:+ name in
  f ← Dirs.isFile path;
  if f : bool then unlink (canon path);; mret true else mret false.
(** [logMessage], in the log file of the agent. *)
Definition logMessage (logfile m : string) : M Z :=
  o ← open_app logfile;
  tv ← read_clock;
  (if o : bool then append logfile (m +:+ " " +:+ getasciitimefull_of tv +:+ Msg.endl) else mret tt);; mret 1.
(** [isVideoFile], [isImageFile]: the extension of the name in capitals. *)
Definition is_kind (exts : list string) (path : string) : M bool :=
  f ← Dirs.isFile path;
  mret (f && existsb (fun e => matchfile (upcase (FilePath.getTail path)) e) exts).
Definition isVideoFile : string -> M bool := is_kind ["MJPEG"; "AVI"].
Definition isImageFile : string -> M bool := is_kind ["JPEG"; "JPG"; "PNG"; "GIF"].
(** [getlockvalue]: 0 when the lock can be read, and what the variable held when it cannot. *)
Definition getlockvalue : M Z :=
  f ← Dirs.isFile (homedir +:+ "/.lock"); mret (if f : bool then 0 else indet_int).
End files.

(** ** What the kernel says of the process *)
Section process.
Context {P : Platform}.
Definition is_digit (c : ascii) : bool := bool_decide (is_Some (Ascii.is_nat c)).
Fixpoint digit_at (i : nat) (l : list ascii) : option nat :=
  match l with [] => None | c :: l' => if is_digit c then Some i else digit_at (S i) l' end.
(** [parseLine]: the number of a line whose last three characters are cut off. *)
Definition parseLine (line : list ascii) : option Z :=
  p ← digit_at 0 line;
  if (length line <? 3)%nat then None
  else let i := (length line - 3)%nat in
       Some (atoi (of_chars (if (p <=? i)%nat then drop p (take i line) else drop p line))).
(** [fgets] of at most [n] characters, the end of the line included. *)
Fixpoint fgets (n : nat) (l : list ascii) : list ascii * list ascii :=
  match n, l with
  | S n, c :: l' => if c =c "010"%char then ([c], l') else let r := fgets n l' in (c :: r.1, r.2)
  | _, _ => ([], l)
  end.
Fixpoint memory_loop (fuel : nat) (l : list ascii) : option Z :=
  match fuel, l with
  | S n, _ :: _ =>
      let '(line, rest) := fgets 127 l in
      if String.prefix "VmSize:" (of_chars line) then parseLine line else memory_loop n rest
  | _, _ => Some (-1)
  end.
(** [getMemorySize] of the text of /proc/self/status; each turn reads a character at least. *)
Definition getMemorySize (status : option string) : option Z :=
  s ← status; memory_loop (String.length s) (chars s).
(** [getprocessid], of the output of "ps ax": the number that begins the line of the command. *)
Definition line_start (l : list ascii) (pos : nat) : nat :=
  (fix go (j : nat) := match j with
                       | O => O
                       | S j' => match l !! j with Some c => if c =c "010"%char then j else go j' | None => j end
                       end) pos.
Definition getprocessid (res cmd : string) : Z :=
  match sfind cmd res 0 with
  | None => 0
  | Some pos => let j := line_start (chars res) pos in a2int (take_str (pos - j) (drop_str j res))
  end.
(** The indentation of a dump: twice the depth, forty at most, the last two a plus and a space. *)
Definition getIndent (numIndents : nat) : string :=
  let pIndent := sconcat (repeat " " 38) +:+ "+ " in drop_str (40 - Nat.min (2 * numIndents) 40) pIndent.
Definition getIndentAlt (numIndents : nat) : string :=
  let pIndent := sconcat (repeat " " 40) in drop_str (40 - Nat.min (2 * numIndents) 40) pIndent.
End process.
End Svc.

(** ** The connection of an [IPlocation] *)
Record Connection := mkConn { sd : Z; myerr : Z }.
Module Conn.
Implicit Types (k : Connection).
Definition new : Connection := mkConn (-1) 0.
Definition failed k : Z * Connection := let e := swrap 32 (myerr k - 1) in (e, mkConn (sd k) e).
Definition connectClose k : Connection := mkConn (-1) 0.
(** [socket] and [connect] answer [s] and [c]; a socket that cannot connect is kept. *)
Definition connectSetup (s c : Z) k : Z * Connection :=
  let k := if 0 <=? sd k then connectClose k else k in
  let k := mkConn s (myerr k) in
  if s <? 0 then failed k else if c <? 0 then failed k else (s, mkConn s 0).
Definition connectON k : bool := (0 <=? myerr k) && (0 <? sd k).
(** [select] answers [rc]; [is_set] is whether the descriptor is among the ready ones. *)
Definition dataAvailable (rc : Z) (is_set : bool) : Z := if rc <? 0 then -1 else if is_set then 1 else 0.
(** [sendCmd] of six bytes: [wrote] is the answer of [write], [got] what [read] puts into the buffer. *)
Definition sendCmd (buffer : list ascii) (wrote : Z) (got : option (list ascii)) k : Z * list ascii * Connection :=
  if (sd k <? 0) || (myerr k <? 0) then (-1, buffer, k)
  else if wrote <? 0 then let r := failed k in (r.1, buffer, r.2)
  else match got with
       | None => let r := failed k in (r.1, buffer, r.2)
       | Some d => (1, Frame.put 0 (take 6 d) buffer, mkConn (sd k) 0)
       end.
(** Each read is given the size of the whole buffer, wherever it begins. *)
Fixpoint read_into (bsize : nat) (acc : list ascii) (l : list (option (list ascii))) : option (bool * list ascii) :=
  match l with
  | [] | Some [] :: _ => Some (true, acc)
  | None :: _ => Some (false, acc)
  | Some d :: l' => let d := take bsize d in if (bsize <? length acc + length d)%nat then None else read_into bsize (acc ++ d) l'
  end.
(** [sendCmd] of a text in a buffer: the answer replaces it and ends with a zero. *)
Definition sendCmd_buffer (buffer : list ascii) (wrote : Z) (reads : list (option (list ascii))) k : option (Z * list ascii * Connection) :=
  let bsize := length buffer in
  if (bsize =? 0)%nat then None
  else
    let buffer := Frame.put (bsize - 1) [nul] buffer in
    if (sd k <? 0) || (myerr k <? 0) then Some (-1, buffer, k)
    else if wrote <? 0 then let r := failed k in Some (r.1, buffer, r.2)
    else
      r ← read_into bsize [] reads;
      if (length r.2 =? bsize)%nat then None
      else let buffer := Frame.put 0 (r.2 ++ [nul]) buffer in
           if r.1 : bool then Some (1, buffer, mkConn (sd k) 0) else let f := failed k in Some (f.1, buffer, f.2).
(** [sendCmd] of a string: what is sent, the result, and the answer from its first brace on. *)
Definition upto_nul (d : list ascii) : list ascii := until_nul (take MAXB d).
Fixpoint from_brace (l : list ascii) : list ascii :=
  match l with c :: l' => if c =c "{"%char then l else from_brace l' | [] => [] end.
Fixpoint more (l : list (option (list ascii))) : list ascii :=
  match l with [] | None :: _ | Some [] :: _ => [] | Some d :: l' => upto_nul d ++ more l' end.
Definition sendCmd_text (msg : string) (reads : list (option (list ascii))) : option string * Z * string :=
  if (MAXB <? String.length msg + 1)%nat then (None, 0, msg)
  else
    let sent := Some (of_chars (until_nul (chars msg))) in
    match reads with
    | [] | None :: _ | Some [] :: _ => (sent, 0, "")
    | Some d :: l => (sent, 1, of_chars (until_nul (from_brace (take MAXB d)) ++ more l))
    end.
(** [rvportSetup]: [socket] and [bind] answer [s] and [b]. *)
Definition rvportSetup (s b : Z) k : Z * Connection :=
  if s <? 0 then (-1, mkConn s (-1)) else if b <? 0 then (-2, mkConn s (-2)) else (1, mkConn s (myerr k)).
End Conn.

(** A connection is on after it was set up exactly when the result is a positive descriptor. *)
Lemma connection_is_on s c k : -2 ^ 31 < myerr k <= 0 ->
  let r := Conn.connectSetup s c k in Conn.connectON r.2 = (0 <? r.1) /\ (0 < r.1 -> r.1 = s /\ 0 <= c).
Proof.
  intros H. cbv zeta. unfold Conn.connectSetup, Conn.failed. set (k' := if 0 <=? sd k then _ else k).
  assert (-2 ^ 31 < myerr k' <= 0) as H' by (subst k'; case_match; cbn; lia). clearbody k'. cbn [myerr sd].
  assert (swrap 32 (myerr k' - 1) = myerr k' - 1) as E by (apply swrap_id; lia). rewrite E.
  destruct (Z.ltb_spec s 0) as [Hs|Hs]; [|destruct (Z.ltb_spec c 0) as [Hc|Hc]]; unfold Conn.connectON; cbn [fst snd myerr sd].
  - rewrite (proj2 (Z.leb_gt _ _)) by lia. cbn [andb]. rewrite (proj2 (Z.ltb_ge _ _)) by lia. split; [done|lia].
  - rewrite (proj2 (Z.leb_gt _ _)) by lia. cbn [andb]. rewrite (proj2 (Z.ltb_ge _ _)) by lia. split; [done|lia].
  - split; [done|]. intros _. by split.
Qed.
(** After a command that failed no other is sent before the connection is set up again. *)
Lemma failed_command_stops buffer wrote got k buffer' wrote' got' : -2 ^ 31 < myerr k <= 0 ->
  let r := Conn.sendCmd buffer wrote got k in
  r.1.1 <> 1 -> (Conn.sendCmd buffer' wrote' got' r.2).1 = (-1, buffer').
Proof.
  intros H. cbv zeta. unfold Conn.sendCmd at 1 3. destruct ((sd k <? 0) || (myerr k <? 0)) eqn:E; cbn [fst snd].
  { intros _. unfold Conn.sendCmd. by rewrite E. }
  assert (forall k', myerr k' < 0 -> (Conn.sendCmd buffer' wrote' got' k').1 = (-1, buffer')) as Hf.
  { intros k' Hk. unfold Conn.sendCmd. rewrite (proj2 (Z.ltb_lt _ _) Hk). by rewrite orb_true_r. }
  assert (myerr (Conn.failed k).2 < 0) as Hm by (cbn; rewrite swrap_id by lia; lia).
  destruct (wrote <? 0); [intros _; by apply Hf|]. destruct got; [done|]. intros _. by apply Hf.
Qed.

(** ** Names and devices asked of the interface server (NameService.cpp, WSServer/NameTable.cpp) *)
Module Ask.
Section ask.
Context {P : Platform} {C : Config} {FS : PathNames} {N : Network}.
(** [NameService::checkName]: whether the page of that name, asked of the interface server, holds the name. *)
Definition name_request (name : string) : string := "GET /DynamicPage/" +:+ name +:+ ".xml HTTP/1.1" +:+ crlf +:+ crlf +:+ crlf.
Definition checkName (n : Net) (name : string) : M (option bool) :=
  let wsserver := AN.getWSServer n in
  if wsserver =s "" then ok false
  else
    match NameList.of_string wsserver ":" with
    | address :: port :: _ => answer ← NT.call port address (name_request name); ok (contains name answer)
    | _ => crash
    end.
(** [setDevice]: what it did is a comment now. *)
Definition setDevice : bool := false.
Definition matchAgent (t : NameTable) (ag : string) (index : nat) : option bool :=
  if ag =s "" then Some true else (fun a => ag_name a =s ag) <$> agent t !! index.
Definition is_true (status : string) : bool := existsb (seqb status) ["ON"; "On"; "on"; "true"].
Definition status_text (status : string) : string :=
  "{" +:+ quote "enable_status" +:+ ":" +:+ quote (if is_true status then "true" else "false") +:+ "}".
Definition setDeviceStatus (a : ArchiveManager) (device status : string) : M bool :=
  match NameList.of_string device "_" with
  | first :: _ :: _ =>
      let devpath := "devices/" +:+ first +:+ "/" +:+ device in
      d ← Dirs.isDir devpath;
      if d : bool then Arc.updateResource a (devpath +:+ "/data") (status_text status);; mret true else mret false
  | _ => mret false
  end.
End ask.
End Ask.

(** ** The start of the REST service (RestHttpServer.cpp) *)
Record RestService := mkRest { rs_name : string; s_port : Z }.
Module RestS.
Section rest.
Context {P : Platform} {C : Config} {XP : XmlParser}.
(** A new service holds no port. *)
Definition new : RestService := mkRest "" (wrap 16 indet_unsigned).
Definition with_port (p : Z) (s : RestService) : RestService := mkRest (rs_name s) (wrap 16 p).
Definition load_port (text : string) (s : RestService) : option (bool * RestService) :=
  if negb (parse_ok text) then Some (false, s)
  else
    prg ← NextSibling (load_document text);
    match prg with
    | [] => Some (false, with_port 8082 s)
    | n :: _ => let attr := child_attr n "port" in
                Some (true, with_port (if attr =s "*" then 8082 else atoi attr) s)
    end.
(** [xmlLoad]: without a file of XML the port is the one of the agent, but the load fails. *)
Definition xmlLoad (agent_port xmlfile : string) (s : RestService) : M (option (bool * RestService)) :=
  let xmldesc := configdir +:+ "/" +:+ xmlfile in
  f ← isfile_type xmldesc "xml";
  let s := if f : bool then s else with_port (atoi agent_port) s in
  c ← read_file xmldesc;
  mret (match c with None => Some (false, s) | Some text => load_port text s end).
(** [start], up to the server of the library. *)
Definition start (agent_port n : string) (s : RestService) : M (option RestService) :=
  r ← xmlLoad agent_port "HttpServer.xml" s; mret ((fun r => mkRest n (s_port r.2)) <$> r).
(** The answers of the methods no agent uses: the text and the code. *)
Definition render : string * Z := ("generic response", 200).
Definition render_HEAD : string * Z := ("HEAD response", 200).
Definition render_OPTIONS : string * Z := ("OPTIONS response", 200).
Definition render_CONNECT : string * Z := ("CONNECT response", 200).
End rest.
End RestS.
(** Without a file the service listens on the port of the agent. *)
Lemma rest_port_of_agent {P : Platform} {C : Config} {XP : XmlParser} agent_port n s w :
  w_files w !! (configdir +:+ "/" +:+ "HttpServer.xml") = None ->
  result (RestS.start agent_port n s) w = Some (mkRest n (wrap 16 (atoi agent_port))).
Proof.
  intros H. unfold RestS.start, RestS.xmlLoad, isfile_type, read_file, result, mbind, M_bind, mret, M_ret. by rewrite H.
Qed.

(** ** The process that passes events on (WSpusher/wspusher.cpp) *)
Module Pusher.
(** A message of a connection goes to all the others; the sender is told that it was received. *)
Definition on_message (connections : list string) (connection message : string) : list (string * string) :=
  map (fun c => (c, message)) (List.filter (fun c => c <>s connection) connections) ++ [(connection, "received")].
End Pusher.
(** What one connection is sent. *)
Definition sent_to (c : string) (l : list (string * string)) : list string := map snd (List.filter (fun x => x.1 =s c) l).
Lemma sent_to_app c a b : sent_to c (a ++ b) = sent_to c a ++ sent_to c b.
Proof. unfold sent_to. by rewrite List.filter_app, map_app. Qed.
(** Every other connection gets the message once, the sender only the receipt, and nobody else anything. *)
Lemma message_reaches_the_others l s m c : NoDup l ->
  sent_to c (Pusher.on_message l s m) =
  if c =s s then ["received"] else if bool_decide (c ∈ l) then [m] else [].
Proof.
  intros Hd. unfold Pusher.on_message. rewrite sent_to_app.
  assert (sent_to c (map (fun c => (c, m)) (List.filter (fun c => c <>s s) l)) =
          if c =s s then [] else if bool_decide (c ∈ l) then [m] else []) as ->.
  { induction Hd as [|x l Hx Hl IH]; [by case_match|]. cbn [List.filter]. destruct (x =s s) eqn:E; cbn [negb].
    - rewrite IH. apply seqb_true in E as ->. destruct (c =s s) eqn:Ec; [done|]. apply seqb_false in Ec.
      rewrite (bool_decide_ext (c ∈ s :: l) (c ∈ l)); [done|]. rewrite elem_of_cons. naive_solver.
    - unfold sent_to in *. cbn [map List.filter fst]. apply seqb_false in E. destruct (x =s c) eqn:Ec.
      + apply seqb_true in Ec as ->. rewrite seqb_ne in * by done. cbn [map snd]. rewrite IH.
        rewrite bool_decide_eq_false_2 by done. by rewrite bool_decide_eq_true_2 by left.
      + apply seqb_false in Ec. rewrite IH. destruct (c =s s); [done|]. rewrite (bool_decide_ext (c ∈ x :: l) (c ∈ l)); [done|].
        rewrite elem_of_cons. naive_solver. }
  unfold sent_to. cbn [List.filter map fst]. rewrite (seqb_sym s c). destruct (c =s s); [done|]. by rewrite app_nil_r.
Qed.
