(* ===== verification/MotionDetect.v ===== *)
(** * The motion detector (MDetector/DirWatch.cpp, MdFilter.cpp)

    A thread watches one directory for each camera and tells the other thread of every file that is made there; that one
    asks a command whether the file shows something, and if so notifies the event of the camera.  [Inotify] is what the
    operating system answers.  The messages that set and reset the cameras are handled by a thread the code does not start.
    [None] is the end of the process. *)
From S2P Require Import Prelude Doubles Hsrv Xml MMessage World MParams Subjects Archive ArchiveOps Managers.

(** An event of a watched directory; without a name it is one of the directory itself. *)
Record ievent := mkIE { ie_wd : Z; ie_create : bool; ie_delete : bool; ie_modify : bool; ie_dir : bool; ie_name : option string }.
Class Inotify := {
  inotify_init : nat -> Z;
  inotify_add_watch : nat -> Z -> string -> Z;
  inotify_read : nat -> Z -> option (list ievent) }.

Record FDesc := mkFD { fd_pathname : string; fd_source : string; fd_event : string; fd_status : string }.
Record DirToWatch := mkDW { dw_par : MParams; dw_name : string; dw_wd : Z; dw_pathname : string; dw_status : string }.
#[export] Instance DirToWatch_rebuild : Rebuild DirToWatch := fun d =>
  mkDW (dw_par d) (dw_name d) (dw_wd d) (dw_pathname d) (dw_status d).

(** ** Class DirToWatch *)
Module Cam.
Section camera.
Context {C : Config} {XP : XmlParser} {FS : PathNames} {In : Inotify}.
Implicit Types (d : DirToWatch) (m : MMessage).
Definition mk (dir nm : string) : M (option DirToWatch) :=
  _ ←! Dirs.makeDir (homedir +:+ "/" +:+ dir) false;
  r ←! Params.load (Params.mk2 dir nm);
  let p := r.2 in
  let st := Params.get p "status" in
  ok (mkDW p nm 0 (Params.get p "pathname") (if st =s "" then "ON" else st)).
Definition subjects d (subj : MParams) : MParams := Params.add_cat subj (dw_name d) "subject" "local_event".
Definition watch (fd : Z) d : M DirToWatch := fun w =>
  (d <| dw_wd := inotify_add_watch (w_tick w) fd (dw_pathname d) |>, set_tick (S (w_tick w)) w).
Definition set_status (st : string) d : M DirToWatch :=
  let p := Params.add (dw_par d) "status" st in
  Params.save p;; mret ((d <| dw_status := st |>) <| dw_par := p |>).
Definition setCamera m d : M DirToWatch :=
  let st := Msg.getString m (dw_name d) in if st <>s "" then set_status st d else mret d.
Definition resetCamera : DirToWatch -> M DirToWatch := set_status "ON".
End camera.
End Cam.

(** ** Class FileNotify *)
Module FNot.
Section notify.
Context {C : Config} {XP : XmlParser} {FS : PathNames} {In : Inotify}.
Implicit Types (l : list DirToWatch).
Fixpoint cameras (dir : string) (files : list string) : M (option (list DirToWatch)) :=
  match files with
  | [] => ok []
  | f :: files' => d ←! Cam.mk dir (FilePath.getStem f); l ←! cameras dir files'; ok (d :: l)
  end.
Definition mk (dir : string) : M (option (list DirToWatch)) :=
  r ← Dirs.fileList (configdir +:+ "/" +:+ dir) []; cameras dir r.2.
Definition init l : M (Z * list DirToWatch) := fun w =>
  let fd := inotify_init (w_tick w) in
  let w := set_tick (S (w_tick w)) w in
  if 0 <=? fd then (l ← mapM_M (Cam.watch fd) l; mret (fd, l)) w else ((fd, l), w).
(** The first directory with this descriptor. *)
Definition field_of (f : DirToWatch -> string) (wd : Z) l : string :=
  match find_first (fun d => dw_wd d =? wd) l with
  | Some i => match l !! i with Some d => f d | None => "" end
  | None => ""
  end.
Definition getPathname := field_of dw_pathname.
Definition getName := field_of dw_name.
Definition getStatus := field_of dw_status.
Definition event_name (e : ievent) : string :=
  let kind := if ie_dir e then "d" else "f" in
  if ie_create e then kind +:+ "create" else if ie_delete e then kind +:+ "delete"
  else if ie_modify e then kind +:+ "modified" else "".
Definition describe l (e : ievent) : option FDesc :=
  n ← ie_name e;
  Some (mkFD (getPathname (ie_wd e) l +:+ "/" +:+ n) (getName (ie_wd e) l) (event_name e) (getStatus (ie_wd e) l)).
Definition fnotify (fd : Z) l : M (list FDesc) := fun w =>
  (omap (describe l) (default [] (inotify_read (w_tick w) fd)), set_tick (S (w_tick w)) w).
Definition subjects l (subj : MParams) : MParams := fold_left (fun s d => Cam.subjects d s) l subj.
Definition getEventList l : list string := map (fun d => dw_name d +:+ "=" +:+ dw_status d) l.
Definition setCamera (m : MMessage) l : M (list DirToWatch) := mapM_M (Cam.setCamera m) l.
Definition resetCamera l : M (list DirToWatch) := mapM_M Cam.resetCamera l.
End notify.
End FNot.

(** ** Class DirWatch *)
Module DW.
Section watch.
Context {P : Platform} {C : Config} {XP : XmlParser} {FS : PathNames} {In : Inotify}.
Variable agentname : string.
Definition camera_text (root camera : string) : string :=
  "<?xml version=" +:+ quote "1.0" +:+ " ?><set type=" +:+ quote "camera" +:+ "><attribute name=" +:+ quote "pathname" +:+ " value=" +:+
  quote (root +:+ "/" +:+ camera) +:+ "/><attribute name=" +:+ quote "event" +:+ " value=" +:+ quote ("SE_" +:+ camera) +:+ "/> </set>" +:+ Msg.endl.
Definition camera_line : string :=
  "type=" +:+ quote "source" +:+ " value=" +:+ quote "OFF" +:+ " status=" +:+ quote "ON".
Definition makeCameraDescriptor (dir root camera : string) : M unit :=
  let descriptor := dir +:+ "/" +:+ camera +:+ ".xml" in
  f ← Dirs.isFile descriptor;
  (if f : bool then mret tt else Mng.write_text descriptor (camera_text root camera));;
  publish ("SE_" +:+ camera) camera_line.
Fixpoint descriptors (dir root : string) (l : list string) : M unit :=
  match l with [] => mret tt | c :: l' => makeCameraDescriptor dir root c;; descriptors dir root l' end.
Definition cameraSetup (cameras : string) : M (option unit) :=
  let cameradir := configdir +:+ "/" +:+ cameras in
  _ ←! Dirs.makeDir cameradir true;
  let root := homedir +:+ "/cameras" in
  d ← Dirs.isDir root;
  if d : bool then l ← Dirs.dirList root []; run (descriptors cameradir root l.2) else crash.
Definition event_line (e : string) : string :=
  match NameList.of_string e "=" with
  | [n; v] => "<attribute name=" +:+ quote ("SE_" +:+ n) +:+ " value=" +:+ quote v +:+ "/>"
  | [n] => "<attribute name=" +:+ quote n +:+ " value=" +:+ quote "ON" +:+ "/>"
  | _ => ""
  end.
Definition makeEventDescriptor (a : ArchiveManager) (l : list DirToWatch) : M (option unit) :=
  Mng.write_text "eventlist.xml"
    ("<set type=" +:+ quote "events" +:+ ">" +:+ sconcat (map event_line (FNot.getEventList l)) +:+ "</set>" +:+ Msg.endl);;
  _ ←! Arc.addResource a "events/data" (homedir +:+ "/eventlist.xml") true;
  Dirs.deleteFile homedir "eventlist.xml";; ok tt.
Definition mk (a : ArchiveManager) : M (option (list DirToWatch)) :=
  _ ←! cameraSetup "cameras";
  l ←! FNot.mk "cameras";
  _ ←! makeEventDescriptor a l; ok l.
Definition getSubjects (param subj : MParams) (l : list DirToWatch) : MParams := FNot.subjects l (OT.getSubjects param subj).
Definition motion (e : FDesc) : MMessage :=
  let m := Msg.add (Msg.add (Msg.mk "local_event" "motion") "event_source" ("SE_" +:+ fd_source e)) "pathname" (fd_pathname e) in
  Msg.add (Msg.add (Msg.add m "value" "1") "agent" agentname) "status" (fd_status e).
Fixpoint tell (l : list FDesc) : M unit :=
  match l with
  | [] => mret tt
  | e :: l' => (if fd_event e =s "fcreate" then notify (motion e) else mret tt);; tell l'
  end.
(** One turn of [do_work]. *)
Definition do_work (fd : Z) (l : list DirToWatch) : M unit := es ← FNot.fnotify fd l; tell es.
(** One message of [do_service]. *)
Definition do_service (a : ArchiveManager) (msg : MMessage) (l : list DirToWatch) : M (option (list DirToWatch)) :=
  if (mtype msg =s "cmd") && (msubtype msg =s "setcamera") then
    l ← FNot.setCamera msg l; _ ←! makeEventDescriptor a l; ok l
  else if (mtype msg =s "cmd") && (msubtype msg =s "resetcamera") then
    l ← FNot.resetCamera l; _ ←! makeEventDescriptor a l; ok l
  else ok l.
End watch.
End DW.

(** ** Class MdFilter *)
Module MF.
Section filter.
Context {P : Platform} {C : Config} {XP : XmlParser} {FS : PathNames}.
Definition mk : M (option string) := r ←! Params.load (Params.mk1 "commands"); ok (Params.get r.2 "filter").
Definition path2Url (path : string) : string :=
  let nl := NameList.of_string path "/" in
  let n := length nl in
  if (n <=? 2)%nat then path else nth (n - 2) nl "" +:+ "/" +:+ nth (n - 1) nl "".
Definition accepted (msg : MMessage) (pathname evtime : string) : MMessage :=
  let m := Msg.set_subtype (Msg.set_type msg "event") (Msg.getString msg "event_source") in
  let m := Msg.add (Msg.remove m "pathname").2 "video" (path2Url pathname) in
  Msg.add (Msg.add m "value" "ON") "evtime" evtime.
Definition erase (pathname : string) : M bool := Dirs.deleteFile (Arc.getParentDirectory pathname) (FilePath.getTail pathname).
Definition alarm_text : string := "ALARM" +:+ Msg.endl.
Definition ask (filterCMD pathname : string) : M string :=
  if filterCMD =s "" then mret alarm_text else cmdExec (strReplace filterCMD "$INPUT" pathname).2.
(** One message of [do_work]. *)
Definition do_work (filterCMD : string) (msg : MMessage) : M unit :=
  let pathname := Msg.getString msg "pathname" in
  if mtype msg <>s "local_event" then mret tt
  else if Msg.getString msg "status" =s "OFF" then erase pathname;; mret tt
  else
    response ← ask filterCMD pathname;
    (if response =s alarm_text then
       evtime ← getasciitimecompact;
       notify (accepted msg pathname evtime);;
       log_info ("ACCEPTED: " +:+ FilePath.getTail pathname)
     else mret tt);;
    erase pathname;; mret tt.
End filter.
End MF.
