(* ===== verification/NetDevices.v ===== *)
(** * Devices made of devices of other agents (NetDevices/Device.cpp, Component.cpp, Automaton.cpp, Configurator.cpp)

    A device has components, each a device of another agent that is commanded and read over HTTP, and a control: a table
    from each state, the states of the components joined by "+", to the next one.  A command or an event moves the device along
    the table.  The configurator writes the files of a device: a table of two states or the cycle of a Gray code.
    [None] is the end of the process, an index out of a vector, a null control or an endless replacement. *)
From S2P Require Import Prelude Doubles Hsrv Xml MMessage World MParams Pages Subjects Archive ArchiveOps Configurator Users NameTable RemoteAgent Managers AgentConf Udp AgentNet.

Record Component := mkComp { cp_par : MParams; remote_ag_addr : string }.
#[export] Instance Component_rebuild : Rebuild Component := fun c => mkComp (cp_par c) (remote_ag_addr c).
Record NetDevice := mkND {
  nd_par : MParams; nd_name : string; cycle : Z; turn : Z; scount : Z; component : list Component; control : option MParams }.
#[export] Instance NetDevice_rebuild : Rebuild NetDevice := fun d =>
  mkND (nd_par d) (nd_name d) (cycle d) (turn d) (scount d) (component d) (control d).

(** The constructor of a parameter set in a directory, and its file read. *)
Definition loaded {C : Config} {XP : XmlParser} {FS : PathNames} (dir nm : string) : M (option MParams) :=
  _ ←! Dirs.makeDir (homedir +:+ "/" +:+ dir) false; r ←! Params.load (Params.mk2 dir nm); ok r.2.

(** ** Class Automaton *)
Module Auto.
Definition nextState (p : MParams) (current : string) : string := Params.get_cat p current "control".
Definition observe_all (ty : string) (l : list string) (obs : MParams) : MParams :=
  fold_left (fun o e => Params.add_cat o e "observe" ty) l obs.
Definition getObservations (p obs : MParams) : MParams :=
  observe_all "cmd" (NameList.of_string (Params.get_cat p "cmd" "trigger") "+")
    (observe_all "event" (NameList.of_string (Params.get_cat p "event" "trigger") "+") obs).
(** Several values are the next state itself; "ON" is the state that follows, "OFF" the one with all components off. *)
Definition actions (p : MParams) (ty v status : string) : list string :=
  if Params.get_cat p ty "trigger" =s "" then []
  else
    let values := NameList.of_string v "+" in
    if (1 <? length values)%nat then values
    else if (length values =? 1)%nat && (v =s "ON") then NameList.of_string (nextState p status) "+"
    else if (length values =? 1)%nat && (v =s "OFF") then map (fun _ => "OFF") (NameList.of_string status "+")
    else [].
End Auto.

(** ** Class Component *)
Module Comp.
Section component.
Context {P : Platform} {C : Config} {XP : XmlParser} {FS : PathNames} {I : Identity} {N : Network}.
Implicit Types (c : Component).
(** The agents the process knows. *)
Variable net : Net.
Definition get c (name : string) : string := Params.get (cp_par c) name.
Definition set (name v : string) c : Component := c <| cp_par := Params.add (cp_par c) name v |>.
Definition mk (dir nm : string) : M (option Component) := p ←! loaded dir nm; ok (mkComp p "").
Definition status c : string := get c "status".
Definition getSubjects c (subj : MParams) : MParams := Params.add_cat subj (get c "name") "subject" "cmd".
Definition getObservations c (obs : MParams) : MParams := Params.add_cat obs (get c "event") "observe" "event".
(** The address is looked for until an agent is found and kept then; without a port the second name is not there. *)
Definition unknown (addr : string) : bool := (addr =s "") || (addr =s "none").
Definition mkAgentRPC c : option (bool * Component) :=
  if unknown (remote_ag_addr c) then
    let addr := AN.getAgentOf (get c "name") net in
    if unknown addr then Some (false, c <| remote_ag_addr := addr |>)
    else if (length (NameList.of_string addr ":") <? 2)%nat then None
    else Some (true, c <| remote_ag_addr := addr |>)
  else Some (true, c).
Definition ask c (request : string) : M string :=
  let addr := NameList.of_string (remote_ag_addr c) ":" in NT.call (nth 1 addr "") (nth 0 addr "") request.
Definition closed : string := " HTTP/1.1" +:+ crlf +:+ "Connection: close" +:+ crlf +:+ crlf +:+ crlf +:+ crlf.
Definition off c : Component := set "active" "OFF" c.
Definition missing c (what v : string) : M unit :=
  log_info ("ERROR: " +:+ get c "name" +:+ " doesn't have " +:+ what +:+ " " +:+ v).
Definition setValue (v : string) c : M (option (string * Component)) :=
  let c := set "status" v c in
  if get c "active" =s "OFF" then ok (v, c)
  else
    let cmd := Params.get_cat (cp_par c) v "cmd" in
    let answer := Params.get_cat (cp_par c) v "answer" in
    if cmd =s "" then missing c "command" v;; ok (v, off c)
    else if answer =s "" then missing c "answer for" v;; ok (v, off c)
    else
      r ←! lifto (mkAgentRPC c);
      let '(found, c) := r in
      if negb found then ok ("status", off c)
      else res ← ask c ("POST " +:+ cmd +:+ closed); ok (v, if contains answer res then c else off c).
Definition getValue (body word : string) : string := (NT.getWord body word (Some 0%nat)).1.
Definition sync c : M (option (bool * Component)) :=
  let getreq := Params.get_cat (cp_par c) "statusread" "cmd" in
  let request := if getreq =s "" then "GET /DynamicPage/" +:+ get c "name" +:+ ".xml" +:+ closed else getreq in
  r ←! lifto (mkAgentRPC c);
  let '(found, c) := r in
  if negb found then ok (false, c)
  else
    res ← ask c request;
    let answer name := getValue res (Params.get_cat (cp_par c) name "answer") in
    ok (true, if answer "active" =s "ON" then set "status" (answer "status") (set "active" "ON" c) else off c).
End component.
End Comp.

(** ** Class Device *)
Module NDev.
Section device.
Context {P : Platform} {C : Config} {XP : XmlParser} {FS : PathNames} {I : Identity} {N : Network}.
Implicit Types (d : NetDevice) (m : MMessage).
Variable net : Net.
Definition get d (name : string) : string := Params.get (nd_par d) name.
(** The components are in the order the directory is listed in. *)
Fixpoint load (dir nm : string) (files : list string) (d : NetDevice) : M (option NetDevice) :=
  match files with
  | [] => ok d
  | f :: files' =>
      let dname := FilePath.getStem f in
      d ←! (if dname =s "control" then p ←! loaded dir dname; ok (d <| control := Some p |>)
            else if (dname <>s nm) && (dname <>s "") then c ←! Comp.mk dir dname; ok (d <| component := component d ++ [c] |>)
            else ok d);
      load dir nm files' d
  end.
Definition mk (dir nm : string) : M (option NetDevice) :=
  p ←! loaded dir nm;
  r ← Dirs.fileList (configdir +:+ "/" +:+ dir) [];
  load dir nm r.2 (mkND p nm 1 0 0 [] None).
Definition plus (a b : string) : string := if a <>s "" then a +:+ "+" +:+ b else b.
Definition join_plus (l : list string) : string := fold_left plus l "".
Definition status d : string := join_plus (map Comp.status (component d)).
(** [status(string)]: the first components take a state each. *)
Fixpoint set_each (cs : list Component) (st : list string) : M (list Component) :=
  match cs, st with
  | c :: cs', s :: st' => let c := Comp.set "status" s c in Params.save (cp_par c);; r ← set_each cs' st'; mret (c :: r)
  | _, _ => mret cs
  end.
Definition set_status (s : string) d : M NetDevice :=
  cs ← set_each (component d) (NameList.of_string s "+"); mret (d <| component := cs |>).
Fixpoint sync_each (cs : list Component) : M (option (list Component)) :=
  match cs with
  | [] => ok []
  | c :: cs' => r ←! Comp.sync net c; rest ←! sync_each cs'; ok (r.2 :: rest)
  end.
(** The devices are read in turn, one at each trigger. *)
Definition sync d : M (option (bool * NetDevice)) :=
  let s := wrap 32 (scount d + 1) in
  let s := if cycle d <=? s then 0 else s in
  let d := d <| scount := s |> in
  if negb (s =? turn d) then ok (false, d)
  else cs ←! sync_each (component d); ok (true, d <| component := cs |>).
Definition publish d : M unit :=
  World.publish (get d "name") ("type=" +:+ quote "target" +:+ " value=" +:+ quote (status d) +:+ " status=" +:+ quote (get d "active")).
Definition aggregateValue (v : string) : string := of_chars (map (fun c => if c =c " " then "+"%char else c) (chars v)).
Definition valueNormalize (ty subty v : string) : string :=
  if ty =s "cmd" then aggregateValue v else if (ty =s "event") && (take_str 2 subty =s "LS") then "ON" else v.
Definition state_event d (now : double) : MMessage :=
  Msg.set_subtype (Msg.set_type (Msg.add (Msg.add Msg.dummy "value" (status d)) "time" (double2a now)) "event") (get d "eventname").
Definition eventNotify d : M unit := now ← gettime; notify (state_event d now).
(** The loop over the actions: the i-th component takes the i-th one. *)
Fixpoint act (cs : list Component) (l : list string) : M (option (list string * list Component)) :=
  match l, cs with
  | [], _ => ok ([], cs)
  | _ :: _, [] => crash
  | a :: l', c :: cs' =>
      r ←! Comp.setValue net a c;
      rest ←! act cs' l'; ok (r.1 :: rest.1, r.2 :: rest.2)
  end.
(** One message of [do_work]. *)
Definition handle m d : M (option NetDevice) :=
  if (mtype m =s "trigger") && (msubtype m =s "sync") then
    r ←! sync d;
    if status r.2 <>s status d then eventNotify r.2;; publish r.2;; ok r.2 else ok r.2
  else
    let value := valueNormalize (mtype m) (msubtype m) (Msg.getString m "value") in
    p ←! lifto (control d);
    r ←! act (component d) (Auto.actions p (mtype m) value (status d));
    d ← set_status (join_plus r.1) (d <| component := r.2 |>);
    eventNotify d;; publish d;;
    (if Msg.getString m "tag" <>s "" then rpcNotify (Msg.getString m "tag") "value" ("value=" +:+ status d);; mret tt else mret tt);;
    ok d.
Definition getObservations (own : MParams) d (obs : MParams) : option MParams :=
  p ← control d;
  Some (Auto.getObservations p
    (fold_left (fun o c => Comp.getObservations c o) (component d) (Params.add_cat (OT.getObservations own obs) "sync" "observe" "trigger"))).
Definition getSubjects (own : MParams) d (subj : MParams) : MParams :=
  fold_left (fun s c => Comp.getSubjects c s) (component d)
    (Params.add_cat (OT.getSubjects own subj) (get d "eventname") "subject" "event").
(** [Agent::mkDevices] *)
Fixpoint mk_each (names : list string) : M (option (list NetDevice)) :=
  match names with
  | [] => ok []
  | n :: names' => d ←! mk ("devices/" +:+ n) n; l ←! mk_each names'; ok (d :: l)
  end.
Definition mkDevices : M (option (list NetDevice)) :=
  r ← Dirs.dirList (configdir +:+ "/devices") [];
  l ←! mk_each r.2;
  ok (imap (fun i d => (d <| cycle := Z.of_nat (length l) |>) <| turn := Z.of_nat i |>) l).
End device.
End NDev.

(** ** Class Configurator: the last lists made, and the categories *)
Record NetConfigurator := mkNC { inputname : list string; componentname : list string; nc_sensor : string; nc_cmd : string }.
#[export] Instance NetConfigurator_rebuild : Rebuild NetConfigurator := fun c =>
  mkNC (inputname c) (componentname c) (nc_sensor c) (nc_cmd c).
Module NConf.
(** *** Gray codes *)
Definition gray_step (grey : list string) : list string :=
  map (fun s => "OFF+" +:+ s) grey ++ map (fun s => "ON+" +:+ s) (rev grey).
Fixpoint gray_loop (fuel : nat) (n : Z) (grey : list string) : list string :=
  match fuel with
  | O => grey
  | S f => if Z.of_nat (length grey) <? n then gray_loop f n (gray_step grey) else grey
  end.
(** The array has two elements at least; from 31 on the power does not fit into [int]. *)
Definition generateGrayCode (n : nat) : option (list string) :=
  if bool_decide (n = 0%nat) || (31 <=? n)%nat then None else Some (gray_loop n (2 ^ Z.of_nat n) ["OFF"; "ON"]).
Definition transition (current next : string) : string :=
  "<attribute name=" +:+ quote current +:+ " category=" +:+ quote "control" +:+ " value=" +:+ quote next +:+ "/>".
(** The states of a cycle, each with the one that follows. *)
Definition cycle_of (l : list string) : list (string * string) :=
  match l with [] => [] | s :: l' => zip l (l' ++ [s]) end.
Fixpoint newlines (l : list string) : string :=
  match l with [] => "" | [s] => s | s :: l' => s +:+ Msg.endl +:+ newlines l' end.
Definition transitions (l : list (string * string)) : string := newlines (map (fun kv => transition kv.1 kv.2) l).
Definition same (n : nat) (v : string) : string := NDev.join_plus (replicate n v).
(** The table of a device with [n] components. *)
Definition table (devtype : string) (n : nat) : option (list (string * string)) :=
  if devtype =s "onoff" then Some [(same n "OFF", same n "ON"); (same n "ON", same n "OFF")]
  else if devtype =s "cyclic" then cycle_of <$> generateGrayCode n
  else Some [].
Definition mkControl (ctempl devtype : string) (n : nat) : M (option string) :=
  if (devtype =s "onoff") || (devtype =s "cyclic") then
    t ←! lifto (table devtype n); ok (strReplace ctempl "$CONTROL" (transitions t)).2
  else log_info ("CONFIGURATOR: " +:+ devtype +:+ "not supported");; ok ctempl.

Section conf.
Context {P : Platform} {C : Config} {XP : XmlParser} {FS : PathNames}.
Implicit Types (m : MMessage) (c : NetConfigurator).
Variable turns : nat.

Definition mk : M (option NetConfigurator) :=
  r ←! Params.load (Params.mk2 "threads" "Configurator");
  ok (mkNC [] [] (Params.get r.2 "sensor_category") (Params.get r.2 "cmd_category")).
(** *** A device *)
Definition or_default (v d : string) : string := if v =s "" then d else v.
Definition template (name : string) : M (option string) :=
  t ← contents (configdir +:+ "/templates/" +:+ name); mret ((fun s => of_chars (until_nul (chars s))) <$> t).
Definition fill m (description : string) : option string := Conf.fill_items turns m (map fst (map_items (fields m))) description.
Definition write (file text : string) : M unit := Mng.write_text file text.
Fixpoint mkComponents (devicepath : string) (i : nat) (names : list string) : M (option string) :=
  match names with
  | [] => ok "done"
  | n :: names' =>
      t ← template "component.xml";
      match t with
      | None => ok "Failed"
      | Some text =>
          d ←! lifto (strReplaceAll turns text "$NAME" n);
          write (devicepath +:+ "/" +:+ n +:+ ".xml") (strReplace d "$ORDER" (pretty (Z.of_nat i))).2;;
          mkComponents devicepath (S i) names'
      end
  end.
Definition mkItem m (path : string) : M (option string) :=
  let name := Conf.item_name m in
  if name =s "" then ok "Failed"
  else
    let prefix := or_default (Msg.getString m "$PREFIX") "LI" in
    let devtype := or_default (Msg.getString m "$TYPE") "onoff" in
    let dir := configdir +:+ "/" +:+ path in
    _ ←! Dirs.makeDir dir true;
    let item := prefix +:+ "_" +:+ name in
    let devicepath := dir +:+ "/" +:+ item in
    _ ←! Dirs.makeDir devicepath true;
    t ← template "device.xml";
    match t with
    | None => ok "Failed"
    | Some text =>
        let devicefile := devicepath +:+ "/" +:+ item +:+ ".xml" in
        o ← open_out devicefile;
        if negb o then log_info ("Impossible to save: " +:+ devicepath);; ok "Failed"
        else
          d ←! lifto (fill m text);
          append devicefile d;;
          let components := NameList.of_string (Msg.getString m "$COMPONENT") "+" in
          if bool_decide (components = []) then log_info "Wrong number of component!!!!";; ok "Failed"
          else
            t ← template "control.xml";
            match t with
            | None => ok "Failed"
            | Some text =>
                d ←! lifto (fill m text);
                d ←! mkControl d devtype (length components);
                write (devicepath +:+ "/control.xml") d;;
                mkComponents devicepath 0 components
            end
    end.
(** *** Lists *)
Definition deviceList : M string :=
  r ← Dirs.dirList (configdir +:+ "/devices") []; mret (NDev.join_plus r.2).
Definition componentList (page : string -> string) c : option (string * NetConfigurator) :=
  l ← Conf.names_of page (Conf.categories (nc_cmd c)); Some (NDev.join_plus l, c <| componentname := l |>).
Definition inputList (page : string -> string) c : option (string * NetConfigurator) :=
  l ← Conf.names_of page (Conf.categories (nc_sensor c)); Some (NDev.join_plus l, c <| inputname := l |>).
(** *** Requests *)
(** What the shell does for "rm -r dir": what is below goes, if it may. *)
Definition below (d p : string) : bool := (p =s d) || String.prefix (d +:+ "/") p.
Definition rm_r (dir : string) : M unit := fun w =>
  let d := canon dir in
  let files := filter (fun kv => negb (below d kv.1) || negb (w_writable w kv.1) = true) (w_files w) in
  let stays x := negb (below d x) || negb (w_writable w x) || existsb (below x) (elements (dom files)) in
  (tt, set_dirs (filter (fun x => stays x || existsb (fun y => below x y && stays y) (elements (w_dirs w)) = true) (w_dirs w)) (set_files files w)).
Definition shell_rm (dir : string) : M unit :=
  cmdExec ("/bin/rm -r " +:+ dir);; if 1 <? debug then mret tt else rm_r dir.
Definition deleteItem (name : string) : M string :=
  let devicepathc := configdir +:+ "/devices/" +:+ name in
  let devicepathh := homedir +:+ "/devices/" +:+ name in
  d ← Dirs.isDir devicepathc;
  if negb d then mret "Failed"
  else
    Dirs.deleteFile (configdir +:+ "/devicemanifest") (name +:+ ".xml");;
    shell_rm devicepathc;;
    h ← Dirs.isDir devicepathh;
    (if h : bool then shell_rm devicepathh else mret tt);; mret "done".
Definition mkManifest m : M (option unit) :=
  let dir := configdir +:+ "/devicemanifest/" in
  d ← Dirs.isDir dir;
  _ ←! (if d : bool then ok true else Dirs.makeDir dir true);
  run (write (dir +:+ Msg.getString m "$PREFIX" +:+ "_" +:+ Msg.getString m "$NAME" +:+ ".xml") (Msg.xmlPrint m 1)).
(** The manifest is written when the device could not be made, too. *)
Definition serve (page : string -> string) (params : list string) m c : M (option (string * NetConfigurator)) :=
  back ←! lifto (last params);
  if back =s "adddevice" then r ←! mkItem m "devices"; _ ←! mkManifest m; ok (r, c)
  else if back =s "reboot" then crash
  else match params with
       | [_; d; name] =>
           if d =s "delete" then r ← deleteItem name; ok (r, c)
           else if back =s "devicelist" then r ← deviceList; ok (r, c)
           else if back =s "componentlist" then lifto (componentList page c)
           else if back =s "inputlist" then lifto (inputList page c) else ok ("", c)
       | _ =>
           if back =s "devicelist" then r ← deviceList; ok (r, c)
           else if back =s "componentlist" then lifto (componentList page c)
           else if back =s "inputlist" then lifto (inputList page c) else ok ("", c)
       end.
Definition exec (page : string -> string) (params : list string) (mth body : string) c : M (option (MMessage * NetConfigurator)) :=
  enabled ← checkConfigureEnabled;
  if negb enabled || (mth <>s "configure") then ok (Conf.body_answer "Not Found", c)
  else
    m ←! lifto (if body <>s "" then Conf.addBody Msg.dummy body else Some Msg.dummy);
    r ←! serve page params m c;
    ok (Conf.body_answer r.1, r.2).
End conf.
End NConf.
