(* ===== verification/NetDevClaims.v ===== *)
(** * Properties of the devices made of devices of other agents *)
From S2P Require Import Prelude Doubles Hsrv Xml MMessage World MParams Samples Subjects Archive ArchiveOps ArchiveFacts Configurator Users NameTable RemoteAgent Udp AgentNet NetDevices.

(** ** Gray codes *)
Definition diff1 (v w : list bool) : Prop := exists j, (j < length v)%nat /\ w = alter negb j v.
Fixpoint gray (n : nat) : list (list bool) :=
  match n with O => [[]] | S n => map (cons false) (gray n) ++ map (cons true) (rev (gray n)) end.
Definition adjacent (l : list (list bool)) : Prop :=
  forall i v w, l !! i = Some v -> l !! S i = Some w -> diff1 v w.
Lemma rev_reverse {A} (l : list A) : rev l = reverse l.
Proof. apply rev_alt. Qed.
Lemma alter_negb_twice j (v : list bool) : alter negb j (alter negb j v) = v.
Proof.
  revert j. induction v as [|b v IH]; intros [|j]; try done; cbn; [by rewrite negb_involutive|]. f_equal. apply IH.
Qed.
Lemma diff1_sym v w : diff1 v w -> diff1 w v.
Proof. intros (j & Hj & ->). exists j. rewrite length_alter, alter_negb_twice. done. Qed.
Lemma diff1_cons b v w : diff1 v w -> diff1 (b :: v) (b :: w).
Proof. intros (j & Hj & ->). exists (S j). simpl. split; [lia|done]. Qed.
Lemma diff1_head v b : diff1 (b :: v) (negb b :: v).
Proof. exists 0%nat. simpl. split; [lia|done]. Qed.
Lemma adjacent_cons b l : adjacent l -> adjacent (map (cons b) l).
Proof.
  intros H i v w. rewrite !list_lookup_fmap. destruct (l !! i) eqn:E1; [|done]. destruct (l !! S i) eqn:E2; [|done].
  simpl. intros [= <-] [= <-]. by eapply diff1_cons, H.
Qed.
Lemma adjacent_app a b :
  adjacent a -> adjacent b -> (forall v w, last a = Some v -> head b = Some w -> diff1 v w) -> adjacent (a ++ b).
Proof.
  intros Ha Hb Hm i v w H1 H2. destruct (Nat.lt_trichotomy (S i) (length a)) as [H|[H|H]].
  - rewrite lookup_app_l in H1 by lia. rewrite lookup_app_l in H2 by lia. by eapply Ha.
  - rewrite lookup_app_l in H1 by lia. rewrite lookup_app_r, H, Nat.sub_diag in H2 by lia. apply Hm; [|by rewrite head_lookup].
    rewrite last_lookup, <- H. done.
  - rewrite lookup_app_r in H1, H2 by lia. replace (S i - length a)%nat with (S (i - length a)) in H2 by lia. by eapply Hb.
Qed.
Lemma adjacent_rev l : adjacent l -> adjacent (rev l).
Proof.
  intros H. induction l as [|v l IH] using rev_ind; [done|]. rewrite rev_app_distr. simpl.
  assert (adjacent l) as Hl.
  { intros i x y H1 H2. apply (H i); [by apply lookup_app_l_Some|by apply lookup_app_l_Some]. }
  apply (adjacent_app [v] (rev l)); [by intros [|?] ? ?|by apply IH|].
  intros x y [= <-] Hy. apply diff1_sym. rewrite rev_reverse, head_reverse in Hy.
  rewrite last_lookup in Hy. apply (H (pred (length l))); [by apply lookup_app_l_Some|].
  destruct l as [|z l]; [done|]. rewrite lookup_app_r by (simpl; lia). simpl. by rewrite Nat.sub_diag.
Qed.
Lemma gray_length n : length (gray n) = (2 ^ n)%nat.
Proof. induction n as [|n IH]; [done|]. simpl. rewrite length_app, !length_map, length_rev, IH. lia. Qed.
Lemma gray_ne n : gray n <> [].
Proof. intros E. pose proof (gray_length n) as H. rewrite E in H. simpl in H. pose proof (Nat.pow_nonzero 2 n). lia. Qed.
Lemma gray_in n v : v ∈ gray n <-> length v = n.
Proof.
  revert v. induction n as [|n IH]; intros v; simpl.
  - rewrite list_elem_of_singleton. split; [by intros ->|]. by destruct v.
  - rewrite elem_of_app, !list_elem_of_fmap. split.
    + intros [(x & -> & Hx)|(x & -> & Hx)]; simpl; f_equal; apply IH; [done|]. by rewrite rev_reverse, elem_of_reverse in Hx.
    + destruct v as [|[] v]; [done| |]; intros [= H]; [right|left]; exists v; (split; [done|]); [rewrite rev_reverse, elem_of_reverse|]; by apply IH.
Qed.
Lemma gray_NoDup n : NoDup (gray n).
Proof.
  induction n as [|n IH]; simpl; [apply NoDup_singleton|]. apply NoDup_app. split_and!.
  - apply NoDup_fmap_2; [intros ? ?; congruence|done].
  - intros v (x & -> & _)%list_elem_of_fmap (y & [=] & _)%list_elem_of_fmap.
  - apply NoDup_fmap_2; [intros ? ?; congruence|]. rewrite rev_reverse. by rewrite reverse_Permutation.
Qed.
Lemma gray_adjacent n : adjacent (gray n).
Proof.
  induction n as [|n IH]; [by intros [|?] ? ?|]. simpl. apply adjacent_app; [by apply adjacent_cons|by apply adjacent_cons, adjacent_rev|].
  intros v w Hv Hw. rewrite fmap_last in Hv. rewrite rev_reverse, head_lookup, list_lookup_fmap, <- head_lookup, head_reverse in Hw.
  destruct (last (gray n)) as [l|]; simplify_eq/=. apply (diff1_head l false).
Qed.
Lemma gray_closes n v w : last (gray (S n)) = Some v -> head (gray (S n)) = Some w -> diff1 v w.
Proof.
  simpl. pose proof (gray_ne n) as Hne. destruct (gray n) as [|x l]; [done|].
  rewrite rev_reverse, reverse_cons, last_app, fmap_app, last_app. simpl.
  intros [= <-] [= <-]. apply (diff1_head x true).
Qed.

(** ** The states of a device with a Gray cycle *)
Definition word (on : bool) : string := if on then "ON" else "OFF".
Definition words (v : list bool) : list string := map word v.
Definition text (v : list bool) : string := NameList.join "+" (words v).
Lemma text_cons b v : v <> [] -> text (b :: v) = word b +:+ String "+" (text v).
Proof. destruct v; [done|]. intros _. unfold text, words. simpl. done. Qed.
Lemma text_ne b v : text (b :: v) <> "".
Proof. by destruct b. Qed.
Lemma split_text v : v <> [] -> NameList.of_string (text v) "+" = words v.
Proof.
  intros Hv. unfold NameList.of_string, NameList.init. destruct v as [|b v]; [done|].
  assert (text (b :: v) =s "" = false) as -> by (apply not_true_iff_false; rewrite seqb_true; apply text_ne).
  cbn [snd]. apply NameList.init_join.
  - apply (proj2 (Forall_map word (fun s => "+"%char ∉ chars s) (b :: v))), Forall_true. intros []; cbn; set_solver.
  - clear Hv. revert b. induction v as [|c v IH]; intros b; [by destruct b|]. apply IH.
Qed.

Lemma gray_step_text n :
  NConf.gray_step (map text (gray (S n))) = map text (gray (S (S n))).
Proof.
  unfold NConf.gray_step. remember (gray (S n)) as g eqn:Eg.
  change (gray (S (S n))) with (map (cons false) (gray (S n)) ++ map (cons true) (rev (gray (S n)))). rewrite <- Eg, map_app, !map_map.
  assert (forall v, v ∈ g -> v <> []) as Hg by (intros v Hv ->; rewrite Eg in Hv; by apply gray_in in Hv).
  f_equal.
  - apply map_ext_in. intros v Hv%list_elem_of_In. rewrite text_cons by by apply Hg. done.
  - rewrite <- map_rev, map_map. apply map_ext_in. intros v Hv%in_rev%list_elem_of_In. rewrite text_cons by by apply Hg. done.
Qed.
Lemma gray_loop_text n f k :
  (1 <= k <= n)%nat -> (n - k <= f)%nat ->
  NConf.gray_loop f (2 ^ Z.of_nat n) (map text (gray k)) = map text (gray n).
Proof.
  revert k. induction f as [|f IH]; intros k Hk Hf; simpl.
  - by replace k with n by lia.
  - rewrite length_map, gray_length, Nat2Z.inj_pow. case_match eqn:E.
    + apply Z.ltb_lt, Z.pow_lt_mono_r_iff in E; [|lia..]. destruct k as [|k]; [lia|]. rewrite gray_step_text. apply IH; lia.
    + apply Z.ltb_ge, Z.pow_le_mono_r_iff in E; [|lia..]. by replace k with n by lia.
Qed.
Lemma generated n :
  (1 <= n <= 30)%nat -> NConf.generateGrayCode n = Some (map text (gray n)).
Proof.
  intros Hn. unfold NConf.generateGrayCode. rewrite bool_decide_false by lia.
  assert ((31 <=? n)%nat = false) as -> by (apply Nat.leb_gt; lia). cbn [orb]. f_equal. apply (gray_loop_text n n 1); lia.
Qed.

(** *** Walking around a list *)
Section rotation.
Context {A : Type} `{EqDecision A}.
Implicit Types (l : list A).
Definition next_in l (v : A) : A :=
  match list_find (fun x => x = v) l with Some (i, _) => default v (l !! (S i mod length l)%nat) | None => v end.
Lemma next_in_lookup l i v :
  NoDup l -> l !! i = Some v -> l !! (S i mod length l)%nat = Some (next_in l v).
Proof.
  intros Hd Hi. assert (i < length l)%nat as Hl by by eapply lookup_lt_Some.
  unfold next_in. destruct (list_find_elem_of (fun x => x = v) l v) as [[j x] Hj]; [by eapply list_elem_of_lookup_2|done|].
  rewrite Hj. apply list_find_Some in Hj as (Hj & -> & _). rewrite (NoDup_lookup _ _ _ _ Hd Hj Hi).
  destruct (lookup_lt_is_Some_2 l (S i mod length l)%nat) as [y Hy]; [apply Nat.mod_upper_bound; lia|]. by rewrite Hy.
Qed.
Lemma next_in_iter l i v k :
  NoDup l -> l !! i = Some v -> l !! ((i + k) mod length l)%nat = Some (Nat.iter k (next_in l) v).
Proof.
  intros Hd Hi. assert (i < length l)%nat as Hl by by eapply lookup_lt_Some.
  induction k as [|k IH]; [by rewrite Nat.add_0_r, Nat.mod_small by lia|].
  rewrite Nat.iter_succ, <- (next_in_lookup l _ _ Hd IH). f_equal.
  rewrite <- (Nat.add_1_r ((i + k) mod length l)), Nat.Div0.add_mod_idemp_l. f_equal. lia.
Qed.
Lemma next_in_reaches l v w :
  NoDup l -> v ∈ l -> w ∈ l -> exists k, (k < length l)%nat /\ Nat.iter k (next_in l) v = w.
Proof.
  intros Hd [i Hi]%list_elem_of_lookup_1 [j Hj]%list_elem_of_lookup_1.
  pose proof (lookup_lt_Some _ _ _ Hi). pose proof (lookup_lt_Some _ _ _ Hj).
  assert (forall k, ((i + k) mod length l)%nat = j -> Nat.iter k (next_in l) v = w) as H1.
  { intros k E. pose proof (next_in_iter l i v k Hd Hi) as Hk. rewrite E in Hk. congruence. }
  destruct (decide (i <= j)%nat).
  - exists (j - i)%nat. split; [lia|]. apply H1. rewrite Nat.mod_small; lia.
  - exists (length l + j - i)%nat. split; [lia|]. apply H1. replace (i + (length l + j - i))%nat with (j + 1 * length l)%nat by lia.
    rewrite Nat.Div0.mod_add, Nat.mod_small; lia.
Qed.
End rotation.
Lemma cycle_of_lookup l i :
  NConf.cycle_of l !! i = x ← l !! i; y ← l !! (S i mod length l)%nat; Some (x, y).
Proof.
  destruct l as [|s l]; [done|]. unfold NConf.cycle_of. rewrite lookup_zip_with.
  destruct ((s :: l) !! i) as [x|] eqn:E; [|done]. cbn [mbind option_bind length]. apply lookup_lt_Some in E. cbn [length] in *.
  rename E into Hi. destruct (decide (i = length l)) as [->|Hne].
  - assert ((S (length l) mod S (length l))%nat = 0%nat) as -> by apply Nat.Div0.mod_same. rewrite lookup_app_r, Nat.sub_diag by lia. done.
  - rewrite Nat.mod_small by lia. rewrite lookup_app_l by lia. simpl. by destruct (l !! i).
Qed.

(** *** The table in a control file *)
Definition control_of (kv : string * string) : MAttribute := mkAttr kv.1 "control" kv.2.
Definition no_control (a : MAttribute) : Prop := category a <> "control".
Lemma get_after n c l r :
  Forall (fun a => category a <> c) l -> Params.get_loop (Params.is_named n c) (l ++ r) = Params.get_loop (Params.is_named n c) r.
Proof.
  induction 1 as [|a l Ha _ IH]; [done|]. simpl. assert (Params.is_named n c a = false) as ->; [|by rewrite IH].
  apply not_true_iff_false. by intros (_ & E)%Params.is_named_true.
Qed.
Lemma get_control t r s v :
  NoDup (map fst t) -> (s, v) ∈ t -> v <> "" ->
  Params.get_loop (Params.is_named s "control") (map control_of t ++ r) = v.
Proof.
  intros Hd Hin Hv. induction t as [|[a b] t IH]; [set_solver|]. apply NoDup_cons in Hd as [Hna Hd]. simpl.
  unfold Params.is_named at 1. simpl. apply elem_of_cons in Hin as [[= -> ->]|Hin].
  - by rewrite !seqb_refl, (seqb_ne b "").
  - rewrite (seqb_ne a s) by (intros ->; apply Hna; by apply (list_elem_of_fmap_2 fst t (s, v))). by apply IH.
Qed.
Lemma words_inj v w : words v = words w -> v = w.
Proof.
  revert w. induction v as [|b v IH]; intros [|c w]; [done..|]. intros [= E H]. f_equal; [by destruct b, c|by apply IH].
Qed.
Lemma texts_NoDup n : NoDup (map text (gray (S n))).
Proof.
  apply NoDup_fmap_2_strong; [|apply gray_NoDup]. intros v w Hv Hw E. apply gray_in in Hv, Hw. apply words_inj.
  rewrite <- !split_text by by intros ->. by rewrite E.
Qed.
Lemma cycle_states l : map fst (NConf.cycle_of l) = l.
Proof.
  destruct l as [|s l]; [done|]. apply fst_zip. rewrite length_app. simpl. lia.
Qed.
Lemma cycle_step n v t :
  length v = S n -> t = NConf.cycle_of (map text (gray (S n))) ->
  (text v, text (next_in (gray (S n)) v)) ∈ t /\ length (next_in (gray (S n)) v) = S n /\ diff1 v (next_in (gray (S n)) v).
Proof.
  intros Hv ->. apply gray_in in Hv. apply list_elem_of_lookup_1 in Hv as [i Hi].
  pose proof (next_in_lookup _ _ _ (gray_NoDup (S n)) Hi) as Hn. split_and!.
  - apply (list_elem_of_lookup_2 _ i). rewrite cycle_of_lookup, length_map, !list_lookup_fmap, Hi. cbn [fmap option_fmap option_map mbind option_bind].
    by rewrite Hn.
  - apply gray_in. by eapply list_elem_of_lookup_2.
  - pose proof (lookup_lt_Some _ _ _ Hi) as Hl. remember (gray (S n)) as g eqn:Eg. destruct (decide (S i = length g)) as [E|E].
    + rewrite E, Nat.Div0.mod_same in Hn. apply (gray_closes n); rewrite <- Eg; [|by rewrite head_lookup].
      rewrite last_lookup, <- E. done.
    + rewrite Nat.mod_small in Hn by lia. subst g. by apply (gray_adjacent (S n) i).
Qed.
(** C40: the table that the configurator writes for a cyclic device of [n] components moves the device through all the
    2^n states: each command "ON" changes one component, and from any state any other one is reached by less than 2^n
    commands. *)
Theorem cyclic_device_visits_every_state n p ty t pre post :
  (1 <= n <= 30)%nat -> NConf.table "cyclic" n = Some t ->
  attrs p = pre ++ map control_of t ++ post -> Forall no_control pre -> Params.get_cat p ty "trigger" <> "" ->
  exists next : list bool -> list bool,
    (forall v, length v = n ->
       length (next v) = n /\ diff1 v (next v) /\ Auto.actions p ty "ON" (text v) = words (next v)) /\
    (forall v w, length v = n -> length w = n -> exists k, (k < 2 ^ n)%nat /\ Nat.iter k next v = w).
Proof.
  intros Hn Ht Hp Hpre Htr. unfold NConf.table in Ht. cbn in Ht. rewrite generated in Ht by done. simplify_eq/=.
  destruct n as [|n]; [lia|]. exists (next_in (gray (S n))). split.
  - intros v Hv. destruct (cycle_step n v _ Hv eq_refl) as (Hin & Hl & Hd). split_and!; [done..|].
    unfold Auto.actions. rewrite seqb_ne by done. change (NameList.of_string "ON" "+") with ["ON"]. cbn [length Nat.ltb Nat.leb Nat.eqb andb].
    unfold Auto.nextState, Params.get_cat. rewrite Hp, get_after by done. rewrite (get_control _ _ _ _ ltac:(by rewrite cycle_states; apply texts_NoDup) Hin).
    + apply split_text. by intros E; rewrite E in Hl.
    + destruct (next_in (gray (S n)) v); [done|apply text_ne].
  - intros v w Hv Hw. rewrite <- (gray_length (S n)). apply next_in_reaches; [apply gray_NoDup|by apply gray_in..].
Qed.

Definition two_lamps : MParams :=
  mkParams "control" "" "" (mkAttr "cmd" "trigger" "LI_both" :: map control_of
    [("OFF+OFF", "OFF+ON"); ("OFF+ON", "ON+ON"); ("ON+ON", "ON+OFF"); ("ON+OFF", "OFF+OFF")]).
Lemma cyclic_device_visits_every_state_witness :
  exists next : list bool -> list bool,
    (forall v, length v = 2%nat ->
       length (next v) = 2%nat /\ diff1 v (next v) /\ Auto.actions two_lamps "cmd" "ON" (text v) = words (next v)) /\
    (forall v w, length v = 2%nat -> length w = 2%nat -> exists k, (k < 2 ^ 2)%nat /\ Nat.iter k next v = w).
Proof.
  apply (cyclic_device_visits_every_state 2 two_lamps "cmd" (tail (map (fun a => (aname a, avalue a)) (attrs two_lamps)))
    [mkAttr "cmd" "trigger" "LI_both"] []); [lia|reflexivity|reflexivity| |].
  - by apply Forall_singleton.
  - by vm_compute.
Defined.
