(* ===== verification/NetSamples.v ===== *)
(** * Concrete instances of the parameters of the network: an agent with one interface, no connection, a cipher that pads,
    and datagrams that carry what was sent.  The witnesses evaluate the models on them. *)
From S2P Require Import Prelude Doubles Hsrv Xml MMessage World RemoteAgent Udp AgentNet.

Definition alarm_identity : Identity := {| agentname := "alarm"; agenttype := "hat" |}.
Definition no_tcp : Tcp := {| tcp_connect := fun _ _ _ => None; tcp_reads := fun _ _ _ => [] |}.
Definition one_interface : Interfaces := {| getifaddrs := fun _ => Some [("lo", Some "127.0.0.1"); ("eth0", Some "10.0.0.1")] |}.
(** Five words that depend on the text, and a cipher that writes the length and adds NULs up to 64 bytes. *)
Definition toy_crypto : Crypto := {|
  key := unit;
  read_public := fun _ => Some tt;
  read_private := fun _ => Some tt;
  rsa_size := fun _ => 64%nat;
  rsa_encrypt := fun _ _ l =>
    if (length l <=? 63)%nat then Some (Ascii.ascii_of_nat (length l) :: l ++ replicate (63 - length l) nul) else None;
  rsa_decrypt := fun _ l => match l with c :: l' => Some (take (Ascii.nat_of_ascii c) l') | [] => None end;
  sha1 := fun l => let z := fold_left (fun h c => (h * 31 + Z.of_N (N_of_ascii c)) mod 2 ^ 32) l 7 in [z; z + 1; z + 2; z + 3; z + 4] |}.
Lemma toy_law (i : nat) k x e :
  rsa_encrypt (Crypto := toy_crypto) i k x = Some e -> length e = 64%nat /\ rsa_decrypt (Crypto := toy_crypto) k e = Some x.
Proof.
  simpl. destruct (Nat.leb_spec (length x) 63) as [H|]; [|done]. intros [= <-]. cbn [length]. rewrite length_app, length_replicate.
  split; [lia|]. by rewrite Ascii.nat_ascii_embedding, take_app_length by lia.
Qed.
Definition no_datagrams : Datagrams := {|
  udp_socket := fun _ => Some 4; udp_sent := fun _ d => Z.of_nat (length d); udp_arrival := fun _ => Nothing; udp_stale := fun _ => [] |}.

Module Instances.
#[export] Existing Instance alarm_identity.
#[export] Existing Instance no_tcp.
#[export] Existing Instance one_interface.
#[export] Existing Instance toy_crypto.
#[export] Existing Instance no_datagrams.
End Instances.
