(* ===== verification/UdpClaims.v ===== *)
(** * Properties of the datagrams between agents *)
From S2P Require Import Prelude Doubles Hsrv Xml MMessage World MParams Samples Subjects Archive ArchiveOps Users NameTable RemoteAgent Managers Udp AgentNet NetSamples.

(** ** Texts without a NUL *)
Definition free (l : list ascii) : Prop := nul ∉ l.
Lemma free_app a b : free (a ++ b) <-> free a /\ free b.
Proof. unfold free. rewrite elem_of_app. tauto. Qed.
Lemma until_nul_free l r : free l -> until_nul (l ++ r) = l ++ until_nul r.
Proof.
  induction l as [|c l IH]; intros H; [done|]. apply not_elem_of_cons in H as [Hc Hl]. simpl.
  unfold ceqb. destruct (Ascii.eqb_spec c nul); [congruence|]. by rewrite IH.
Qed.
Lemma filter_free l : free l -> List.filter (fun c => negb (c =c nul)) l = l.
Proof.
  induction l as [|c l IH]; intros H; [done|]. apply not_elem_of_cons in H as [Hc Hl]. simpl.
  unfold ceqb at 1. destruct (Ascii.eqb_spec c nul); [congruence|]. simpl. by rewrite IH.
Qed.
Lemma free_pretty_N (n : N) s : free (chars s) -> free (chars (pretty_N_go n s)).
Proof.
  revert s. induction (N.lt_wf_0 n) as [n _ IH]. intros s Hs. destruct (decide (0 < n)%N) as [Hn|Hn].
  - rewrite pretty_N_go_step by done. apply IH; [apply N.div_lt; lia|]. simpl. apply not_elem_of_cons. split; [|done].
    unfold pretty_N_char. repeat case_match; discriminate.
  - assert (n = 0%N) as -> by lia. by rewrite pretty_N_go_0.
Qed.
Lemma free_pretty (z : Z) : free (chars (pretty z)).
Proof.
  assert (forall n : N, free (chars (pretty n))) as H.
  { intros n. unfold pretty, pretty_N. destruct (decide _); [by apply (bool_decide_unpack _)|]. apply free_pretty_N, not_elem_of_nil. }
  destruct z as [|p|p]; [by apply (bool_decide_unpack _)|apply (H (N.pos p))|].
  unfold pretty, pretty_Z. rewrite chars_app. apply free_app. split; [by apply (bool_decide_unpack _)|]. apply (H (N.pos p)).
Qed.
Lemma free_zeros n : free (chars (zeros n)).
Proof. unfold zeros, free. rewrite chars_of_chars. by intros [= H]%elem_of_replicate_inv. Qed.
Lemma free_fixed5 n : free (chars (fixed5 n)).
Proof.
  unfold fixed5. rewrite !chars_app, !free_app. split_and!; [apply free_pretty|by apply (bool_decide_unpack _)|apply free_zeros|apply free_pretty].
Qed.
Lemma free_double2a x : free (chars (double2a x)).
Proof.
  assert (forall s : bool, free (chars (if s then "-" else ""))) as Hs by (intros []; by apply (bool_decide_unpack _)).
  destruct x as [s|s| |s m e]; simpl.
  - rewrite chars_app. apply free_app. split; [apply Hs|apply free_fixed5].
  - destruct s; by apply (bool_decide_unpack _).
  - by apply (bool_decide_unpack _).
  - rewrite chars_app. apply free_app. split; [apply Hs|apply free_fixed5].
Qed.
Lemma free_hex n v : free (Ciph.hex_digits n v).
Proof.
  revert v. induction n as [|n IH]; intros v; [apply not_elem_of_nil|]. simpl. apply free_app. split; [apply IH|].
  assert (H : 0 <= v mod 16 < 16) by (apply Z.mod_pos_bound; lia). intros E%list_elem_of_singleton.
  assert (bool_decide (Ciph.hex_digit (v mod 16) = nul) = false) as F.
  { apply negb_true_iff. revert H. generalize (v mod 16). apply (below_spec (fun x => negb (bool_decide (Ciph.hex_digit x = nul))) 16).
    vm_compute. reflexivity. }
  apply bool_decide_eq_false in F. congruence.
Qed.
Section digest.
Context {K : Crypto}.
Lemma free_digest l : free (Ciph.digest l).
Proof.
  unfold Ciph.digest. rewrite !free_app. split_and!; [by apply (bool_decide_unpack _)| |by apply (bool_decide_unpack _)].
  induction (sha1 l) as [|v r IH]; [apply not_elem_of_nil|]. cbn [map concat]. apply free_app. split; [apply free_hex|done].
Qed.
End digest.

(** ** The header *)
Definition is_digit (c : ascii) : bool := bool_decide (is_Some (digit_of c)).
Definition no_digit (l : list ascii) : Prop := match l with c :: _ => digit_of c = None | [] => True end.
Lemma scan_digits_app acc n d r :
  forallb is_digit d = true -> no_digit r ->
  scan_digits acc n (d ++ r) = let '(v, k, _) := scan_digits acc n d in (v, k, r).
Proof.
  revert acc n. induction d as [|c d IH]; intros acc n Hd Hr; simpl.
  - destruct r as [|c r]; [done|]. simpl in *. by rewrite Hr.
  - apply andb_true_iff in Hd as [Hc Hd]. unfold is_digit in Hc. apply bool_decide_eq_true in Hc as [x ->]. by apply IH.
Qed.
(** A field of the header: its digits, after white space, and its value. *)
Definition reads (s : string) (v : Z) : bool :=
  let d := skip_space (chars s) in
  forallb is_digit d && negb (bool_decide (d = [])) && (let '(x, k, _) := scan_digits 0 0 d in (x =? v) && negb (bool_decide (k = 0%nat))).
Lemma skip_space_app l r : skip_space l <> [] -> skip_space (l ++ r) = skip_space l ++ r.
Proof. induction l as [|c l IH]; [done|]. simpl. by destruct (Ascii.is_space c). Qed.
Lemma sign_digit c l : is_digit c = true -> scan_sign (c :: l) = (false, c :: l).
Proof. intros H. unfold scan_sign. destruct c as [[] [] [] [] [] [] [] []]; done. Qed.
Lemma scan_d_reads s v r :
  reads s v = true -> no_digit r -> 0 <= v < 2 ^ 31 -> Frame.scan_d (chars s ++ r) = Some (v, r).
Proof.
  intros H Hr Hv. unfold reads in H. apply andb_true_iff in H as [[Hd Hne]%andb_true_iff Hs].
  apply negb_true_iff, bool_decide_eq_false in Hne. unfold Frame.scan_d. rewrite skip_space_app by done.
  destruct (skip_space (chars s)) as [|c d]; [done|]. simpl app. pose proof Hd as Hd'. apply andb_true_iff in Hd' as [Hc _].
  rewrite sign_digit by done. change (c :: d ++ r) with ((c :: d) ++ r). rewrite scan_digits_app by done.
  destruct (scan_digits 0 0 (c :: d)) as [[x k] rest]. apply andb_true_iff in Hs as [Hx Hk].
  apply Z.eqb_eq in Hx as ->. apply negb_true_iff in Hk as ->. do 2 f_equal. unfold clamp_long.
  assert (2 ^ 31 = 2147483648 /\ 2 ^ 63 = 9223372036854775808) as [E1 E2] by done.
  rewrite Z.min_l by lia. rewrite Z.max_r by lia. apply swrap_id; [done|]. change (2 ^ (32 - 1)) with (2 ^ 31). lia.
Qed.
Lemma reads_pad3 n : 0 <= n < 1000 -> reads (Frame.pad3 n) n = true /\ String.length (Frame.pad3 n) = 3%nat.
Proof.
  intros H. assert (reads (Frame.pad3 n) n && (String.length (Frame.pad3 n) =? 3)%nat = true) as [H1 H2]%andb_true_iff.
  { revert n H. apply (below_spec (fun n => reads (Frame.pad3 n) n && (String.length (Frame.pad3 n) =? 3)%nat) 1000). by vm_compute. }
  split; [done|]. by apply Nat.eqb_eq.
Qed.
Definition width (n : Z) : nat := if n <? 1000 then 3 else 4.
Lemma reads_pad3s n : 0 <= n < 10000 -> reads (pad3s n) n = true /\ String.length (pad3s n) = width n.
Proof.
  intros H. assert (reads (pad3s n) n && (String.length (pad3s n) =? width n)%nat = true) as [H1 H2]%andb_true_iff.
  { revert n H. apply (below_spec (fun n => reads (pad3s n) n && (String.length (pad3s n) =? width n)%nat) (Z.to_nat 10000)). by vm_compute. }
  split; [done|]. by apply Nat.eqb_eq.
Qed.
Definition comma : list ascii := [","%char].
Lemma positions_fields a b c x y z r :
  reads a x = true -> reads b y = true -> reads c z = true -> 0 <= x < 2 ^ 31 -> 0 <= y < 2 ^ 31 -> 0 <= z < 2 ^ 31 -> no_digit r ->
  Frame.positions (chars a ++ comma ++ chars b ++ comma ++ chars c ++ r) = Some (x, y, z).
Proof.
  intros Ha Hb Hc Hx Hy Hz Hr. unfold Frame.positions.
  rewrite (scan_d_reads a x) by done. cbn -[Frame.scan_d chars]. rewrite (scan_d_reads b y) by done.
  cbn -[Frame.scan_d chars]. by rewrite (scan_d_reads c z).
Qed.
(** The first twelve bytes of the header; the last comma is not one of them when the third position has four digits. *)
Definition total (ks size : nat) : Z := Z.of_nat (size + BGAP + ks).
Definition head12 (ks size : nat) : list ascii := take BGAP (Frame.header ks size).
Lemma header_ok ks size :
  Z.of_nat (ks + BGAP) < 1000 -> total ks size < 10000 ->
  length (head12 ks size) = BGAP /\ (length (Frame.header ks size) <= 13)%nat /\ free (head12 ks size) /\
  forall r, total ks size < 1000 \/ no_digit r ->
    Frame.positions (head12 ks size ++ r) = Some (Z.of_nat BGAP, Z.of_nat (ks + BGAP), total ks size).
Proof.
  intros Hk Ht. unfold head12, Frame.header. fold (total ks size).
  destruct (reads_pad3 (Z.of_nat BGAP)) as [Ra La]; [done|].
  destruct (reads_pad3 (Z.of_nat (ks + BGAP))) as [Rb Lb]; [lia|].
  destruct (reads_pad3s (total ks size)) as [Rc Lc]; [unfold total in *; lia|].
  assert (forall n, free (chars (Frame.pad3 n)) /\ free (chars (pad3s n))) as F.
  { intros n. unfold Frame.pad3, pad3s. cbv zeta. rewrite !chars_app, !free_app. split_and!; try apply free_pretty; [apply free_zeros|].
    unfold free. rewrite chars_of_chars. by intros [= H]%elem_of_replicate_inv. }
  pose proof (proj1 (F (Z.of_nat BGAP))) as Fa. pose proof (proj1 (F (Z.of_nat (ks + BGAP)))) as Fb. pose proof (proj2 (F (total ks size))) as Fc.
  assert (0 <= total ks size < 2 ^ 31) as Hc by (unfold total in *; lia).
  assert (0 <= Z.of_nat (ks + BGAP) < 2 ^ 31) as Hb by lia.
  clear F. revert Ra La Rb Lb Rc Lc Fa Fb Fc. generalize (pad3s (total ks size)) (Frame.pad3 (Z.of_nat (ks + BGAP))) (Frame.pad3 (Z.of_nat BGAP)).
  intros c b a Ra La Rb Lb Rc Lc Fa Fb Fc. rewrite !chars_app. change (chars ",") with comma.
  rewrite <- !length_chars in La, Lb, Lc.
  set (e := if total ks size <? 1000 then comma else []).
  assert (take BGAP (chars a ++ comma ++ chars b ++ comma ++ chars c ++ comma) = chars a ++ comma ++ chars b ++ comma ++ chars c ++ e) as ->.
  { rewrite (take_app_ge (chars a)), La by (rewrite La; unfold BGAP; lia). rewrite (take_app_ge comma) by (simpl; lia).
    rewrite (take_app_ge (chars b)), Lb by (rewrite Lb; simpl; lia). rewrite (take_app_ge comma) by (simpl; lia). simpl.
    do 3 f_equal. simpl. f_equal. unfold e, width in *. destruct (total ks size <? 1000).
    - apply take_ge. rewrite length_app, Lc. simpl. lia.
    - rewrite app_nil_r. by rewrite take_app_length'. }
  assert (length (chars c) + length e = 4)%nat as Le by (rewrite Lc; unfold e, width; by destruct (total ks size <? 1000)).
  split_and!.
  - rewrite !length_app, La, Lb. unfold BGAP. simpl. lia.
  - rewrite !length_app, La, Lb, Lc. unfold width. destruct (total ks size <? 1000); simpl; lia.
  - assert (free comma) as Fcomma by (by apply (bool_decide_unpack _)). rewrite !free_app. split_and!; try done.
    unfold e. destruct (_ <? _); [done|apply not_elem_of_nil].
  - intros r Hr. rewrite <- !(assoc_L (++)). apply positions_fields; try done.
    unfold e. destruct (Z.ltb_spec (total ks size) 1000); [done|]. simpl. destruct Hr; [lia|done].
Qed.

(** ** The frame *)
Lemma seal_eq ks enc msg :
  length enc = ks -> free msg -> msg <> [] -> (length (Frame.header ks (length msg)) <= 13)%nat ->
  length (head12 ks (length msg)) = BGAP ->
  Frame.seal ks enc msg = head12 ks (length msg) ++ enc ++ msg ++ replicate 4 nul.
Proof.
  intros He Hm Hne Hh H12. unfold Frame.seal. rewrite until_nul_all by done. set (size := length msg) in *.
  assert (0 < size)%nat as Hs by (subst size; destruct msg; [done|simpl; lia]).
  set (H := Frame.header ks size) in *. unfold head12 in *. fold H in H12 |- *. clearbody H. rewrite length_take in H12.
  set (L0 := replicate (ks + size + EXTRACHARS) nul). unfold BGAP, EXTRACHARS in *.
  assert (length H = 12 \/ length H = 13)%nat as HH by lia.
  unfold Frame.put. rewrite !length_app, He. fold size. change (length [nul]) with 1%nat. rewrite take_0, Nat.add_0_l, app_nil_l.
  set (L1 := (H ++ [nul]) ++ drop (length H + 1) L0).
  assert (forall k, (length H + 1 <= k)%nat -> drop k L1 = drop k L0) as Hd.
  { intros k Hk. unfold L1. rewrite drop_app_ge by (rewrite length_app; simpl; lia). rewrite drop_drop, length_app. simpl. f_equal. lia. }
  assert (take 12 L1 = take 12 H) as Ht.
  { unfold L1. rewrite <- (assoc_L (++)). rewrite take_app_le by lia. done. }
  rewrite Ht. set (L2 := take 12 H ++ enc ++ drop (12 + ks) L1).
  assert (take (ks + 12) L2 = take 12 H ++ enc) as ->.
  { unfold L2. rewrite (assoc_L (++)). apply take_app_length'. rewrite length_app, length_take, He. lia. }
  assert (drop (ks + 12 + (size + 1)) L2 = replicate 3 nul) as ->.
  { unfold L2. rewrite (assoc_L (++)). rewrite drop_app_ge by (rewrite length_app, length_take, He; lia).
    rewrite length_app, length_take, He. replace (12 `min` length H)%nat with 12%nat by lia.
    rewrite drop_drop, Hd by lia. unfold L0. rewrite drop_replicate. f_equal. lia. }
  by rewrite <- !(assoc_L (++)).
Qed.
Lemma text_at_eq h enc msg rest :
  free msg -> (length h + length enc + length msg < Z.to_nat (2 ^ 31))%nat ->
  Frame.text_at (Z.of_nat (length h + length enc)) (Z.of_nat (length h + length enc + length msg))
    (length h + length enc + length msg + 4) (h ++ enc ++ msg ++ rest) = msg.
Proof.
  intros Hm Hl. unfold Frame.text_at. rewrite !wrap_small by lia. rewrite Z.min_l by lia.
  rewrite Nat2Z.id. rewrite (assoc_L (++)), drop_app_length' by (by rewrite length_app).
  replace (Z.to_nat _) with (length msg) by lia. rewrite take_app_length. by apply filter_free.
Qed.
Lemma find_mark m rest : contains "<>" m = false -> sfind "<>" (m +:+ "<>" +:+ rest) 0 = Some (String.length m).
Proof.
  intros Hc. set (s := m +:+ "<>" +:+ rest).
  assert (Hex : contains "<>" s = true) by (by apply contains_at).
  unfold contains in Hex. apply bool_decide_eq_true in Hex as [pos E]. rewrite E. f_equal.
  assert (forall i, String.index 0 "<>" s = Some i -> take 2 (drop i (chars s)) = chars "<>") as Hat.
  { intros i Hi. apply String.index_correct1, (f_equal chars) in Hi. by rewrite substring_chars in Hi. }
  destruct (Nat.lt_trichotomy pos (String.length m)) as [H|[H|H]]; [|done|].
  - exfalso. pose proof (Hat pos E) as Hp. unfold s in Hp. rewrite !chars_app in Hp.
    rewrite drop_app_le in Hp by (rewrite length_chars; lia).
    assert (length (drop pos (chars m)) = String.length m - pos)%nat as Hl by (by rewrite length_drop, length_chars).
    destruct (drop pos (chars m)) as [|a [|b r]] eqn:Ed; simpl in *; [lia|simplify_eq|].
    injection Hp as -> ->. rewrite <- not_true_iff_false in Hc. apply Hc.
    rewrite <- (of_chars_chars m), <- (take_drop pos (chars m)), Ed.
    replace (of_chars _) with (of_chars (take pos (chars m)) +:+ "<>" +:+ of_chars r); [by apply contains_at|].
    rewrite <- (of_chars_chars (_ +:+ _)). f_equal. rewrite !chars_app, !chars_of_chars. done.
  - exfalso. unfold sfind in E. apply (String.index_correct2 _ _ _ _ E (String.length m)); [lia|done|].
    rewrite <- (of_chars_chars (String.substring _ _ _)). rewrite <- (of_chars_chars "<>") at 2. f_equal.
    rewrite substring_chars. unfold s. rewrite !chars_app, <- (length_chars m), drop_app_length. done.
Qed.
Lemma split_text_eq m t :
  m <> "" -> contains "<>" m = false -> (String.length m + String.length t < Z.to_nat (2 ^ 31))%nat ->
  Frame.split_text (m +:+ "<>" +:+ of_chars [Ascii.ascii_of_nat 34] +:+ t +:+ of_chars [Ascii.ascii_of_nat 34]) =
  Some (take_str (String.length m - 1) m, t).
Proof.
  intros Hm Hc Hl. unfold Frame.split_text. rewrite find_mark by done.
  set (q := of_chars [Ascii.ascii_of_nat 34]). set (s := m +:+ "<>" +:+ q +:+ t +:+ q).
  assert (String.length s = String.length m + String.length t + 4)%nat as Hs.
  { unfold s. rewrite !length_sapp. simpl. lia. }
  assert (0 < String.length m)%nat by (destruct m; [done|simpl; lia]).
  assert (2 ^ 31 < 2 ^ 64) by done.
  rewrite !wrap_small by lia. destruct (Z.ltb_spec (Z.of_nat (String.length s)) (Z.of_nat (String.length m) + 3)); [lia|].
  rewrite !Z.min_l by lia.
  replace (Z.to_nat (Z.of_nat (String.length m) + 3)) with (String.length m + 3)%nat by lia.
  replace (Z.to_nat (Z.of_nat (String.length s) - Z.of_nat (String.length m) - 4)) with (String.length t) by lia.
  replace (Z.to_nat (Z.of_nat (String.length m) - 1)) with (String.length m - 1)%nat by lia.
  unfold substr. replace (_ <=? _)%nat with true by (symmetry; apply Nat.leb_le; lia). cbn [mbind option_bind]. do 2 f_equal.
  - rewrite <- (of_chars_chars (take_str _ s)), <- (of_chars_chars (take_str _ m)). f_equal. rewrite !take_str_chars.
    unfold s. rewrite chars_app, take_app_le by (rewrite length_chars; lia). done.
  - rewrite <- (of_chars_chars (String.substring _ _ _)). transitivity (of_chars (chars t)); [|apply of_chars_chars].
    f_equal. rewrite substring_chars.
    unfold s. rewrite !chars_app. rewrite drop_app_ge by (rewrite length_chars; lia). rewrite length_chars.
    replace (String.length m + 3 - String.length m)%nat with 3%nat by lia. simpl.
    by rewrite <- (length_chars t), drop_0, take_app_length.
Qed.

(** ** From the client to the server *)
Section channel.
Context {P : Platform} {K : Crypto} {D : Datagrams}.

Lemma c_text_nul l : nul ∈ l -> c_text_of l = Some (until_nul l).
Proof.
  intros H. unfold c_text_of. replace (existsb _ l) with true; [done|]. symmetry. apply existsb_exists. exists nul.
  split; [by apply list_elem_of_In|by apply Ascii.eqb_refl].
Qed.
(** What the server makes of a sealed frame, whatever follows it in the buffer. *)
Lemma open_sealed ciph k' enc m t stale s w :
  let msg := m +:+ "<>" +:+ of_chars [Ascii.ascii_of_nat 34] +:+ t +:+ of_chars [Ascii.ascii_of_nat 34] in
  let ks := rsa_size k' in let size := String.length msg in let frame := Frame.seal ks enc (chars msg) in
  privatekey ciph = Some k' -> length enc = ks -> rsa_decrypt k' enc = Some (Ciph.digest (chars msg)) ->
  m <> "" -> free (chars msg) -> contains "<>" m = false ->
  Z.of_nat (ks + BGAP) < 1000 -> total ks size < 1000 \/ (total ks size < 10000 /\ no_digit (take 1 enc) /\ (0 < ks)%nat) ->
  result (US.open ciph (length frame) (frame ++ stale) s) w =
  Some (if US.in_time (a2double t) (result gettime w) then (Z.of_nat (length frame), take_str (String.length m - 1) m, s <| sv_err := 0 |>)
        else (-1, "", s <| sv_err := -1 |>)).
Proof.
  intros msg ks size frame Hk He Hdec Hm Hfree Hmark Hks Hfit.
  assert (size = String.length m + String.length t + 4)%nat as Hsize.
  { unfold size, msg. rewrite !length_sapp. simpl. lia. }
  assert (total ks size < 10000) as Ht by lia.
  destruct (header_ok ks size Hks Ht) as (H12 & Hh & Hf & Hpos). set (h := head12 ks size) in *.
  assert (length (chars msg) = size) as Lmsg by apply length_chars.
  assert (frame = h ++ enc ++ chars msg ++ replicate 4 nul) as Eframe.
  { transitivity (head12 ks (length (chars msg)) ++ enc ++ chars msg ++ replicate 4 nul); [|by rewrite Lmsg].
    apply seal_eq; rewrite ?Lmsg; try done. intros E. rewrite E in Lmsg. simpl in Lmsg. lia. }
  assert (length frame = length h + length enc + length (chars msg) + 4)%nat as Hlen.
  { rewrite Eframe, !length_app, length_replicate. lia. }
  set (tail := replicate 4 nul ++ stale).
  assert (frame ++ stale = h ++ enc ++ chars msg ++ tail) as Ebuff by (rewrite Eframe; by rewrite <- !(assoc_L (++))).
  clearbody frame. unfold US.open, result. rewrite bindo_run. unfold lifto. cbn [mret M_ret].
  rewrite c_text_nul by (rewrite Ebuff; unfold tail; set_solver). cbn [mbind option_bind].
  rewrite Ebuff, until_nul_free, Hpos by (done || (destruct Hfit as [Hfit|(_ & Hfit & Hpositive)]; [by left|right];
    destruct enc as [|c enc']; simpl in *; [lia|]; unfold ceqb; destruct (Ascii.eqb_spec c nul); done)).
  change (Z.of_nat BGAP <? 0) with false. cbn iota. rewrite bindo_run. cbn [mret M_ret]. rewrite Nat2Z.id.
  unfold Ciph.private_decrypt. rewrite Hk. cbn [mbind option_bind]. fold ks.
  rewrite drop_app_length' by done. rewrite take_app_length' by done.
  destruct (Nat.ltb_spec (length (enc ++ chars msg ++ tail)) ks); [rewrite length_app in *; lia|].
  rewrite Hdec. cbn [fmap option_fmap option_map]. rewrite until_nul_all by apply free_digest.
  replace (Z.of_nat (ks + BGAP)) with (Z.of_nat (length h + length enc)) by (f_equal; lia).
  replace (total ks size) with (Z.of_nat (length h + length enc + length (chars msg))) by (unfold total; f_equal; lia).
  rewrite Hlen, text_at_eq by (done || (unfold total in Ht; lia)). cbv zeta. rewrite bool_decide_true by done. cbn [negb].
  rewrite bindo_run. cbn [mret M_ret]. rewrite of_chars_chars. unfold msg at 1. rewrite split_text_eq by (done || (unfold total in Ht; lia)).
  cbn iota. cbn [fst snd]. rewrite run_bind. destruct (US.in_time _ _); [|done]. unfold ok, mret, M_ret. cbn [fst]. do 3 f_equal.
  rewrite <- Hlen. apply swrap_id; [done|]. change (2 ^ (32 - 1)) with (2 ^ 31). unfold total in Ht. lia.
Qed.
Lemma length_put i d l : (length l <= length (Frame.put i d l))%nat.
Proof. unfold Frame.put. rewrite !length_app, length_take, length_drop. lia. Qed.
Lemma length_seal ks enc msg : (ks + length msg + EXTRACHARS <= length (Frame.seal ks enc msg))%nat.
Proof. unfold Frame.seal. rewrite <- !length_put, length_replicate. done. Qed.
Lemma maxlength_Z : Z.of_nat MAXLENGTH = 65000.
Proof. by vm_compute. Qed.
(** C16: an announcement the client seals with the public key, received by a server that holds the private key within
    [MAXDELAY] seconds of its time stamp, is handed over without its last character; later, or earlier than that before its
    stamp, it is refused.  The message holds no mark "<>" and no NUL, the frame has less than 10000 bytes before
    its last four, and from 1000 bytes on the cipher text does not start with a digit, which would be read as part of the header. *)
Theorem announcement_roundtrip ciph1 ciph2 k k' m s w w2 d :
  publickey ciph1 = Some k -> privatekey ciph2 = Some k' -> rsa_size k' = rsa_size k ->
  (0 < rsa_size k)%nat -> Z.of_nat (rsa_size k + BGAP) < 1000 ->
  (forall i x e, rsa_encrypt i k x = Some e -> length e = rsa_size k /\ rsa_decrypt k' e = Some x) ->
  m <> "" -> nul ∉ chars m -> contains "<>" m = false ->
  result (UC.frame ciph1 m) w = Some (Some d) ->
  Z.of_nat (length d) < 1004 \/ Z.of_nat (length d) < 10004 /\ (forall c, d !! BGAP = Some c -> digit_of c = None) ->
  sv_encrypt s = true -> udp_arrival (w_tick w2) = Arrived d ->
  result (US.recvMsg ciph2 s) w2 =
  Some (if US.in_time (a2double (double2a (gettime_of (w_clock w (w_tick w))))) (gettime_of (w_clock w2 (S (w_tick w2))))
        then (Z.of_nat (length d), take_str (String.length m - 1) m, s <| sv_err := 0 |>)
        else (-1, "", s <| sv_err := -1 |>)).
Proof.
  intros Hpub Hpriv Hsize Hpos Hks Hlaw Hm Hfree Hmark Hd Hfit Henc Harr.
  set (t := double2a (gettime_of (w_clock w (w_tick w)))).
  set (msg := m +:+ "<>" +:+ of_chars [Ascii.ascii_of_nat 34] +:+ t +:+ of_chars [Ascii.ascii_of_nat 34]).
  assert (exists i enc, rsa_encrypt i k (Ciph.digest (chars msg)) = Some enc /\ d = Frame.seal (rsa_size k') enc (chars msg)) as (i & enc & Ee & Ed).
  { unfold UC.frame in Hd. rewrite result_bind in Hd. unfold result in Hd. rewrite bindo_run in Hd.
    unfold Ciph.public_encrypt in Hd. rewrite Hpub in Hd. cbn -[Ciph.digest Frame.seal Frame.stamp] in Hd.
    destruct (rsa_encrypt _ k _) as [enc|] eqn:Ee; [|done]. cbn in Hd. injection Hd as <-. eexists _, enc. rewrite Hsize. by split; [exact Ee|]. }
  destruct (Hlaw i _ enc Ee) as [Hl Hdec].
  assert (free (chars msg)) as Hfmsg.
  { unfold msg. rewrite !chars_app, !free_app. split_and!; try done; try by apply (bool_decide_unpack _). apply free_double2a. }
  pose proof (length_seal (rsa_size k') enc (chars msg)) as Hge. rewrite <- Ed, length_chars in Hge. unfold EXTRACHARS in Hge.
  rewrite Hsize in *. assert (total (rsa_size k) (String.length msg) < 10000) as Ht by (unfold total, BGAP; lia).
  destruct (header_ok _ _ Hks Ht) as (H12 & Hh & _ & _).
  assert (chars msg <> []) as Hne by (unfold msg; rewrite chars_app; by destruct m).
  assert (d = head12 (rsa_size k) (String.length msg) ++ enc ++ chars msg ++ replicate 4 nul) as Ed'.
  { rewrite Ed, <- (length_chars msg). apply seal_eq; rewrite ?length_chars; try done. }
  assert (length d = BGAP + rsa_size k + String.length msg + 4)%nat as Hlen.
  { rewrite Ed', !length_app, H12, Hl, length_replicate, length_chars. lia. }
  pose proof maxlength_Z as HM. unfold US.recvMsg, result. cbv zeta. rewrite Harr, Henc.
  destruct d as [|c0 d0] eqn:Ed0; [simpl in Hlen; lia|]. rewrite <- Ed0 in *. clear c0 d0 Ed0.
  unfold US.buffer. rewrite take_app_ge by lia. rewrite Nat.min_l by lia.
  generalize (take (MAXLENGTH - length d) (drop (length d) (udp_stale (w_tick w2)))). intros stale.
  rewrite Ed. rewrite <- Hsize.
  apply (open_sealed ciph2 k' enc m t stale s (set_tick (S (w_tick w2)) w2)); rewrite ?Hsize; try assumption.
  destruct Hfit as [Hfit|[Hfit Hdig]]; fold msg; [left; unfold total, BGAP in *; lia|right]. split_and!; [done| |done].
  destruct enc as [|c enc']; [done|]. apply Hdig. rewrite Ed', lookup_app_r, H12, Nat.sub_diag by (by rewrite H12). done.
Qed.
End channel.

(** Without encryption the text handed over goes on with what an earlier, longer datagram left in the buffer. *)
Lemma plain_announcement_has_a_tail {P : Platform} {K : Crypto} {D : Datagrams} ciph s w d :
  d <> [] -> free d -> (length d <= MAXLENGTH)%nat -> sv_encrypt s = false -> udp_arrival (w_tick w) = Arrived d ->
  nul ∈ take (MAXLENGTH - length d) (drop (length d) (udp_stale (w_tick w))) ->
  result (US.recvMsg ciph s) w =
  Some (Z.of_nat (length d), of_chars (d ++ until_nul (take (MAXLENGTH - length d) (drop (length d) (udp_stale (w_tick w))))), s <| sv_err := 0 |>).
Proof.
  intros Hne Hf Hl Hs Ha Hz. unfold US.recvMsg, result. cbv zeta. rewrite Ha, Hs. destruct d as [|c d']; [done|].
  set (d := c :: d') in *. clearbody d. unfold US.buffer. rewrite take_app_ge by done. rewrite (Nat.min_l (length d)) by done.
  rewrite c_text_nul by (apply elem_of_app; by right). rewrite until_nul_free by done. cbn [mbind option_bind fst]. do 3 f_equal.
  pose proof maxlength_Z. apply swrap_id; [done|]. change (2 ^ (32 - 1)) with (2 ^ 31). lia.
Qed.

(** ** Witnesses *)
Import Samples.Instances.
Import NetSamples.Instances.
Definition ring : Cipher := mkCipher (Some tt) (Some tt).
Definition greeting : string := "<message subtype=" +:+ quote "hello" +:+ "/>".
Definition sealed : list ascii :=
  match result (UC.frame ring greeting) (world_at early) with Some (Some d) => d | _ => [] end.
#[local] Instance one_datagram : Datagrams := {|
  udp_socket := fun _ => Some 4; udp_sent := fun _ d => Z.of_nat (length d); udp_arrival := fun _ => Arrived sealed; udp_stale := fun _ => [] |}.
Lemma announcement_roundtrip_witness :
  result (US.recvMsg (D := one_datagram) ring (mkUdp "226.0.0.2" "54321" true 3 0)) (world_at early) =
  Some (Z.of_nat (length sealed), "<message subtype=" +:+ quote "hello" +:+ "/", mkUdp "226.0.0.2" "54321" true 3 0).
Proof.
  refine (announcement_roundtrip (D := one_datagram) ring ring tt tt greeting (mkUdp "226.0.0.2" "54321" true 3 0) (world_at early) (world_at early) sealed
    _ _ _ _ _ _ _ _ _ _ _ _ _).
  - done.
  - done.
  - done.
  - apply (bool_decide_unpack _). by vm_compute.
  - by vm_compute.
  - exact (fun i x e => toy_law i tt x e).
  - done.
  - apply (bool_decide_unpack _). by vm_compute.
  - by vm_compute.
  - by vm_compute.
  - left. by vm_compute.
  - done.
  - done.
Defined.
