(* ===== verification/NetClaims.v ===== *)
(** * Properties of the network of agents: the observers made for other agents, their expiry, the twin that waits *)
From S2P Require Import Prelude Doubles Hsrv Xml MMessage World MParams Samples Subjects Archive ArchiveOps ArchiveFacts BusClaims NameTable RemoteAgent Managers AgentConf Udp AgentNet NetSamples.

(** ** Who is listed on the bus *)
Definition listed (b : Bus) (a : nat) : Prop := exists k s, subjects b !! k = Some s /\ Some a ∈ sobservers s.
Lemma listed_alive b a : bus_ok b -> listed b a -> is_Some (observers b !! a).
Proof.
  intros H (k & s & Hk & Ha). destruct (H k s Hk) as (l & [Hl _] & Hall). rewrite Hl in Ha.
  apply list_elem_of_fmap in Ha as (x & [= <-] & Hx). rewrite Forall_forall in Hall. by apply Hall.
Qed.
Lemma listed_register s (o a : nat) : Some a ∈ sobservers (Sub.register_observer s o) -> a = o \/ Some a ∈ sobservers s.
Proof.
  unfold Sub.register_observer. destruct (Sub.isNotRegistered s o); [|by right]. simpl.
  intros [H|H%list_elem_of_singleton]%elem_of_app; [by right|left; by injection H].
Qed.
Lemma listed_add_observer b t st o a : listed (SubjSet.add_observer b t st o).2 a -> a = o \/ listed b a.
Proof.
  unfold SubjSet.add_observer. intros (k & s & Hk & Ha). destruct (SubjSet.serving b t st) as [k0|]; simpl in Hk.
  - destruct (decide (k0 = k)) as [->|Hne].
    + rewrite lookup_alter_eq in Hk. destruct (subjects b !! k) as [s0|] eqn:E; simplify_eq/=.
      apply listed_register in Ha as [->|Ha]; [by left|right; by exists k, s0].
    + rewrite lookup_alter_ne in Hk by done. right. by exists k, s.
  - destruct (SubjSet.isDummy st); [|right; by exists k, s]. simpl in Hk. rewrite map_lookup_imap in Hk.
    destruct (subjects b !! k) as [s0|] eqn:E; simplify_eq/=. case_match; [|right; by exists k, s0].
    apply listed_register in Ha as [->|Ha]; [by left|right; by exists k, s0].
Qed.
Lemma listed_remove b o a : bus_ok b -> listed (SubjSet.remove_observer b o).2 a -> a <> o /\ listed b a.
Proof.
  intros H (k & s & Hk & Ha). simpl in Hk. rewrite lookup_fmap in Hk.
  destruct (subjects b !! k) as [s0|] eqn:E; simplify_eq/=. destruct (H k s0 E) as (l & Hr & _).
  destruct (remove_registered s0 l o Hr) as [Hl _]. rewrite Hl in Ha.
  apply list_elem_of_fmap in Ha as (x & [= <-] & [Hx Hin]%list_elem_of_filter). apply bool_decide_eq_false in Hx.
  split; [done|]. exists k, s0. split; [done|]. destruct Hr as [-> _]. by apply list_elem_of_fmap_2.
Qed.
Lemma listed_stays b o a k s : bus_ok b -> a <> o -> subjects b !! k = Some s -> Some a ∈ sobservers s ->
  exists s', subjects (SubjSet.remove_observer b o).2 !! k = Some s' /\ Some a ∈ sobservers s'.
Proof.
  intros H Hne Hk Ha. exists (Sub.remove_observer s o). simpl. rewrite lookup_fmap, Hk. split; [done|].
  destruct (H k s Hk) as (l & Hr & _). destruct (remove_registered s l o Hr) as [-> _].
  destruct Hr as [Hl _]. rewrite Hl in Ha. apply list_elem_of_fmap in Ha as (x & [= <-] & Hx).
  apply list_elem_of_fmap_2, list_elem_of_filter. split; [by apply bool_decide_eq_false|done].
Qed.
Lemma start_spec b a o :
  bus_ok b -> is_Some (observers b !! a) ->
  let b' := (OTCP.start b a o).1 in
  bus_ok b' /\ observers b' = observers b /\ forall x, listed b' x -> x = a \/ listed b x.
Proof.
  intros H Ha. unfold OTCP.start. simpl. revert b H Ha.
  induction (observes o) as [|x l IH]; intros b H Ha; simpl; [by auto|].
  assert (observers (SubjSet.add_observer b (avalue x) (aname x) a).2 = observers b) as Eo.
  { unfold SubjSet.add_observer. destruct (SubjSet.serving _ _ _); [done|]. by destruct (SubjSet.isDummy _). }
  destruct (IH (SubjSet.add_observer b (avalue x) (aname x) a).2) as (H1 & H2 & H3).
  { by apply ok_add_observer. }
  { by rewrite Eo. }
  split_and!; [done|by rewrite H2|]. intros y [->|Hy%listed_add_observer]%H3; [by left|done].
Qed.

(** ** The invariant *)
(** The observer of an agent is alive in the memory of the process and on the bus, two agents never share one, and
    of the observers made for agents only those in use are listed on the bus. *)
Record sound (n : Net) : Prop := {
  snd_bus : bus_ok (bus n);
  snd_live : forall ag a, tcp_observers n !! ag = Some a -> is_Some (remotes n !! a);
  snd_remotes : forall a, is_Some (remotes n !! a) -> is_Some (observers (bus n) !! a);
  snd_inj : forall ag1 ag2 a, tcp_observers n !! ag1 = Some a -> tcp_observers n !! ag2 = Some a -> ag1 = ag2;
  snd_used : forall a, is_Some (remotes n !! a) -> listed (bus n) a -> exists ag, tcp_observers n !! ag = Some a }.
Definition net_ok (n : Net) : Prop := sound n /\ dom (tcp_observers n) = dom (foreign_agents n).
(** Only the parts about the observers and the bus matter. *)
Lemma sound_ext n n' :
  sound n -> tcp_observers n' = tcp_observers n -> remotes n' = remotes n ->
  subjects (bus n') = subjects (bus n) -> observers (bus n') = observers (bus n) -> sound n'.
Proof.
  intros [Hb Hl Hr Hi Hu] E1 E2 E3 E4. split; rewrite ?E1, ?E2; try done.
  - intros k s. rewrite E3. intros Hk. destruct (Hb k s Hk) as (l & H1 & H2). exists l. by rewrite E4.
  - by rewrite E4.
  - intros a Ha (k & s & Hk & Hs). apply (Hu a Ha). exists k, s. by rewrite <- E3.
Qed.

Section net.
Context {P : Platform} {C : Config} {XP : XmlParser} {FS : PathNames} {I : Identity} {T : Tcp} {K : Crypto} {D : Datagrams} {If : Interfaces}.
Implicit Types (n : Net) (m : MMessage).

Lemma disactivate_known n ag : sound n -> is_Some (tcp_observers n !! ag) -> is_Some (AN.disactivateObserverTCP ag n).
Proof.
  intros H [a Ha]. unfold AN.disactivateObserverTCP. rewrite Ha. cbn.
  destruct (snd_live n H ag a Ha) as [o ->]. by eexists.
Qed.
Lemma disactivate_spec n ag n' :
  sound n -> AN.disactivateObserverTCP ag n = Some n' ->
  sound n' /\ tcp_observers n' = delete ag (tcp_observers n) /\ foreign_agents n' = foreign_agents n /\
  validityTime n' = validityTime n /\
  (forall a, tcp_observers n !! ag = Some a -> ~ listed (bus n') a) /\
  (forall ag' a k s, ag' <> ag -> tcp_observers n !! ag' = Some a -> subjects (bus n) !! k = Some s ->
     Some a ∈ sobservers s -> exists s', subjects (bus n') !! k = Some s' /\ Some a ∈ sobservers s') /\
  (forall a, listed (bus n') a -> listed (bus n) a).
Proof.
  intros [Hb Hl Hr Hi Hu]. unfold AN.disactivateObserverTCP. destruct (tcp_observers n !! ag) as [a|] eqn:Ea; [|done]. cbn.
  destruct (remotes n !! a) as [o|] eqn:Eo; [|done]. cbn. intros [= <-]. simpl.
  assert (forall x, is_Some (<[a := OTCP.stop o]> (remotes n) !! x) <-> is_Some (remotes n !! x)) as Hsome.
  { intros x. rewrite lookup_insert_is_Some'. split; [intros [<-|?]; [by exists o|done]|by right]. }
  split_and!; [|done..| | |by intros x [_ Hx]%(listed_remove (bus n))].
  - split; simpl.
    + by apply (ok_remove_observer (bus n)).
    + intros ag' a' H. apply lookup_delete_Some in H as [_ H]. by apply Hsome, (Hl ag').
    + intros x Hx%Hsome. by apply Hr.
    + intros x y z [_ Hx]%lookup_delete_Some [_ Hy]%lookup_delete_Some. by apply (Hi x y z).
    + intros x Hx%Hsome Hlx. apply (listed_remove (bus n)) in Hlx as [Hne Hlx]; [|done].
      destruct (Hu x Hx Hlx) as [ag' H']. exists ag'. apply lookup_delete_Some. split; [|done]. naive_solver.
  - intros a' [= <-] H. by apply (listed_remove (bus n)) in H as [? _].
  - intros ag' a' k s Hne Ha' Hk Hs. apply (listed_stays (bus n) a a' k s); [done| |done..].
    intros ->. by apply Hne, (Hi ag' ag a).
Qed.
Lemma activate_spec n ag :
  sound n ->
  outcome (fun n' => sound n' /\ dom (tcp_observers n') = {[ag]} ∪ dom (tcp_observers n) /\
             foreign_agents n' = foreign_agents n /\ validityTime n' = validityTime n) (AN.activateObserverTCP ag n).
Proof.
  intros [Hb Hl Hr Hi Hu]. unfold AN.activateObserverTCP.
  apply (outcome_bindo (fun _ => True)); [apply outcome_any|]. intros [o ob] _. cbv beta zeta iota.
  set (f := fresh (dom (observers (bus n)))).
  assert (observers (bus n) !! f = None) as Hf by (apply not_elem_of_dom, is_fresh).
  set (b1 := bus n <| observers := <[f := ob]> (observers (bus n)) |>).
  assert (bus_ok b1) as Hb1.
  { intros k s Hk. destruct (Hb k s Hk) as (l & H1 & H2). exists l. split; [done|]. eapply Forall_impl; [exact H2|].
    intros x Hx. simpl. apply lookup_insert_is_Some'. by right. }
  set (a := default f (tcp_observers n !! ag)).
  apply outcome_bindo with (Q := fun o => <[f := o]> (remotes n) !! a = Some o \/ True).
  { intros ? ? ? ?. by right. }
  intros o' _. match goal with |- context [OTCP.start ?b ?x ?y] => change b with b1; change x with a end.
  destruct (OTCP.start b1 a o') as [b2 o2] eqn:Es. apply outcome_ok.
  assert (is_Some (observers b1 !! a)) as Ha.
  { simpl. subst a. destruct (tcp_observers n !! ag) as [x|] eqn:Ex; simpl; [|by rewrite lookup_insert_eq].
    apply lookup_insert_is_Some'. right. by apply Hr, (Hl ag). }
  destruct (start_spec b1 a o' Hb1 Ha) as (H1 & H2 & H3). rewrite Es in H1, H2, H3. cbn in H1, H2, H3 |- *.
  assert (forall x, is_Some (<[a := o2]> (<[f := o]> (remotes n)) !! x) -> x = a \/ x = f \/ is_Some (remotes n !! x)) as Hcases.
  { intros x. rewrite !lookup_insert_is_Some'. naive_solver. }
  assert (forall y, tcp_observers n !! y = Some a -> y = ag) as Hown.
  { intros y Hy. subst a. destruct (tcp_observers n !! ag) as [v|] eqn:Ev; [by apply (Hi y ag v)|].
    destruct (Hr f) as [? E]; [by apply (Hl y)|congruence]. }
  assert (~ listed (bus n) f) as Hnf.
  { intros H%listed_alive; [|done]. rewrite Hf in H. by destruct H. }
  split_and!; [|by rewrite dom_insert_L|done..].
  split; simpl.
  - done.
  - intros ag' a' H. apply lookup_insert_Some in H as [[-> <-]|[Hne H]]; apply lookup_insert_is_Some'; [by left|].
    destruct (decide (a = a')) as [|Hn]; [by left|right]. apply lookup_insert_is_Some'. right. by apply (Hl ag').
  - intros x Hx. rewrite H2. apply lookup_insert_is_Some'. destruct (Hcases x Hx) as [->|[->|Hx']]; [|by left|right; by apply Hr].
    simpl in Ha. apply lookup_insert_is_Some' in Ha. destruct Ha as [Ha|Ha]; [left; exact Ha|right; exact Ha].
  - intros x y z Hx Hy. apply lookup_insert_Some in Hx as [[Ex Ez]|[Hx1 Hx]]; apply lookup_insert_Some in Hy as [[Ey Ez']|[Hy1 Hy]].
    + by rewrite <- Ex, <- Ey.
    + rewrite <- Ex. symmetry. apply Hown. by rewrite Ez.
    + rewrite <- Ey. apply Hown. by rewrite Ez'.
    + by apply (Hi x y z).
  - intros x Hx Hlx. destruct (H3 x Hlx) as [->|Hlx']; [exists ag; apply lookup_insert_eq|].
    assert (listed (bus n) x) as Hl0 by exact Hlx'.
    destruct (Hcases x Hx) as [->|[->|Hx']]; [exists ag; apply lookup_insert_eq|by destruct Hnf|].
    destruct (Hu x Hx' Hl0) as [ag' H']. exists ag'. destruct (decide (ag = ag')) as [->|Hne].
    + rewrite lookup_insert_eq. subst a. by rewrite H'.
    + by rewrite lookup_insert_ne.
Qed.
Lemma set_foreign_dom n ag i : dom (foreign_agents (AN.set_foreign n ag i)) = {[ag]} ∪ dom (foreign_agents n).
Proof. simpl. by rewrite dom_insert_L. Qed.
Lemma reconnect_ok m ag n :
  sound n -> dom (foreign_agents n) = {[ag]} ∪ dom (tcp_observers n) ->
  outcome (fun n' => net_ok n' /\ foreign_agents n' = foreign_agents n) (AN.reconnect m ag n).
Proof.
  intros Hs Hd. apply outcome_bind. intros _ w n' w' H.
  destruct (activate_spec n ag Hs w n' w' H) as (H1 & H2 & H3 & _). split; [|done]. split; [done|]. by rewrite H2, H3, Hd.
Qed.
(** An agent whose observer is taken away and made again. *)
Lemma remake_ok m n n1 ag i :
  net_ok n -> is_Some (foreign_agents n !! ag) -> AN.disactivateObserverTCP ag n = Some n1 ->
  outcome (fun n' => net_ok n' /\ is_Some (foreign_agents n' !! ag)) (AN.reconnect m ag (AN.set_foreign n1 ag i)).
Proof.
  intros [Hs Hd] Hag H1. destruct (disactivate_spec n ag n1 Hs H1) as (Hs1 & Et & Ef & _).
  intros w n' w' H. eapply reconnect_ok in H as [H Hf].
  - split; [done|]. rewrite Hf. simpl. rewrite lookup_insert_eq. by eexists.
  - by apply (sound_ext n1).
  - rewrite set_foreign_dom. simpl. rewrite Ef, Et, dom_delete_L, Hd. apply set_eq. intros x. destruct (decide (x = ag)); set_solver.
Qed.
Lemma update_ok m n : net_ok n -> outcome net_ok (AN.update m n).
Proof.
  intros Hn. unfold AN.update. set (ag := Msg.getString m "agentname"). set (n0 := AN.wsServerUpdate m n).
  assert (net_ok n0) as H0.
  { subst n0. unfold AN.wsServerUpdate. destruct (_ <>s "wsserver"); [done|]. destruct Hn as [Hs Hd].
    split; [by apply (sound_ext n)|done]. }
  clearbody n0. case_bool_decide as He; [by apply outcome_ok|].
  set (Q := fun n' : Net => net_ok n' /\ is_Some (foreign_agents n' !! ag)).
  apply outcome_bindo with (Q := Q).
  - destruct (foreign_agents n0 !! ag) as [i|] eqn:Ei.
    + assert (is_Some (foreign_agents n0 !! ag)) as Hag by (by eexists). apply outcome_bindo with (Q := Q).
      * unfold AN.change_ip. fold ag. destruct (_ =s _); [by apply outcome_ok|].
        apply outcome_bindo with (Q := fun n1 => AN.disactivateObserverTCP ag n0 = Some n1); [by apply outcome_lifto|].
        intros n1 H1. apply outcome_bind. intros _. by apply (remake_ok m n0).
      * intros n1 [H1 Hag1]. apply (outcome_bindo (fun _ => True)); [apply outcome_any|]. intros i2 _.
        unfold AN.change_events. fold ag. destruct (_ && _); [by apply outcome_ok|].
        apply outcome_bindo with (Q := fun n2 => AN.disactivateObserverTCP ag n1 = Some n2); [by apply outcome_lifto|].
        intros n2 H2. apply outcome_bind. intros _. by apply (remake_ok m n1).
    + unfold AN.connect. fold ag. apply outcome_bind. intros _.
      apply (outcome_bindo (fun _ => True)); [apply outcome_any|]. intros i _ w n' w' H. destruct H0 as [Hs Hd].
      eapply reconnect_ok in H as [H Hf].
      * split; [done|]. rewrite Hf. simpl. rewrite lookup_insert_eq. by eexists.
      * by apply (sound_ext n0).
      * rewrite set_foreign_dom. simpl. by rewrite Hd.
  - intros n1 [[Hs Hd] [i Hi]]. apply outcome_bind. intros now. rewrite Hi.
    apply (outcome_bindo (fun _ => True)); [apply outcome_any|]. intros i' _. apply outcome_ok.
    split; [by apply (sound_ext n1)|]. rewrite set_foreign_dom. simpl. rewrite Hd.
    assert (ag ∈ dom (foreign_agents n1)) by (apply elem_of_dom; by eexists). set_solver.
Qed.
Lemma result_setStatus st b w : result (AConf.setStatus st b) w = b <| agent_status := st |>.
Proof. unfold AConf.setStatus. by rewrite !result_bind. Qed.
Definition stand_by (t : Z) n : Net :=
  (AN.set_mine (n <| myinfo := (myinfo n) <| timestamp := t |> |>) "status" "waiting") <| bus := bus n <| agent_status := false |> |>.
Lemma twin_spec m n w :
  result (AN.twin m n) w =
  if String.ltb (AN.my n "ip") (Msg.getString m "ip") then stand_by (result AN.gettime_t w) n else n.
Proof. unfold AN.twin. destruct (String.ltb _ _); [|done]. rewrite !result_bind, result_setStatus. done. Qed.
Lemma heard_ok m n : net_ok n -> outcome net_ok (AN.heard m n).
Proof.
  intros Hn. unfold AN.heard. destruct (_ && _); [|by apply update_ok].
  intros w n' w'. rewrite run_run. intros [= <- _]. rewrite twin_spec. destruct (String.ltb _ _); [|done].
  destruct Hn as [Hs Hd]. split; [by apply (sound_ext n)|done].
Qed.

(** ** Agents that are silent *)
Definition timeless {A} (c : M A) : Prop := forall w, w_tick (final c w) = w_tick w /\ w_clock (final c w) = w_clock w.
Lemma timeless_bind {A B} (c : M A) (k : A -> M B) : timeless c -> (forall a, timeless (k a)) -> timeless (c ≫= k).
Proof. intros Hc Hk w. rewrite final_bind. destruct (Hk (result c w) (final c w)) as [-> ->]. apply Hc. Qed.
Lemma timeless_ret {A} (a : A) : timeless (mret a).
Proof. done. Qed.
Lemma timeless_log s : timeless (log_info s).
Proof. done. Qed.
Lemma timeless_isFile_ext p e : timeless (Dirs.isFile_ext p e).
Proof. unfold Dirs.isFile_ext. apply timeless_bind; [done|]. intros [|]; [apply timeless_ret|]. by apply timeless_bind. Qed.
Lemma timeless_unlink p : timeless (unlink p).
Proof. intros w. unfold unlink, final. destruct (w_files w !! p); [|done]. by destruct (w_writable w p). Qed.
Lemma timeless_deleteFile p f : timeless (Dirs.deleteFile p f).
Proof.
  unfold Dirs.deleteFile. apply timeless_bind; [done|]. intros [|]; [|apply timeless_ret].
  apply timeless_bind; [apply timeless_unlink|]. intros [|]; [apply timeless_ret|]. by apply timeless_bind.
Qed.
Definition seconds (w : world) (i : nat) : Z := tv_sec (w_clock w (w_tick w + i)).
Lemma find_expired_spec n l w :
  let r := AN.find_expired n l w in
  (forall i ag, l !! i = Some ag -> NoDup l -> (ag ∈ r.1 <-> AN.agent_valid n (seconds w i) ag = false)) /\ r.1 ⊆ l /\
  (NoDup l -> NoDup r.1).
Proof.
  revert w. induction l as [|ag l IH]; intros w; simpl; [by split_and!|].
  rewrite run_bind. set (w1 := final (AN.check_agent_status ag n) w).
  assert (result (AN.check_agent_status ag n) w = AN.agent_valid n (seconds w 0) ag) as ->.
  { unfold seconds. rewrite Nat.add_0_r. done. }
  assert (forall i, seconds w1 i = seconds w (S i)) as Hw1.
  { intros i. unfold seconds. simpl. do 2 f_equal. lia. }
  destruct (AN.agent_valid n (seconds w 0) ag) eqn:Ev.
  - destruct (IH w1) as (H1 & H2 & H3). cbv zeta in *. split_and!.
    + intros [|i] x Hi [Hx Hl]%NoDup_cons; simpl in Hi; simplify_eq; [rewrite Ev; split; [|done]; intros H%H2; done|].
      by rewrite (H1 i x Hi Hl), Hw1.
    + set_solver.
    + by intros [_ Hl]%NoDup_cons; auto.
  - rewrite run_bind. set (w2 := final (AN.disconnected ag) w1).
    rewrite run_bind. set (w3 := final (Dirs.isFile_ext _ _) w2). rewrite run_bind. set (w4 := final _ w3). rewrite run_bind.
    assert (forall i, seconds w4 i = seconds w (S i)) as Hw4.
    { intros i. rewrite <- Hw1. unfold seconds.
      assert (timeless (if result (Dirs.isFile_ext AN.dir (ag +:+ ".xml")) w2 then Dirs.deleteFile AN.dir (ag +:+ ".xml");; mret tt else mret tt)) as Ht.
      { destruct (result _ _); [|apply timeless_ret]. apply timeless_bind; [apply timeless_deleteFile|done]. }
      destruct (Ht w3) as [E1 E2]. fold w4 in E1, E2. rewrite E1, E2.
      destruct (timeless_isFile_ext AN.dir (ag +:+ ".xml") w2) as [E3 E4]. fold w3 in E3, E4. by rewrite E3, E4. }
    clearbody w4. clear w2 w3. destruct (IH w4) as (H1 & H2 & H3). unfold result at 1 2 3.
    cbn -[AN.find_expired]. split_and!.
    + intros [|i] x Hi [Hx Hl]%NoDup_cons; simpl in Hi; simplify_eq; [rewrite Ev; split; [done|]; intros _; by left|].
      rewrite elem_of_cons. rewrite <- Hw4, <- (H1 i x Hi Hl). split; [|by right]. intros [->|H]; [|done].
      destruct Hx. by eapply list_elem_of_lookup_2.
    + set_solver.
    + intros [Hx Hl]%NoDup_cons. apply NoDup_cons. split; [|auto]. intros H%H2. done.
Qed.
(** The observer of a known agent stays on the lists it is on. *)
Definition keeps_listed (ag : string) n n' : Prop :=
  forall a k s, tcp_observers n !! ag = Some a -> subjects (bus n) !! k = Some s -> Some a ∈ sobservers s ->
  exists s', subjects (bus n') !! k = Some s' /\ Some a ∈ sobservers s'.
Lemma forget_spec l n w :
  net_ok n -> NoDup l -> (forall ag, ag ∈ l -> is_Some (foreign_agents n !! ag)) ->
  exists n', result (AN.forget l n) w = Some n' /\ net_ok n' /\
    (forall ag, foreign_agents n' !! ag = if bool_decide (ag ∈ l) then None else foreign_agents n !! ag) /\
    (forall ag a, ag ∉ l -> tcp_observers n !! ag = Some a -> tcp_observers n' !! ag = Some a) /\
    (forall ag, ag ∉ l -> keeps_listed ag n n') /\
    (forall ag a, ag ∈ l -> tcp_observers n !! ag = Some a -> ~ listed (bus n') a) /\
    (forall a, listed (bus n') a -> listed (bus n) a).
Proof.
  revert n w. induction l as [|ag l IH]; intros n w Hn Hl Hk.
  { exists n. split_and!; [done..| | | |done]; [by intros ag a _|by intros ag _ a k s _; exists s|by intros ag a ?%not_elem_of_nil]. }
  apply NoDup_cons in Hl as [Hag Hl]. simpl. rewrite result_bind. destruct Hn as [Hs Hd].
  assert (is_Some (tcp_observers n !! ag)) as Hobs.
  { apply elem_of_dom. rewrite Hd. apply elem_of_dom, Hk. by left. }
  destruct (disactivate_known n ag Hs Hobs) as [n1 H1].
  unfold bindo at 1. rewrite result_bind. unfold lifto, result at 2. cbn [mret M_ret fst]. rewrite H1, result_bind.
  destruct (disactivate_spec n ag n1 Hs H1) as (Hs1 & Et & Ef & _ & Hgone & Hstay & Hle1).
  set (n2 := n1 <| foreign_agents := delete ag (foreign_agents n1) |>).
  destruct (IH n2 (final (Dirs.deleteFile AN.dir (ag +:+ ".xml")) (final (mret (Some n1)) (final (AN.disconnected ag) w))))
    as (n' & H2 & Hok & Hf & Ho & Hst & Hg & Hle); [|done| |].
  { split; [by apply (sound_ext n1)|]. simpl. by rewrite Et, Ef, !dom_delete_L, Hd. }
  { intros x Hx. simpl. rewrite Ef, lookup_delete_ne by (by intros ->). apply Hk. by right. }
  exists n'. split_and!; [exact H2|done| | | | |by intros a Ha%Hle%Hle1].
  - intros x. rewrite Hf. simpl. rewrite Ef. destruct (decide (x = ag)) as [->|Hne].
    + rewrite lookup_delete_eq. rewrite (bool_decide_true (ag ∈ ag :: l)) by (by left). by destruct (bool_decide _).
    + rewrite lookup_delete_ne by done. by rewrite (bool_decide_ext (x ∈ ag :: l) (x ∈ l)) by set_solver.
  - intros x a [Hne Hx]%not_elem_of_cons Ha. apply Ho; [done|]. simpl. by rewrite Et, lookup_delete_ne.
  - intros x [Hne Hx]%not_elem_of_cons a k s Ha Hks Hin. destruct (Hstay x a k s Hne Ha Hks Hin) as (s1 & Hs1k & Hin1).
    apply (Hst x Hx a k s1); [simpl; by rewrite Et, lookup_delete_ne|done..].
  - intros x a [->|Hx]%elem_of_cons Ha.
    + intros Hx%Hle. by apply (Hgone a).
    + assert (x <> ag) by (by intros ->). apply Hg with x; [done|]. simpl. by rewrite Et, lookup_delete_ne.
Qed.
(** What is not listed hears nothing. *)
Lemma unlisted_silent b a m r b' :
  bus_ok b -> ~ listed b a -> SubjSet.notify b m = Some (r, b') -> observers b' !! a = observers b !! a.
Proof.
  intros H Hl Hn. destruct (notify_as_spec b (mtype m) (msubtype m) m H) as (r' & obs' & Hn' & _ & Hsame).
  unfold SubjSet.notify in Hn. rewrite Hn' in Hn. simplify_eq. simpl. apply Hsame. intros k s Hk Hs. apply Hl. by exists k, s.
Qed.
Lemma items_keys {V} (f : gmap string V) i ag :
  map fst (map_items f) !! i = Some ag -> exists x, map_items f !! i = Some (ag, x) /\ f !! ag = Some x.
Proof.
  rewrite list_lookup_fmap. destruct (map_items f !! i) as [[k x]|] eqn:E; [|done]. intros [= <-]. exists x.
  split; [done|]. apply elem_of_map_items. by eapply list_elem_of_lookup_2.
Qed.
Lemma check_expired_spec n w :
  net_ok n ->
  exists (l : list string) n', result (AN.check_expired n) w = Some n' /\ net_ok n' /\
    (forall i ag inf, map_items (foreign_agents n) !! i = Some (ag, inf) ->
       (ag ∈ l <-> (seconds w i - timestamp inf <=? validityTime n) = false)) /\
    (forall ag, foreign_agents n' !! ag = if bool_decide (ag ∈ l) then None else foreign_agents n !! ag) /\
    (forall ag a, ag ∉ l -> tcp_observers n !! ag = Some a -> tcp_observers n' !! ag = Some a) /\
    (forall ag, ag ∉ l -> keeps_listed ag n n') /\
    (forall ag a, ag ∈ l -> tcp_observers n !! ag = Some a -> ~ listed (bus n') a).
Proof.
  intros Hn. unfold AN.check_expired. rewrite result_bind.
  pose proof (find_expired_spec n (map fst (map_items (foreign_agents n))) w) as (H1 & H2 & H3). cbv zeta in *.
  pose proof (map_items_NoDup_keys (foreign_agents n)) as Hnd.
  set (l := result (AN.find_expired n (map fst (map_items (foreign_agents n)))) w).
  destruct (forget_spec l n (final (AN.find_expired n (map fst (map_items (foreign_agents n)))) w) Hn (H3 Hnd))
    as (n' & Hr & Hok & Hf & Ho & Hst & Hg & _).
  { intros ag Hag. apply H2, list_elem_of_lookup in Hag as [i Hi]. apply items_keys in Hi as (x & _ & Hx). by eexists. }
  exists l, n'. split_and!; [done..| |done|done|done|done]. intros i ag inf Hi.
  assert (map fst (map_items (foreign_agents n)) !! i = Some ag) as Hk by (by rewrite list_lookup_fmap, Hi).
  assert (foreign_agents n !! ag = Some inf) as Hinf by (apply elem_of_map_items; by eapply list_elem_of_lookup_2).
  etransitivity; [exact (H1 i ag Hk Hnd)|]. unfold AN.agent_valid. by rewrite Hinf.
Qed.

(** C15: the check of the agents always ends, and the i-th known agent, in the order of the names, is kept exactly when its
    last announcement is at most [validityTime] seconds old at the i-th reading of the clock: it keeps its data,
    its observer and the subjects the observer listens to.  The others are forgotten, and whatever is notified afterwards, the
    queues of their observers do not change. *)
Theorem silent_agents_are_dropped n w :
  net_ok n ->
  exists n', result (AN.check_expired n) w = Some n' /\ net_ok n' /\
    forall i ag inf, map_items (foreign_agents n) !! i = Some (ag, inf) ->
      if seconds w i - timestamp inf <=? validityTime n
      then foreign_agents n' !! ag = Some inf /\ tcp_observers n' !! ag = tcp_observers n !! ag /\ keeps_listed ag n n'
      else foreign_agents n' !! ag = None /\
           forall a m r b, tcp_observers n !! ag = Some a -> SubjSet.notify (bus n') m = Some (r, b) ->
             observers b !! a = observers (bus n') !! a.
Proof.
  intros Hn. destruct (check_expired_spec n w Hn) as (l & n' & Hr & Hok & Hl & Hf & Ho & Hst & Hg). exists n'. split_and!; [done..|].
  intros i ag inf Hi. specialize (Hl i ag inf Hi).
  assert (foreign_agents n !! ag = Some inf) as Hinf by (apply elem_of_map_items; by eapply list_elem_of_lookup_2).
  destruct (_ <=? _) eqn:E; rewrite Hf.
  - assert (ag ∉ l) as Hag by (by intros ?%Hl). rewrite bool_decide_false by done. split_and!; [done| |by apply Hst].
    assert (is_Some (tcp_observers n !! ag)) as [a Ha].
    { apply elem_of_dom. destruct Hn as [_ ->]. apply elem_of_dom. by eexists. }
    rewrite Ha. by apply Ho.
  - assert (ag ∈ l) as Hag by (by apply Hl). rewrite bool_decide_true by done. split; [done|].
    intros a m r b Ha. apply unlisted_silent; [apply Hok|by apply (Hg ag)].
Qed.

(** ** The states of the network *)
Inductive net_run : Net -> Prop :=
| net_start n : tcp_observers n = ∅ -> remotes n = ∅ -> foreign_agents n = ∅ -> bus_ok (bus n) -> net_run n
| net_heard n m w n' : net_run n -> result (AN.heard m n) w = Some n' -> net_run n'
| net_check n w n' : net_run n -> result (AN.check_expired n) w = Some n' -> net_run n'
| net_send n ciph client w n' client' : net_run n -> result (AN.send_turn ciph client n) w = Some (n', client') -> net_run n'
| net_subjects n w : net_run n -> net_run (result (AN.SubjectsUpdate n) w)
| net_date n w : net_run n -> net_run (result (AN.SubjectDateUpdate n) w)
| net_notify n m r b : net_run n -> SubjSet.notify (bus n) m = Some (r, b) -> net_run (n <| bus := b |>)
| net_dispatch n a o w b : net_run n -> remotes n !! a = Some o ->
    result (OTCP.dispatch (bus n) a o) w = Some (Some b) -> net_run (n <| bus := b |>).
Lemma ok_ext n n' :
  net_ok n -> tcp_observers n' = tcp_observers n -> remotes n' = remotes n -> foreign_agents n' = foreign_agents n ->
  subjects (bus n') = subjects (bus n) -> observers (bus n') = observers (bus n) -> net_ok n'.
Proof. intros [Hs Hd] ? ? E ? ?. split; [by apply (sound_ext n)|]. congruence. Qed.
Lemma ok_bus n b :
  net_ok n -> bus_ok b -> (forall a, is_Some (observers (bus n) !! a) -> is_Some (observers b !! a)) ->
  (forall a, listed b a -> listed (bus n) a) -> net_ok (n <| bus := b |>).
Proof.
  intros [[Hb Hl Hr Hi Hu] Hd] H1 H2 H3. split; [|done]. split; simpl; [done|done| |done|].
  - intros a Ha. by apply H2, Hr.
  - intros a Ha Hla. by apply Hu; [|apply H3].
Qed.
Definition same_net n n' : Prop :=
  tcp_observers n' = tcp_observers n /\ remotes n' = remotes n /\ foreign_agents n' = foreign_agents n /\
  subjects (bus n') = subjects (bus n) /\ observers (bus n') = observers (bus n).
Lemma ok_same_net n n' : net_ok n -> same_net n n' -> net_ok n'.
Proof. intros H (? & ? & ? & ? & ?). by apply (ok_ext n). Qed.
Lemma wake_same n w : same_net n (result (AN.wake n) w).
Proof.
  unfold AN.wake. destruct (_ =s _); [done|]. rewrite result_bind. set (n1 := match _ with Some _ => _ | None => n end).
  assert (same_net n n1) as H1 by (subst n1; by destruct (foreign_agents n !! agentname)). clearbody n1.
  destruct (_ <? _); [|done]. rewrite result_bind, result_setStatus. exact H1.
Qed.
Lemma send_same ciph client n : outcome (fun r : Net * UDPClient => same_net n r.1) (AN.send_turn ciph client n).
Proof.
  intros w r w'. unfold AN.send_turn. rewrite run_bind. pose proof (wake_same n w) as H1.
  set (n1 := result (AN.wake n) w) in *. clearbody n1. generalize (final (AN.wake n) w). clear w. intros w. revert w r w'.
  apply (outcome_bindo (fun _ => True)); [apply outcome_any|]. intros c _. destruct (send_agent_info n1); [|by apply outcome_ok].
  apply outcome_bind. intros now. unfold AN.testNovelty. destruct (0 <? novelty n1); apply outcome_bind; intros _; by apply outcome_ok.
Qed.
Lemma listed_add_subject b t st a : listed (SubjSet.add_subject b t st) a -> listed b a.
Proof.
  unfold SubjSet.add_subject. destruct (subjects b !! _) eqn:E; [done|]. intros (k & s & Hk & Hs). simpl in Hk.
  apply lookup_insert_Some in Hk as [[<- <-]|[_ Hk]]; [by apply not_elem_of_nil in Hs|by exists k, s].
Qed.
Lemma new_subjects_ok l k b :
  bus_ok b -> let b' := (AN.new_subjects k b l).2 in
  bus_ok b' /\ observers b' = observers b /\ forall a, listed b' a -> listed b a.
Proof.
  unfold AN.new_subjects. revert k b. induction l as [|x l IH]; intros k b H; simpl; [done|].
  destruct (AN.isIn k (AN.subject_name x)); [by apply IH|].
  destruct (IH (k ++ [AN.subject_name x]) (SubjSet.add_subject b (avalue x) (aname x)) (ok_add_subject b _ _ H)) as (H1 & H2 & H3).
  split_and!; [done| |by intros a Ha%H3%listed_add_subject]. rewrite H2. unfold SubjSet.add_subject. by destruct (subjects b !! _).
Qed.
Lemma retrieve_same n w : same_net n (result (AN.retrieveInfo n) w).
Proof. unfold AN.retrieveInfo. rewrite !result_bind, result_setStatus. done. Qed.
Lemma subjects_ok n w : net_ok n -> net_ok (result (AN.SubjectsUpdate n) w).
Proof.
  intros H. unfold AN.SubjectsUpdate. pose proof (new_subjects_ok (attrs (exportedSubjects n)) (mysubjects n) (bus n)) as Hb1.
  destruct (AN.new_subjects (mysubjects n) _ _) as [my b1]. destruct Hb1 as (H1 & H2 & H3); [apply H|].
  pose proof (new_subjects_ok (attrs (importedSubjects n)) (externsubjects n) b1 H1) as (H4 & H5 & H6).
  destruct (AN.new_subjects (externsubjects n) _ _) as [ext b2]. simpl in *. rewrite result_bind.
  set (n2 := mkNet _ _ _ _ _ _ _ _ _ _ _ _ _ _ _ _ _ _ _ _ _ _ _ _). eapply ok_same_net; [|rewrite result_bind; apply retrieve_same].
  eapply ok_same_net; [|apply retrieve_same]. subst n2. eapply (ok_ext (n <| bus := b2 |>)); [|done..]. apply ok_bus; [done|done| |].
  - intros a. by rewrite H5, H2.
  - by intros a Ha%H6%H3.
Qed.
Lemma notify_ok n m r b : net_ok n -> SubjSet.notify (bus n) m = Some (r, b) -> net_ok (n <| bus := b |>).
Proof.
  intros H Hn. pose proof (snd_bus n (proj1 H)) as Hb.
  destruct (notify_as_spec (bus n) (mtype m) (msubtype m) m Hb) as (r' & obs' & Hn' & Hd & _).
  unfold SubjSet.notify in Hn. rewrite Hn' in Hn. simplify_eq. apply ok_bus; [done|by apply ok_observers| |done].
  intros a. by rewrite <- Hd.
Qed.
Lemma dispatch_ok n a o w b : net_ok n -> result (OTCP.dispatch (bus n) a o) w = Some (Some b) -> net_ok (n <| bus := b |>).
Proof.
  intros H. pose proof (snd_bus n (proj1 H)) as Hb. unfold OTCP.dispatch.
  destruct (observers (bus n) !! a) as [ob|] eqn:Ea; [|done]. cbn [mbind option_bind].
  destruct (Ob.receive_message ob) as [[m ob']|]; [|done].
  set (b1 := bus n <| observers := <[a := ob']> (observers (bus n)) |>).
  assert (net_ok (n <| bus := b1 |>)) as H1.
  { assert (forall x, is_Some (observers b1 !! x) <-> is_Some (observers (bus n) !! x)) as Hd.
    { intros x. simpl. rewrite lookup_insert_is_Some'. split; [intros [<-|?]; [by exists ob|done]|by right]. }
    apply ok_bus; [done|by apply (ok_observers (bus n))|intros x; by rewrite Hd|done]. }
  destruct (agent_status b1); [|by intros [= <-]]. unfold bindo. rewrite result_bind.
  destruct (result (RA.send _ _) _); [|done]. by intros [= <-].
Qed.

(** C5: whatever the agent hears, announces, notifies and posts, in every state it can reach the observers made for other agents
    are exactly those of the agents it knows, each of its own, alive and the only ones of their kind listed on the bus; so the check of the
    silent agents and the removal of the observer of any known agent never reach a missing one. *)
Theorem observers_follow_agents n :
  net_run n ->
  dom (tcp_observers n) = dom (foreign_agents n) /\
  (forall a, is_Some (remotes n !! a) -> listed (bus n) a -> exists ag, tcp_observers n !! ag = Some a) /\
  (forall ag, is_Some (foreign_agents n !! ag) -> is_Some (AN.disactivateObserverTCP ag n)) /\
  (forall w, is_Some (result (AN.check_expired n) w)) /\
  (forall m, is_Some (SubjSet.notify (bus n) m)).
Proof.
  intros H. assert (net_ok n) as Hn.
  { induction H as [n Ht Hr Hf Hb|n m w n' H IH Hh|n w n' H IH Hc|n ciph client w n' client' H IH Hs|n w H IH|n w H IH
      |n m r b H IH Hm|n a o w b H IH Ha Hd].
    - split; [|by rewrite Ht, Hf]. split; rewrite ?Ht, ?Hr; try done; by intros ? [? ?%lookup_empty_Some].
    - destruct (AN.heard m n w) as [r w'] eqn:E. unfold result in Hh. rewrite E in Hh. simpl in Hh. subst r. by eapply heard_ok.
    - destruct (check_expired_spec n w IH) as (l & n1 & Hr & Hok & _). rewrite Hr in Hc. by simplify_eq.
    - destruct (AN.send_turn ciph client n w) as [r w'] eqn:E. unfold result in Hs. rewrite E in Hs. simpl in Hs. subst r.
      eapply ok_same_net; [exact IH|]. exact (send_same ciph client n w _ w' E).
    - by apply subjects_ok.
    - by apply (ok_ext n).
    - by eapply notify_ok.
    - by eapply dispatch_ok. }
  destruct Hn as [Hs Hd]. split_and!; [done|apply Hs| | |].
  - intros ag [i Hi]. apply disactivate_known; [done|]. apply elem_of_dom. rewrite Hd. apply elem_of_dom. by exists i.
  - intros w. destruct (check_expired_spec n w) as (l & n1 & -> & _); [by split|by eexists].
  - intros m. destruct (notify_as_spec (bus n) (mtype m) (msubtype m) m (snd_bus n Hs)) as (r & obs' & Hn' & _).
    unfold SubjSet.notify. rewrite Hn'. by eexists.
Qed.
(** ** Two agents with one name *)
Lemma getString_overwrite m f v st : fields m !! f = Some (ML.of_string st) -> Msg.getString (Msg.add m f v) f = v.
Proof. intros H. unfold Msg.add. rewrite H. apply MsgFacts.getString_assign. Qed.
Lemma wake_waiting n w t :
  AN.my n "status" = "waiting" -> foreign_agents n !! agentname = None -> timestamp (myinfo n) = t ->
  result (AN.wake n) w =
  if validityTime n <? result AN.gettime_t w - t
  then (AN.set_mine n "status" "active") <| bus := bus n <| agent_status := true |> |> else n.
Proof.
  intros Hst Hf Ht. unfold AN.wake. rewrite Hst. simpl. rewrite result_bind, Hf, Ht.
  destruct (_ <? _); [|done]. by rewrite result_bind, result_setStatus.
Qed.
Lemma wake_waiting_run n w t :
  AN.my n "status" = "waiting" -> foreign_agents n !! agentname = None -> timestamp (myinfo n) = t ->
  result AN.gettime_t w - t <= validityTime n -> AN.wake n w = (n, final AN.gettime_t w).
Proof.
  intros Hst Hf Ht Hw. unfold AN.wake. rewrite Hst. simpl. rewrite run_bind, Hf, Ht.
  destruct (Z.ltb_spec (validityTime n) (result AN.gettime_t w - t)); [lia|done].
Qed.
(** What is written to a descriptor among the effects: the datagrams sent. *)
Definition datagrams (t : list effect) : list (Z * string) :=
  omap (fun e => match e with Written fd s => Some (fd, s) | _ => None end) t.
Definition prepend (e : list effect) (o : option (Net * UDPClient * list effect)) : option (Net * UDPClient * list effect) :=
  match o with Some r => Some (r.1, e ++ r.2) | None => None end.
(** The turns of the loop of [send_status], one in each of the worlds, and the effects they have in order. *)
Fixpoint send_turns ciph client n (ws : list world) : option (Net * UDPClient * list effect) :=
  match ws with
  | [] => Some (n, client, [])
  | w :: ws =>
      match AN.send_turn ciph client n w with
      | (Some (n, client), w') =>
          prepend (drop (length (w_trace w)) (w_trace w')) (send_turns ciph client n ws)
      | (None, _) => None
      end
  end.
Lemma datagrams_app t1 t2 : datagrams (t1 ++ t2) = datagrams t1 ++ datagrams t2.
Proof. apply omap_app. Qed.
Definition with_novelty n (k : Z) : Net := n <| novelty := k |>.
Lemma net_novelty_eta n : n = with_novelty n (novelty n).
Proof. by destruct n. Qed.
Lemma testNovelty_spec n : exists k first, AN.testNovelty n = (first, with_novelty n k).
Proof.
  unfold AN.testNovelty. destruct (0 <? novelty n); [by eexists _, true|].
  exists (novelty n), false. by rewrite <- (net_novelty_eta n).
Qed.
Lemma if_of {A} (b c : bool) (x y : A) : b = c -> (if b then x else y) = (if c then x else y).
Proof. by intros ->. Qed.
(** A turn of an agent that waits reads the clock and tells its own bus, which is off; the client is not used. *)
Lemma waiting_turn ciph client n w t :
  AN.my n "status" = "waiting" -> foreign_agents n !! agentname = None -> timestamp (myinfo n) = t ->
  result AN.gettime_t w - t <= validityTime n ->
  exists k w' e, AN.send_turn ciph client n w = (Some (with_novelty n k, client), w') /\
    w_trace w' = w_trace w ++ e /\ datagrams e = [].
Proof.
  intros Hst Hf Ht Hw. unfold AN.send_turn. rewrite run_bind.
  pose proof (wake_waiting_run n w t Hst Hf Ht Hw) as E. unfold result, final. rewrite E. cbn [fst snd].
  rewrite Hst, seqb_ne by done. rewrite bindo_run. cbn -[AN.gettime_t AN.agent_info AN.testNovelty].
  destruct (Sumbool.sumbool_of_bool (send_agent_info n)) as [Hi|Hi]; rewrite (if_of _ _ _ _ Hi).
  - rewrite run_bind. destruct (testNovelty_spec n) as (k & first & ->). rewrite run_bind.
    eexists k, _, [Notified _]. split_and!; reflexivity.
  - exists (novelty n), (AN.gettime_t w).2, []. split_and!; [by destruct n|by rewrite app_nil_r|done].
Qed.
Lemma waiting_turns ciph client n t ws :
  AN.my n "status" = "waiting" -> foreign_agents n !! agentname = None -> timestamp (myinfo n) = t ->
  Forall (fun w => result AN.gettime_t w - t <= validityTime n) ws ->
  exists k e, send_turns ciph client n ws = Some (with_novelty n k, client, e) /\ datagrams e = [].
Proof.
  intros Hst Hf Ht Hws. revert n Hst Hf Ht Hws. induction ws as [|w ws IH]; intros n Hst Hf Ht Hws.
  { exists (novelty n), []. split; [by destruct n|done]. }
  apply Forall_cons_1 in Hws as [Hw Hws].
  destruct (waiting_turn ciph client n w t Hst Hf Ht Hw) as (k & w' & e & E & Htr & He).
  destruct (IH (with_novelty n k) Hst Hf Ht Hws) as (k' & e' & E' & He').
  exists k', (e ++ e'). split; [|by rewrite datagrams_app, He, He']. cbn [send_turns]. rewrite E.
  etransitivity; [exact (f_equal (prepend _) E')|]. simpl. by rewrite Htr, drop_app_length.
Qed.
(** The turn that finds the twin silent is the turn of the agent made active. *)
Lemma late_turn ciph client n w t :
  fields (info (myinfo n)) !! "status" = Some (ML.of_string "waiting") ->
  foreign_agents n !! agentname = None -> timestamp (myinfo n) = t ->
  validityTime n < result AN.gettime_t w - t ->
  let n2 := (AN.set_mine n "status" "active") <| bus := bus n <| agent_status := true |> |> in
  AN.my n2 "status" = "active" /\
  exists k, result (AN.send_turn ciph client n) w =
    (fun r : Z * UDPClient => (with_novelty n2 k, r.2)) <$>
      result (UC.sendMsg ciph (xmlformat (myinfo n)) client) (final (AN.wake n) w).
Proof.
  intros Hs Hf Ht Hw n2.
  assert (AN.my n "status" = "waiting") as Hst by (unfold AN.my, Msg.getString; by rewrite Hs).
  assert (AN.my n2 "status" = "active") as Ha by exact (getString_overwrite (info (myinfo n)) "status" "active" "waiting" Hs).
  assert (result (AN.wake n) w = n2) as Hwk by (by rewrite (wake_waiting n w t Hst Hf Ht), (proj2 (Z.ltb_lt _ _) Hw)).
  split; [done|]. clearbody n2. unfold AN.send_turn. rewrite result_bind, Hwk, Ha, seqb_refl.
  destruct (testNovelty_spec n2) as (k & first & Hk).
  destruct (Sumbool.sumbool_of_bool (send_agent_info n2)) as [Hi|Hi]; [exists k|exists (novelty n2); rewrite <- net_novelty_eta];
    unfold result; rewrite !bindo_run;
    (destruct (UC.sendMsg ciph (xmlformat (myinfo n)) client (final (AN.wake n) w)) as [[[z c]|] w2]; [|done]);
    rewrite run_bind; cbn [fst snd]; unfold ok, mret, M_ret; cbv beta iota; rewrite (if_of _ _ _ _ Hi); [rewrite run_bind, Hk|]; done.
Qed.

(** C26: an agent other than the configurator that hears its own name from a greater address goes OFF at once.  From then
    on, until its data are made anew and provided its own name has no entry in its table of the other agents, the turns of its
    announcements send no datagram and leave the socket alone, however many they are, and nothing is delivered on its bus, as
    long as the twin was last heard at most [validityTime] seconds ago; the first turn after that makes it active, switches its
    bus on again with every subject and observer as it was, and sends the announcement again. *)
Theorem twin_waits_then_takes_over n m w st :
  Msg.getString m "agentname" = agentname -> agentname <> "configurator" ->
  String.ltb (AN.my n "ip") (Msg.getString m "ip") = true ->
  fields (info (myinfo n)) !! "status" = Some (ML.of_string st) -> foreign_agents n !! agentname = None ->
  exists n1, result (AN.heard m n) w = Some n1 /\
    forall ciph client ws w2,
      Forall (fun w' => result AN.gettime_t w' - result AN.gettime_t w <= validityTime n) ws ->
      exists n' e, send_turns ciph client n1 ws = Some (n', client, e) /\ datagrams e = [] /\
        AN.my n' "status" = "waiting" /\ (forall x, SubjSet.notify (bus n') x = Some (false, bus n')) /\
        (validityTime n < result AN.gettime_t w2 - result AN.gettime_t w ->
         exists n2, result (AN.send_turn ciph client n') w2 =
             (fun r : Z * UDPClient => (n2, r.2)) <$>
               result (UC.sendMsg ciph (xmlformat (myinfo n)) client) (final (AN.wake n') w2) /\
           AN.my n2 "status" = "active" /\ bus n2 = bus n <| agent_status := true |> /\
           tcp_observers n2 = tcp_observers n /\ foreign_agents n2 = foreign_agents n).
Proof.
  intros Hm Hc Hip Hst Hf. set (t := result AN.gettime_t w). exists (stand_by t n). split.
  { unfold AN.heard. rewrite Hm, seqb_refl, seqb_ne by done. cbn [andb negb]. unfold result. rewrite run_run. cbn [fst]. by rewrite twin_spec, Hip. }
  assert (fields (info (myinfo (stand_by t n))) !! "status" = Some (ML.of_string "waiting")) as Hs.
  { simpl. unfold Msg.add. rewrite Hst. simpl. by rewrite lookup_insert_eq. }
  assert (AN.my (stand_by t n) "status" = "waiting") as Hw by (unfold AN.my, Msg.getString; by rewrite Hs).
  intros ciph client ws w2 Hws.
  destruct (waiting_turns ciph client (stand_by t n) t ws Hw Hf eq_refl Hws) as (k & e & Hturns & He).
  exists (with_novelty (stand_by t n) k), e. split_and!; [done..|]. intros Hlate.
  destruct (late_turn ciph client (with_novelty (stand_by t n) k) w2 t Hs Hf eq_refl Hlate) as (Ha & k' & Hr).
  eexists. split_and!; [exact Hr|exact Ha|done..].
Qed.

(** ** What the network does not notice *)
(** A known agent that announces other events, from the same address and after the last change of the subjects, is only marked as
    heard: the events announced are in the field "observe" and the code compares the field "events". *)
Lemma new_events_are_missed m n i w :
  AN.evFilter (mysubjects n) (Msg.getList m "observe") <> [] ->
  foreign_agents n !! Msg.getString m "agentname" = Some i ->
  Msg.getString m "ip" = Msg.getString (info i) "ip" -> Msg.getList m "events" = [] -> Msg.getList (info i) "events" = [] ->
  last_subject_update n <= timestamp i -> Msg.getString m "agentname" <> "wsserver" ->
  result (AN.update m n) w = Some (AN.set_foreign n (Msg.getString m "agentname") (i <| timestamp := tv_sec (w_clock w (w_tick w)) |>)).
Proof.
  intros He Hi Hip Hm Hie Hl Hws.
  assert (AN.change_ip m i n = ok n) as E1 by (unfold AN.change_ip; by rewrite Hip, seqb_refl).
  assert (AN.change_events m i n = ok n) as E2.
  { unfold AN.change_events. rewrite Hm, Hie, (proj2 (Z.ltb_ge _ _) Hl). by rewrite bool_decide_true. }
  unfold AN.update, AN.wsServerUpdate. rewrite seqb_ne by done. cbv zeta. cbn [negb].
  rewrite bool_decide_false by done. rewrite Hi, E1. unfold result. rewrite !bindo_run. cbn -[AN.change_events AN.time].
  rewrite !bindo_run, Hi. cbn -[AN.change_events AN.time]. rewrite E2. cbn. by rewrite Hi.
Qed.
(** Asking for the address of the agent itself makes an entry without an observer, and the next check fails. *)
Lemma own_address_breaks_check n w :
  net_ok n -> foreign_agents n !! agentname = None ->
  AN.disactivateObserverTCP agentname (result (AN.getAgentIp agentname n) w).2 = None.
Proof.
  intros [Hs Hd] Hf. unfold AN.getAgentIp, AN.address_of, AN.get_own. rewrite seqb_refl, result_bind. simpl. rewrite Hf. simpl.
  unfold AN.disactivateObserverTCP. simpl. apply not_elem_of_dom in Hf. rewrite <- Hd in Hf. by apply not_elem_of_dom in Hf as ->.
Qed.
End net.

(** ** Witnesses *)
Import Samples.Instances.
Import NetSamples.Instances.
Definition net_world : world :=
  set_dirs (list_to_set ["/"; "/home"; "/home/hat"; "/home/hat/observers"]) (world_at early).
Definition own_info : AgentInfo :=
  mkInfo (Msg.add (Msg.add (Msg.add Msg.dummy "agentname" "alarm") "ip" "10.0.0.1") "status" "active") 0 "".
Definition quiet_net : Net :=
  mkNet ∅ ∅ ∅ own_info ["siren.alarm"] [] (Params.mk1 "imported") (Params.mk1 "exported") "" "" 180 30 10 false 3 0 (Params.mk1 "alarm")
    "OFF" "226.0.0.2" "54321" "" "" [] (SubjSet.add_subject (mkBus ∅ ∅ true) "alarm" "siren").
Definition camera (ip : string) : MMessage :=
  (Msg.add_list (Msg.add (Msg.add (Msg.add (Msg.mk "agentinfo" "*") "agentname" "camera") "ip" ip) "port" "8080") "observe" ["siren.alarm"]).2.
Definition heard_net : Net := default quiet_net (result (AN.heard (camera "10.0.0.2") quiet_net) net_world).
Lemma quiet_net_bus : bus_ok (bus quiet_net).
Proof. apply (ok_add_subject (mkBus ∅ ∅ true)), map_Forall_empty. Qed.
Lemma heard_net_some : result (AN.heard (camera "10.0.0.2") quiet_net) net_world = Some heard_net.
Proof. unfold heard_net. by destruct (result _ _) eqn:E; [|vm_compute in E]. Qed.
Lemma quiet_net_run : net_run quiet_net.
Proof. apply net_start; [done..|apply quiet_net_bus]. Qed.
Lemma heard_net_ok : net_ok heard_net.
Proof.
  assert (net_ok quiet_net) as H.
  { split; [|done]. split; try done; [apply quiet_net_bus|by intros ? [? ?]..]. }
  pose proof heard_net_some as E. unfold result in E.
  destruct (AN.heard (camera "10.0.0.2") quiet_net net_world) as [r w'] eqn:E2. simpl in E. subst r. by eapply heard_ok.
Qed.
Definition camera_info : AgentInfo := default own_info (foreign_agents heard_net !! "camera").
Lemma silent_agents_are_dropped_witness :
  exists n', result (AN.check_expired heard_net) (world_at (early + 1000)) = Some n' /\
    foreign_agents heard_net !! "camera" = Some camera_info /\ foreign_agents n' !! "camera" = None.
Proof.
  destruct (silent_agents_are_dropped heard_net (world_at (early + 1000)) heard_net_ok) as (n' & Hr & _ & H).
  exists n'. split; [exact Hr|]. split; [vm_compute; reflexivity|].
  specialize (H 0%nat "camera" camera_info ltac:(vm_compute; reflexivity)).
  replace (seconds (world_at (early + 1000)) 0 - timestamp camera_info <=? validityTime heard_net) with false in H by (vm_compute; reflexivity).
  exact (proj1 H).
Defined.
Lemma observers_follow_agents_witness :
  is_Some (foreign_agents heard_net !! "camera") /\ is_Some (AN.disactivateObserverTCP "camera" heard_net).
Proof.
  assert (is_Some (foreign_agents heard_net !! "camera")) as H by (vm_compute; by eexists). split; [exact H|].
  destruct (observers_follow_agents heard_net (net_heard _ _ _ _ quiet_net_run heard_net_some)) as (_ & _ & Hd & _). exact (Hd "camera" H).
Defined.
Definition no_cipher : Cipher := mkCipher None None.
Definition loud_client : UDPClient := (UC.mk "226.0.0.2" "54321") <| cl_sockfd := 4 |>.
Lemma sent_in_clear ciph m c w : cl_encrypt c = false -> result (UC.sendMsg ciph m c) w <> None.
Proof.
  intros Hc. unfold UC.sendMsg. destruct (_ || _); [done|]. rewrite Hc. unfold result. rewrite bindo_run. cbn -[UC.transmit].
  rewrite run_bind. by destruct (_ || _).
Qed.
Definition twin_message : MMessage := Msg.add (Msg.add (Msg.mk "agentinfo" "*") "agentname" "alarm") "ip" "10.0.0.7".
Lemma twin_waits_then_takes_over_witness :
  exists n1, result (AN.heard twin_message quiet_net) (world_at early) = Some n1 /\
    exists n' e, send_turns no_cipher loud_client n1 [world_at (early + 100)] = Some (n', loud_client, e) /\
      datagrams e = [] /\ AN.my n' "status" = "waiting" /\
      exists n2 c, result (AN.send_turn no_cipher loud_client n') (world_at (early + 200)) = Some (n2, c) /\ AN.my n2 "status" = "active".
Proof.
  destruct (twin_waits_then_takes_over quiet_net twin_message (world_at early) "active") as (n1 & H1 & H2).
  1-5: first [vm_compute; reflexivity|discriminate].
  exists n1. split; [exact H1|].
  destruct (H2 no_cipher loud_client [world_at (early + 100)] (world_at (early + 200))) as (n' & e & H3 & He & H4 & _ & H5).
  { constructor; [|constructor]. apply Z.leb_le. vm_compute. reflexivity. }
  exists n', e. split; [exact H3|]. split; [exact He|]. split; [exact H4|].
  destruct H5 as (n2 & H6 & H7 & _). { apply Z.ltb_lt. vm_compute. reflexivity. }
  exists n2. unfold result in H6 at 2.
  destruct (UC.sendMsg _ _ _ _) as [[[z c]|] w3] eqn:E in H6.
  - exists c. split; [exact H6|exact H7].
  - exfalso. apply (f_equal fst) in E. revert E. apply sent_in_clear. reflexivity.
Defined.
