(* ===== verification/ManagerAgent.v ===== *)
(** * The start of the Manager agent (Manager/agent.cpp, minilibs/ObserverThread.cpp)

    The agent makes its directories, opens the archive and the routes, takes the lock, restores its status, builds the four
    engines, registers what they send, joins the network and starts the engines as observers of the bus.  A process of the
    other agents starts in the same way.  [None] is the end of the process.  The web server that is started last, the
    identity of the process and its working directory are left out.  The second part proves what the started agent
    observes. *)
From S2P Require Import Prelude Doubles Hsrv Xml MMessage World MParams Samples EventCounter Pages Rule Engines ProgramEngine Subjects Archive ArchiveOps ArchiveFacts BusClaims Rpc Routes Configurator NameTable RemoteAgent Managers AgentConf Udp AgentNet NetSamples NetClaims.

(** A thread of the agent: its name, what it observes, and its address on the bus once it is started. *)
Record Service := mkService { sv_id : string; sv_observes : list MAttribute }.
Record ManagerAgent := mkMA {
  ma_archive : ArchiveManager; ma_router : RoutingMap manager_target; ma_trigger : Trigger;
  ma_rules : RuleEngine; ma_timed : TimedRuleEngine; ma_program : ProgramEngine; ma_actions : ActionEngine;
  ma_services : list (nat * Service); ma_net : Net }.

Module Thr.
Section thread.
Context {P : Platform} {C : Config} {XP : XmlParser} {FS : PathNames} {I : Identity} {T : Tcp} {K : Crypto} {D : Datagrams} {If : Interfaces}.
(** The settings of the network, [hsrv::agentnet] *)
Variable agentnet : string.
(** [ObserverThread::init] of a thread whose virtual methods add [obs] and [subj] to what its file says. *)
Definition init (id : string) (obs subj : MParams -> MParams) (n : Net) : M (option (Service * Net)) :=
  p ←! Params.load (Params.mk1 ("threads/" +:+ id));
  let o := obs (OT.getObservations p.2 (Params.mk1 "OBS")) in
  p ←! Params.load (Params.mk1 ("threads/" +:+ id));
  let s := subj (OT.getSubjects p.2 (Params.mk1 "SUBJ")) in
  n ←! AN.initSubjects agentnet o true n;
  n ←! AN.initSubjects agentnet s false n;
  ok (mkService id (Params.extractCategory o "observe"), n <| bus := OT.init_subjects (bus n) s |>).
(** [ObserverThread::start]: the object gets the address [a]. *)
Definition register (b : Bus) (a : nat) (l : list MAttribute) : Bus :=
  fold_left (fun b x => (SubjSet.add_observer b (avalue x) (aname x) a).2) l b.
Definition start (s : Service) (n : Net) : nat * Net :=
  let a := fresh (dom (observers (bus n))) in
  let b := bus n <| observers := <[a := mkOb (sv_id s) [] Q.empty]> (observers (bus n)) |> in
  (a, n <| bus := register b a (sv_observes s) |>).
Fixpoint start_all (l : list Service) (n : Net) : list (nat * Service) * Net :=
  match l with
  | [] => ([], n)
  | s :: l' => let r := start s n in let r' := start_all l' r.2 in ((r.1, s) :: r'.1, r'.2)
  end.
End thread.
End Thr.

Module MA.
Section agent.
Context {P : Platform} {C : Config} {XP : XmlParser} {FS : PathNames} {Ca : Calendar} {PT : PropertyTree} {R : Regex}.
Context {I : Identity} {T : Tcp} {K : Crypto} {D : Datagrams} {If : Interfaces}.
Variables (others : RpcWaitTable -> RpcWaitTable) (turns : nat) (page : string -> string) (agentnet : string).
Definition files (dir : string) : M (list string) := r ← Dirs.fileList (configdir +:+ "/" +:+ dir) []; mret r.2.
(** The conditions are optional: without the directory the pointer is null. *)
Definition optional_files (dir : string) : M (option (list string)) :=
  d ← Dirs.isDir (configdir +:+ "/" +:+ dir); if d : bool then l ← files dir; mret (Some l) else mret None.
Definition rule_engine : M (option RuleEngine) :=
  ec ← files "eventcounters"; cond ← optional_files "conditions"; rules ← files "rules";
  RE.mk "RuleEngine" ec cond rules.
Definition timedrule_engine : M (option TimedRuleEngine) :=
  rules ← files "timedrules"; cond ← optional_files "tr_conditions"; TRE.mk rules cond.
Definition action_engine : M (option ActionEngine) :=
  l ← files "actions"; tl ← files "tr_actions"; a ←! ActSet.mk "actions" "tr_actions" l tl; ok (mkAE a Msg.dummy).
Definition trigger (b : Bus) : M (option (Trigger * Bus)) :=
  p ←! Params.load (Params.mk1 "trigger"); ok (Trig.initSubject (mkTrigger p.2 indet_double ∅) b).
(** What all agents begin with. *)
Definition prologue (pid : Z) (b : Bus) : M (option (ArchiveManager * RoutingMap manager_target * Bus)) :=
  AConf.start_pages;;
  _ ←! AConf.install;
  a ←! Arc.init (Arc.mk "archive");
  if negb a.1 then crash
  else
    router ←! ConfRoutingMap (Ar := {| hsrv_archive := a.2 |}) others turns page (configdir +:+ "/route.xml");
    lock ← AConf.mklock pid;
    if lock <? 0 then crash
    else b ← AConf.restoreStatus b; ok (a.2, router, b).
(** The constructor of [Agent]. *)
Definition start (pid : Z) (n : Net) : M (option ManagerAgent) :=
  p ←! prologue pid (bus n);
  let '(archive, router, b) := p in
  t ←! trigger b;
  let n := n <| bus := t.2 |> in
  re ←! rule_engine;
  s1 ←! Thr.init agentnet "RuleEngine" (RE.getObservations re) (RE.getSubjects re) n;
  tre ←! timedrule_engine;
  s2 ←! Thr.init agentnet "TimedRuleEngine" (TRE.getObservations tre) (TRE.getSubjects tre) s1.2;
  pe ←! PE.mk;
  s3 ←! Thr.init agentnet "ProgramEngine" (fun o => o) (fun s => s) s2.2;
  ae ←! action_engine;
  s4 ←! Thr.init agentnet "ActionEngine" (fun o => o) (AE.getSubjects ae) s3.2;
  log_info ("Agent: " +:+ agentname +:+ " Started");;
  n ←! AN.init agentnet s4.2;
  let r := Thr.start_all [s4.1; s3.1; s1.1; s2.1] n in
  _ ←! AN.SubjectRegister archive r.2;
  ok (mkMA archive router t.1 re tre pe ae r.1 r.2).
End agent.
End MA.

(** * The Manager agent after its start *)

(** ** A bus that only grows *)
Record grows (b b' : Bus) : Prop := {
  gr_dom : dom (subjects b') = dom (subjects b);
  gr_listed : forall k s s' a, subjects b !! k = Some s -> subjects b' !! k = Some s' -> Some a ∈ sobservers s -> Some a ∈ sobservers s';
  gr_alive : forall a, is_Some (observers b !! a) -> is_Some (observers b' !! a) }.
Lemma grows_refl b : grows b b.
Proof. split; [done| |done]. intros. by simplify_eq. Qed.
Lemma grows_trans b1 b2 b3 : grows b1 b2 -> grows b2 b3 -> grows b1 b3.
Proof.
  intros [D1 L1 A1] [D2 L2 A2]. split; [congruence| |auto]. intros k s s' a H1 H3 Ha.
  assert (is_Some (subjects b2 !! k)) as [s2 H2] by (apply elem_of_dom; rewrite D1; by apply elem_of_dom_2 in H1). eauto.
Qed.
Lemma register_keeps s (o a : nat) : Some a ∈ sobservers s -> Some a ∈ sobservers (Sub.register_observer s o).
Proof. unfold Sub.register_observer. destruct (Sub.isNotRegistered s o); [|done]. intros H. apply elem_of_app. by left. Qed.
Lemma register_lists s (o : nat) : Some o ∈ sobservers (Sub.register_observer s o).
Proof.
  unfold Sub.register_observer, Sub.isNotRegistered. destruct (existsb _ _) eqn:E; simpl; [|set_solver].
  apply existsb_exists in E as (p & Hp%list_elem_of_In & ->%bool_decide_eq_true). done.
Qed.
Lemma observers_add b t st o : observers (SubjSet.add_observer b t st o).2 = observers b.
Proof. unfold SubjSet.add_observer. destruct (SubjSet.serving _ _ _); [done|]. by destruct (SubjSet.isDummy _). Qed.
Lemma grows_add_observer b t st o : grows b (SubjSet.add_observer b t st o).2.
Proof.
  split; [| |by rewrite observers_add].
  - unfold SubjSet.add_observer. destruct (SubjSet.serving _ _ _); simpl; [apply dom_alter_L|]. destruct (SubjSet.isDummy st); [|done]. simpl.
    apply set_eq. intros k. rewrite !elem_of_dom, map_lookup_imap. destruct (subjects b !! k); simpl; [|done]. split; by eexists.
  - intros k s s' a Hk Hk' Ha. unfold SubjSet.add_observer in Hk'. destruct (SubjSet.serving _ _ _) as [k0|]; simpl in Hk'.
    + destruct (decide (k0 = k)) as [->|Hne].
      * rewrite lookup_alter_eq, Hk in Hk'. simplify_eq/=. by apply register_keeps.
      * rewrite lookup_alter_ne in Hk' by done. by simplify_eq.
    + destruct (SubjSet.isDummy st); [|by simplify_eq/=]. simpl in Hk'. rewrite map_lookup_imap, Hk in Hk'. simplify_eq/=.
      case_match; [by apply register_keeps|done].
Qed.
(** A subject of its own is served to the observer. *)
Definition served (b : Bus) (a : nat) (x : MAttribute) : Prop :=
  forall s, subjects b !! (avalue x, aname x) = Some s -> Some a ∈ sobservers s.
Lemma served_grows b b' a x : grows b b' -> served b a x -> served b' a x.
Proof.
  intros [D L _] H s' Hs'. assert (is_Some (subjects b !! (avalue x, aname x))) as [s Hs] by (apply elem_of_dom; rewrite <- D; by apply elem_of_dom_2 in Hs').
  eauto.
Qed.
Lemma served_add b a x : served (SubjSet.add_observer b (avalue x) (aname x) a).2 a x.
Proof.
  intros s Hs. unfold SubjSet.add_observer, SubjSet.serving in Hs. destruct (subjects b !! (avalue x, aname x)) as [s0|] eqn:E; simpl in Hs.
  - rewrite lookup_alter_eq, E in Hs. simplify_eq/=. apply register_lists.
  - destruct (grows_add_observer b (avalue x) (aname x) a) as [D _ _]. exfalso. apply (not_elem_of_dom_2 _ _ E).
    rewrite <- D. unfold SubjSet.add_observer, SubjSet.serving. rewrite E. by apply elem_of_dom_2 in Hs.
Qed.
Lemma register_spec b a l :
  bus_ok b -> is_Some (observers b !! a) ->
  let b' := Thr.register b a l in bus_ok b' /\ grows b b' /\ observers b' = observers b /\ Forall (served b' a) l.
Proof.
  unfold Thr.register. revert b. induction l as [|x l IH]; intros b Hb Ha; simpl; [split_and!; [done|apply grows_refl|done|constructor]|].
  destruct (IH (SubjSet.add_observer b (avalue x) (aname x) a).2) as (H1 & H2 & H3 & H4).
  { by apply ok_add_observer. } { by rewrite observers_add. }
  split_and!; [done|by eapply grows_trans; [apply grows_add_observer|]|by rewrite H3, observers_add|].
  constructor; [|done]. by eapply served_grows, served_add.
Qed.

(** ** The threads are started *)
Definition works (b : Bus) (x : nat * Service) : Prop :=
  is_Some (observers b !! x.1) /\ Forall (served b x.1) (sv_observes x.2).
Lemma works_grows b b' x : grows b b' -> works b x -> works b' x.
Proof.
  intros Hg [Ha Hs]. split; [by apply Hg|]. eapply Forall_impl; [exact Hs|]. intros y. by apply served_grows.
Qed.
(** No observers for other agents yet, and a sound bus. *)
Definition fresh_net (n : Net) : Prop :=
  tcp_observers n = ∅ /\ remotes n = ∅ /\ foreign_agents n = ∅ /\ bus_ok (bus n).
Lemma fresh_bus n b : fresh_net n -> bus_ok b -> fresh_net (n <| bus := b |>).
Proof. intros (? & ? & ? & _) ?. by split_and!. Qed.
Lemma thread_start_spec s n :
  fresh_net n -> let r := Thr.start s n in
  fresh_net r.2 /\ grows (bus n) (bus r.2) /\ works (bus r.2) (r.1, s) /\ observers (bus n) !! r.1 = None.
Proof.
  intros Hn. unfold Thr.start. set (a := fresh _). cbn [fst snd].
  assert (observers (bus n) !! a = None) as Ha by (apply not_elem_of_dom, is_fresh).
  set (b1 := bus n <| observers := _ |>).
  assert (bus_ok b1) as H1.
  { intros k y Hk. destruct (proj2 (proj2 (proj2 Hn)) k y Hk) as (l & Hr & Hl). exists l. split; [done|].
    eapply Forall_impl; [exact Hl|]. intros x Hx. simpl. apply lookup_insert_is_Some'. by right. }
  assert (is_Some (observers b1 !! a)) as Ha1 by (simpl; by rewrite lookup_insert_eq).
  destruct (register_spec b1 a (sv_observes s) H1 Ha1) as (H2 & H3 & H4 & H5). split_and!; [by apply fresh_bus| | |done].
  - eapply grows_trans; [|exact H3]. split; [done| |intros x Hx; simpl; apply lookup_insert_is_Some'; by right].
    intros k y y' x Hk Hk' Hx. by simplify_eq/=.
  - split; [|done]. change (is_Some (observers (Thr.register b1 a (sv_observes s)) !! a)). by rewrite H4.
Qed.
Lemma start_all_spec l n :
  fresh_net n -> let r := Thr.start_all l n in
  fresh_net r.2 /\ grows (bus n) (bus r.2) /\ Forall (works (bus r.2)) r.1 /\ map snd r.1 = l /\
  NoDup (map fst r.1) /\ Forall (fun x => observers (bus n) !! x.1 = None) r.1.
Proof.
  revert n. induction l as [|s l IH]; intros n Hn; cbn [Thr.start_all fst snd map].
  { split_and!; [done|apply grows_refl|constructor|done|constructor|constructor]. }
  destruct (thread_start_spec s n Hn) as (H1 & H2 & H3 & H4). destruct (IH _ H1) as (H5 & H6 & H7 & H8 & H9 & H10).
  split_and!; [done|by eapply grows_trans| |by rewrite H8| |].
  - constructor; [by eapply works_grows|done].
  - apply NoDup_cons; split; [|done]. intros (x & E & Hx)%list_elem_of_fmap. rewrite Forall_forall in H10. specialize (H10 x Hx).
    destruct H3 as [[o Ho] _]. cbn [fst] in Ho. congruence.
  - constructor; [done|]. eapply Forall_impl; [exact H10|]. intros x Hx. cbn beta in *.
    destruct (observers (bus n) !! x.1) eqn:E; [|done]. destruct (gr_alive _ _ H2 x.1) as [? ?]; [by eexists|congruence].
Qed.

(** ** The start of the agent *)
Section start.
Context {P : Platform} {C : Config} {XP : XmlParser} {FS : PathNames} {Ca : Calendar} {PT : PropertyTree} {R : Regex}.
Context {I : Identity} {T : Tcp} {K : Crypto} {D : Datagrams} {If : Interfaces}.
Implicit Types (n : Net).
Lemma init_subjects_ok subj b : bus_ok b -> bus_ok (OT.init_subjects b subj).
Proof.
  unfold OT.init_subjects. revert b. induction (Params.extractCategory subj "subject") as [|x l IH]; intros b H; [done|].
  apply IH. by apply ok_add_subject.
Qed.
Lemma net_subjects_fresh fname subj imported n : fresh_net n -> outcome fresh_net (AN.initSubjects fname subj imported n).
Proof. intros H. apply (outcome_bindo (fun _ => True)); [apply outcome_any|]. intros p _. apply outcome_ok. by destruct imported. Qed.
Lemma thread_init_fresh agentnet id obs subj n :
  fresh_net n -> outcome (fun r => fresh_net r.2 /\ sv_id r.1 = id) (Thr.init agentnet id obs subj n).
Proof.
  intros H. apply (outcome_bindo (fun _ => True)); [apply outcome_any|]. intros p _. apply (outcome_bindo (fun _ => True)); [apply outcome_any|].
  intros q _. apply (outcome_bindo fresh_net); [by apply net_subjects_fresh|]. intros n1 H1.
  apply (outcome_bindo fresh_net); [by apply net_subjects_fresh|]. intros n2 H2. apply outcome_ok. split; [|done].
  apply fresh_bus; [done|]. apply init_subjects_ok, H2.
Qed.
Lemma add_subjects_ok l b : bus_ok b -> bus_ok (fold_left AN.add_subject_of l b).
Proof.
  revert b. induction l as [|x l IH]; intros b H; [done|]. apply IH. unfold AN.add_subject_of. destruct (AN.split x). by apply ok_add_subject.
Qed.
Lemma network_init_fresh name n : fresh_net n -> outcome fresh_net (AN.init name n).
Proof.
  intros H. unfold AN.init. apply (outcome_bindo (fun _ => True)); [apply outcome_any|]. intros p _.
  apply (outcome_bindo (fun _ => True)); [apply outcome_any|]. intros mc _. cbv zeta. apply outcome_bind. intros _. apply outcome_bind. intros _.
  intros w r w'. rewrite run_bind.
  match goal with |- context [AN.retrieveInfo ?n0] => pose proof (retrieve_same n0 w) as Hs; assert (fresh_net n0) as H1 by exact H; set (n1 := n0) in * end.
  clearbody n1. set (n2 := result (AN.retrieveInfo n1) w) in *. intros [= <- _]. 
  destruct H1 as (H1 & H2 & H3 & H4), Hs as (E1 & E2 & E3 & E4 & E5). split_and!; [by rewrite <- H1|by rewrite <- H2|by rewrite <- H3|].
  apply add_subjects_ok. cbn [bus]. intros k y Hk. rewrite E4 in Hk. destruct (H4 k y Hk) as (l & Hr & Hl). exists l. split; [done|].
  eapply Forall_impl; [exact Hl|]. intros x. cbn. by rewrite E5.
Qed.
Lemma trigger_ok b : bus_ok b -> outcome (fun r => bus_ok r.2) (MA.trigger b).
Proof.
  intros H. apply (outcome_bindo (fun _ => True)); [apply outcome_any|]. intros p _. apply outcome_ok. unfold Trig.initSubject.
  assert (forall l t, bus_ok (fold_left (fun '(t, b) a =>
    (t <| tm_ := <[aname a := a2double (avalue a)]> (tm_ t) |>, SubjSet.add_subject b "trigger" (aname a))) l (t, b)).2) as Hf; [|apply Hf].
  intros l. revert b H. induction l as [|x l IH]; intros b H t; [done|]. apply IH. by apply ok_add_subject.
Qed.
Lemma restored b w : exists st, result (AConf.restoreStatus b) w = b <| agent_status := st |>.
Proof. unfold AConf.restoreStatus. rewrite !result_bind. eexists. reflexivity. Qed.
Lemma prologue_ok others turns page pid b :
  bus_ok b -> outcome (fun r => bus_ok r.2) (MA.prologue others turns page pid b).
Proof.
  intros H. unfold MA.prologue. apply outcome_bind. intros _. apply (outcome_bindo (fun _ => True)); [apply outcome_any|]. intros _ _.
  apply (outcome_bindo (fun _ => True)); [apply outcome_any|]. intros a _. destruct (negb a.1); [apply outcome_crash|].
  apply (outcome_bindo (fun _ => True)); [apply outcome_any|]. intros r _. apply outcome_bind. intros lock.
  destruct (lock <? 0); [apply outcome_crash|]. intros w x w'. rewrite run_bind. destruct (restored b w) as [st ->]. by intros [= <- _].
Qed.

Definition thread_names : list string := ["ActionEngine"; "ProgramEngine"; "RuleEngine"; "TimedRuleEngine"].
Definition well_started (m : ManagerAgent) : Prop :=
  fresh_net (ma_net m) /\ Forall (works (bus (ma_net m))) (ma_services m) /\
  map (fun x => sv_id x.2) (ma_services m) = thread_names /\ NoDup (map fst (ma_services m)).
Ltac any_outcome := apply (outcome_bindo (fun _ => True)); [apply outcome_any|].
Lemma start_well others turns page agentnet pid n :
  fresh_net n -> outcome well_started (MA.start others turns page agentnet pid n).
Proof.
  intros Hn. unfold MA.start. eapply outcome_bindo; [apply prologue_ok, Hn|]. intros [[archive router] b] Hb.
  eapply outcome_bindo; [apply trigger_ok, Hb|]. intros t Ht. cbv zeta. pose proof (fresh_bus n t.2 Hn Ht) as H0.
  any_outcome. intros re _. eapply outcome_bindo; [apply thread_init_fresh, H0|]. intros s1 [H1 E1].
  any_outcome. intros tre _. eapply outcome_bindo; [apply thread_init_fresh, H1|]. intros s2 [H2 E2].
  any_outcome. intros pe _. eapply outcome_bindo; [apply thread_init_fresh, H2|]. intros s3 [H3 E3].
  any_outcome. intros ae _. eapply outcome_bindo; [apply thread_init_fresh, H3|]. intros s4 [H4 E4].
  apply outcome_bind. intros _. eapply outcome_bindo; [apply network_init_fresh, H4|]. intros n5 H5.
  any_outcome. intros _ _. apply outcome_ok. unfold well_started. cbn [ma_net ma_services].
  destruct (start_all_spec [s4.1; s3.1; s1.1; s2.1] n5 H5) as (F1 & _ & F3 & F4 & F5 & _). split_and!; [done|done| |done].
  transitivity (map sv_id (map snd (Thr.start_all [s4.1; s3.1; s1.1; s2.1] n5).1)); [by rewrite map_map|]. rewrite F4. cbn [map]. by rewrite E1, E2, E3, E4.
Qed.

(** C8: when the Manager agent has started, each of its four threads is an observer of the bus of its own, listed with every
    subject of the bus that it observes; and its network is at a start, so that what is proved of the reachable states of the
    network holds of it. *)
Theorem started_manager_observes others turns page agentnet pid n w m :
  fresh_net n -> result (MA.start others turns page agentnet pid n) w = Some m ->
  net_run (ma_net m) /\
  map (fun x => sv_id x.2) (ma_services m) = thread_names /\
  NoDup (map fst (ma_services m)) /\
  forall a s, (a, s) ∈ ma_services m ->
    is_Some (observers (bus (ma_net m)) !! a) /\
    forall x subj, x ∈ sv_observes s -> subjects (bus (ma_net m)) !! (avalue x, aname x) = Some subj -> Some a ∈ sobservers subj.
Proof.
  intros Hn Hm. destruct (MA.start others turns page agentnet pid n w) as [r w'] eqn:E. unfold result in Hm. rewrite E in Hm. cbn in Hm. subst r.
  destruct (start_well others turns page agentnet pid n Hn w m w' E) as ((? & ? & ? & ?) & H2 & H3 & H4). split_and!; [by apply net_start|done|done|].
  intros a s Has. rewrite Forall_forall in H2. destruct (H2 _ Has) as [Ha Hs]. split; [done|]. intros x subj Hx Hk. rewrite Forall_forall in Hs.
  by apply (Hs x Hx).
Qed.
End start.

(** ** A process that starts *)
Import Samples.Instances.
Import NetSamples.Instances.
#[local] Instance no_calendar : Calendar := {| day_number := fun _ _ _ => None |}.
#[local] Instance no_ptree : PropertyTree := {|
  ptree := unit; read_json := fun _ => None; get_child := fun _ _ => None; get_string := fun _ _ => None;
  get_float := fun _ _ => None; ptree_children := fun _ => [] |}.
#[local] Instance any_regex : Regex := {| regexec := fun _ _ => Some true |}.
Definition document (ty : string) (l : list (string * string * string)) : string :=
  "<?xml version=" +:+ quote "1.0" +:+ "?><set type=" +:+ quote ty +:+ ">" +:+
  sconcat (map (fun x => "<attribute category=" +:+ quote x.1.1 +:+ " name=" +:+ quote x.1.2 +:+ " value=" +:+ quote x.2 +:+ "/>") l) +:+ "</set>".
Definition alarm_files : gmap string string := list_to_map [
  ("/etc/hat/global.xml", document "global" []);
  ("/etc/hat/archive.xml", document "archive" [("root", "status", "*")]);
  ("/etc/hat/route.xml", "<?xml version=" +:+ quote "1.0" +:+ "?><routes><route><uri path=" +:+ quote "/DynamicPage.xml" +:+ " method=" +:+ quote "GET" +:+
    "/><call class=" +:+ quote "archive" +:+ " method=" +:+ quote "getDynamicPage" +:+ "/></route></routes>");
  ("/etc/hat/agentnet.xml", document "agentnet" []);
  ("/etc/hat/trigger.xml", document "trigger" [("trigger", "eventupdate", "2")]);
  ("/etc/hat/threads/RuleEngine.xml", document "RuleEngine" [("observe", "eventupdate", "trigger"); ("observe", "prgstatus", "program")])].
Definition alarm_world : world :=
  set_files alarm_files (set_dirs (list_to_set ["/"; "/home"; "/home/hat"; "/etc"; "/etc/hat"; "/etc/hat/threads"]) (world_at early)).
Definition empty_net : Net :=
  mkNet ∅ ∅ ∅ (mkInfo Msg.dummy 0 "") [] [] (Params.mk1 "imported") (Params.mk1 "exported") "" "" 180 30 10 false 3 0 (Params.mk1 "alarm")
    "OFF" "226.0.0.2" "54321" "" "" [] (mkBus ∅ ∅ false).
Definition started : option ManagerAgent :=
  result (MA.start (fun t => t) 100 (fun _ => "") "agentnet" 4711 empty_net) alarm_world.
Definition rule_engine_of (m : ManagerAgent) : option (nat * Service) := head (List.filter (fun x => sv_id x.2 =s "RuleEngine") (ma_services m)).
Definition observed_names (m : ManagerAgent) : option (nat * list string) :=
  (fun x => (x.1, map aname (sv_observes x.2))) <$> rule_engine_of m.
Definition told_of_updates (m : ManagerAgent) : option (list (option nat)) :=
  sobservers <$> subjects (bus (ma_net m)) !! ("trigger", "eventupdate").
Example observed_at_start : observed_names <$> started = Some (Some (2%nat, ["eventupdate"; "prgstatus"])).
Proof. vm_compute. reflexivity. Qed.
Example told_at_start : told_of_updates <$> started = Some (Some [Some 2%nat]).
Proof. vm_compute. reflexivity. Qed.
Lemma started_manager_observes_witness :
  exists m, started = Some m /\ net_run (ma_net m) /\ NoDup (map fst (ma_services m)) /\
    observed_names m = Some (2%nat, ["eventupdate"; "prgstatus"]) /\ told_of_updates m = Some [Some 2%nat].
Proof.
  assert (fresh_net empty_net) as Hn by (split_and!; [reflexivity..|apply map_Forall_empty]).
  pose proof observed_at_start as Ho. pose proof told_at_start as Ht.
  destruct started as [m|] eqn:E; [|discriminate Ho].
  destruct (started_manager_observes _ _ _ _ _ _ _ _ Hn E) as (H1 & _ & H2 & _).
  exists m. split; [done|]. split; [exact H1|]. split; [exact H2|]. split; [by injection Ho|by injection Ht].
Defined.
