(* ===== verification/BridgeClaims.v ===== *)
(** * Two agents joined: a message taken from the bus of one is notified on the bus of the other *)
From S2P Require Import Prelude Doubles Hsrv Xml TinyFacts MMessage World MParams Samples MessageClaims Subjects Archive ArchiveOps ArchiveFacts BusClaims Routes NameTable RemoteAgent NetSamples.
Import MsgFacts.

(** ** The text read back *)
Lemma append_field_node m k l :
  ML.wf l -> Msg.append_field m (field_node (k, l)) = Msg.assign m k (decoded true l).
Proof.
  intros [[Ht [v Hi]]|Ht]; destruct l as [t is_]; simpl in *; subst; unfold field_node, decoded; simpl; [done|].
  unfold Msg.append_field. simpl. f_equal. by destruct is_ as [|v r].
Qed.
Lemma append_field_nodes l m :
  Forall (fun kv => ML.wf kv.2) l ->
  fold_left Msg.append_field (map field_node l) m =
  Msg.set_fields m (fold_left (fun acc kv => <[kv.1 := decoded true kv.2]> acc) l (fields m)).
Proof.
  revert m. induction l as [|[k v] l IH]; intros m H; simpl; [by destruct m|].
  apply Forall_cons_1 in H as [Hv Hl]. by rewrite (append_field_node m k v Hv), IH by done.
Qed.
Lemma fold_items_union {V W} (g : V -> W) (f : gmap string V) (acc : gmap string W) :
  fold_left (fun acc kv => <[kv.1 := g kv.2]> acc) (map_items f) acc = (g <$> f) ∪ acc.
Proof.
  apply map_eq. intros k. rewrite fold_insert_lookup by apply map_items_NoDup_keys.
  assert (list_to_map (map_items f) = f) as ->.
  { rewrite (list_to_map_proper _ (map_to_list f)); [apply list_to_map_to_list|apply map_items_NoDup_keys|apply map_items_perm]. }
  rewrite lookup_union, lookup_fmap. destruct (f !! k); simpl; by destruct (acc !! k).
Qed.
(** The message of the second agent: what it knows of the request, and every field of the text over it. *)
Lemma append_message {XP : XmlParser} m0 m s decl rest :
  wf m -> parse_document s = decl :: message_node m :: rest ->
  Msg.xmlAppend m0 s = Some (true, mkMsg (mtype m) (msubtype m) (priority m0) ((decoded true <$> fields m) ∪ fields m0)).
Proof.
  intros Hwf Hp. unfold Msg.xmlAppend. rewrite Hp. simpl. do 2 f_equal. rewrite append_field_nodes.
  - rewrite fold_items_union. done.
  - apply Forall_forall. intros [k v] Hk%elem_of_map_items. by apply (Hwf k).
Qed.
Lemma is_xml_message m : isXmlstring (Msg.xmlEncode m 1) = true.
Proof.
  unfold isXmlstring, Msg.xmlEncode. generalize (Msg.open_tag m +:+ sconcat (map (fun kv => ML.xmlEncode kv.2 kv.1) (map_items (fields m))) +:+ "</message>").
  intros y. assert ("xml version=" <> "") as H by done. exact (contains_at "<?" "xml version=" (quote "1.0" +:+ " ?>" +:+ y) H).
Qed.
Lemma complete_wf {I : Identity} r m : wf m -> wf (RA.messageComplete r m).
Proof.
  intros H. unfold RA.messageComplete, RA.cmdexec_fields, RA.reset_fields.
  repeat (case_match; subst); repeat first [apply wf_remove|apply wf_add|done].
Qed.

(** ** The fields an agent completes *)
(** The field, when it is set, holds one text and is no list. *)
Definition single (m : MMessage) (f : string) : Prop := forall l, fields m !! f = Some l -> exists v, l = ML.of_string v.
Lemma lookup_add m f v g :
  single m f -> fields (Msg.add m f v) !! g = if f =s g then Some (ML.of_string v) else fields m !! g.
Proof.
  intros H. unfold Msg.add, seqb. case_bool_decide as Hfg; [subst g|].
  - destruct (fields m !! f) as [l|] eqn:E; simpl; rewrite lookup_insert_eq; [|done]. by destruct (H l E) as [x ->].
  - by destruct (fields m !! f); simpl; rewrite lookup_insert_ne.
Qed.
Lemma lookup_remove m f g : fields (Msg.remove m f).2 !! g = if f =s g then None else fields m !! g.
Proof.
  unfold Msg.remove, seqb. case_bool_decide as Hfg; [subst g|]; destruct (fields m !! f) eqn:E; simpl;
    [by apply lookup_delete_eq|done|by apply lookup_delete_ne|done].
Qed.
Lemma single_add m f v g : single m f -> single m g -> single (Msg.add m f v) g.
Proof. intros Hf Hg l. rewrite lookup_add by done. destruct (f =s g); [intros [= <-]; by eexists|apply Hg]. Qed.
Lemma flat_single m f : flat m -> single m f.
Proof. intros H l Hl. destruct (H f l Hl) as [Ht [v Hi]]. exists v. destruct l. simpl in *. by subst. Qed.
(** The fields that an agent may write into the message it posts. *)
Definition written_fields : list string := ["language"; "agent"; "source"; "value"; "duration"; "cmdname"].
Lemma is_written f : existsb (seqb f) written_fields = true -> f ∈ written_fields.
Proof. intros (g & Hg & E%seqb_true)%existsb_exists. subst. by apply list_elem_of_In. Qed.
Ltac written := first [assumption|apply is_written; reflexivity].

Section bridge.
Context {P : Platform} {C : Config} {XP : XmlParser} {I : Identity} {T : Tcp}.
Implicit Types (r : MRemoteAgent) (m : MMessage).
(** What is posted for the field [f] of [m]: the language and the agent are set; a command for a relay has the source and the
    times of the other agent's own parameters, no comment, and becomes the order [cmdexec]. *)
Definition completed r m (f : string) : option MstringList :=
  let order := RA.is_command m "cmdexec" in
  if "language" =s f then Some (ML.of_string (RA.get r "language"))
  else if "agent" =s f then Some (ML.of_string agentname)
  else if order || RA.is_command m "reset" then
    if "source" =s f then Some (ML.of_string (RA.get r "relay"))
    else if "value" =s f then
      Some (ML.of_string (if order then if Msg.getString m "value" =s "" then RA.get r "command" else Msg.getString m "value"
                          else RA.get r "reset"))
    else if "duration" =s f then Some (ML.of_string (RA.get r (if order then "cmdduration" else "resetduration")))
    else if "cmdname" =s f then Some (ML.of_string "cmdexec")
    else if "comment" =s f then None
    else fields m !! f
  else fields m !! f.
Lemma getString_same m m' f : fields m' !! f = fields m !! f -> Msg.getString m' f = Msg.getString m f.
Proof. unfold Msg.getString. by intros ->. Qed.
Lemma cmdexec_lookup r m g :
  (forall f, f ∈ written_fields -> single m f) ->
  fields (RA.cmdexec_fields r m) !! g =
    if "comment" =s g then None
    else if "duration" =s g then Some (ML.of_string (RA.get r "cmdduration"))
    else if ("value" =s g) && (Msg.getString m "value" =s "") then Some (ML.of_string (RA.get r "command"))
    else if "source" =s g then Some (ML.of_string (RA.get r "relay"))
    else fields m !! g.
Proof.
  intros H. unfold RA.cmdexec_fields. rewrite lookup_remove, getString_add_ne by done.
  set (m1 := Msg.add m "source" (RA.get r "relay")).
  assert (forall f, f ∈ written_fields -> single m1 f) as H1 by (intros f Hf; apply single_add; apply H; written).
  destruct (Msg.getString m "value" =s "").
  - rewrite lookup_add by (apply single_add; apply H1; written). rewrite lookup_add by (apply H1; written).
    unfold m1. rewrite lookup_add by (apply H; written). by rewrite andb_true_r.
  - rewrite lookup_add by (apply H1; written). unfold m1. rewrite lookup_add by (apply H; written). by rewrite andb_false_r.
Qed.
Lemma reset_lookup r m g :
  (forall f, f ∈ written_fields -> single m f) ->
  fields (RA.reset_fields r m) !! g =
    if "comment" =s g then None
    else if "duration" =s g then Some (ML.of_string (RA.get r "resetduration"))
    else if "value" =s g then Some (ML.of_string (RA.get r "reset"))
    else if "cmdname" =s g then Some (ML.of_string "cmdexec")
    else if "source" =s g then Some (ML.of_string (RA.get r "relay"))
    else fields m !! g.
Proof.
  intros H. unfold RA.reset_fields. rewrite lookup_remove.
  rewrite !lookup_add; [done|..]; repeat apply single_add; apply H; written.
Qed.
(** Both sides compare the field with literal names. *)
Ltac names := unfold seqb; repeat (case_bool_decide; [subst; try done|]); try done.
Lemma complete_lookup r m f :
  Forall (single m) written_fields -> RA.get r "language" <> "" -> fields (RA.messageComplete r m) !! f = completed r m f.
Proof.
  intros Hs Hl. assert (forall g, g ∈ written_fields -> single m g) as Hm by (by apply Forall_forall).
  unfold RA.messageComplete. rewrite (seqb_ne _ _ Hl). cbn [negb]. cbv zeta.
  set (m1 := Msg.add (Msg.add m "language" (RA.get r "language")) "agent" agentname).
  assert (forall g, g ∈ written_fields -> single m1 g) as H1.
  { intros g Hg. repeat apply single_add; apply Hm; written. }
  assert (forall g, fields m1 !! g = if "agent" =s g then Some (ML.of_string agentname)
    else if "language" =s g then Some (ML.of_string (RA.get r "language")) else fields m !! g) as Hf1.
  { intros g. unfold m1. rewrite !lookup_add; [done|apply Hm; written|apply single_add; apply Hm; written]. }
  assert (forall name, RA.is_command m1 name = RA.is_command m name) as Hc1.
  { intros name. unfold RA.is_command, m1. by rewrite !mtype_add, !getString_add_ne. }
  rewrite Hc1. unfold completed.
  assert (Msg.getString m1 "value" = Msg.getString m "value") as Hv by (apply getString_same; by rewrite Hf1).
  clearbody m1. destruct (RA.is_command m "cmdexec") eqn:Eo; cbn [orb].
  - assert (single m "cmdname") as Hsc by (apply Hm; written).
    assert (single m "value") as Hsv by (apply Hm; written).
    assert (Msg.getString m "cmdname" = "cmdexec") as Hn.
    { unfold RA.is_command in Eo. apply andb_true_iff in Eo as [_ Eo]. by apply seqb_true in Eo. }
    assert (fields m !! "cmdname" = Some (ML.of_string "cmdexec")) as Hcn.
    { unfold Msg.getString in Hn. destruct (fields m !! "cmdname") as [l|] eqn:E; [|done].
      destruct (Hsc l E) as [v ->]. change (v = "cmdexec") in Hn. by rewrite Hn. }
    assert (RA.is_command (RA.cmdexec_fields r m1) "reset" = false) as ->.
    { unfold RA.is_command. replace (Msg.getString (RA.cmdexec_fields r m1) "cmdname") with "cmdexec"; [by rewrite andb_false_r|].
      unfold Msg.getString. rewrite cmdexec_lookup, Hf1 by done. simpl. by rewrite Hcn. }
    rewrite cmdexec_lookup, Hf1, Hv by done. names.
    simpl. match goal with H : Msg.getString m "value" <> "" |- _ => revert H end. unfold Msg.getString.
    destruct (fields m !! "value") as [l|] eqn:E; [|done]. by destruct (Hsv l E) as [v ->].
  - rewrite Hc1. destruct (RA.is_command m "reset") eqn:Er; [|rewrite Hf1; by names].
    rewrite reset_lookup, Hf1 by done. by names.
Qed.
Lemma send_posts r m w sd got :
  let mc := RA.messageComplete r m in let body := Msg.xmlEncode mc 1 in
  ra_name r <> "none" -> RA.get r "status" <> "OFF" -> RA.get r "language" = "xml" -> nul ∉ chars body ->
  (String.length (RA.post_text r body) < MAXB)%nat ->
  tcp_connect (w_tick w) (ra_ip r) (ra_port r) = Some sd -> 0 < sd ->
  RA.read_loop (tcp_reads (w_tick w) (ra_ip r) (ra_port r)) [] = Some got ->
  exists z w' t, RA.send r m w = (Some (z, mc), w') /\ w_trace w' = w_trace w ++ Written sd (RA.post_text r body) :: t.
Proof.
  intros mc body Hn Hs Hl Hf Hlen Hc Hsd Hr. unfold RA.send. rewrite !seqb_ne by done. cbn [orb]. fold mc.
  unfold RA.encode. rewrite Hl, seqb_refl. fold body. rewrite bindo_run. unfold RA.sendStringMessage. rewrite bindo_run.
  unfold RA.exchange. rewrite (proj2 (Nat.leb_gt _ _) Hlen). cbv zeta. rewrite Hc, (proj2 (Z.ltb_lt _ _) Hsd), Hr.
  cbn [mbind option_bind]. destruct got as [[] got].
  - eexists 1, _, []. split; [reflexivity|done].
  - eexists (-1), _, [_]. split; [reflexivity|]. simpl. by rewrite <- (assoc_L (++)).
Qed.
(** The message notified at the other end. *)
Definition request_fields : gmap string MstringList :=
  {["method" := ML.of_string "POST"; "url" := ML.of_string "/"; "language" := ML.of_string "xml"]}.
Definition relayed r m : MMessage :=
  mkMsg (mtype m) (msubtype m) 0 ((decoded true <$> fields (RA.messageComplete r m)) ∪ request_fields).
Definition same_type m m' : Prop := mtype m' = mtype m /\ msubtype m' = msubtype m.
Lemma same_type_add m m' f v : same_type m m' -> same_type m (Msg.add m' f v).
Proof. intros [H1 H2]. split; by rewrite ?mtype_add, ?msubtype_add. Qed.
Lemma same_type_remove m m' f : same_type m m' -> same_type m (Msg.remove m' f).2.
Proof. intros [H1 H2]. unfold Msg.remove. by destruct (fields m' !! f). Qed.
Lemma complete_type r m : same_type m (RA.messageComplete r m).
Proof.
  unfold RA.messageComplete, RA.cmdexec_fields, RA.reset_fields. cbv zeta.
  repeat first [apply same_type_remove|apply same_type_add|split_match|done].
Qed.
Lemma post_notifies r m b w decl rest :
  let body := Msg.xmlEncode (RA.messageComplete r m) 1 in
  wf m -> parse_document (body +:+ crlf) = decl :: message_node (RA.messageComplete r m) :: rest ->
  Req.observed b (mtype m) (msubtype m) = true ->
  Rest.nonRest_POST b body w =
  (Some (Msg.add (Msg.add (Msg.mk "answer" "*") "language" "xml") "result" "done"), (notify (relayed r m) w).2).
Proof.
  intros body Hwf Hp Hobs. unfold Rest.nonRest_POST. unfold body at 1 2 3 4. rewrite is_xml_message. cbv zeta. cbn iota.
  rewrite bindo_run. unfold lifto. cbn [mret M_ret].
  assert (wf (RA.messageComplete r m)) as Hwfc by (by apply complete_wf). destruct (complete_type r m) as [Et Es].
  rewrite (append_message _ (RA.messageComplete r m) _ decl rest Hwfc Hp). cbn [fmap option_fmap option_map snd mtype msubtype].
  rewrite Et, Es, Hobs, run_bind. unfold relayed. do 5 f_equal.
Qed.

(** The field [f] of the message notified: what is posted, a list without its items, beside the fields of the request. *)
Definition relayed_field r m (f : string) : option MstringList :=
  match completed r m f with Some l => Some (decoded true l) | None => request_fields !! f end.
Lemma relayed_lookup r m f :
  Forall (single m) written_fields -> RA.get r "language" <> "" -> fields (relayed r m) !! f = relayed_field r m f.
Proof.
  intros Hs Hl. unfold relayed, relayed_field. cbn [fields]. rewrite lookup_union, lookup_fmap, complete_lookup by done.
  destruct (completed r m f); simpl; by destruct (request_fields !! f).
Qed.
(** With a parser that reads back what the first agent posts, the second one notifies it. *)
Lemma message_crosses b a o ob m ob' w b2 w2 sd got decl rest :
  let r := ot_agent o in let body := Msg.xmlEncode (RA.messageComplete r m) 1 in
  observers b !! a = Some ob -> Ob.receive_message ob = Some (m, ob') -> agent_status b = true ->
  ra_name r <> "none" -> RA.get r "status" <> "OFF" -> RA.get r "language" = "xml" ->
  wf m -> nul ∉ chars body -> (String.length (RA.post_text r body) < MAXB)%nat ->
  tcp_connect (w_tick w) (ra_ip r) (ra_port r) = Some sd -> 0 < sd ->
  RA.read_loop (tcp_reads (w_tick w) (ra_ip r) (ra_port r)) [] = Some got ->
  parse_document (body +:+ crlf) = decl :: message_node (RA.messageComplete r m) :: rest ->
  Req.observed b2 (mtype m) (msubtype m) = true ->
  exists w' t answer w2',
    OTCP.dispatch b a o w = (Some (Some (b <| observers := <[a := ob']> (observers b) |>)), w') /\
    w_trace w' = w_trace w ++ Written sd (RA.post_text r body) :: t /\
    Rest.nonRest_POST b2 body w2 = (Some answer, w2') /\ Msg.getString answer "result" = "done" /\
    w_trace w2' = w_trace w2 ++ [Notified (relayed r m)].
Proof.
  intros r body Hob Hrec Hst Hn Hs Hl Hwf Hf Hlen Hc Hsd Hread Hp Hobs.
  destruct (send_posts r m w sd got Hn Hs Hl Hf Hlen Hc Hsd Hread) as (z & w' & t & Hsend & Ht).
  exists w', t. eexists _, _. split_and!.
  - unfold OTCP.dispatch. rewrite Hob. cbn [mbind option_bind]. rewrite Hrec. cbv zeta. simpl. rewrite Hst, bindo_run. fold r. by rewrite Hsend.
  - exact Ht.
  - by apply (post_notifies r m b2 w2 decl rest).
  - done.
  - done.
Qed.
End bridge.

(** ** With the parser of the agents *)
Section agents.
Context {P : Platform} {C : Config} {I : Identity} {T : Tcp}.
Lemma clean_text_bytes m tail : wf m -> clean_message m -> spaces tail = true -> nul ∉ chars (Msg.xmlEncode m 1 +:+ of_chars tail).
Proof.
  intros Hwf Hc Hs Hn. destruct (message_document m tail Hwf Hc Hs) as [sp s sp' Hx H1 H2].
  assert (no_nul (chars (header +:+ of_chars (sp ++ s ++ sp'))) = true) as H.
  { by rewrite chars_app, chars_of_chars, !no_nul_app, (proj1 no_nul_text _ _ Hx), (no_nul_spaces sp), (no_nul_spaces sp'). }
  discriminate (proj1 (forallb_forall _ _) H nul (proj1 (list_elem_of_In _ _) Hn)).
Qed.
(** The texts an agent may write into a message. *)
Definition clean_agent (r : MRemoteAgent) : Prop :=
  clean_text agentname = true /\
  Forall (fun k => clean_text (RA.get r k) = true) ["relay"; "command"; "cmdduration"; "reset"; "resetduration"].
Lemma clean_completed r m f l :
  clean_agent r -> clean_message m -> RA.get r "language" = "xml" -> completed r m f = Some l -> clean_list f l = true.
Proof.
  intros [Ha Hr] [_ Hf] Hl. repeat (apply Forall_cons_1 in Hr as [? Hr]).
  assert (clean_text (Msg.getString m "value") = true) as Hv.
  { unfold Msg.getString. destruct (fields m !! "value") as [x|] eqn:E; [|done]. specialize (Hf "value" x E).
    destruct x as [t [|v i]]; [done|]. cbn -[clean_text] in *. by destruct (clean_text v). }
  assert (forall k v, clean_text k = true -> clean_text v = true -> clean_list k (ML.of_string v) = true) as Hof.
  { intros k v Hk Hx. cbn -[clean_text]. by rewrite Hk, Hx. }
  unfold completed. rewrite Hl. unfold seqb.
  repeat (case_bool_decide; [subst; try (intros [= <-]; apply Hof; [reflexivity|]; done)|]);
    destruct (RA.is_command m "cmdexec"), (RA.is_command m "reset"); cbn [orb];
    first [apply Hf|intros [= <-]; apply Hof; [reflexivity|done]|done].
Qed.

(** C6: an observer made for another agent that is on, has a name and speaks xml, when its turn comes, takes the message its
    queue hands out, posts it to that agent as [MRemoteAgent::messageComplete] completes it, and leaves all else on the bus as
    it was; and the agent that is posted to, if somebody observes the subject there, notifies a message of the same type and
    subtype.  [relayed_field] gives each of its fields: "language" and "agent" name the form of the text and the sender; a
    command whose "cmdname" is cmdexec or reset has the source, value and duration of the other agent's own parameters (the
    value of a cmdexec that has one is kept), is a cmdexec and has no comment; every other field is the one of the message,
    but that a list loses its items; a message without "method" and "url" has those of the request.  The fields the agent may
    write are single texts, the texts are clean, and the request fits the buffer. *)
Theorem message_crosses_the_network b a o ob m ob' w b2 w2 sd got :
  let r := ot_agent o in let body := Msg.xmlEncode (RA.messageComplete r m) 1 in
  observers b !! a = Some ob -> Ob.receive_message ob = Some (m, ob') -> agent_status b = true ->
  ra_name r <> "none" -> RA.get r "status" <> "OFF" -> RA.get r "language" = "xml" ->
  wf m -> Forall (single m) written_fields -> clean_message m -> clean_agent r ->
  (String.length (RA.post_text r body) < MAXB)%nat ->
  tcp_connect (w_tick w) (ra_ip r) (ra_port r) = Some sd -> 0 < sd ->
  RA.read_loop (tcp_reads (w_tick w) (ra_ip r) (ra_port r)) [] = Some got ->
  Req.observed b2 (mtype m) (msubtype m) = true ->
  exists w' t m' answer w2',
    OTCP.dispatch b a o w = (Some (Some (b <| observers := <[a := ob']> (observers b) |>)), w') /\
    w_trace w' = w_trace w ++ Written sd (RA.post_text r body) :: t /\
    Rest.nonRest_POST (XP := tinyxml) b2 body w2 = (Some answer, w2') /\ Msg.getString answer "result" = "done" /\
    w_trace w2' = w_trace w2 ++ [Notified m'] /\ mtype m' = mtype m /\ msubtype m' = msubtype m /\
    forall f, fields m' !! f = relayed_field r m f.
Proof.
  intros r body Hob Hrec Hst Hn Hs Hl Hwf Hsingle Hclean Hag Hlen Hc Hsd Hread Hobs.
  assert (RA.get r "language" <> "") as Hne by (by rewrite Hl).
  assert (clean_message (RA.messageComplete r m)) as Hcm.
  { split; [destruct (complete_type r m) as [-> ->]; apply Hclean|]. intros f l Hfl. rewrite complete_lookup in Hfl by done.
    by apply (clean_completed r m f l). }
  assert (wf (RA.messageComplete r m)) as Hwfc by (by apply complete_wf).
  destruct (message_crosses (XP := tinyxml) b a o ob m ob' w b2 w2 sd got xml_declaration [])
    as (w' & t & answer & w2' & H1 & H2 & H3 & H4 & H5); [done..| |done|done|done|done| |done|].
  - pose proof (clean_text_bytes _ [] Hwfc Hcm eq_refl) as H. by rewrite sapp_nil_r in H.
  - pose proof (document_parses _ _ (message_document _ (chars crlf) Hwfc Hcm eq_refl)) as E. rewrite of_chars_chars in E.
    unfold parse_document, tinyxml. fold r. by rewrite E.
  - exists w', t, (relayed r m), answer, w2'. split_and!; [done..|]. intros f. by apply relayed_lookup.
Qed.
End agents.

(** ** Witnesses *)
Import Samples.Instances NetSamples.Instances.
#[local] Instance open_peer : Tcp := {| tcp_connect := fun _ _ _ => Some 7; tcp_reads := fun _ _ _ => [Some "HTTP/1.0 200 OK"; Some ""] |}.
Definition peer : MRemoteAgent :=
  RA.set_fields (RA.init (Params.add (Params.add (Params.add (Params.add (Params.mk1 "camera") "address" "10.0.0.2") "port" "8080") "language" "xml") "relay" "relay1") "camera").
(** A command for the relay of the camera. *)
Definition order_on : MMessage :=
  Msg.add (Msg.add (Msg.add (Msg.mk "cmd" "lamp") "cmdname" "cmdexec") "value" "ON") "comment" "from the panel".
Lemma order_flat : flat order_on.
Proof. repeat apply flat_add. apply flat_mk. Qed.
Lemma order_clean : clean_message order_on.
Proof. split; [reflexivity|]. apply map_Forall_to_list. vm_compute. repeat constructor. Qed.
Definition sending_bus : Bus := mkBus ∅ {[1%nat := mkOb "camera" [] (mkQ [order_on] 0)]} true.
Definition listening_bus : Bus := SubjSet.add_subject (mkBus ∅ ∅ true) "cmd" "lamp".
Lemma message_crosses_the_network_witness :
  exists w' t m' answer w2',
    OTCP.dispatch sending_bus 1 (mkOT peer [] true) (world_at early) =
      (Some (Some (sending_bus <| observers := <[1%nat := mkOb "camera" [] Q.empty]> (observers sending_bus) |>)), w') /\
    w_trace w' = Written 7 (RA.post_text peer (Msg.xmlEncode (RA.messageComplete peer order_on) 1)) :: t /\
    Rest.nonRest_POST listening_bus (Msg.xmlEncode (RA.messageComplete peer order_on) 1) (world_at early) = (Some answer, w2') /\
    w_trace w2' = [Notified m'] /\ fields m' !! "value" = Some (ML.of_string "ON") /\
    fields m' !! "source" = Some (ML.of_string "relay1") /\ fields m' !! "comment" = None.
Proof.
  destruct (message_crosses_the_network (T := open_peer) sending_bus 1 (mkOT peer [] true) (mkOb "camera" [] (mkQ [order_on] 0)) order_on (mkOb "camera" [] Q.empty)
    (world_at early) listening_bus (world_at early) 7 (true, chars "HTTP/1.0 200 OK"))
    as (w' & t & m' & answer & w2' & H1 & H2 & H3 & _ & H5 & _ & _ & H6).
  1-6, 12-15: vm_compute; (reflexivity || discriminate).
  - apply flat_wf, order_flat.
  - apply Forall_forall. intros f _. apply flat_single, order_flat.
  - apply order_clean.
  - split; [reflexivity|]. repeat constructor.
  - apply Nat2Z.inj_lt. assert (Z.of_nat MAXB = 65000) as -> by (vm_compute; reflexivity). apply Z.ltb_lt. vm_compute. reflexivity.
  - exists w', t, m', answer, w2'. split_and!; [exact H1|exact H2|exact H3|exact H5|..]; rewrite H6; vm_compute; reflexivity.
Defined.
