(* ===== verification/PwrProgram.v ===== *)
(** * Power programs (minilibs/pwrprogram.cpp, pwrprogram.h)

    A power program gives each area a target value: per day of the week and per default, a list of
    periods with a value.  Loading a program computes the targets of the present time into a map from
    texts ("current_<area>", "next_<area>", "default_<area>", ...) to values with their interval.
    [None] is a pointer dereferenced while it is null (a document without the expected nodes, a comment
    among the areas or periods, an attribute that is missing) or a variable read before it is
    set.  The properties of installed programs are at the end. *)
From S2P Require Import Prelude Doubles Hsrv Xml MMessage World XmlPrint MParams Samples ProgramEngine Subjects Archive ArchiveFacts.

Record FeatureValue := mkFV { value : double; beginTime : string; endTime : string }.
Record PwrProgram := mkPwr {
  table : gmap string FeatureValue; areas : list string; doc : option xptr; current : string }.
#[export] Instance PwrProgram_rebuild : Rebuild PwrProgram := fun p =>
  mkPwr (table p) (areas p) (doc p) (current p).

(** [FirstChild(v)], [NextSibling(v)]: the first node of that value. *)
Fixpoint first_named (v : string) (l : xptr) : option xnode :=
  match l with [] => None | n :: l' => if node_value n =s v then Some n else first_named v l' end.
(** The first node of that value and all the nodes after it. *)
Fixpoint from_named (v : string) (l : xptr) : xptr :=
  match l with [] => [] | n :: l' => if node_value n =s v then l else from_named v l' end.
(** [n->ToElement()->Attribute(name)] put into a string. *)
Definition attribute (n : xnode) (name : string) : option string :=
  match n with XElement _ a _ => attr_value a name | XOther _ _ => None end.

Module Pwr.
Definition empty : PwrProgram := mkPwr ∅ [] None "".
Definition no_value : FeatureValue := mkFV d0 "" "".
Definition OFFVALUE : double := d_of_Z (-10000000000).
Definition offValue : FeatureValue := mkFV OFFVALUE "00:00:00" "23::59::00".
(** The end of the entry of a key; [map::operator] adds the key when it is missing. *)
Definition touch (key : string) (t : gmap string FeatureValue) : string * gmap string FeatureValue :=
  match t !! key with Some v => (endTime v, t) | None => ("", <[key := no_value]> t) end.

Definition isInside (t begin_ end_ : string) : bool :=
  if (t =s "24:00:00") && (begin_ =s "00:00:00") then true
  else if String.ltb begin_ end_ then String.leb begin_ t && String.ltb t end_
  else (String.leb begin_ t && String.ltb t "24:00:00") || (String.leb "00:00:00" t && String.ltb t end_).

(** The loop over the periods goes on until one that contains the time has given a
    nonempty end. *)
Fixpoint periods_loop (ctime : string) (l : list xnode) (from to : string) (cval : double)
    : option (string * string * double) :=
  match l with
  | [] => Some (from, to, cval)
  | n :: l' =>
      if to =s "" then
        tmpFrom ← attribute n "from"; tmpTo ← attribute n "to";
        if isInside ctime tmpFrom tmpTo then
          periods_loop ctime l' tmpFrom tmpTo (default cval (attribute n "value" ≫= scan_double))
        else periods_loop ctime l' from to cval
      else Some (from, to, cval)
  end.
Definition getPeriods (daynode : xnode) (ctime key : string) (t : gmap string FeatureValue)
    : option (bool * gmap string FeatureValue) :=
  match first_named "periods" (children daynode) with
  | None => Some (false, t)
  | Some p =>
      r ← periods_loop ctime (children p) "" "" d0;
      let '(from, to, cval) := r in
      if (from =s "") || (to =s "") then Some (false, t)
      else Some (true, <[key := mkFV cval from to]> t)
  end.

(** [doc->FirstChild()->NextSibling("programs")->FirstChild("areas")] *)
Definition areas_of (d : xptr) : option (option xnode) :=
  r ← NextSibling d; p ← first_named "programs" r; Some (first_named "areas" (children p)).

Definition default_area (ctime : string) (n : xnode) (s : gmap string FeatureValue * list string)
    : option (gmap string FeatureValue * list string) :=
  let '(t, names) := s in
  cfeature ← attribute n "name";
  let names := if cfeature <>s "" then names ++ [cfeature] else names in
  match first_named "default" (children n) with
  | None => Some (t, names)
  | Some d =>
      let key := "default_" +:+ cfeature in
      let nkey := "ndfault_" +:+ cfeature in
      r ← getPeriods d ctime key t;
      let '(found, t) := r in
      if found : bool then
        let '(e, t) := touch key t in
        r ← getPeriods d e nkey t;
        let '(next, t) := r in
        Some (match t !! key with Some v => if next : bool then t else <[nkey := v]> t | None => t end, names)
      else Some (t, names)
  end.
Fixpoint fold_opt {A S} (f : A -> S -> option S) (l : list A) (s : S) : option S :=
  match l with [] => Some s | a :: l' => s ← f a s; fold_opt f l' s end.
Definition getDefault (ctime : string) (p : PwrProgram) : option (bool * PwrProgram) :=
  d ← doc p;
  an ← areas_of d;
  match an with
  | None => Some (false, p)
  | Some a =>
      s ← fold_opt (default_area ctime) (children a) (table p, areas p);
      Some (true, p <| table := s.1 |> <| areas := s.2 |>)
  end.

(** The days of an area; the variable of the day of the week keeps its value where the attribute is not a
    number, and is unset at first. *)
Definition state : Type := gmap string FeatureValue * option Z.
Definition on_day (day : Z) (act : xnode -> gmap string FeatureValue -> option (gmap string FeatureValue))
    (n : xnode) (s : state) : option state :=
  let '(t, wday) := s in
  a ← attribute n "weekday";
  let wday := match scan_int a with Some z => Some z | None => wday end in
  w ← wday;
  t ← (if w =? day then act n t else Some t);
  Some (t, wday).
Definition today_targets (ctime cfeature : string) (n : xnode) (t : gmap string FeatureValue)
    : option (gmap string FeatureValue) :=
  let key := "current_" +:+ cfeature in
  r ← getPeriods n ctime key t;
  let '(found, t) := r in
  if found : bool then
    let '(e, t) := touch key t in
    if String.ltb e "24:00:00" then r ← getPeriods n e ("next_" +:+ cfeature) t; Some r.2 else Some t
  else Some t.
Definition tomorrow_targets (cfeature : string) (n : xnode) (t : gmap string FeatureValue)
    : option (gmap string FeatureValue) :=
  let nkey := "next_" +:+ cfeature in
  let key := "current_" +:+ cfeature in
  let dkey := "default_" +:+ cfeature in
  match t !! nkey with
  | Some _ => Some t
  | None =>
      r ← match t !! key, t !! dkey with
          | Some v, _ => getPeriods n (endTime v) nkey t
          | None, Some _ => let '(e, t) := touch key t in getPeriods n e dkey t
          | None, None => getPeriods n "00:00:00" nkey t
          end;
      Some r.2
  end.
Definition each_area (day : Z) (act : string -> xnode -> gmap string FeatureValue -> option (gmap string FeatureValue))
    (n : xnode) (s : state) : option state :=
  cfeature ← attribute n "name";
  fold_opt (on_day day (act cfeature)) (from_named "day" (children n)) s.
Definition next_day (today : Z) : Z := if 7 <? today + 1 then 1 else today + 1.
Definition getTargets (ctime : string) (ct : list Z) (p : PwrProgram) : option (bool * PwrProgram) :=
  let today := nth 6 ct 0 in
  d ← doc p;
  an ← areas_of d;
  match an with
  | None => Some (false, p)
  | Some a =>
      s ← fold_opt (each_area today (today_targets ctime)) (children a) (table p, None);
      s ← fold_opt (each_area (next_day today) tomorrow_targets) (children a) s;
      Some (true, p <| table := s.1 |>)
  end.

Definition target_or_off (prefix feature : string) (p : PwrProgram) : FeatureValue :=
  match table p !! (prefix +:+ feature) with
  | Some v => v
  | None => default offValue (table p !! (prefix +:+ "default"))
  end.
Definition getCurrentTarget (feature : string) (p : PwrProgram) : FeatureValue := target_or_off "current_" feature p.
Definition getNextTarget (feature : string) (p : PwrProgram) : FeatureValue := target_or_off "next_" feature p.

Definition getProgramsList (p : PwrProgram) (programs : list string) (m : gmap string string) : gmap string string :=
  fold_left (fun m n => Prg.insert_new n (if n =s current p then "ON" else "OFF") m) programs m.

Section pwr.
Context {P : Platform} {C : Config} {XP : XmlParser} {FS : PathNames}.

(** The targets of a document that is loaded: each of the two passes reads the clock. *)
Definition targets (p : PwrProgram) : M (option PwrProgram) :=
  ctime ← getasciitimeday;
  r ←! lifto (getDefault ctime p);
  ctime ← getasciitimeday; ct ← CurrentTime 0;
  r ←! lifto (getTargets ctime ct r.2);
  ok r.2.
Definition load_name (fname : string) (p : PwrProgram) : M (option (bool * PwrProgram)) :=
  let p := p <| current := fname |> <| doc := None |> <| table := ∅ |> <| areas := [] |> in
  let name := homedir +:+ "/programs/" +:+ fname in
  f ← isfile_type (canon name) "xml";
  if f : bool then
    c ← contents name;
    let text := default "" c in
    p ←! targets (p <| doc := Some (load_document text) |>);
    ok (parse_ok text, p)
  else ok (false, p).
Definition load (p : PwrProgram) : M (option (bool * PwrProgram)) :=
  c ← contents (homedir +:+ "/CURRENTP");
  load_name (match c with Some s => first_word s | None => "OFF" end) p.
Definition update (p : PwrProgram) : M (option (bool * PwrProgram)) :=
  p ←! targets (p <| table := ∅ |> <| areas := [] |>); ok (true, p).

(** [install]: the shell makes the directory, then the files are written. *)
Definition xml10 : string := Prg.xml10.
Definition off_program : string :=
  xml10 +:+ "<programs name=" +:+ quote "OFF" +:+ " version=" +:+ quote "0" +:+ "> <areas> </areas></programs>" +:+ Msg.endl.
Definition all_program (tag name : string) : string :=
  xml10 +:+ tag +:+ " name=" +:+ quote name +:+ " version=" +:+ quote "0" +:+ "><areas><area name=" +:+ quote "ALL" +:+
  "><default> <periods><period id=" +:+ quote "1" +:+ " from=" +:+ quote "00:00:00" +:+ " to=" +:+ quote "24:00:00" +:+
  " value=" +:+ quote "20" +:+ "/></periods></default></area></areas></programs>" +:+ Msg.endl.
Definition install_file (path text : string) : M unit :=
  o ← open_out path; if o : bool then append path text else mret tt.
Definition install : M bool :=
  let path := homedir +:+ "/programs" in
  d ← opendir path;
  if d : bool then mret true
  else
    emit (Command ("mkdir " +:+ path));;
    mkdir path;;
    install_file (path +:+ "/OFF") off_program;;
    install_file (path +:+ "/MANUAL") (all_program "<programs" "MANUAL");;
    install_file (path +:+ "/ON") (all_program "<programs " "ON");;
    install_file (path +:+ "/AUTO") (all_program "<programs" "AUTO");;
    install_file (homedir +:+ "/CURRENTP") ("OFF" +:+ Msg.endl);;
    install_file (homedir +:+ "/PREVIOUSP") ("NULL" +:+ Msg.endl);;
    mret true.

(** The versions of the programs of a listing; the scan of a file is the one of [Prg]. *)
Definition readattr (f name : string) : M (option string) := Prg.readattr (canon f) name.
Definition version_of (name : string) : M (option string) :=
  v ←! readattr ("./programs/" +:+ name) "version";
  lifto (strReplaceAll (S (String.length v)) v (String (Ascii.ascii_of_nat 34) "") "").
Fixpoint getProgramsVersions (programs : list string) (m : gmap string string) : M (option (gmap string string)) :=
  match programs with
  | [] => ok m
  | n :: l => v ←! version_of n; getProgramsVersions l (Prg.insert_new n v m)
  end.
(** [xmlprint]: whether a document is held, and what is written. *)
Definition xmlprint (p : PwrProgram) : bool * string :=
  match doc p with Some d => (true, TinyPrint.document_stream (TinyPrint.mkDocument d false)) | None => (false, "") end.
(** [FeatureValue] of a value in text. *)
Definition feature_of (v t1 t2 : string) : FeatureValue := mkFV (a2double v) t1 t2.
End pwr.
End Pwr.

(** * Properties of the power programs (minilibs/pwrprogram.cpp) *)

(** ** Times of day as texts *)
Definition clock_text (s : Z) : string :=
  pad2 (s / 3600) +:+ ":" +:+ pad2 (s / 60 mod 60) +:+ ":" +:+ pad2 (s mod 60).

Lemma compare_app a b x y :
  String.length a = String.length b ->
  String.compare (a +:+ x) (b +:+ y) =
  match String.compare a b with Eq => String.compare x y | c => c end.
Proof.
  revert b; induction a as [|c a IH]; intros [|d b] H; try discriminate; [done|].
  rewrite !sapp_cons. simpl. destruct (Ascii.compare c d); [|done|done]. apply IH. by injection H.
Qed.
Lemma pad2_compare a b : 0 <= a < 100 -> 0 <= b < 100 -> String.compare (pad2 a) (pad2 b) = (a ?= b).
Proof.
  intros Ha Hb. enough (E : bool_decide (String.compare (pad2 a) (pad2 b) = (a ?= b)) = true) by by apply bool_decide_eq_true in E.
  revert b Hb. apply (below_spec _ 100). revert a Ha.
  apply (below_spec (fun a => forallb _ (map Z.of_nat (seq 0 100))) 100). vm_compute. reflexivity.
Qed.
Lemma text_compare a b :
  0 <= a <= 86400 -> 0 <= b <= 86400 -> String.compare (clock_text a) (clock_text b) = (a ?= b).
Proof.
  intros Ha Hb. unfold clock_text.
  assert (forall s, 0 <= s <= 86400 -> 0 <= s / 3600 < 100 /\ 0 <= s / 60 mod 60 < 100 /\ 0 <= s mod 60 < 100) as Hr.
  { intros s Hs. pose proof (Z.mod_pos_bound (s / 60) 60). pose proof (Z.mod_pos_bound s 60).
    split_and!; try lia; [apply Z.div_pos; lia|apply Z.div_lt_upper_bound; lia]. }
  destruct (Hr a Ha) as (A1 & A2 & A3), (Hr b Hb) as (B1 & B2 & B3).
  rewrite compare_app, pad2_compare by (rewrite ?length_pad2; done).
  rewrite (compare_app ":" ":") by done. rewrite compare_app, pad2_compare by (rewrite ?length_pad2; done).
  rewrite (compare_app ":" ":"), pad2_compare by done. simpl.
  pose proof (Z.div_mod a 3600 ltac:(lia)). pose proof (Z.div_mod b 3600 ltac:(lia)).
  assert (forall s, s = 3600 * (s / 3600) + 60 * (s / 60 mod 60) + s mod 60) as Hs.
  { intros s. replace (s / 3600) with (s / 60 / 60) by (rewrite Z.div_div by lia; done).
    pose proof (Z.div_mod s 60). pose proof (Z.div_mod (s / 60) 60). lia. }
  pose proof (Hs a). pose proof (Hs b).
  pose proof (Z.mod_pos_bound (a / 60) 60). pose proof (Z.mod_pos_bound a 60).
  pose proof (Z.mod_pos_bound (b / 60) 60). pose proof (Z.mod_pos_bound b 60).
  destruct (Z.compare_spec (a / 3600) (b / 3600)); [|symmetry; apply Z.compare_lt_iff; lia|symmetry; apply Z.compare_gt_iff; lia].
  destruct (Z.compare_spec (a / 60 mod 60) (b / 60 mod 60)); [|symmetry; apply Z.compare_lt_iff; lia|symmetry; apply Z.compare_gt_iff; lia].
  destruct (Z.compare_spec (a mod 60) (b mod 60));
    [symmetry; apply Z.compare_eq_iff; lia|symmetry; apply Z.compare_lt_iff; lia|symmetry; apply Z.compare_gt_iff; lia].
Qed.
Lemma text_ltb a b : 0 <= a <= 86400 -> 0 <= b <= 86400 -> String.ltb (clock_text a) (clock_text b) = (a <? b).
Proof. intros Ha Hb. unfold String.ltb. by rewrite text_compare. Qed.
Lemma text_leb a b : 0 <= a <= 86400 -> 0 <= b <= 86400 -> String.leb (clock_text a) (clock_text b) = (a <=? b).
Proof. intros Ha Hb. unfold String.leb. by rewrite text_compare. Qed.
Lemma text_eqb a b : 0 <= a <= 86400 -> 0 <= b <= 86400 -> (clock_text a =s clock_text b) = (a =? b).
Proof.
  intros Ha Hb. destruct (Z.eqb_spec a b) as [->|Hn]; [apply seqb_refl|]. apply seqb_ne.
  intros E. pose proof (text_compare a b Ha Hb) as H. rewrite E, text_compare, Z.compare_refl in H by done.
  symmetry in H. by apply Z.compare_eq_iff in H.
Qed.

Lemma isInside_interval t b e :
  0 <= t < 86400 -> 0 <= b <= 86400 -> 0 <= e <= 86400 ->
  Pwr.isInside (clock_text t) (clock_text b) (clock_text e) =
  (if b <? e then (b <=? t) && (t <? e) else (b <=? t) || (t <? e)).
Proof.
  intros Ht Hb He. unfold Pwr.isInside.
  change "24:00:00" with (clock_text 86400). change "00:00:00" with (clock_text 0).
  rewrite !text_eqb, !text_ltb, !text_leb by lia.
  replace (t =? 86400) with false by lia. simpl.
  replace (t <? 86400) with true by lia. replace (0 <=? t) with true by lia.
  by rewrite andb_true_r.
Qed.

(** Comparing the texts "HH:MM:SS" is comparing the seconds: a time of the day is inside a
    period when it lies in the half-open interval of seconds from its begin to its end, or,
    for a period that goes past midnight, in either part of the day. *)
Lemma isInside_is_interval t b e :
  0 <= t < 86400 -> 0 <= b <= 86400 -> 0 <= e <= 86400 ->
  Pwr.isInside (clock_text t) (clock_text b) (clock_text e) =
  (if b <? e then (b <=? t) && (t <? e) else (b <=? t) || (t <? e)).
Proof. apply isInside_interval. Qed.

(** ** Periods *)
#[local] Arguments Pwr.getPeriods : simpl never.
#[local] Arguments Pwr.isInside : simpl never.
#[local] Arguments Pwr.default_area : simpl never.
(** A period with its attributes, and the nodes the code reads one from. *)
Definition period_node (n : xnode) : Prop :=
  exists from to, attribute n "from" = Some from /\ attribute n "to" = Some to /\ from <> "" /\ to <> "".
Definition period_of (n : xnode) : FeatureValue :=
  mkFV (default d0 (attribute n "value" ≫= scan_double)) (default "" (attribute n "from")) (default "" (attribute n "to")).
Definition inside (ctime : string) (n : xnode) : bool :=
  Pwr.isInside ctime (beginTime (period_of n)) (endTime (period_of n)).

Lemma periods_loop_done ctime l from to v : to <> "" -> Pwr.periods_loop ctime l from to v = Some (from, to, v).
Proof. intros H. destruct l; simpl; [done|]. by rewrite seqb_ne. Qed.
Lemma periods_loop_first ctime l :
  Forall period_node l ->
  Pwr.periods_loop ctime l "" "" d0 =
  Some match List.find (inside ctime) l with
       | Some n => (beginTime (period_of n), endTime (period_of n), value (period_of n))
       | None => ("", "", d0)
       end.
Proof.
  induction 1 as [|n l (from & to & Hf & Ht & Hne & Hte) _ IH]; [done|]. simpl.
  unfold inside at 1, period_of. rewrite Hf, Ht. simpl.
  destruct (Pwr.isInside ctime from to); [|done]. simpl. rewrite periods_loop_done by done. by rewrite Hf, Ht.
Qed.

(** Among the periods of a day, the first one that contains the time is the target
    recorded, with its value and interval; when none contains it nothing is recorded. *)
Lemma getPeriods_find ctime key t v a p l :
  first_named "periods" l = Some p -> Forall period_node (children p) ->
  Pwr.getPeriods (XElement v a l) ctime key t =
  Some match List.find (inside ctime) (children p) with
       | Some n => (true, <[key := period_of n]> t)
       | None => (false, t)
       end.
Proof.
  intros Hp Hl. unfold Pwr.getPeriods. simpl. rewrite Hp, periods_loop_first by done. simpl.
  destruct (List.find (inside ctime) (children p)) as [n|] eqn:E; [|done].
  apply find_some in E as [E _]. rewrite <- list_elem_of_In in E. rewrite Forall_forall in Hl.
  destruct (Hl n E) as (from & to & Hf & Ht & Hne & Hte). unfold period_of. rewrite Hf, Ht. simpl.
  by rewrite !seqb_ne.
Qed.

(** ** Installed programs *)
(** The document of the programs ON, AUTO and MANUAL that the installation writes. *)
Definition all_period : xnode :=
  XElement "period" [("id", "1"); ("from", "00:00:00"); ("to", "24:00:00"); ("value", "20")] [].
Definition all_default : xnode := XElement "default" [] [XElement "periods" [] [all_period]].
Definition all_tree (name : string) : xptr :=
  [xml_declaration;
   XElement "programs" [("name", name); ("version", "0")]
     [XElement "areas" [] [XElement "area" [("name", "ALL")] [all_default]]]].
Definition all_day : FeatureValue := mkFV (d_of_Z 20) "00:00:00" "24:00:00".

Section installed.
Context {P : Platform} {C : Config} {XP : XmlParser} {FS : PathNames}.

(** A time of the clock is the text of a second of the day. *)
Lemma clock_text_of tv :
  clock_ok tv -> exists s, 0 <= s < 86400 /\ getasciitimeday_of tv = clock_text s.
Proof.
  intros [Ht Hd]. unfold getasciitimeday_of. rewrite day_text by done. destruct Ht as (Hs & Hm & Hh).
  set (t := localtime (tv_sec tv)) in *.
  exists (tm_hour t * 3600 + tm_min t * 60 + tm_sec t). split; [lia|]. unfold clock_text, hms.
  rewrite <- (Z.div_unique (tm_hour t * 3600 + tm_min t * 60 + tm_sec t) 3600 (tm_hour t) (tm_min t * 60 + tm_sec t)) by lia.
  rewrite <- (Z.div_unique (tm_hour t * 3600 + tm_min t * 60 + tm_sec t) 60 (tm_hour t * 60 + tm_min t) (tm_sec t)) by lia.
  rewrite <- (Z.mod_unique (tm_hour t * 60 + tm_min t) 60 (tm_hour t) (tm_min t)) by lia.
  by rewrite <- (Z.mod_unique (tm_hour t * 3600 + tm_min t * 60 + tm_sec t) 60 (tm_hour t * 60 + tm_min t) (tm_sec t)) by lia.
Qed.

Definition default_table : gmap string FeatureValue :=
  <["ndfault_ALL" := all_day]> (<["default_ALL" := all_day]> ∅).
Lemma getPeriods_all ctime key t :
  Pwr.isInside ctime "00:00:00" "24:00:00" = true ->
  Pwr.getPeriods all_default ctime key t = Some (true, <[key := all_day]> t).
Proof.
  intros Hi. unfold all_default. rewrite (getPeriods_find _ _ _ _ _ (XElement "periods" [] [all_period])).
  - simpl. unfold inside. change (Pwr.isInside ctime _ _) with (Pwr.isInside ctime "00:00:00" "24:00:00"). rewrite Hi.
    reflexivity.
  - reflexivity.
  - repeat constructor. by exists "00:00:00", "24:00:00".
Qed.
Lemma all_tree_default name s p :
  0 <= s < 86400 -> doc p = Some (all_tree name) -> table p = ∅ -> areas p = [] ->
  Pwr.getDefault (clock_text s) p = Some (true, p <| table := default_table |> <| areas := ["ALL"] |>).
Proof.
  intros Hs Hd Ht Ha. unfold Pwr.getDefault. rewrite Hd, Ht, Ha.
  change (Pwr.areas_of (all_tree name)) with
    (Some (Some (XElement "areas" [] [XElement "area" [("name", "ALL")] [all_default]]))).
  simpl. unfold Pwr.default_area. simpl. rewrite getPeriods_all.
  - simpl. unfold Pwr.touch. change ("default_" +:+ "ALL") with "default_ALL". change ("ndfault_" +:+ "ALL") with "ndfault_ALL". rewrite lookup_insert_eq, getPeriods_all by reflexivity. simpl.
    by rewrite lookup_insert_ne, lookup_insert_eq by done.
  - change "00:00:00" with (clock_text 0). change "24:00:00" with (clock_text 86400).
    rewrite isInside_interval by lia. simpl. rewrite (proj2 (Z.leb_le 0 s)), (proj2 (Z.ltb_lt s 86400)) by lia. done.
Qed.
Lemma all_tree_targets name ctime ct p :
  doc p = Some (all_tree name) -> Pwr.getTargets ctime ct p = Some (true, p).
Proof. intros Hd. unfold Pwr.getTargets. rewrite Hd. by destruct p. Qed.

Lemma targets_all name p w :
  clock_ok (w_clock w (w_tick w)) -> doc p = Some (all_tree name) -> table p = ∅ -> areas p = [] ->
  result (Pwr.targets p) w = Some (p <| table := default_table |> <| areas := ["ALL"] |>).
Proof.
  intros Hc Hd Ht Ha. destruct (clock_text_of _ Hc) as (s & Hs & Ec).
  unfold Pwr.targets. rewrite result_bind. change (result getasciitimeday w) with (getasciitimeday_of (w_clock w (w_tick w))).
  rewrite Ec, (all_tree_default name) by done. unfold result, lifto. rewrite bindo_run. unfold mret, M_ret. cbn [fst snd].
  rewrite !run_bind, bindo_run. cbn [fst snd]. by rewrite (all_tree_targets name) by done.
Qed.

(** The programs that the installation writes give the whole day the value 20 as a default, and no target
    is ever read from a default: after loading one of them the target of every feature, now
    and next, is the value that stands for off. *)
Lemma installed_program_is_off tag name fname p w :
  w_files w !! canon (homedir +:+ "/programs/" +:+ fname) = Some (Pwr.all_program tag name) ->
  load_document (Pwr.all_program tag name) = all_tree name -> clock_ok (w_clock w (w_tick w)) ->
  exists p', result (Pwr.load_name fname p) w = Some (parse_ok (Pwr.all_program tag name), p') /\
    areas p' = ["ALL"] /\ table p' !! "default_ALL" = Some all_day /\
    forall f, Pwr.getCurrentTarget f p' = Pwr.offValue /\ Pwr.getNextTarget f p' = Pwr.offValue.
Proof.
  intros Hf Hp Hc.
  assert (Ht : isfile_type (canon (homedir +:+ "/programs/" +:+ fname)) "xml" w = (true, w)).
  { unfold isfile_type, read_file, mbind, M_bind. by rewrite Hf. }
  unfold Pwr.load_name. rewrite result_bind. unfold result at 2, final. rewrite Ht. cbn [fst snd].
  rewrite result_bind. unfold result at 2, final, contents, read_file. cbn [fst snd]. rewrite Hf. cbn [default].
  unfold result. rewrite bindo_run. cbn [default from_option id]. set (p0 := _ <| doc := _ |>).
  pose proof (targets_all name p0 w Hc (f_equal Some Hp) eq_refl eq_refl) as E.
  unfold result in E. destruct (Pwr.targets p0 w) as [o w1]. simpl in E. subst o. simpl.
  eexists. split; [unfold ok, mret, M_ret; cbn [fst snd]; rewrite Hf; reflexivity|]. split; [done|]. split; [done|]. intros f.
  unfold Pwr.getCurrentTarget, Pwr.getNextTarget, Pwr.target_or_off. simpl.
  unfold default_table. rewrite !lookup_insert_ne, !lookup_empty by done. done.
Qed.
End installed.

Definition on_world : world :=
  set_files {[ "/home/hat/programs/ON" := Pwr.all_program "<programs " "ON" ]} (world_at early).
