(* ===== verification/Scheduler.v ===== *)
(** * The power scheduler (PwrControl/Control.cpp, ControlSet.cpp, Sensor.h, SensorSet.cpp,
    Scheduler.cpp, Controller.cpp)

    When the measured power exceeds the threshold the scheduler switches off one load, the one
    of least priority that may stop; below it, it switches on one load that fits. *)
From S2P Require Import Prelude Doubles Hsrv Xml MMessage World MParams Pages Engines.

(** ** Class Control *)
Record Control := mkControl {
  ct_params : MParams; last_update : double; latency : double; load_estimate : double;
  upd_time : double; ct_wait_until : double }.
#[export] Instance Control_rebuild : Rebuild Control := fun c =>
  mkControl (ct_params c) (last_update c) (latency c) (load_estimate c) (upd_time c) (ct_wait_until c).

Module Ctl.
Definition get (c : Control) (n : string) : string := Params.get (ct_params c) n.
Definition isstatusON (c : Control) : bool := get c "status" =s "ON".
Definition ismodeON (c : Control) : bool := get c "mode" =s "ON".
Definition subjects (c : Control) (subj : MParams) : MParams := Params.add_cat subj (get c "control") "subject" "cmd".
Definition observations (c : Control) (obs : MParams) : MParams := Params.add_cat obs (get c "name") "observe" "event".
Definition set_param (c : Control) (n v : string) : Control := c <| ct_params := (Params.set (ct_params c) n v).2 |>.

Section ctl.
Context {P : Platform} {C : Config} {XP : XmlParser}.
(** [set(n, v); save();] *)
Definition set_save (c : Control) (n v : string) : M Control :=
  let c := set_param c n v in Params.save (ct_params c);; mret c.
Definition on_or_off (md : string) : bool := (md =s "ON") || (md =s "OFF").
Definition setMode (c : Control) (md : string) : M (bool * Control) :=
  if negb (on_or_off md) then mret (false, c)
  else t ← gettime; c ← set_save (c <| last_update := t |>) "mode" md; mret (true, c).
Definition setStatus (c : Control) (md : string) : M (bool * Control) :=
  if negb (on_or_off md) then mret (false, c) else c ← set_save c "status" md; mret (true, c).
Definition setLoad (c : Control) (md : string) : M (bool * Control) :=
  if md =s "" then mret (false, c) else c ← set_save c "nominalload" md; mret (true, c).
Definition setPriority (c : Control) (md : string) : M (bool * Control) :=
  if md =s "" then mret (false, c) else c ← set_save c "priority" md; mret (true, c).

Definition priority (c : Control) : Z := if get c "priority" =s "" then 0 else a2int (get c "priority").
Definition loadestimateUpdate (c : Control) (value : double) : M Control :=
  t ← gettime; mret (c <| load_estimate := value |> <| upd_time := t |>).
Definition d09 : double := d_of_dec false 9 (-1).
Definition mayStart_at (now : double) (c : Control) (available : double) : bool :=
  if dgtb (ct_wait_until c) now then false
  else if negb (isstatusON c) || ismodeON c then false
  else
    let load := if deqb (load_estimate c) d0 then a2double (get c "nominalload") else load_estimate c in
    dgeb (dmul available d09) load.
Definition mayStart (c : Control) (available : double) : M bool :=
  now ← gettime; mret (mayStart_at now c available).
Definition mayStop_at (now : double) (c : Control) : bool :=
  if dgtb (ct_wait_until c) now then false else isstatusON c && ismodeON c.
Definition mayStop (c : Control) : M bool := now ← gettime; mret (mayStop_at now c).

Definition command (c : Control) (v : string) : MMessage := Msg.add (Msg.mk "cmd" (get c "control")) "value" v.
(** [stop] ([v] = "OFF") and [start] ([v] = "ON") share their shape. *)
Definition switch (c : Control) (v : string) (due : bool) (action : list MMessage) : M (bool * Control * list MMessage) :=
  if isstatusON c && due then
    c ← (if Bool.eqb (ismodeON c) (v =s "ON") then mret c else set_save c "mode" v);
    let c := if dltb (latency c) d0 then c <| latency := a2double (get c "latency") |> else c in
    t ← gettime;
    let c := c <| ct_wait_until := dadd t (latency c) |> in
    mret (true, c, action ++ [command c v])
  else mret (false, c, action).
Definition stop (c : Control) (action : list MMessage) (force : bool) : M (bool * Control * list MMessage) :=
  switch c "OFF" (ismodeON c || force) action.
Definition start (c : Control) (action : list MMessage) (force : bool) : M (bool * Control * list MMessage) :=
  switch c "ON" (negb (ismodeON c) || force) action.

(** The constructor of one control and its [load] by the set. *)
Definition mk (dir nm : string) : M (option Control) :=
  l ← Params.load (Params.mk2 dir nm);
  mret ((fun '(_, p) => mkControl p indet_double (d_of_Z (-1)) d0 indet_double d0) <$> l).
End ctl.
End Ctl.

(** ** Class ControlSet *)
Module CtlSet.
Section cs.
Context {P : Platform} {C : Config} {XP : XmlParser}.
Definition mk (dir : string) (filelist : list string) : M (option (list Control)) :=
  l ← mapM_M (fun f => Ctl.mk dir (FilePath.getStem f)) filelist; mret (mapM id l).
Definition subjects (l : list Control) (subj : MParams) : MParams := fold_left (fun s c => Ctl.subjects c s) l subj.
Definition observations (l : list Control) (obs : MParams) : MParams := fold_left (fun s c => Ctl.observations c s) l obs.
Definition name_of (first : string) (m : MMessage) : string :=
  let name := Msg.getString m first in
  let name := if name =s "" then Msg.getString m "name" else name in
  if name =s "" then Msg.getString m "value" else name.
Definition when_set (m : MMessage) (f : string) (op : Control -> string -> M (bool * Control)) (c : Control) : M Control :=
  if Msg.getString m f <>s "" then '(_, c) ← op c (Msg.getString m f); mret c else mret c.
Definition set_control (name : string) (m : MMessage) (c : Control) : M Control :=
  c ← when_set m "status" Ctl.setStatus c;
  c ← when_set m "mode" Ctl.setMode c;
  c ← when_set m "priority" Ctl.setPriority c;
  c ← when_set m "nominalload" Ctl.setLoad c;
  (if Msg.getString m "configure" =s "YES"
   then Params.xmlSave (ct_params c) (configdir +:+ "/control/" +:+ name +:+ ".xml") else mret false);;
  mret c.
(** Apply [f] to the first control of that name. *)
Fixpoint on_named (name : string) (f : Control -> M Control) (l : list Control) : M (bool * list Control) :=
  match l with
  | [] => mret (false, [])
  | c :: l' =>
      if name =s Ctl.get c "name" then c ← f c; mret (true, c :: l')
      else '(b, l') ← on_named name f l'; mret (b, c :: l')
  end.
Definition setControl (l : list Control) (m : MMessage) : M (bool * list Control) :=
  let name := name_of "controlname" m in on_named name (set_control name m) l.
Definition reset_control (c : Control) : M Control :=
  '(_, c) ← Ctl.setMode c "OFF"; '(_, c) ← Ctl.setPriority c "0"; mret c.
Definition resetControl (l : list Control) (m : MMessage) : M (bool * list Control) :=
  let name := name_of "controlname" m in
  if name =s "" then l ← mapM_M reset_control l; mret (true, l)
  else '(_, l) ← on_named name reset_control l; mret (true, l).
Definition mode_value (m : MMessage) : string :=
  let mode := Msg.getString m "value" in
  if mode =s "1" then "ON" else if mode =s "0" then "OFF" else mode.
Definition handleMode (l : list Control) (m : MMessage) : M (bool * list Control) :=
  l ← mapM_M (fun c => if Ctl.get c "name" =s msubtype m then '(_, c) ← Ctl.setMode c (mode_value m); mret c
                       else mret c) l;
  mret (true, l).
End cs.
End CtlSet.

(** ** Class Sensor and SensorSet *)
Record Sensor := mkSensor { sn_params : MParams; sn_last_update : double }.
#[export] Instance Sensor_rebuild : Rebuild Sensor := fun s => mkSensor (sn_params s) (sn_last_update s).

Module Sns.
Definition get (s : Sensor) (n : string) : string := Params.get (sn_params s) n.
Definition ismeasure (s : Sensor) : bool := get s "control_measure" =s "YES".
Definition observations (s : Sensor) (obs : MParams) : MParams := Params.add_cat obs (get s "name") "observe" "event".
Section sns.
Context {P : Platform} {C : Config} {XP : XmlParser}.
Definition set_save (s : Sensor) (n v : string) : M Sensor :=
  let s := s <| sn_params := (Params.set (sn_params s) n v).2 |> in Params.save (sn_params s);; mret s.
Definition setMeasure (s : Sensor) (md : string) : M Sensor :=
  if (md <>s "YES") && (md <>s "NO") then mret s
  else t ← gettime; set_save (s <| sn_last_update := t |>) "control_measure" md.
Definition setStatus (s : Sensor) (md : string) : M Sensor :=
  if (md <>s "ON") && (md <>s "OFF") then mret s else set_save s "status" md.
Definition setThreshold (s : Sensor) (md : string) : M Sensor :=
  if md =s "" then mret s else set_save s "threshold" md.
Definition mk (dir nm : string) : M (option Sensor) :=
  t ← gettime;
  l ← Params.load (Params.mk2 dir nm);
  mret ((fun '(_, p) => mkSensor p t) <$> l).
End sns.
End Sns.

Module SnsSet.
Section ss.
Context {P : Platform} {C : Config} {XP : XmlParser}.
Definition mk (dir : string) (filelist : list string) : M (option (list Sensor)) :=
  l ← mapM_M (fun f => Sns.mk dir (FilePath.getStem f)) filelist; mret (mapM id l).
Definition observations (l : list Sensor) (obs : MParams) : MParams := fold_left (fun o s => Sns.observations s o) l obs.
Definition configure (m : MMessage) (name : string) (s : Sensor) : M unit :=
  (if Msg.getString m "configure" =s "YES"
   then Params.xmlSave (sn_params s) (configdir +:+ "/sensor/" +:+ name +:+ ".xml") else mret false);; mret tt.
Definition set_sensor (name : string) (m : MMessage) (s : Sensor) : M Sensor :=
  s ← Sns.setStatus s (Msg.getString m "status");
  s ← Sns.setMeasure s (Msg.getString m "control_measure");
  s ← Sns.setThreshold s (Msg.getString m "threshold");
  configure m name s;; mret s.
(** The first loop: every sensor of that name; [done] is left by the last of them. *)
Fixpoint set_loop (name : string) (m : MMessage) (l : list Sensor) (done : bool) : M (bool * list Sensor) :=
  match l with
  | [] => mret (done, [])
  | s :: l' =>
      if name =s Sns.get s "name" then
        s ← set_sensor name m s;
        '(done, l') ← set_loop name m l' (Sns.ismeasure s); mret (done, s :: l')
      else '(done, l') ← set_loop name m l' done; mret (done, s :: l')
  end.
Definition clear_other (name : string) (m : MMessage) (s : Sensor) : M Sensor :=
  if name <>s Sns.get s "name" then
    s ← Sns.setMeasure s "NO"; configure m (Sns.get s "name") s;; mret s
  else mret s.
Definition setSensor (l : list Sensor) (m : MMessage) : M (list Sensor) :=
  let name := CtlSet.name_of "sensorname" m in
  '(done, l) ← set_loop name m l false;
  if done : bool then mapM_M (clear_other name m) l else mret l.
Definition reset_sensor (s : Sensor) : M Sensor := s ← Sns.setMeasure s "NO"; Sns.setThreshold s "3000".
Fixpoint reset_named (name : string) (l : list Sensor) : M (list Sensor) :=
  match l with
  | [] => mret []
  | s :: l' => if Sns.get s "name" =s name then s ← reset_sensor s; mret (s :: l')
               else l' ← reset_named name l'; mret (s :: l')
  end.
Definition resetSensor (l : list Sensor) (m : MMessage) : M (list Sensor) :=
  let name := CtlSet.name_of "controlname" m in
  if name =s "" then mapM_M reset_sensor l else reset_named name l.
Definition measure_of (f : string) (l : list Sensor) : string :=
  match find_first Sns.ismeasure l ≫= fun i => l !! i with Some s => Sns.get s f | None => "" end.
Definition getControlMeasure (l : list Sensor) : string := measure_of "name" l.
Definition getThreshold (l : list Sensor) : string := measure_of "threshold" l.
End ss.
End SnsSet.

(** ** Class Scheduler *)
Record Scheduler := mkSched {
  sc_params : MParams; control : option (list Control); sensor : option (list Sensor);
  last_stopped : nat; threshold : string; control_measure : string; stop_time : double;
  targetvalue_atstop : double; sc_current : double }.
#[export] Instance Scheduler_rebuild : Rebuild Scheduler := fun s =>
  mkSched (sc_params s) (control s) (sensor s) (last_stopped s) (threshold s) (control_measure s)
    (stop_time s) (targetvalue_atstop s) (sc_current s).

Definition MAXTHRESHOLD : Z := 10000.

Module Sched.
Section sched.
Context {P : Platform} {C : Config} {XP : XmlParser} {FS : PathNames} {Ar : Archived}.
Definition get (s : Scheduler) (n : string) : string := Params.get (sc_params s) n.

(** The choice of the load to stop: least priority, below 1000, the first of those.
    [k] is the index of the head of the list, [best] the choice so far. *)
Fixpoint pick_stop (l : list Control) (k : nat) (min_priority : Z) (best : option nat) : M (option nat) :=
  match l with
  | [] => mret best
  | c :: l' =>
      ok ← Ctl.mayStop c;
      if (ok : bool) && (Ctl.priority c <? min_priority) then pick_stop l' (S k) (Ctl.priority c) (Some k)
      else pick_stop l' (S k) min_priority best
  end.
Fixpoint pick_start (available : double) (l : list Control) (k : nat) (max_priority : Z) (best : option nat) : M (option nat) :=
  match l with
  | [] => mret best
  | c :: l' =>
      ok ← Ctl.mayStart c available;
      if (ok : bool) && (max_priority <=? Ctl.priority c) then pick_start available l' (S k) (Ctl.priority c) (Some k)
      else pick_start available l' (S k) max_priority best
  end.
Definition reduceLoad (s : Scheduler) (l : list Control) (cur : double) (action : list MMessage) : M (Scheduler * list MMessage) :=
  m ← pick_stop l 0 1000 None;
  match m ≫= fun i => pair i <$> l !! i with
  | None => mret (s, action)
  | Some (i, c) =>
      '(_, c, action) ← Ctl.stop c action false;
      t ← gettime;
      mret (s <| control := Some (<[i := c]> l) |> <| last_stopped := i |> <| stop_time := t |>
              <| targetvalue_atstop := cur |>, action)
  end.
Definition tryIncreaseLoad (s : Scheduler) (l : list Control) (available : double) (action : list MMessage)
    : M (Scheduler * list MMessage) :=
  m ← pick_start available l 0 0 None;
  match m ≫= fun i => pair i <$> l !! i with
  | None => mret (s, action)
  | Some (i, c) =>
      '(_, c, action) ← Ctl.start c action false;
      mret (s <| control := Some (<[i := c]> l) |>, action)
  end.
(** The load estimate of the control stopped last, after the next measure. *)
Definition estimate (s : Scheduler) (l : list Control) (cur : double) : M (Scheduler * list Control) :=
  if dgtb (stop_time s) d0 then
    let delta := dsub (targetvalue_atstop s) cur in
    l ← (if dgtb delta d0 then
           match l !! last_stopped s with
           | Some c => c ← Ctl.loadestimateUpdate c delta; mret (<[last_stopped s := c]> l)
           | None => mret l
           end
         else mret l);
    mret (s <| stop_time := d0 |> <| control := Some l |>, l)
  else mret (s, l).
Definition target_of (s : Scheduler) : double :=
  if threshold s <>s "" then a2double (threshold s) else d_of_Z MAXTHRESHOLD.
Definition checkControl (s : Scheduler) (m : MMessage) (action : list MMessage) : M (bool * Scheduler * list MMessage) :=
  match control s with
  | None => mret (false, s, action)
  | Some l =>
      if get s "status" <>s "ON" then mret (false, s, action)
      else if msubtype m <>s control_measure s then
        '(b, l) ← CtlSet.handleMode l m; mret (b, s <| control := Some l |>, action)
      else
        let target := target_of s in
        let cur := Msg.getDouble m "Ipower" in
        '(s, l) ← estimate (s <| sc_current := cur |>) l cur;
        '(s, action) ← (if dgtb cur target then reduceLoad s l cur action
                        else if dltb cur target then tryIncreaseLoad s l (dsub target cur) action
                        else mret (s, action));
        mret (true, s, action)
  end.
Fixpoint align_loop (l : list Control) (action : list MMessage) : M (list Control * list MMessage) :=
  match l with
  | [] => mret ([], action)
  | c :: l' =>
      '(_, c, action) ← (if Ctl.get c "mode" =s "OFF" then Ctl.stop c action true
                         else if Ctl.get c "mode" =s "ON" then Ctl.start c action true
                         else mret (false, c, action));
      '(l', action) ← align_loop l' action; mret (c :: l', action)
  end.
Definition aligneControl (s : Scheduler) (action : list MMessage) : M (bool * Scheduler * list MMessage) :=
  match control s with
  | None => mret (false, s, action)
  | Some l =>
      if get s "status" <>s "ON" then mret (false, s, action)
      else '(l, action) ← align_loop l action; mret (true, s <| control := Some l |>, action)
  end.
Definition setControl (s : Scheduler) (m : MMessage) : M (bool * Scheduler) :=
  match control s with
  | None => mret (false, s)
  | Some l => '(b, l) ← CtlSet.setControl l m; mret (b, s <| control := Some l |>)
  end.
Definition resetControl (s : Scheduler) (m : MMessage) : M (bool * Scheduler) :=
  match control s with
  | None => mret (false, s)
  | Some l => '(b, l) ← CtlSet.resetControl l m; mret (b, s <| control := Some l |>)
  end.
(** The measure and the threshold follow the sensors. *)
Definition with_sensors (s : Scheduler) (l : list Sensor) : Scheduler :=
  s <| sensor := Some l |> <| control_measure := SnsSet.getControlMeasure l |> <| threshold := SnsSet.getThreshold l |>.
Definition resetTarget (s : Scheduler) (m : MMessage) : M (bool * Scheduler) :=
  match sensor s with
  | None => mret (false, s)
  | Some l => l ← SnsSet.resetSensor l m; mret (true, with_sensors s l)
  end.
Definition setTarget (s : Scheduler) (m : MMessage) : M (bool * Scheduler) :=
  match sensor s with
  | None => mret (false, s)
  | Some l => l ← SnsSet.setSensor l m; mret (true, with_sensors s l)
  end.

(** [makePage]: [None] when there is no control set, whose pointer is null. *)
Definition load_line (c : Control) : string :=
  "<load name=" +:+ quote (Ctl.get c "name") +:+ " status=" +:+ quote (Ctl.get c "status") +:+ " mode=" +:+
  quote (Ctl.get c "mode") +:+ " priority=" +:+ quote (Ctl.get c "priority") +:+ "/>" +:+ nl.
Definition load_entry (c : Control) : string :=
  "type=" +:+ quote "load" +:+ " device=" +:+ quote (Ctl.get c "name") +:+ " status=" +:+
  quote (Ctl.get c "status") +:+ " priority=" +:+ quote (Ctl.get c "priority").
Definition page_text (s : Scheduler) (l : list Control) : string :=
  "<scheduler>" +:+ nl +:+ "<set type=" +:+ quote "loads" +:+ ">" +:+ nl +:+ sconcat (map load_line l) +:+
  "</set>" +:+ nl +:+ "<target name=" +:+ quote (control_measure s) +:+ " value=" +:+
  quote (double2a (sc_current s)) +:+ " limit=" +:+ quote (threshold s) +:+ "/>" +:+ nl +:+ "</scheduler>" +:+ nl.
Definition target_entry (s : Scheduler) : string :=
  "type=" +:+ quote "target" +:+ " device=" +:+ quote (control_measure s) +:+ " value=" +:+
  quote (double2a (sc_current s)) +:+ " limit=" +:+ quote (threshold s).
Definition makePage (s : Scheduler) : M (option bool) :=
  match control s with
  | None => mret None
  | Some l =>
      iterM (fun c => publish (Ctl.get c "name") (load_entry c)) l;;
      write_out (homedir +:+ "/cnt.xml") (page_text s l);;
      (if control_measure s <>s "" then publish (control_measure s) (target_entry s) else mret tt);;
      addResource "scheduler/queue.xml" (homedir +:+ "/cnt.xml");;
      Dirs.deleteFile homedir "cnt.xml";; mret (Some true)
  end.

(** The configuration files of the devices found, from a template whose first
    [n] occurrences of "$NAME" are replaced. *)
Fixpoint replace_n (n : nat) (body name : string) : string :=
  match n with O => body | S n => replace_n n (strReplace body "$NAME" name).2 name end.
Definition make_devices (dir page template_name : string) (n : nat) (devname : list string) : M bool :=
  cmdExec ("rm " +:+ configdir +:+ "/" +:+ dir +:+ "/*");;
  cmdExec ("rm " +:+ homedir +:+ "/" +:+ dir +:+ "/*");;
  c_template ← read_file (configdir +:+ "/" +:+ template_name);
  saveItemList_names page "status" devname;;
  iterM (fun name =>
    let body := replace_n n (of_chars (until_nul (chars (default "" c_template)))) name in
    write_file (configdir +:+ "/" +:+ dir +:+ "/" +:+ name +:+ ".xml") body;;
    write_file (homedir +:+ "/" +:+ dir +:+ "/" +:+ name +:+ ".xml") body;; mret tt) devname;;
  mret true.
(** The page of the name service is passed in; [None] when its scan does not end. *)
Definition makeControlDevices (s : Scheduler) (answer : string) : M (option bool) :=
  match NS.getNames_of answer "devices" (get s "control_category") with
  | None => mret None
  | Some d => b ← make_devices "control" "controldevices" "control_template.xml" 3 d; mret (Some b)
  end.
Definition makeSensorDevices (s : Scheduler) (answer : string) : M (option bool) :=
  match NS.getNames_of answer "devices" (get s "sensor_category") with
  | None => mret None
  | Some d => b ← make_devices "sensor" "sensordevices" "sensor_template.xml" 2 d; mret (Some b)
  end.

(** The constructor, on the files of the two directories if they exist. *)
Definition mk (file : string) (control_files sensor_files : option (list string)) : M (option Scheduler) :=
  l ← Params.load (Params.mk1 file);
  c ← match control_files with Some f => c ← CtlSet.mk "control" f; mret (Some <$> c) | None => mret (Some None) end;
  n ← match sensor_files with Some f => n ← SnsSet.mk "sensor" f; mret (Some <$> n) | None => mret (Some None) end;
  mret (l ≫= fun l => c ≫= fun c => n ≫= fun n =>
    let s := mkSched l.2 c n (Z.to_nat indet_long) "" "" d0 indet_double indet_double in
    Some (match n with Some sn => with_sensors s sn | None => s end)).
Definition subjects (s : Scheduler) (subj : MParams) : MParams :=
  match control s with Some l => CtlSet.subjects l subj | None => subj end.
(** [observations]: [None] when there is no sensor set. *)
Definition observations (s : Scheduler) (obs : MParams) : option MParams :=
  (fun l => SnsSet.observations l obs) <$> sensor s.
End sched.
End Sched.

(** ** Class Controller: the loop over the messages.  [Exit] is [exit(1)], [Crash] a null
    pointer dereferenced. *)
Inductive outcome := Running (s : Scheduler) | Exit | Crash.

Module Controller.
Section controller.
Context {P : Platform} {C : Config} {XP : XmlParser} {FS : PathNames} {Ar : Archived}.
Definition with_page (s : Scheduler) : M outcome :=
  p ← Sched.makePage s; mret (match p with Some _ => Running s | None => Crash end).
(** The answer of the web server to a name query is passed in. *)
Definition handle (s : Scheduler) (answer : string) (msg : MMessage) : M outcome :=
  if mtype msg =s "event" then
    '(_, s, todo) ← Sched.checkControl s msg [];
    notify_all todo;; with_page s
  else if is_msg msg "cmd" "setcontrol" then '(_, s) ← Sched.setControl s msg; with_page s
  else if is_msg msg "cmd" "resetcontrol" then '(_, s) ← Sched.resetControl s msg; with_page s
  else if is_msg msg "cmd" "settarget" then '(_, s) ← Sched.setTarget s msg; with_page s
  else if is_msg msg "cmd" "setschedulerstatus" then
    with_page (s <| sc_params := (Params.set (sc_params s) "status" (Msg.getString msg "value")).2 |>)
  else
    enabled ← checkConfigureEnabled;
    if (enabled : bool) && is_msg msg "cmd" "mkcontroldev" then
      Sched.makeControlDevices s answer;; Sched.makeSensorDevices s answer;; mret Exit
    else if is_msg msg "trigger" "checkalignement" then
      '(_, s, todo) ← Sched.aligneControl s []; notify_all todo;; mret (Running s)
    else mret (Running s).
End controller.
End Controller.
