(* ===== verification/PowerClaims.v ===== *)
(** * Properties of the power scheduler (PwrControl/Scheduler.cpp, Control.cpp) and of the
    name service (minilibs/NameService.cpp) *)
From S2P Require Import Prelude Doubles Hsrv Xml MMessage World MParams Samples Pages Engines Scheduler.

(** ** Choosing a load *)
(** The scan of [reduceLoad] and [tryIncreaseLoad], with the clock readings made explicit:
    [ok k c] says whether the load at index [k] may be switched. *)
Fixpoint pick {P : Platform} (ok : nat -> Control -> bool) (better : Z -> Z -> bool) (l : list Control) (k : nat)
    (pr : Z) (best : option nat) : option nat :=
  match l with
  | [] => best
  | c :: l' => if ok k c && better (Ctl.priority c) pr then pick ok better l' (S k) (Ctl.priority c) (Some k)
               else pick ok better l' (S k) pr best
  end.

Section pick.
Context {P : Platform} (ok : nat -> Control -> bool) (better : Z -> Z -> bool).
Context (better_trans : forall x y z, better x y = true -> better y z = true -> better x z = true).
Context (better_weak : forall p q r, better r q = true -> better p q = false -> better r p = true).

(** The winner: it may be switched, beats every earlier candidate, and no later one beats it. *)
Definition winner (l : list Control) (k : nat) (pr : Z) (i : nat) : Prop :=
  exists c, l !! i = Some c /\ ok (k + i) c = true /\ better (Ctl.priority c) pr = true /\
  (forall j c', (i < j)%nat -> l !! j = Some c' -> ok (k + j) c' = true -> better (Ctl.priority c') (Ctl.priority c) = false) /\
  (forall j c', (j < i)%nat -> l !! j = Some c' -> ok (k + j) c' = true -> better (Ctl.priority c) (Ctl.priority c') = true).
Definition no_candidate (l : list Control) (k : nat) (pr : Z) : Prop :=
  forall j c, l !! j = Some c -> ok (k + j) c = true -> better (Ctl.priority c) pr = false.

Lemma pick_spec l k pr best :
  (pick ok better l k pr best = best /\ no_candidate l k pr) \/
  exists i, pick ok better l k pr best = Some (k + i)%nat /\ winner l k pr i.
Proof.
  revert k pr best. induction l as [|c l IH]; intros k pr best; simpl; [left; split; [done|]; intros j c H; by rewrite lookup_nil in H|].
  destruct (ok k c && better (Ctl.priority c) pr) eqn:E.
  - apply andb_true_iff in E as [Ho Hb]. right.
    destruct (IH (S k) (Ctl.priority c) (Some k)) as [[-> Hno]|(i & -> & c' & Hc' & Ho' & Hb' & Hl & He)].
    + exists 0%nat. rewrite Nat.add_0_r. split; [done|]. exists c. rewrite Nat.add_0_r. split_and!; [done..| |intros; lia].
      intros [|j] c' Hj Hc' Hok; [lia|]. apply (Hno j c' Hc'). by rewrite Nat.add_succ_r in Hok.
    + exists (S i). rewrite Nat.add_succ_r. split; [done|]. exists c'. rewrite Nat.add_succ_r.
      split_and!; [done|done|by eapply better_trans| |].
      * intros [|j] d Hj Hd Hok; [lia|]. apply (Hl j d); [lia|done|]. by rewrite Nat.add_succ_r in Hok.
      * intros [|j] d Hj Hd Hok; simplify_eq/=; [done|]. apply (He j d); [lia|done|]. by rewrite Nat.add_succ_r in Hok.
  - assert (ok k c = true -> better (Ctl.priority c) pr = false) as Hc by (intros Ho; by rewrite Ho in E).
    destruct (IH (S k) pr best) as [[-> Hno]|(i & -> & c' & Hc' & Ho' & Hb' & Hl & He)].
    + left. split; [done|]. intros [|j] d Hd Hok; simplify_eq/=; [rewrite Nat.add_0_r in Hok; auto|].
      apply (Hno j d Hd). by rewrite Nat.add_succ_r in Hok.
    + right. exists (S i). rewrite Nat.add_succ_r. split; [done|]. exists c'. rewrite Nat.add_succ_r.
      split_and!; [done|done|done| |].
      * intros [|j] d Hj Hd Hok; [lia|]. apply (Hl j d); [lia|done|]. by rewrite Nat.add_succ_r in Hok.
      * intros [|j] d Hj Hd Hok; simplify_eq/=.
        -- rewrite Nat.add_0_r in Hok. apply (better_weak _ pr); auto.
        -- apply (He j d); [lia|done|]. by rewrite Nat.add_succ_r in Hok.
Qed.
End pick.

Section loads.
Context {P : Platform} {C : Config} {XP : XmlParser}.
(** The clock reading at which the load [k] is examined. *)
Definition seen_at (w : world) (k : nat) : double := gettime_of (w_clock w (w_tick w + k)).
Definition stoppable (w : world) (k : nat) (c : Control) : bool := Ctl.mayStop_at (seen_at w k) c.
Definition startable (w : world) (available : double) (k : nat) (c : Control) : bool :=
  Ctl.mayStart_at (seen_at w k) c available.

Lemma set_tick_twice a b w : set_tick a (set_tick b w) = set_tick a w.
Proof. done. Qed.
Lemma pick_stop_pick l w w0 k pr best :
  w = set_tick (w_tick w0 + k) w0 ->
  Sched.pick_stop l k pr best w =
  (pick (stoppable w0) (fun p q => p <? q) l k pr best, set_tick (w_tick w0 + k + length l) w0).
Proof.
  revert w k pr best. induction l as [|c l IH]; intros w k pr best ->; simpl; [by rewrite Nat.add_0_r|].
  rewrite run_bind. unfold result, final, Ctl.mayStop. simpl.
  change (Ctl.mayStop_at (gettime_of (w_clock w0 (w_tick w0 + k))) c) with (stoppable w0 k c).
  destruct (stoppable w0 k c && (Ctl.priority c <? pr));
    (rewrite IH; [by rewrite Nat.add_succ_r, Nat.add_succ_r|by rewrite Nat.add_succ_r]).
Qed.
Lemma pick_start_pick av l w w0 k pr best :
  w = set_tick (w_tick w0 + k) w0 ->
  Sched.pick_start av l k pr best w =
  (pick (startable w0 av) (fun p q => q <=? p) l k pr best, set_tick (w_tick w0 + k + length l) w0).
Proof.
  revert w k pr best. induction l as [|c l IH]; intros w k pr best ->; simpl; [by rewrite Nat.add_0_r|].
  rewrite run_bind. unfold result, final, Ctl.mayStart. simpl.
  change (Ctl.mayStart_at (gettime_of (w_clock w0 (w_tick w0 + k))) c av) with (startable w0 av k c).
  destruct (startable w0 av k c && (pr <=? Ctl.priority c));
    (rewrite IH; [by rewrite Nat.add_succ_r, Nat.add_succ_r|by rewrite Nat.add_succ_r]).
Qed.

(** One switch of a load that is on the other side: its mode becomes [v], one command is
    appended, and the load rests until its latency has passed. *)
Definition switched (v : string) (c c' : Control) : Prop :=
  Ctl.get c' "mode" = v /\ Ctl.get c' "control" = Ctl.get c "control" /\ Ctl.get c' "status" = Ctl.get c "status".
Lemma get_set_mode c v n :
  n <> "mode" -> Ctl.get (Ctl.set_param c "mode" v) n = Ctl.get c n.
Proof. intros H. apply Params.get_cat_set_ne. congruence. Qed.
Lemma switch_spec c v action w :
  v = "ON" \/ v = "OFF" -> Ctl.isstatusON c = true -> Ctl.ismodeON c = negb (v =s "ON") ->
  let '(b, c', action', _) := Ctl.switch c v true action w in
  b = true /\ (Params.has (ct_params c) "mode" "generic" = true -> switched v c c') /\ action' = action ++ [Ctl.command c v].
Proof.
  intros Hv Hs Hm. unfold Ctl.switch. rewrite Hs, Hm. simpl.
  replace (Bool.eqb (negb (v =s "ON")) (v =s "ON")) with false by (by destruct (v =s "ON")).
  unfold Ctl.set_save. rewrite run_bind. unfold result, final. unfold mbind, M_bind, mret, M_ret.
  destruct (Params.save _ w) as [b0 w1]. simpl. destruct (dltb _ _); simpl;
  (split_and!; [done|intros Hp|do 2 f_equal; unfold Ctl.command; f_equal; f_equal; by apply get_set_mode]);
  (split_and!; [unfold Ctl.get; apply Params.get_cat_set_eq; [by destruct Hv; subst|done]|by apply get_set_mode|by apply get_set_mode]).
Qed.
Lemma mode_has c : Ctl.ismodeON c = true -> Params.has (ct_params c) "mode" "generic" = true.
Proof.
  intros H%seqb_true. destruct (Params.has _ _ _) eqn:E; [done|]. unfold Ctl.get, Params.get in H.
  by rewrite Params.get_absent in H.
Qed.

(** C10: when the measured power exceeds the threshold, [Scheduler::reduceLoad] stops exactly
    one load: among those that may stop, of priority below 1000, the first of least
    priority; it sends one OFF command and records the load and the power at the stop.  When
    no load may stop it does nothing. *)
Theorem reduceLoad_stops_least_priority s l cur action w :
  let '(s', action', _) := Sched.reduceLoad s l cur action w in
  (no_candidate (stoppable w) (fun p q => p <? q) l 0 1000 /\ s' = s /\ action' = action) \/
  exists i c c',
    l !! i = Some c /\ stoppable w i c = true /\ Ctl.priority c < 1000 /\
    (forall j d, l !! j = Some d -> stoppable w j d = true -> Ctl.priority c <= Ctl.priority d) /\
    (forall j d, (j < i)%nat -> l !! j = Some d -> stoppable w j d = true -> Ctl.priority c < Ctl.priority d) /\
    switched "OFF" c c' /\ control s' = Some (<[i := c']> l) /\ last_stopped s' = i /\
    targetvalue_atstop s' = cur /\ action' = action ++ [Ctl.command c "OFF"].
Proof.
  unfold Sched.reduceLoad. rewrite run_bind. unfold result, final.
  rewrite (pick_stop_pick l w w 0 1000 None) by (destruct w; unfold set_tick; simpl; by rewrite Nat.add_0_r). simpl.
  destruct (pick_spec (stoppable w) (fun p q => p <? q) ltac:(simpl; lia) ltac:(simpl; lia) l 0 1000 None)
    as [[-> Hno]|(i & -> & c & Hc & Hok & Hp & Hlater & Hearlier)]; [simpl; by left|]. simpl in *. rewrite Hc. simpl.
  assert (Ctl.isstatusON c = true /\ Ctl.ismodeON c = true) as [Hs Hm].
  { unfold stoppable, Ctl.mayStop_at in Hok. destruct (dgtb _ _); [done|]. by apply andb_true_iff. }
  unfold Ctl.stop. rewrite Hm. simpl. rewrite run_bind. unfold result, final.
  match goal with |- context [Ctl.switch c "OFF" true action ?w1] =>
    pose proof (switch_spec c "OFF" action w1 ltac:(auto) Hs Hm) as Hsw;
    destruct (Ctl.switch c "OFF" true action w1) as [[[b c'] action'] w2] end.
  destruct Hsw as (_ & Hsw & ->). simpl. right.
  exists i, c, c'. split_and!; try done; [lia| | |by apply Hsw, mode_has].
  - intros j d Hd Ho. destruct (lt_eq_lt_dec j i) as [[Hlt| ->]|Hgt].
    + specialize (Hearlier j d Hlt Hd Ho). lia.
    + by simplify_eq.
    + specialize (Hlater j d Hgt Hd Ho). lia.
  - intros j d Hlt Hd Ho. specialize (Hearlier j d Hlt Hd Ho). lia.
Qed.

(** Below the threshold, [Scheduler::tryIncreaseLoad] starts exactly one load: among
    those that may start within nine tenths of the power available, the last of greatest
    priority (0 at least); it sends one ON command.  When none fits it does nothing. *)
Lemma tryIncreaseLoad_starts_greatest_priority s l available action w :
  let '(s', action', _) := Sched.tryIncreaseLoad s l available action w in
  (no_candidate (startable w available) (fun p q => q <=? p) l 0 0 /\ s' = s /\ action' = action) \/
  exists i c c',
    l !! i = Some c /\ startable w available i c = true /\ 0 <= Ctl.priority c /\
    (forall j d, l !! j = Some d -> startable w available j d = true -> Ctl.priority d <= Ctl.priority c) /\
    (forall j d, (i < j)%nat -> l !! j = Some d -> startable w available j d = true -> Ctl.priority d < Ctl.priority c) /\
    (Params.has (ct_params c) "mode" "generic" = true -> switched "ON" c c') /\
    control s' = Some (<[i := c']> l) /\ action' = action ++ [Ctl.command c "ON"].
Proof.
  unfold Sched.tryIncreaseLoad. rewrite run_bind. unfold result, final.
  rewrite (pick_start_pick available l w w 0 0 None) by (destruct w; unfold set_tick; simpl; by rewrite Nat.add_0_r). simpl.
  destruct (pick_spec (startable w available) (fun p q => q <=? p) ltac:(simpl; lia) ltac:(simpl; lia) l 0 0 None)
    as [[-> Hno]|(i & -> & c & Hc & Hok & Hp & Hlater & Hearlier)]; [simpl; by left|]. simpl in *. rewrite Hc. simpl.
  assert (Ctl.isstatusON c = true /\ Ctl.ismodeON c = false) as [Hs Hm].
  { unfold startable, Ctl.mayStart_at in Hok. destruct (dgtb _ _); [done|].
    destruct (Ctl.isstatusON c), (Ctl.ismodeON c); done. }
  unfold Ctl.start. rewrite Hm. simpl. rewrite run_bind. unfold result, final.
  match goal with |- context [Ctl.switch c "ON" true action ?w1] =>
    pose proof (switch_spec c "ON" action w1 ltac:(auto) Hs Hm) as Hsw;
    destruct (Ctl.switch c "ON" true action w1) as [[[b c'] action'] w2] end.
  destruct Hsw as (_ & Hsw & ->). simpl. right.
  exists i, c, c'. split_and!; try done; [lia| |].
  - intros j d Hd Ho. destruct (lt_eq_lt_dec j i) as [[Hlt| ->]|Hgt].
    + specialize (Hearlier j d Hlt Hd Ho). lia.
    + by simplify_eq.
    + specialize (Hlater j d Hgt Hd Ho). lia.
  - intros j d Hgt Hd Ho. specialize (Hlater j d Hgt Hd Ho). lia.
Qed.
End loads.

(** ** The scan of the name service *)

Lemma getName_loop_total n src domain category pos :
  (String.length src - pos < n)%nat -> (pos <= String.length src)%nat ->
  exists name pos', NS.getName_loop n src domain category pos = Some (name, pos') /\
    (pos <= pos' <= String.length src)%nat /\ (name = "" \/ (pos < pos')%nat).
Proof.
  revert pos. induction n as [|n IH]; intros pos Hn Hp; [lia|]. simpl.
  destruct (sfind "item" src pos) as [np|] eqn:E; [|exists "", pos; auto with lia].
  apply index_bounds in E as [H1 H2]; [|done]. simpl in H2.
  destruct (IH (np + 4)%nat ltac:(lia) ltac:(lia)) as (name & pos' & He & Hr & _).
  assert (exists name pos', NS.getName_loop n src domain category (np + 4) = Some (name, pos') /\
    (pos <= pos' <= String.length src)%nat /\ (name = "" \/ (pos < pos')%nat)) as Hrec
    by (exists name, pos'; split_and!; [done|lia|lia|right; lia]).
  assert (exists name' pos', Some (NS.extractValue src "name" (np + 4), (np + 4)%nat) = Some (name', pos') /\
    (pos <= pos' <= String.length src)%nat /\ (name' = "" \/ (pos < pos')%nat)) as Hhere
    by (eexists _, _; split_and!; [done|lia|lia|right; lia]).
  repeat case_match; auto.
Qed.
Lemma getName_total src domain category pos :
  exists name pos', NS.getName src domain category pos = Some (name, pos') /\
    (name = "" \/ (pos < pos' <= String.length src)%nat).
Proof.
  unfold NS.getName. destruct ((src =s "") || (String.length src <? pos)%nat) eqn:E.
  { exists "", pos. auto. }
  apply orb_false_iff in E as [_ E%Nat.ltb_ge].
  destruct (getName_loop_total (S (String.length src)) src domain category pos) as (name & pos' & H & Hr & Hc); [lia|lia|].
  exists name, pos'. split; [done|]. destruct Hc; [by left|right; lia].
Qed.

(** The scan of [NameService::getNames] ends on every page, and the names it returns
    are not empty and listed once. *)
Lemma getNames_terminates answer domain category :
  exists l, NS.getNames_of answer domain category = Some l /\ NoDup l /\ "" ∉ l.
Proof.
  unfold NS.getNames_of. set (d := if domain =s "devices" then domain else "agents").
  assert (forall n pos tmp, (String.length answer - pos < n)%nat -> NoDup tmp -> "" ∉ tmp ->
    exists l, NS.names_loop (S n) answer d category pos tmp = Some l /\ NoDup l /\ "" ∉ l) as H.
  { induction n as [|n IH]; intros pos tmp Hn Hd Hne; [lia|]. cbn [NS.names_loop].
    destruct (getName_total answer d category pos) as (name & pos' & -> & Hc). cbn [mbind option_bind].
    destruct (name =s "") eqn:E; [by exists tmp|]. apply seqb_false in E. destruct Hc as [?|Hc]; [done|].
    apply (IH pos').
    - lia.
    - destruct (existsb (seqb name) tmp) eqn:Ex; [done|]. apply NoDup_app. split_and!; [done| |apply NoDup_singleton].
      intros x Hx ->%list_elem_of_singleton.
      apply not_true_iff_false in Ex. destruct Ex. by apply NameList.member_elem.
    - destruct (existsb (seqb name) tmp); set_solver. }
  apply H; [lia|constructor|set_solver].
Qed.
