(* ===== verification/Devices.v ===== *)
(** * Devices of the BBDevices agent (BBDevices/BinaryOutput.cpp, TriStateOutput.cpp,
    BinaryInput.cpp, AnalogInput.cpp, RawInput.cpp, RawOutput.cpp, ElectricMeter.cpp)

    A device receives commands ("cmd"), changes of its input channels
    ("local_event") and the end of its timers ("wait"/"end"); it drives channels
    with "devcmd" messages and reports with "event" messages.  The second part is the
    thread of countdowns behind the "wait" messages (Timer.cpp). *)
From S2P Require Import Prelude Doubles Hsrv Xml MMessage World MParams.

(** [m.mtype = t; m.msubtype = st;] on a message that keeps its fields. *)
Definition retype (m : MMessage) (t st : string) : MMessage := Msg.set_subtype (Msg.set_type m t) st.
Definition remap (p : MParams) (value : string) : string :=
  let t := Params.get_cat p value "remap" in if t =s "" then value else t.
(** "type=... value=... status=..." of the dynamic page *)
Definition entry (ty value status : string) : string :=
  "type=" +:+ quote ty +:+ " value=" +:+ quote value +:+ " status=" +:+ quote status.
Definition answer_rpc {C : Config} (m : MMessage) (v : string) : M unit :=
  if Msg.getString m "tag" <>s "" then rpcNotify (Msg.getString m "tag") "value" v;; mret tt else mret tt.
Definition wait_msg (kind value : string) : MMessage := Msg.add (retype Msg.dummy "wait" kind) "value" value.
Definition no_duration (d : string) : bool := (d =s "") || (d =s "0") || (d =s "-1").

(** ** Class BinaryOutput *)
Record BinaryOutput := mkBO {
  bo_params : MParams; bo_name : string; bo_status : string; bo_currentTime : double;
  bo_currentValue : string; bo_duration : string; default_value : string;
  bo_wait_condition : string; bo_out : string }.
#[export] Instance BinaryOutput_rebuild : Rebuild BinaryOutput := fun d =>
  mkBO (bo_params d) (bo_name d) (bo_status d) (bo_currentTime d) (bo_currentValue d)
    (bo_duration d) (default_value d) (bo_wait_condition d) (bo_out d).

Module BO.
Section bo.
Context {P : Platform} {C : Config} {XP : XmlParser}.
Definition get (d : BinaryOutput) (n : string) : string := Params.get (bo_params d) n.
Definition publish (d : BinaryOutput) : M bool :=
  World.publish (bo_name d) (entry "target" (bo_currentValue d) (get d "status"));; mret true.
Definition save (d : BinaryOutput) : M BinaryOutput :=
  let d := d <| bo_params := Params.add (bo_params d) "value" (bo_currentValue d) |> in
  Params.save (bo_params d);; mret d.
(** The constructor; [Device::Device] sets the status to "OFF". *)
Definition mk (dir n : string) : M (option BinaryOutput) :=
  l ← Params.load (Params.mk2 dir n);
  match l with
  | None => mret None
  | Some (_, p) =>
      let g := Params.get p in
      let dur := if no_duration (g "duration") then "0" else g "duration" in
      let v := g "value" in
      let v := if v =s "" then g "default" else v in
      let v := if v =s "" then "OFF" else v in
      let d := mkBO p n (if g "status" <>s "" then g "status" else "OFF") indet_double v dur (g "default")
                 (if dur <>s "0" then g "duration" +:+ "_" +:+ g "name" else "")
                 (Params.get_cat p "output" "output") in
      publish d;; mret (Some d)
  end.
(** Drive the channel, report the event whose value is [report], save and publish. *)
Definition drive (d : BinaryOutput) (now : double) (value report : string) : M BinaryOutput :=
  let d := d <| bo_currentTime := now |> <| bo_currentValue := value |> in
  let m := retype Msg.dummy "devcmd" (bo_out d) in
  let m := Msg.add m "value" (remap (bo_params d) value) in
  let m := Msg.add m "time" (double2a now) in
  notify m;;
  notify (Msg.add (retype m "event" (get d "eventname")) "value" report);;
  d ← save d; publish d;; mret d.
Definition timed (d : BinaryOutput) : bool := bo_duration d <>s "0".
Definition at_default (d : BinaryOutput) : bool := bo_currentValue d =s default_value d.
Definition on_command (d : BinaryOutput) (now : double) (msg : MMessage) : M BinaryOutput :=
  let value := Msg.getString msg "value" in
  d ← (if bo_currentValue d <>s value then
         d ← drive d now value value;
         (if timed d && negb (at_default d) then notify (wait_msg "set" (bo_wait_condition d))
          else if timed d && at_default d then notify (wait_msg "reset" (bo_wait_condition d))
          else mret tt);; mret d
       else if negb (at_default d) && timed d then notify (wait_msg "set" (bo_wait_condition d));; mret d
       else mret d);
  answer_rpc msg ("value=" +:+ value);; mret d.
Definition execcmd (d : BinaryOutput) (msg : MMessage) : M (bool * BinaryOutput) :=
  now ← gettime;
  if msubtype msg =s bo_name d then d ← on_command d now msg; mret (true, d)
  else if (mtype msg =s "wait") && (msubtype msg =s "end") then
    if negb (at_default d) then
      d ← drive d now (default_value d) (Msg.getString msg "value"); mret (true, d)
    else mret (true, d)
  else mret (false, d).
Definition getSubjects (d : BinaryOutput) (subj : MParams) : MParams :=
  Params.add_cat (Params.add_cat subj (get d "eventname") "subject" "event")
    (Params.get_cat (bo_params d) "output" "output") "subject" "devcmd".
Definition getObservations (d : BinaryOutput) (obs : MParams) : MParams :=
  Params.add_cat obs (bo_name d) "observe" "cmd".
Definition output (d : BinaryOutput) : list MAttribute := [mkAttr (bo_out d) "output" "active"].
End bo.
End BO.

(** ** Class TriStateOutput: a motor with an up and a down relay *)
Record TriStateOutput := mkTS {
  ts_params : MParams; ts_name : string; ts_status : string; ts_currentTime : double;
  currentStatus : string; ts_duration : string; default_status : string;
  ts_wait_condition : string; out1 : string; out2 : string; ing1 : string; ing2 : string;
  ing1v : string; ing2v : string }.
#[export] Instance TriStateOutput_rebuild : Rebuild TriStateOutput := fun d =>
  mkTS (ts_params d) (ts_name d) (ts_status d) (ts_currentTime d) (currentStatus d)
    (ts_duration d) (default_status d) (ts_wait_condition d) (out1 d) (out2 d) (ing1 d)
    (ing2 d) (ing1v d) (ing2v d).

Module TS.
Section ts.
Context {P : Platform} {C : Config} {XP : XmlParser}.
Definition get (d : TriStateOutput) (n : string) : string := Params.get (ts_params d) n.
Definition publish (d : TriStateOutput) : M bool :=
  World.publish (ts_name d) (entry "target" (currentStatus d) (get d "status"));; mret true.
Definition save (d : TriStateOutput) : M TriStateOutput :=
  let p := Params.add (Params.add (ts_params d) "status" (ts_status d)) "currentStatus" (currentStatus d) in
  Params.save p;; mret (d <| ts_params := p |>).
Definition or_one (v : string) : string := if v =s "" then "1" else v.
Definition mk (dir n : string) : M (option TriStateOutput) :=
  l ← Params.load (Params.mk2 dir n);
  match l with
  | None => mret None
  | Some (_, p) =>
      let g := Params.get p in
      let dur := if no_duration (g "duration") then "0" else g "duration" in
      let d := mkTS p n (if g "status" <>s "" then g "status" else "OFF") indet_double (g "currentStatus") dur
                 (g "default") (if dur <>s "0" then g "duration" +:+ "_" +:+ g "name" else "")
                 (Params.get_cat p "up_output" "output") (Params.get_cat p "down_output" "output")
                 (Params.get_cat p "up_input" "input") (Params.get_cat p "down_input" "input")
                 (or_one (g "up_input_def_value")) (or_one (g "down_input_def_value")) in
      publish d;; mret (Some d)
  end.
Definition notifyEvent (d : TriStateOutput) (value : string) : M TriStateOutput :=
  let m := retype Msg.dummy "event" (get d "eventname") in
  notify (Msg.add (Msg.add m "value" value) "time" (double2a (ts_currentTime d)));;
  d ← save d; publish d;; mret d.
(** One command on a relay, on the message [m] that the commands share. *)
Definition relay (d : TriStateOutput) (m : MMessage) (out value : string) : MMessage :=
  Msg.add (Msg.set_subtype m out) "value" (remap (ts_params d) value).
Definition docmdaction (d : TriStateOutput) (newstate : string) : M TriStateOutput :=
  let m := Msg.add (Msg.set_type Msg.dummy "devcmd") "time" (double2a (ts_currentTime d)) in
  d ← (if currentStatus d <>s newstate then
         m ← (if newstate =s "UP" then
                let m := relay d m (out2 d) "OFF" in notify m;;
                let m := relay d m (out1 d) "ON" in notify m;; mret m
              else if newstate =s "DOWN" then
                let m := relay d m (out1 d) "OFF" in notify m;;
                let m := relay d m (out2 d) "ON" in notify m;; mret m
              else if newstate =s "OFF" then
                let m := relay d m (out1 d) "OFF" in notify m;;
                let m := Msg.set_subtype m (out2 d) in notify m;; mret m
              else mret m);
         let d := d <| currentStatus := newstate |> in
         (if (ts_duration d <>s "0") && (currentStatus d <>s default_status d) then
            notify (Msg.add (retype m "wait" "set") "value" (ts_wait_condition d))
          else mret tt);; mret d
       else mret d);
  notifyEvent d newstate.
Definition dowaitaction (d : TriStateOutput) : M TriStateOutput :=
  if currentStatus d <>s default_status d then
    let m := relay d (Msg.set_type Msg.dummy "devcmd") (out1 d) (default_status d) in
    let m := Msg.add m "time" (double2a (ts_currentTime d)) in
    notify m;; notify (Msg.set_subtype m (out2 d));;
    d ← notifyEvent d (default_status d);
    mret (d <| currentStatus := default_status d |>)
  else mret d.
Definition checkUpcase (m : MMessage) : MMessage :=
  let astate := Msg.getString m "value" in
  Msg.add m "value" (if astate =s "off" then "OFF" else if astate =s "up" then "UP"
                     else if astate =s "down" then "DOWN" else astate).
(** A change of a push button; both pressed is "UP". *)
Definition buttons (d : TriStateOutput) : option string :=
  if (ing1v d =s "0") && (ing2v d =s "1") then Some "UP"
  else if (ing1v d =s "1") && (ing2v d =s "0") then Some "DOWN"
  else if (ing1v d =s "1") && (ing2v d =s "1") then Some "OFF"
  else if (ing1v d =s "0") && (ing2v d =s "0") then Some "UP"
  else None.
Definition on_input (d : TriStateOutput) (msg : MMessage) : M TriStateOutput :=
  let d := if msubtype msg =s ing1 d then d <| ing1v := Msg.getString msg "value" |>
           else if msubtype msg =s ing2 d then d <| ing2v := Msg.getString msg "value" |> else d in
  match buttons d with Some s => docmdaction d s | None => mret d end.
Definition execcmd (d : TriStateOutput) (msg : MMessage) : M (bool * TriStateOutput) :=
  now ← gettime;
  let d := d <| ts_currentTime := now |> in
  let msg := checkUpcase msg in
  let newstate := Msg.getString msg "value" in
  if ts_status d =s "OFF" then rpcNotify (Msg.getString msg "tag") "value" "value=none";; mret (false, d)
  else if (mtype msg =s "cmd") && (msubtype msg =s ts_name d) then
    d ← docmdaction d newstate;
    answer_rpc msg ("value=" +:+ newstate);; mret (true, d)
  else if mtype msg =s "local_event" then d ← on_input d msg; mret (true, d)
  else if (mtype msg =s "wait") && (msubtype msg =s "end") then d ← dowaitaction d; mret (true, d)
  else mret (false, d).
(** As in the source, the names differ from the ones the constructor reads. *)
Definition getSubjects (d : TriStateOutput) (subj : MParams) : MParams :=
  Params.add_cat (Params.add_cat (Params.add_cat subj (get d "eventname") "subject" "event")
    (Params.get_cat (ts_params d) "output1" "output") "subject" "devcmd")
    (Params.get_cat (ts_params d) "output2" "output") "subject" "devcmd".
Definition getObservations (d : TriStateOutput) (obs : MParams) : MParams :=
  Params.add_cat obs (ts_name d) "observe" "cmd".
Definition input (d : TriStateOutput) : list MAttribute :=
  [mkAttr (ing1 d) "input" "active"; mkAttr (ing2 d) "input" "active"].
Definition output (d : TriStateOutput) : list MAttribute :=
  [mkAttr (out1 d) "output" "active"; mkAttr (out2 d) "output" "active"].
End ts.
End TS.

(** ** Class BinaryInput *)
Record BinaryInput := mkBI {
  bi_params : MParams; bi_name : string; bi_status : string; bi_currentTime : double;
  bi_currentValue : string; bi_in : string; delay : string; delay_table : gmap string MMessage }.
#[export] Instance BinaryInput_rebuild : Rebuild BinaryInput := fun d =>
  mkBI (bi_params d) (bi_name d) (bi_status d) (bi_currentTime d) (bi_currentValue d) (bi_in d)
    (delay d) (delay_table d).

Definition SEPARATOR : string := "$".

Module BI.
Section bi.
Context {P : Platform} {C : Config} {XP : XmlParser}.
Definition get (d : BinaryInput) (n : string) : string := Params.get (bi_params d) n.
Definition publish (d : BinaryInput) : M bool :=
  World.publish (bi_name d) (entry "source" (bi_currentValue d) (get d "status"));; mret true.
Definition mk (dir n : string) : M (option BinaryInput) :=
  l ← Params.load (Params.mk2 dir n);
  match l with
  | None => mret None
  | Some (_, p) =>
      t ← gettime;
      let g := Params.get p in
      let d := mkBI p n (if g "status" <>s "" then g "status" else "OFF") t "0"
                 (Params.get_cat p "input" "input") (if g "delay" <>s "" then g "delay" else "0") ∅ in
      publish d;; mret (Some d)
  end.
Definition setstatus (d : BinaryInput) (m : MMessage) : M (bool * BinaryInput) :=
  let newstatus := Msg.getString m "value" in
  d ← (if ((newstatus =s "ON") || (newstatus =s "OFF")) && (get d "status" <>s newstatus) then
         let d := d <| bi_params := Params.add (bi_params d) "status" newstatus |> <| bi_status := newstatus |> in
         Params.save (bi_params d);; publish d;; mret d
       else mret d);
  answer_rpc m ("status=" +:+ bi_status d);; mret (true, d).
Definition event_of (d : BinaryInput) : MMessage :=
  Msg.add (Msg.add (retype Msg.dummy "event" (bi_name d)) "value" (bi_currentValue d)) "time"
    (double2a (bi_currentTime d)).
(** A new value is reported at once, or after [delay] seconds. *)
Definition report (d : BinaryInput) : M BinaryInput :=
  let m := event_of d in
  if (delay d =s "0") || (delay d =s "") then notify m;; publish d;; mret d
  else
    t ← getasciitimecompact;
    let delay_key := delay d +:+ "_" +:+ bi_name d +:+ SEPARATOR +:+ t in
    if bool_decide (delay_table d !! delay_key = None) then
      notify (Msg.add (retype m "wait" "set") "value" delay_key);;
      mret (d <| delay_table := <[delay_key := m]> (delay_table d) |>)
    else mret d.
Definition update (d : BinaryInput) (channel value : string) : M (bool * BinaryInput) :=
  now ← gettime;
  if get d "status" =s "OFF" then mret (false, d)
  else if channel =s bi_in d then
    let tvalue := remap (bi_params d) value in
    if tvalue <>s bi_currentValue d then
      d ← report (d <| bi_currentValue := tvalue |> <| bi_currentTime := now |>); mret (true, d)
    else mret (true, d)
  else mret (false, d).
(** The branch of the timer has no return statement; its value is not used. *)
Definition execcmd (d : BinaryInput) (m : MMessage) : M (option bool * BinaryInput) :=
  if get d "status" =s "OFF" then mret (Some false, d)
  else if (mtype m =s "wait") && (msubtype m =s "end") then
    let delay_key := Msg.getString m "value" in
    match delay_table d !! delay_key with
    | Some dm => notify dm;; mret (None, d <| delay_table := delete delay_key (delay_table d) |>)
    | None => mret (None, d)
    end
  else '(b, d) ← update d (msubtype m) (Msg.getString m "value"); mret (Some b, d).
Definition getSubjects (d : BinaryInput) (subj : MParams) : MParams := Params.add_cat subj (bi_name d) "subject" "event".
Definition getObservations (d : BinaryInput) (obs : MParams) : MParams := Params.add_cat obs (bi_name d) "observe" "set".
Definition input (d : BinaryInput) : list MAttribute := [mkAttr (bi_in d) "input" "active"].
End bi.
End BI.

(** ** Class AnalogInput *)
Record AnalogInput := mkAI {
  ai_params : MParams; ai_name : string; ai_status : string; scale_factor : double;
  ai_currentTime : double; ai_currentValue : string; ai_in : string }.
#[export] Instance AnalogInput_rebuild : Rebuild AnalogInput := fun d =>
  mkAI (ai_params d) (ai_name d) (ai_status d) (scale_factor d) (ai_currentTime d)
    (ai_currentValue d) (ai_in d).

Module AI.
Section ai.
Context {P : Platform} {C : Config} {XP : XmlParser}.
Definition mk (dir n : string) : M (option AnalogInput) :=
  l ← Params.load (Params.mk2 dir n);
  match l with
  | None => mret None
  | Some (_, p) =>
      t ← gettime;
      let g := Params.get p in
      mret (Some (mkAI p n (if g "status" <>s "" then g "status" else "OFF") (a2double (g "scale_factor")) t ""
                    (Params.get_cat p "input" "input")))
  end.
Definition scale (d : AnalogInput) (value : string) : string :=
  let t := double2a (dmul (a2double value) (scale_factor d)) in if t =s "" then value else t.
Definition publish (d : AnalogInput) : M bool :=
  World.publish (ai_name d) (entry "source" (ai_currentValue d) (Params.get (ai_params d) "status"));; mret true.
Definition update (d : AnalogInput) (channel value : string) : M (bool * AnalogInput) :=
  now ← gettime;
  if channel =s ai_in d then
    let d := d <| ai_currentValue := scale d value |> <| ai_currentTime := now |> in
    notify (Msg.add (Msg.add (retype Msg.dummy "event" (ai_name d)) "value" (ai_currentValue d)) "time"
      (double2a (ai_currentTime d)));;
    publish d;; mret (true, d)
  else mret (false, d).
Definition execcmd (d : AnalogInput) (m : MMessage) : M (bool * AnalogInput) :=
  update d (msubtype m) (Msg.getString m "value").
Definition getSubjects (d : AnalogInput) (subj : MParams) : MParams := Params.add_cat subj (ai_name d) "subject" "event".
Definition input (d : AnalogInput) : list MAttribute := [mkAttr (ai_in d) "input" "active"].
End ai.
End AI.

(** ** Classes RawInput and RawOutput: direct access to a channel *)
Record RawDevice := mkRaw {
  raw_params : MParams; raw_name : string; raw_status : string; raw_currentTime : double;
  raw_currentValue : string; raw_out : string; rawtype : string }.
#[export] Instance RawDevice_rebuild : Rebuild RawDevice := fun d =>
  mkRaw (raw_params d) (raw_name d) (raw_status d) (raw_currentTime d) (raw_currentValue d)
    (raw_out d) (rawtype d).

Module Raw.
Section raw.
Context {P : Platform} {C : Config} {XP : XmlParser}.
(** [remap] of both classes, which differ in the name of the boolean type. *)
Definition remap_as (boolean rawtype value : string) : string :=
  if (rawtype =s boolean) && (value =s "ON") then "1"
  else if (rawtype =s boolean) && (value =s "OFF") then "0"
  else if (rawtype =s boolean) && (value =s "1") then "1"
  else if (rawtype =s boolean) && (value =s "0") then "0"
  else if rawtype <>s boolean then int2a (a2int value)
  else "0".
Definition mk_named (prefix dir n : string) : M (option RawDevice) :=
  l ← Params.load (Params.mk2 dir n);
  mret ((fun '(_, p) => let g := Params.get p in
    mkRaw p (prefix +:+ g "capename") (if g "status" <>s "" then g "status" else "ON") indet_double ""
      (g "capename") (g "type")) <$> l).
Definition mkInput (dir n : string) : M (option RawDevice) := mk_named "V" dir n.
Definition mkOutput (dir n : string) : M (option RawDevice) := mk_named "" dir n.
Definition command (kind : string) (d : RawDevice) (tvalue : string) : MMessage :=
  Msg.add (Msg.add (retype Msg.dummy kind (raw_out d)) "value" tvalue) "time" (double2a (raw_currentTime d)).
Definition execOutput (d : RawDevice) (msg : MMessage) : M (bool * RawDevice) :=
  now ← gettime;
  let value := Msg.getString msg "value" in
  if msubtype msg =s raw_name d then
    let d := d <| raw_currentTime := now |> <| raw_currentValue := value |> in
    notify (command "devcmd" d (remap_as "booleanout" (rawtype d) value));; mret (true, d)
  else mret (false, d).
Definition execInput (d : RawDevice) (msg : MMessage) : M (bool * RawDevice) :=
  now ← gettime;
  let value := Msg.getString msg "value" in
  if msubtype msg =s raw_name d then
    let d := d <| raw_currentTime := now |> <| raw_currentValue := value |> in
    let tvalue := remap_as "booleanin" (rawtype d) value in
    notify (command "local_event" d tvalue);; World.publish (raw_name d) tvalue;; mret (true, d)
  else mret (false, d).
Definition subjectsInput (d : RawDevice) (subj : MParams) : MParams :=
  Params.add_cat subj (Params.get (raw_params d) "capename") "subject" "local_event".
Definition subjectsOutput (d : RawDevice) (subj : MParams) : MParams := Params.add_cat subj (raw_name d) "subject" "devcmd".
Definition getObservations (d : RawDevice) (obs : MParams) : MParams := Params.add_cat obs (raw_name d) "observe" "cmd".
End raw.
End Raw.

(** ** Class ElectricMeter: energy counted in pulses *)
Record ElectricMeter := mkEM {
  em_params : MParams; em_name : string; em_status : string; energy : double; Ipower : double;
  Apower : double; Wpower : double; origin : double; em_currentTime : double; alpha : double;
  quantum : double; unit_ : string; em_in : string; deltaEnergy : double }.
#[export] Instance ElectricMeter_rebuild : Rebuild ElectricMeter := fun d =>
  mkEM (em_params d) (em_name d) (em_status d) (energy d) (Ipower d) (Apower d) (Wpower d)
    (origin d) (em_currentTime d) (alpha d) (quantum d) (unit_ d) (em_in d) (deltaEnergy d).

Definition INITIALSILENCE : Z := 5.

Module EM.
Section em.
Context {P : Platform} {C : Config} {XP : XmlParser}.
Definition publish (d : ElectricMeter) : M bool :=
  t ← getasciitimecompact;
  let m := retype Msg.dummy "event" (em_name d) in
  let m := Msg.add m "energy" (double2a (energy d)) in
  let m := Msg.add m "Ipower" (double2a (Ipower d)) in
  let m := Msg.add m "Apower" (double2a (Apower d)) in
  let m := Msg.add m "unit" (unit_ d) in
  notify (Msg.add m "timeofday" t);;
  World.publish (em_name d) ("type=" +:+ quote "source" +:+ " energy=" +:+ quote (double2a (energy d)) +:+
    " power=" +:+ quote (double2a (Ipower d)) +:+ " status=" +:+ quote (Params.get (em_params d) "status"));;
  mret true.
Definition or_double (s : string) (v : double) : double := if s =s "" then v else a2double s.
(** The saved [deltaEnergy] is read and then set to zero. *)
Definition mk (dir n : string) : M (option ElectricMeter) :=
  l ← Params.load (Params.mk2 dir n);
  match l with
  | None => mret None
  | Some (_, p) =>
      let g := Params.get p in
      let ch := Params.get_cat p "input" "input" in
      t ← gettime;
      let d := mkEM p n (if g "status" <>s "" then g "status" else "ON") (or_double (g "energy") d0) d0 d0 d0 t t
                 (or_double (g "alpha") d0) (or_double (g "quantum") d1) (if g "unit" =s "" then "Wh" else g "unit")
                 (if ch =s "" then g "input" else ch) d0 in
      publish d;; mret (Some d)
  end.
Definition record (d : ElectricMeter) : M ElectricMeter :=
  let p := Params.add (em_params d) "energy" (double2a (energy d)) in
  let p := Params.add p "deltaEnergy" (double2a (deltaEnergy d)) in
  Params.save p;; mret (d <| em_params := p |>).
Definition update (d : ElectricMeter) (channel value : string) : M (bool * ElectricMeter) :=
  now ← gettime;
  if (channel =s em_in d) && (value =s "1") then
    let delta := dmul (quantum d) (a2double value) in
    if dltb now (dadd (origin d) (d_of_Z INITIALSILENCE)) then mret (false, d)
    else
      d ← record (d <| energy := dadd (energy d) delta |> <| deltaEnergy := dadd (deltaEnergy d) delta |>);
      mret (true, d)
  else mret (false, d).
Definition execcmd (d : ElectricMeter) (m : MMessage) : M (bool * ElectricMeter) :=
  update d (msubtype m) (Msg.getString m "value").
Definition measure_at (now : double) (d : ElectricMeter) : ElectricMeter :=
  let h := d_of_Z 3600 in
  let a := dmul (ddiv (energy d) (dsub now (origin d))) h in
  let i := dadd (dmul (Ipower d) (dsub d1 (alpha d)))
                (dmul (dmul (alpha d) (ddiv (deltaEnergy d) (dsub now (em_currentTime d)))) h) in
  d <| Apower := a |> <| Ipower := i |> <| em_currentTime := now |> <| deltaEnergy := d0 |>.
Definition doMeasure (d : ElectricMeter) : M (bool * ElectricMeter) :=
  now ← gettime; mret (true, measure_at now d).
Definition reset (d : ElectricMeter) (field : string) : M (bool * ElectricMeter) :=
  if field =s "energy" then
    t1 ← gettime; t2 ← gettime;
    d ← record (d <| energy := d0 |> <| origin := dsub t1 d1 |> <| em_currentTime := t2 |> <| deltaEnergy := d0 |>
                  <| Ipower := d0 |> <| Apower := d0 |>);
    mret (true, d)
  else mret (false, d).
Definition getValue (d : ElectricMeter) (field : string) : string :=
  if field =s "energy" then double2a (energy d)
  else if field =s "Ipower" then double2a (Ipower d)
  else if field =s "Apower" then double2a (Apower d)
  else "0".
Definition getSubjects (d : ElectricMeter) (subj : MParams) : MParams := Params.add_cat subj (em_name d) "subject" "event".
Definition input (d : ElectricMeter) : list MAttribute := [mkAttr (em_in d) "input" "active"].
End em.
End EM.

(** * The timer thread (BBDevices/Timer.cpp)

    A "wait"/"set" message with value "<seconds>_<name>" starts a countdown; when it
    reaches zero the timer notifies "wait"/"end" with the same value, once. *)

Record TimedCondition := mkTC {
  tc_type : string; tc_subtype : string; tc_value : string; wait_time : double; expired : bool }.
#[export] Instance TimedCondition_rebuild : Rebuild TimedCondition := fun c =>
  mkTC (tc_type c) (tc_subtype c) (tc_value c) (wait_time c) (expired c).
(** [out_mess] and [last_update_time] are locals of [do_work]. *)
Record Timer := mkTimer { tconditions : list TimedCondition; last_update_time : double; out_mess : MMessage }.
#[export] Instance Timer_rebuild : Rebuild Timer := fun t =>
  mkTimer (tconditions t) (last_update_time t) (out_mess t).

Module TC.
Definition getDuration (value : string) : string :=
  match sfind "_" value 0 with Some pos => take_str pos value | None => value end.
Section tc.
Context {P : Platform}.
Definition mk (a b c : string) : TimedCondition := mkTC a b c (a2double (getDuration c)) false.
Definition update (c : TimedCondition) (d : double) : bool * TimedCondition :=
  if expired c then (true, c)
  else let c := c <| wait_time := dsub (wait_time c) d |> in (dleb (wait_time c) d0, c).
Definition update_one (c : TimedCondition) : bool * TimedCondition := update c d1.
(** The flag, the condition and the message written into [m]. *)
Definition message (c : TimedCondition) (m : MMessage) : bool * TimedCondition * MMessage :=
  if dgtb (wait_time c) d0 then (false, c, m)
  else if expired c then (false, c, m)
  else (true, c <| expired := true |>,
        Msg.add (Msg.set_subtype (Msg.set_type m (tc_type c)) "end") "value" (tc_value c)).
Definition isEqual (a b : TimedCondition) : bool :=
  (tc_type a =s tc_type b) && (tc_subtype a =s tc_subtype b) && (tc_value a =s tc_value b).
End tc.
End TC.

Module Tmr.
Section tmr.
Context {P : Platform}.
Definition update (t : Timer) (p : double) : Timer :=
  t <| tconditions := map (fun c => (TC.update c p).2) (tconditions t) |>.
Definition update_one (t : Timer) : Timer := update t d1.
Definition startTimer (t : Timer) (tc : TimedCondition) : bool * Timer :=
  if existsb (fun c => TC.isEqual c tc) (tconditions t) then
    (true, t <| tconditions := update_first (fun c => TC.isEqual c tc) (fun _ => tc) (tconditions t) |>)
  else (false, t <| tconditions := tconditions t ++ [tc] |>).
(** The flag that ends the loop is set by the first element, equal or not. *)
Definition resetTimer (t : Timer) (tc : TimedCondition) : bool * Timer :=
  match tconditions t with
  | [] => (false, t)
  | c :: l => (true, t <| tconditions := (if TC.isEqual c tc then c <| wait_time := d0 |> else c) :: l |>)
  end.
Definition getDoubleDuration (value : string) : double := a2double (TC.getDuration value).

(** The loop over the conditions after an update. *)
Fixpoint fire_loop (l : list TimedCondition) (m : MMessage) : M (list TimedCondition * MMessage) :=
  match l with
  | [] => mret ([], m)
  | c :: l' =>
      let '(b, c, m) := TC.message c m in
      (if b : bool then notify m else mret tt);;
      '(l', m) ← fire_loop l' m; mret (c :: l', m)
  end.
Definition on_poll (t : Timer) (msg : MMessage) : M Timer :=
  let period := Msg.getDouble msg "period" in
  let msg_time := Msg.getDouble msg "time" in
  if dgtb msg_time (dadd (ddiv period (d_of_Z 2)) (last_update_time t)) then
    let t := if dgtb period d0 then update t period else update_one t in
    '(l, m) ← fire_loop (tconditions t) (out_mess t);
    mret (t <| tconditions := l |> <| out_mess := m |> <| last_update_time := msg_time |>)
  else mret t.
Definition positive (msg : MMessage) : bool := dgtb (getDoubleDuration (Msg.getString msg "value")) d0.
(** The body of the loop of [do_work] (the registration of observers is left out). *)
Definition handle (t : Timer) (msg : MMessage) : M Timer :=
  t ← (if (mtype msg =s "trigger") && (msubtype msg =s "poll") then on_poll t msg else mret t);
  let t := if (mtype msg =s "wait") && (msubtype msg =s "set") && positive msg
           then (startTimer t (TC.mk (mtype msg) "set" (Msg.getString msg "value"))).2 else t in
  let t := if (mtype msg =s "wait") && (msubtype msg =s "reset") && positive msg
           then let tc := TC.mk (mtype msg) (msubtype msg) (Msg.getString msg "value") in
                (resetTimer (startTimer t tc).2 tc).2 else t in
  mret t.
Fixpoint run (t : Timer) (msgs : list MMessage) : M Timer :=
  match msgs with [] => mret t | m :: ms => t ← handle t m; run t ms end.
Definition mk : Timer := mkTimer [] d0 Msg.dummy.
End tmr.
End Tmr.
