(* ===== verification/Pwm.v ===== *)
(** * Dimmers of the BBDevices agent (BBDevices/Pwm.cpp, RGBPwm.cpp)

    [Pwm] drives one channel with a percentage, [RGBPwm] the three channels of a
    coloured lamp, each in proportion to its colour and to the intensity. *)
From S2P Require Import Prelude Doubles Hsrv Xml MMessage World MParams Devices.

(** ** Class Pwm *)
Record Pwm := mkPwm {
  pw_params : MParams; pw_name : string; pw_status : string; pw_currentTime : double;
  pw_currentValue : string; pw_out : string }.
#[export] Instance Pwm_rebuild : Rebuild Pwm := fun d =>
  mkPwm (pw_params d) (pw_name d) (pw_status d) (pw_currentTime d) (pw_currentValue d) (pw_out d).

Module PW.
Section pwm.
Context {P : Platform} {C : Config} {XP : XmlParser}.
Definition get (d : Pwm) (n : string) : string := Params.get (pw_params d) n.
(** [publish(value)]; it hides the [publish()] of [Device] and does not override it. *)
Definition publish (d : Pwm) (value : string) : M bool :=
  World.publish (pw_name d) (entry "target" (if value =s "OFF" then "0" else pw_currentValue d) (get d "status"));;
  mret true.
Definition mk (dir n : string) : M (option Pwm) :=
  l ← Params.load (Params.mk2 dir n);
  match l with
  | None => mret None
  | Some (_, p) =>
      let g := Params.get p in
      let v := if g "value" =s "" then g "default_value" else g "value" in
      let v := if v =s "" then "0" else v in
      let d := mkPwm p n (if g "status" <>s "" then g "status" else "OFF") indet_double v
                 (if g "output" =s "" then Params.get_cat p "output" "output" else g "output") in
      publish d (g "value");; mret (Some d)
  end.
Definition save (d : Pwm) : M Pwm :=
  let d := d <| pw_params := Params.add (pw_params d) "value" (pw_currentValue d) |> in
  Params.save (pw_params d);; mret d.
Definition eventNotify (d : Pwm) (value : string) : M Pwm :=
  let shown := if value =s "OFF" then "0" else if value =s "ON" then pw_currentValue d else value in
  notify (Msg.add (retype Msg.dummy "event" (get d "eventname")) "value" shown);;
  let d := if (value <>s "OFF") && (value <>s "ON") then d <| pw_currentValue := value |> else d in
  d ← save d; publish d value;; mret d.
Definition command (d : Pwm) (value : string) : MMessage :=
  Msg.add (Msg.add (retype Msg.dummy "devcmd" (pw_out d)) "value" (remap (pw_params d) value)) "time"
    (double2a (pw_currentTime d)).
Definition execcmd (d : Pwm) (msg : MMessage) : M (bool * Pwm) :=
  now ← gettime;
  let value := Msg.getString msg "value" in
  if msubtype msg =s pw_name d then
    d ← (if pw_currentValue d <>s value then
           let d := d <| pw_currentTime := now |> in notify (command d value);; mret d
         else mret d);
    d ← eventNotify d value;
    answer_rpc msg ("value=" +:+ (if value =s "OFF" then "0" else pw_currentValue d));; mret (true, d)
  else mret (false, d).
Definition output (d : Pwm) : list MAttribute := [Attr.mk1 (pw_out d)].
Definition getSubjects (d : Pwm) (subj : MParams) : MParams :=
  Params.add_cat (Params.add_cat subj (get d "eventname") "subject" "event")
    (Params.get_cat (pw_params d) "output" "output") "subject" "devcmd".
Definition getObservations (d : Pwm) (obs : MParams) : MParams := Params.add_cat obs (pw_name d) "observe" "cmd".
End pwm.
End PW.

(** ** Class RGBPwm *)
Record RGBPwm := mkRGB {
  rgb_params : MParams; rgb_name : string; rgb_status : string; rgb_currentTime : double;
  currentIntensity : string; currentColor : string; intensity : Z; outputStatus : string;
  rgb_R : Z; rgb_G : Z; rgb_B : Z; Rout : string; Gout : string; Bout : string }.
#[export] Instance RGBPwm_rebuild : Rebuild RGBPwm := fun d =>
  mkRGB (rgb_params d) (rgb_name d) (rgb_status d) (rgb_currentTime d) (currentIntensity d)
    (currentColor d) (intensity d) (outputStatus d) (rgb_R d) (rgb_G d) (rgb_B d) (Rout d) (Gout d) (Bout d).

Module RGB.
Section rgb.
Context {P : Platform} {C : Config} {XP : XmlParser}.
Definition get (d : RGBPwm) (n : string) : string := Params.get (rgb_params d) n.
Definition publish (d : RGBPwm) : M bool :=
  World.publish (rgb_name d) ("type=" +:+ quote "target" +:+ " value=" +:+
    quote (if outputStatus d =s "ON" then currentIntensity d else "0") +:+ " color=" +:+
    quote (currentColor d) +:+ " status=" +:+ quote (rgb_status d));; mret true.
Definition or_else (v w : string) : string := if v =s "" then w else v.
Definition mk (dir n : string) : M (option RGBPwm) :=
  l ← Params.load (Params.mk2 dir n);
  match l with
  | None => mret None
  | Some (_, p) =>
      let g := Params.get p in
      let i := or_else (g "intensity") "0" in
      let d := mkRGB p n (if g "status" <>s "" then g "status" else "OFF") indet_double i
                 (or_else (or_else (g "color") (g "default_color")) "ffffff") (a2int i)
                 (or_else (or_else (g "outputStatus") (g "default")) "OFF") 255 255 255
                 (Params.get_cat p "red" "output") (Params.get_cat p "green" "output")
                 (Params.get_cat p "blue" "output") in
      publish d;; mret (Some d)
  end.

(** [ha2int]: [stringstream >> res] in base 16 on at most two characters; nothing is stored
    when there is nothing to read but white space, and 0 when there is no digit. *)
Definition hex_digit (c : ascii) : option Z :=
  let n := Z.of_nat (nat_of_ascii c) in
  if (48 <=? n) && (n <=? 57) then Some (n - 48)
  else if (97 <=? n) && (n <=? 102) then Some (n - 87)
  else if (65 <=? n) && (n <=? 70) then Some (n - 55)
  else None.
Fixpoint hex_value (l : list ascii) (acc : Z) : Z :=
  match l with
  | [] => acc
  | c :: l' => match hex_digit c with Some v => hex_value l' (16 * acc + v) | None => acc end
  end.
Definition hex_prefix (l : list ascii) : list ascii :=
  match l with
  | z :: x :: l' => if (z =c "0"%char) && ((x =c "x"%char) || (x =c "X"%char)) then l' else l
  | _ => l
  end.
Definition ha2int (hnum : string) : Z :=
  match skip_space (chars hnum) with
  | [] => indet_int
  | c :: l =>
      if c =c "-"%char then - hex_value (hex_prefix l) 0
      else if c =c "+"%char then hex_value (hex_prefix l) 0
      else hex_value (hex_prefix (c :: l)) 0
  end.

(** [hsrv::int2a((int)X*intensity/nf)]: the product is an [int], the quotient a [double]. *)
Definition level (d : RGBPwm) (c : Z) : Z :=
  default indet_int (Z_of_d (ddiv (d_of_Z (swrap 32 (c * intensity d))) (d_of_Z 255))).
Definition channel (d : RGBPwm) (m : MMessage) (out value : string) (c : Z) : MMessage :=
  let m := Msg.add (Msg.set_subtype m out) "value"
             (if (value =s "ON") || (value =s "OFF") then value else int2a (level d c)) in
  Msg.add m "time" (double2a (rgb_currentTime d)).
(** [sendCmd]: one message object, sent to the three channels in turn. *)
Definition sendCmd (d : RGBPwm) (value : string) : M unit :=
  let m := channel d (Msg.set_type Msg.dummy "devcmd") (Rout d) value (rgb_R d) in
  notify m;;
  let m := channel d m (Gout d) value (rgb_G d) in
  notify m;;
  notify (channel d m (Bout d) value (rgb_B d)).
Definition save (d : RGBPwm) : M RGBPwm :=
  let p := Params.add (rgb_params d) "intensity" (int2a (intensity d)) in
  let p := Params.add (Params.add p "color" (currentColor d)) "outputStatus" (outputStatus d) in
  Params.save p;; mret (d <| rgb_params := p |>).
(** The argument of [eventNotify] is not used. *)
Definition eventNotify (d : RGBPwm) : M RGBPwm :=
  let m := Msg.add (retype Msg.dummy "event" (get d "eventname")) "value"
             (if outputStatus d =s "OFF" then "0" else currentIntensity d) in
  let m := Msg.add (Msg.add m "intensity" (int2a (intensity d))) "color" (currentColor d) in
  notify m;; d ← save d; publish d;; mret d.
(** [color.substr(pos, 2)] throws past the end: [None]. *)
Definition substr2 (s : string) (pos : nat) : option string :=
  if (String.length s <? pos)%nat then None else Some (take_str 2 (drop_str pos s)).
Definition colored (d : RGBPwm) (color : string) : option RGBPwm :=
  r ← substr2 color 0; g ← substr2 color 2; b ← substr2 color 4;
  Some (d <| currentColor := color |> <| rgb_R := ha2int r |> <| rgb_G := ha2int g |> <| rgb_B := ha2int b |>).
(** The command and the colour of a message: "value.color", or two fields. *)
Definition value_color (msg : MMessage) : string * string :=
  match NameList.of_string (Msg.getString msg "value") "."%char with
  | v :: c :: _ => (v, c)
  | _ => (Msg.getString msg "value", Msg.getString msg "color")
  end.
Definition apply (d : RGBPwm) (value color : string) : M (option RGBPwm) :=
  if (value =s "OFF") || (value =s "ON") then
    let d := d <| outputStatus := value |> in sendCmd d value;; mret (Some d)
  else if (currentIntensity d <>s value) && (value <>s "") then
    let tvalue := remap (rgb_params d) value in
    let d := d <| currentIntensity := value |> <| intensity := a2int tvalue |> in
    sendCmd d tvalue;; mret (Some d)
  else if (color <>s "") && (color <>s currentColor d) then
    match colored d color with
    | None => mret None
    | Some d => sendCmd d "100";; mret (Some d)
    end
  else mret (Some d).
(** [None]: the exception of [substr] ends the thread. *)
Definition execcmd (d : RGBPwm) (msg : MMessage) : M (option (bool * RGBPwm)) :=
  now ← gettime;
  if msubtype msg =s rgb_name d then
    let '(value, color) := value_color msg in
    o ← apply (d <| rgb_currentTime := now |>) value color;
    match o with
    | None => mret None
    | Some d =>
        d ← eventNotify d;
        answer_rpc msg (("value=" +:+ (if outputStatus d =s "ON" then currentIntensity d else "0")) +:+
                        ",color=" +:+ currentColor d);;
        mret (Some (true, d))
    end
  else mret (Some (false, d)).
Definition output (d : RGBPwm) : list MAttribute := [Attr.mk1 (Rout d); Attr.mk1 (Gout d); Attr.mk1 (Bout d)].
Definition getSubjects (d : RGBPwm) (subj : MParams) : MParams :=
  let s := Params.add_cat subj (get d "eventname") "subject" "event" in
  let o n := Params.get_cat (rgb_params d) n "output" in
  Params.add_cat (Params.add_cat (Params.add_cat s (o "red") "subject" "devcmd") (o "green") "subject" "devcmd")
    (o "blue") "subject" "devcmd".
Definition getObservations (d : RGBPwm) (obs : MParams) : MParams := Params.add_cat obs (rgb_name d) "observe" "cmd".
End rgb.
End RGB.
