(* ===== verification/Gpio.v ===== *)
(** * Channels of the board (BBDevices/Gpio.cpp, GPIOThread.cpp)

    A channel is a file of the board: inputs are polled and reported with
    "local_event" messages, outputs and dimmers are written when a "devcmd" names them,
    one-wire sensors are read by a script.  The kernel side ([poll], the contents of the
    value files, directory listings) is passed in. *)
From S2P Require Import Prelude Doubles Hsrv Xml MMessage World MParams Pages Subjects.

(** ** Class Gpio *)
Record Gpio := mkGpio {
  g_params : MParams; g_name : string; gpioname : string; gpiotype : string; gpiopath : string;
  gpiovalue : string; g_wait_until : double; g_w : double; g_currentValue : string; dutyCycle : string }.
#[export] Instance Gpio_rebuild : Rebuild Gpio := fun g =>
  mkGpio (g_params g) (g_name g) (gpioname g) (gpiotype g) (gpiopath g) (gpiovalue g) (g_wait_until g)
    (g_w g) (g_currentValue g) (dutyCycle g).

Module Gp.
Section gp.
Context {P : Platform} {C : Config} {XP : XmlParser}.
Definition get (g : Gpio) (n : string) : string := Params.get (g_params g) n.
Definition of_params (p : MParams) : Gpio :=
  let v n := Params.get p n in
  mkGpio p (v "capename") (v "gpioname") (v "type") (v "gpiopath") (v "gpiopath" +:+ "/value") d0
    (if v "waitfor" =s "" then d1 else a2double (v "waitfor"))
    (if v "currentValue" =s "" then v "default_value" else v "currentValue")
    (if v "dutyCycle" =s "" then "0" else v "dutyCycle").
Definition mk (dir file : string) : M (option Gpio) :=
  l ← Params.load (Params.mk2 dir file); mret ((fun '(_, p) => of_params p) <$> l).

(** [initialise]: the commands of the category "init" that no channel has run yet; [done]
    is the static list [initDone], [isdir] tells whether the channel is there already. *)
Fixpoint init_loop (l : list MAttribute) (done : list string) : M (list string) :=
  match l with
  | [] => mret done
  | a :: l' =>
      if NameList.member done (avalue a) then init_loop l' done
      else cmdExec (avalue a);; init_loop l' (NameList.add done (avalue a))
  end.
Definition initialise (isdir : bool) (g : Gpio) (done : list string) : M (list string) :=
  let init := Params.extractCategory (g_params g) "init" in
  if negb isdir && (0 <? length init)%nat then init_loop init done else mret done.
Definition program (g : Gpio) : M bool :=
  iterM (fun a => cmdExec (avalue a);; mret tt) (Params.extractCategory (g_params g) "script");; mret true.

Definition is_on (v : string) : bool := (v =s "ON") || (v =s "on").
Definition is_off (v : string) : bool := (v =s "OFF") || (v =s "off").
(** Both branches for a dimmer are the same. *)
Definition getpath (g : Gpio) : string := if gpiotype g =s "booleanout" then gpiovalue g else get g "duty".
(** The duty time of a percentage: [(int)(default_cycle * (1 - value/100))]. *)
Definition duty_of (g : Gpio) (value : string) : string :=
  let v := dsub d1 (ddiv (a2double value) (d_of_Z 100)) in
  int2a (default indet_int (Z_of_d (dmul (a2double (get g "default_cycle")) v))).
Definition set_mode (g : Gpio) (mode : string) : M Gpio :=
  let g := g <| g_params := (Params.set (g_params g) "mode" mode).2 |> in Params.save (g_params g);; mret g.
Definition store_value (g : Gpio) : M Gpio :=
  let g := g <| g_params := Params.add (g_params g) "currentValue" (g_currentValue g) |> in
  let g := if gpiotype g =s "pwmout" then g <| g_params := Params.add (g_params g) "dutyCycle" (dutyCycle g) |> else g in
  Params.save (g_params g);; mret g.
Definition get_and_set_value (g : Gpio) (value : string) : M (string * Gpio) :=
  if value =s "" then mret (g_currentValue g, g)
  else if gpiotype g =s "pwmout" then
    if is_on value then g ← set_mode g "ON"; mret (g_currentValue g, g)
    else if is_off value then g ← set_mode g "OFF"; mret (get g "default_cycle", g)
    else
      g ← store_value (g <| dutyCycle := value |> <| g_currentValue := duty_of g value |>);
      mret (g_currentValue g, g)
  else
    g ← store_value (g <| g_currentValue := if is_on value then "1" else if is_off value then "0" else value |>);
    mret (g_currentValue g, g).
Definition setCurrentValue (g : Gpio) (value : string) : M (bool * Gpio) :=
  '(v, g) ← get_and_set_value g value;
  ok ← write_file (getpath g) v;
  if ok : bool then
    World.publish (g_name g) (if gpiotype g =s "pwmout" then dutyCycle g else g_currentValue g);; mret (true, g)
  else mret (false, g).
Definition setInitialValue (g : Gpio) : M Gpio :=
  '(_, g) ← setCurrentValue g "";
  if get g "mode" =s "OFF" then '(_, g) ← setCurrentValue g "OFF"; mret g else mret g.
End gp.
End Gp.

(** ** Class GPIOThread.  The vector [gpio] is [input ++ output ++ pwmout]; [ow_next] is the
    index of the loop of [do_work2]. *)
Record GPIOThread := mkGT {
  gt_input : list Gpio; gt_output : list Gpio; pwmout : list Gpio; onewire : list Gpio;
  probe_polling : Queue; ow_next : nat }.
#[export] Instance GPIOThread_rebuild : Rebuild GPIOThread := fun t =>
  mkGT (gt_input t) (gt_output t) (pwmout t) (onewire t) (probe_polling t) (ow_next t).

Module GT.
Section gt.
Context {P : Platform} {C : Config} {XP : XmlParser} {FS : PathNames} {Ar : Archived}.
Definition gpio (t : GPIOThread) : list Gpio := gt_input t ++ gt_output t ++ pwmout t.

(** *** The inputs *)
(** [get_current_value]: [atoi] of what [read] put in the buffer; [None] is an error of [read]. *)
Definition get_current_value (buffer : option string) : Z :=
  match buffer with Some s => default 0 (scan_int s) | None => -1 end.
Definition local_event (g : Gpio) (value : string) : MMessage :=
  Msg.add (Msg.add (Msg.add (Msg.mk "local_event" "update") "gpio" (gpioname g)) "name" (g_name g)) "value" value.
(** A ready input: a new value is reported unless the last one is more recent than [w]
    seconds; the first change after the start is not reported. *)
Definition on_ready (g : Gpio) (buffer : option string) : M Gpio :=
  let asciivalue := int2a (get_current_value buffer) in
  now ← gettime;
  if dleb (g_wait_until g) now && (asciivalue <>s g_currentValue g) then
    let out_mess := Msg.add (local_event g asciivalue) "time" (double2a now) in
    let g := g <| g_currentValue := asciivalue |> in
    (if dgtb (g_wait_until g) d0 then notify out_mess else mret tt);;
    World.publish (g_name g) asciivalue;;
    mret (g <| g_wait_until := dadd now (g_w g) |>)
  else mret g.
Definition first_value (g : Gpio) (buffer : option string) : M Gpio :=
  let g := g <| g_currentValue := int2a (get_current_value buffer) |> in
  World.publish (g_name g) (g_currentValue g);; mret g.
(** One return of [poll]: [ready] holds, for each input, the buffer of a ready one. *)
Fixpoint poll_loop (l : list Gpio) (ready : list (option (option string))) : M (list Gpio) :=
  match l, ready with
  | g :: l', r :: ready' =>
      g ← match r with Some b => on_ready g b | None => mret g end;
      l' ← poll_loop l' ready'; mret (g :: l')
  | _, _ => mret l
  end.
Definition on_poll (t : GPIOThread) (ready : list (option (option string))) : M GPIOThread :=
  l ← poll_loop (gt_input t) ready; mret (t <| gt_input := l |>).

(** *** The outputs: the first channel of that name in each of the two lists *)
Fixpoint drive (name value : string) (l : list Gpio) : M (list Gpio) :=
  match l with
  | [] => mret []
  | g :: l' =>
      if name =s g_name g then '(_, g) ← Gp.setCurrentValue g value; mret (g :: l')
      else l' ← drive name value l'; mret (g :: l')
  end.
Definition start_outputs (t : GPIOThread) : M GPIOThread :=
  o ← mapM_M Gp.setInitialValue (gt_output t);
  p ← mapM_M Gp.setInitialValue (pwmout t);
  mret (t <| gt_output := o |> <| pwmout := p |>).
Definition handle (t : GPIOThread) (msg : MMessage) : M GPIOThread :=
  if mtype msg =s "devcmd" then
    let value := Msg.getString msg "value" in
    o ← drive (msubtype msg) value (gt_output t);
    p ← drive (msubtype msg) value (pwmout t);
    mret (t <| gt_output := o |> <| pwmout := p |>)
  else if (mtype msg =s "trigger") && (msubtype msg =s "pollw1") then
    mret (t <| probe_polling := Q.send (probe_polling t) msg |>)
  else mret t.

(** *** The one-wire sensors *)
Fixpoint value_chars (l : list ascii) : list ascii :=
  match l with
  | [] => []
  | c :: l' => if (c =c "013"%char) || (c =c "010"%char) || (c =c " "%char) then [] else c :: value_chars l'
  end.
Definition getAsciiValue (s kw : string) : string :=
  match sfind kw s 0 with
  | None => ""
  | Some pos => of_chars (value_chars (chars (drop_str (pos + String.length kw) s)))
  end.
(** A poll of the next sensor, in turn.  The index is in range when there are sensors. *)
Definition on_probe (t : GPIOThread) (msg : MMessage) : M GPIOThread :=
  if (0 <? length (onewire t))%nat && ((mtype msg =s "trigger") && (msubtype msg =s "pollw1")) then
    let i := if (length (onewire t) <=? ow_next t)%nat then 0%nat else ow_next t in
    match onewire t !! i with
    | None => mret t
    | Some g =>
        value ← cmdExec (Params.get_cat (g_params g) "poll" "script");
        g ← (if value <>s "" then
               let v := getAsciiValue value (Params.get_cat (g_params g) "valuekw" "script") in
               let g := g <| g_currentValue := v |> in
               World.publish (g_name g) v;; notify (local_event g v);; mret g
             else mret g);
        mret (t <| onewire := <[i := g]> (onewire t) |> <| ow_next := S i |>)
    end
  else mret t.
Definition isDefined (t : GPIOThread) (sysname : string) : string :=
  match List.find (fun g => gpioname g =s sysname) (onewire t) with Some g => g_name g | None => "" end.

(** [mkName]: the first of "PR1", ..., "PR<n>" that no sensor has, or "PR<n+1>". *)
Definition probe_name (i : nat) : string := "PR" +:+ unsigned2a (Z.of_nat i).
(** The inner loop: [tname] is cleared when a sensor has it. *)
Definition unused (l : list Gpio) (tname : string) : string :=
  fold_left (fun t g => if t =s g_name g then "" else t) l tname.
Fixpoint mkName_loop (l : list Gpio) (i n : nat) (tname : string) : string :=
  match n with
  | O => tname
  | S n => if tname =s "" then mkName_loop l (S i) n (unused l (probe_name (S i))) else tname
  end.
Definition mkName (l : list Gpio) : string :=
  let tname := mkName_loop l 0 (length l) "" in
  if tname =s "" then probe_name (S (length l)) else tname.

(** [owDefine]: the description of a sensor found on the bus, from a template.  The loops
    [while(strReplace(...))] get one turn per character of the text; [None] is a loop
    that has not ended by then (a value that holds its own placeholder). *)
Definition fill (s dst src : string) : option string := strReplaceAll (S (String.length s)) s dst src.
Definition owDefine (dir name gname : string) : M (option bool) :=
  c ← read_file (configdir +:+ "/templates/OneWire.xml");
  match c with
  | None => mret (Some false)
  | Some c =>
      match (t ← fill (of_chars (until_nul (chars c))) "$OWDIR" dir;
             t ← fill t "$NAME" name; fill t "$GPIONAME" gname) with
      | None => mret None
      | Some t => ok ← write_file (configdir +:+ "/onewire/" +:+ name +:+ ".xml") t; mret (Some ok)
      end
  end.
(** The sensors the system lists and no description has. *)
Fixpoint define_loop (dir : string) (sys : list string) (t : GPIOThread) : M (option GPIOThread) :=
  match sys with
  | [] => mret (Some t)
  | s :: sys' =>
      if (s <>s "w1_bus_master1") && (isDefined t s =s "") then
        let tmpname := mkName (onewire t) in
        o ← owDefine dir tmpname s;
        match o with
        | None => mret None
        | Some _ =>
            g ← Gp.mk "onewire" tmpname;
            match g with
            | None => mret None
            | Some g => define_loop dir sys' (t <| onewire := onewire t ++ [g] |>)
            end
        end
      else define_loop dir sys' t
  end.
(** [MkOnewire], on the files of the directory of descriptions and of the bus. *)
Definition MkOnewire (dir : string) (owdev sysowdev : list string) (t : GPIOThread) : M (option GPIOThread) :=
  if dir =s "" then mret (Some t)
  else
    l ← mapM_M (fun f => Gp.mk "onewire" (FilePath.getStem f)) owdev;
    match mapM id l with
    | None => mret None
    | Some l =>
        let t := t <| onewire := onewire t ++ l |> in
        if 1 <? debug then mret (Some t) else define_loop dir sysowdev t
    end.

(** *** The constructor *)
Definition register_line (g : Gpio) : string :=
  "<attribute name=" +:+ quote (g_name g) +:+ " value=" +:+ quote (gpiotype g) +:+ "/>".
Definition publish_default (g : Gpio) : M unit :=
  World.publish (g_name g) (if Gp.get g "default_value" =s "" then "0" else Gp.get g "default_value").
Definition gpioRegister (t : GPIOThread) : M bool :=
  let l := gpio t ++ onewire t in
  iterM publish_default l;;
  write_out (homedir +:+ "/gpioch.xml") ("<?xml version=" +:+ quote "1.0" +:+ "?><set type=" +:+ quote "gpioch" +:+
    ">" +:+ sconcat (map register_line l) +:+ "</set>" +:+ Msg.endl);;
  addResource "gpioactive/gpioch.xml" (homedir +:+ "/gpioch.xml");;
  Dirs.deleteFile homedir "gpioch.xml";; mret true.
Fixpoint init_all (isdir : string -> bool) (l : list Gpio) (done : list string) : M (list string) :=
  match l with
  | [] => mret done
  | g :: l' => done ← Gp.initialise (isdir (Gp.get g "gpiopath")) g done; init_all isdir l' done
  end.
Definition MkExport (isdir : string -> bool) (t : GPIOThread) (done : list string) : M (list string) :=
  done ← init_all isdir (gpio t) done; iterM (fun g => Gp.program g;; mret tt) (gpio t);; mret done.
Definition load_dir (dir : string) (files : list string) : M (option (list Gpio)) :=
  l ← mapM_M (fun f => Gp.mk dir (FilePath.getStem f)) files; mret (mapM id l).
Definition mk (n : string) (isdir : string -> bool) (owdev sysowdev inf outf pwmf : list string) (done : list string)
    : M (option (GPIOThread * list string)) :=
  par ← Params.load (Params.mk2 "threads" n);
  match par with
  | None => mret None
  | Some (_, par) =>
      t ← MkOnewire (Params.get par "onewiredir") owdev sysowdev (mkGT [] [] [] [] (Q.mk 3) 0);
      i ← load_dir "gpioin" inf; o ← load_dir "gpioout" outf; p ← load_dir "pwmout" pwmf;
      match (t ← t; i ← i; o ← o; p ← p; Some (t <| gt_input := i |> <| gt_output := o |> <| pwmout := p |>)) with
      | None => mret None
      | Some t => done ← MkExport isdir t done; gpioRegister t;; mret (Some (t, done))
      end
  end.
End gt.
End GT.
