(* ===== verification/Fsm.v ===== *)
(** * Devices described by a finite state machine (BBDevices/FSMDevice.cpp)

    A description lists states; a state lists transitions, each with the condition
    that fires it, the messages it sends and the name of the next state, which
    [compileNumeric] turns into an index.  The device reacts to the conditions of its
    current state ([expected]).  Loading a description that lacks an expected
    node, or running a machine without states, dereferences a null pointer: [None]. *)
From S2P Require Import Prelude Doubles Hsrv Xml MMessage World MParams Devices.

Record FSMCondition := mkCond { c_type : string; c_subtype : string; c_value : string }.
#[export] Instance FSMCondition_eq_dec : EqDecision FSMCondition.
Proof. solve_decision. Defined.
Record FSMAction := mkAct { a_type : string; a_subtype : string; a_value : string }.
Record Transition := mkTrans {
  t_name : string; newstate : string; t_condition : FSMCondition; t_action : list FSMAction; nextstate : nat }.
#[export] Instance Transition_rebuild : Rebuild Transition := fun t =>
  mkTrans (t_name t) (newstate t) (t_condition t) (t_action t) (nextstate t).
Record FSMState := mkState { s_name : string; s_start : bool; transitions : list Transition }.
#[export] Instance FSMState_rebuild : Rebuild FSMState := fun s => mkState (s_name s) (s_start s) (transitions s).
Record FSMDevice := mkFSM {
  f_name : string; f_alias : string; states : list FSMState; f_currentValue : string;
  expected : list FSMCondition; f_current : nat; oldstate : nat }.
#[export] Instance FSMDevice_rebuild : Rebuild FSMDevice := fun d =>
  mkFSM (f_name d) (f_alias d) (states d) (f_currentValue d) (expected d) (f_current d) (oldstate d).

(** ** Conditions and their order *)
Module Cond.
Definition of_node (n : xnode) : FSMCondition := mkCond (child_attr n "type") (child_attr n "subtype") (child_attr n "value").
Definition eqb (a b : FSMCondition) : bool :=
  (c_type a =s c_type b) && (c_subtype a =s c_subtype b) && (c_value a =s c_value b).
Definition neqb (a b : FSMCondition) : bool :=
  (c_type a <>s c_type b) || (c_subtype a <>s c_subtype b) || (c_value a <>s c_value b).
Definition sltb (a b : string) : bool := String.ltb a b.
Definition ltb (a b : FSMCondition) : bool :=
  sltb (c_type a) (c_type b) ||
  ((c_type a =s c_type b) && sltb (c_subtype a) (c_subtype b)) ||
  ((c_type a =s c_type b) && (c_subtype a =s c_subtype b) && sltb (c_value a) (c_value b)).
Definition leb (a b : FSMCondition) : bool := ltb a b || eqb a b.
Definition gtb (a b : FSMCondition) : bool :=
  sltb (c_type b) (c_type a) ||
  ((c_type a =s c_type b) && sltb (c_subtype b) (c_subtype a)) ||
  ((c_type a =s c_type b) && (c_subtype a =s c_subtype b) && sltb (c_value b) (c_value a)).
Definition geb (a b : FSMCondition) : bool := gtb a b || eqb a b.
Definition input (c : FSMCondition) (l : list MAttribute) : list MAttribute :=
  if c_type c =s "local_event" then l ++ [mkAttr (c_subtype c) "input" "active"] else l.
End Cond.

Module FAct.
Definition of_node (n : xnode) : FSMAction := mkAct (child_attr n "type") (child_attr n "subtype") (child_attr n "value").
Definition subjects (a : FSMAction) (subj : MParams) : MParams := Params.add_cat subj (a_subtype a) "subject" (a_type a).
Definition output (a : FSMAction) (l : list MAttribute) : list MAttribute :=
  if a_type a =s "devcmd" then l ++ [mkAttr (a_subtype a) "output" "active"] else l.
End FAct.

(** ** Class Transition *)
Module Tr.
Section tr.
Context {P : Platform}.
(** The condition is the first child, the actions are the children of the second. *)
Definition of_node (n : xnode) : option Transition :=
  match n with
  | XOther _ _ => Some (mkTrans "" "" (mkCond "" "" "") [] (Z.to_nat indet_unsigned))
  | XElement _ _ ch =>
      match ch with
      | [] => None
      | c :: rest =>
          acts ← FirstChild rest;
          Some (mkTrans (child_attr n "name") (child_attr n "to") (Cond.of_node c) (map FAct.of_node acts)
                  (Z.to_nat indet_unsigned))
      end
  end.
Definition input (t : Transition) (l : list MAttribute) : list MAttribute := Cond.input (t_condition t) l.
Definition output (t : Transition) (l : list MAttribute) : list MAttribute :=
  fold_left (fun l a => FAct.output a l) (t_action t) l.
Definition observations (t : Transition) (obs : MParams) : MParams :=
  Params.add_cat obs (c_subtype (t_condition t)) "observe" (c_type (t_condition t)).
Definition subjects (t : Transition) (subj : MParams) : MParams :=
  fold_left (fun s a => FAct.subjects a s) (t_action t) subj.
Definition activeFSMConditions (t : Transition) (c : list FSMCondition) : list FSMCondition :=
  if existsb (Cond.eqb (t_condition t)) c then c else c ++ [t_condition t].
(** The messages are written into one message object, copied at each step. *)
Fixpoint action_msgs (am : MMessage) (l : list FSMAction) : list MMessage :=
  match l with
  | [] => []
  | a :: l' => let am := Msg.add (retype am (a_type a) (a_subtype a)) "value" (a_value a) in
               am :: action_msgs am l'
  end.
Definition exec (t : Transition) (c : FSMCondition) (m : list MMessage) (ns : nat) : bool * list MMessage * nat :=
  if Cond.eqb c (t_condition t) then (true, m ++ action_msgs Msg.dummy (t_action t), nextstate t)
  else (false, m, ns).
Definition compileNumeric (t : Transition) (sn : string) (nn : nat) : Transition :=
  if newstate t =s sn then t <| nextstate := nn |> else t.
End tr.
End Tr.

(** ** Class State.  The start flag is read from the attribute "name", as in the source. *)
Module St.
Section st.
Context {P : Platform}.
Definition of_node (n : xnode) : option FSMState :=
  match n with
  | XOther _ _ => Some (mkState "" indet_bool [])
  | XElement _ _ ch =>
      ts ← mapM Tr.of_node ch;
      Some (mkState (child_attr n "name") (child_attr n "name" =s "TRUE") ts)
  end.
Definition observations (s : FSMState) (obs : MParams) : MParams :=
  fold_left (fun o t => Tr.observations t o) (transitions s) obs.
Definition input (s : FSMState) (l : list MAttribute) : list MAttribute :=
  fold_left (fun l t => Tr.input t l) (transitions s) l.
Definition output (s : FSMState) (l : list MAttribute) : list MAttribute :=
  fold_left (fun l t => Tr.output t l) (transitions s) l.
Definition subjects (s : FSMState) (subj : MParams) : MParams :=
  fold_left (fun o t => Tr.subjects t o) (transitions s) subj.
Definition activeFSMConditions (s : FSMState) (c : list FSMCondition) : list FSMCondition :=
  fold_left (fun c t => Tr.activeFSMConditions t c) (transitions s) c.
Fixpoint exec_loop (l : list Transition) (c : FSMCondition) (m : list MMessage) (ns : nat) : bool * list MMessage * nat :=
  match l with
  | [] => (false, m, ns)
  | t :: l' => let '(done, m, ns) := Tr.exec t c m ns in if done then (true, m, ns) else exec_loop l' c m ns
  end.
Definition exec (s : FSMState) (c : FSMCondition) (m : list MMessage) (ns : nat) : bool * list MMessage * nat :=
  exec_loop (transitions s) c m ns.
Definition compileNumeric (s : FSMState) (sn : string) (nn : nat) : FSMState :=
  s <| transitions := map (fun t => Tr.compileNumeric t sn nn) (transitions s) |>.
End st.
End St.

(** ** Class FSMDevice *)
Module FSM.
Section fsm.
Context {P : Platform} {C : Config} {XP : XmlParser}.

(** Every state name, in order, is compiled into the transitions of every state. *)
Definition compile (l : list FSMState) : list FSMState :=
  fold_left (fun l '(i, n) => map (fun s => St.compileNumeric s n i) l)
    (zip (seq 0 (length l)) (map s_name l)) l.
Fixpoint last_start (l : list FSMState) (i : nat) (cur : option nat) : option nat :=
  match l with [] => cur | s :: l' => last_start l' (S i) (if s_start s then Some i else cur) end.
Definition of_document (d : FSMDevice) (doc : xptr) : option FSMDevice :=
  dev ← NextSibling doc;
  match dev with
  | [] => None
  | n :: rest =>
      dev ← (if child_attr n "name" =s "*" then match rest with [] => None | n2 :: _ => Some n2 end else Some n);
      sts ← mapM St.of_node (children dev);
      let sts := compile sts in
      let d := d <| f_alias := child_attr dev "alias" |> <| states := sts |> in
      Some (match last_start sts 0 None with
            | Some i => d <| f_current := i |> <| oldstate := i |>
            | None => d
            end)
  end.
Definition load (d : FSMDevice) (pathname : string) : M (option (bool * FSMDevice)) :=
  let d := d <| f_current := 0%nat |> <| states := [] |> in
  c ← read_file pathname;
  mret (match c with
        | None => Some (false, d)
        | Some s => if parse_ok s then pair true <$> of_document d (load_document s) else Some (false, d)
        end).
Definition activeFSMConditions (d : FSMDevice) (c : list FSMCondition) : option (list FSMCondition) :=
  s ← states d !! f_current d; Some (St.activeFSMConditions s c).
Definition publish (d : FSMDevice) : M bool :=
  World.publish (f_name d) (entry "target" (f_currentValue d) "ON");;
  (if (3 <? String.length (f_alias d))%nat then
     iterM (fun a => World.publish a (entry "source" (f_currentValue d) "ON")) (NameList.of_string (f_alias d) "+"%char)
   else mret tt);; mret true.
Definition mk (dir fname : string) : M (option FSMDevice) :=
  let d := mkFSM fname "" [] "" [] 0 0 in
  l ← load d (configdir +:+ "/" +:+ dir +:+ "/" +:+ fname +:+ ".xml");
  match l ≫= fun '(_, d) => (fun e => d <| expected := e |> <| f_currentValue := "OFF" |>) <$> activeFSMConditions d [] with
  | None => mret None
  | Some d => publish d;; mret (Some d)
  end.
Definition remove (d : FSMDevice) : M bool :=
  let pathname := configdir +:+ "/devices/" +:+ f_name d +:+ ".xml" in
  f ← is_file pathname;
  (if f : bool then FM.deleteFile pathname "" else mret false);; mret true.

(** [exec]: one step of the machine. *)
Definition exec (d : FSMDevice) (c : FSMCondition) (m : list MMessage) : option (bool * FSMDevice * list MMessage) :=
  let d := d <| oldstate := f_current d |> in
  s ← states d !! f_current d;
  let '(done, m, ns) := St.exec s c m (f_current d) in
  Some (done, d <| f_current := ns |>, m).
(** The common part of [execcmd] and [update]: [None] inside when the condition is not expected. *)
Definition fire (d : FSMDevice) (c : FSMCondition) : option (option (FSMDevice * list MMessage)) :=
  if existsb (fun e => negb (Cond.neqb c e)) (expected d) then
    '(_, d, res) ← exec d c [];
    e ← activeFSMConditions d [];
    Some (Some (d <| expected := e |>, res))
  else Some None.
(** An event whose subtype contains the name of the device sets its value. *)
Definition value_after (name v : string) (m : MMessage) : string :=
  if (mtype m =s "event") && contains name (msubtype m) then Msg.getString m "value" else v.
Definition execcmd (d : FSMDevice) (msg : MMessage) : M (option (bool * FSMDevice)) :=
  match fire d (mkCond (mtype msg) (msubtype msg) (Msg.getString msg "value")) with
  | None => mret None
  | Some None => rpcNotify (Msg.getString msg "tag") "value" (f_currentValue d);; mret (Some (false, d))
  | Some (Some (d, res)) =>
      let d := d <| f_currentValue := fold_left (value_after (f_name d)) res (f_currentValue d) |> in
      iterM notify res;;
      rpcNotify (Msg.getString msg "tag") "value" (f_currentValue d);;
      publish d;; mret (Some (true, d))
  end.
Definition update (d : FSMDevice) (channel value : string) : M (option (bool * FSMDevice)) :=
  match fire d (mkCond "local_event" channel value) with
  | None => mret None
  | Some None => mret (Some (false, d))
  | Some (Some (d, res)) => iterM notify res;; mret (Some (true, d))
  end.
Definition getObservations (d : FSMDevice) (obs : MParams) : MParams :=
  fold_left (fun o s => St.observations s o) (states d) obs.
Definition activeObservations (d : FSMDevice) (obs : MParams) : option MParams :=
  s ← states d !! f_current d; Some (St.observations s obs).
Definition getSubjects (d : FSMDevice) (subj : MParams) : MParams :=
  fold_left (fun o s => St.subjects s o) (states d) subj.
Definition input (d : FSMDevice) : list MAttribute := fold_left (fun l s => St.input s l) (states d) [].
Definition output (d : FSMDevice) : list MAttribute := fold_left (fun l s => St.output s l) (states d) [].
End fsm.
End FSM.
