(* ===== verification/VirtualDevices.v ===== *)
(** * The device manager (BBDevices/VirtualDevices.cpp, Device.h, Device.cpp)

    The thread that owns the devices of an agent: it loads them, dispatches every message to
    the device it names, by the name of the device or by the channel it listens to, and
    edits the configuration files.  Devices are shared objects: the two maps hold
    addresses into [heap].  Directory listings are passed in. *)
From S2P Require Import Prelude Doubles Hsrv Xml MMessage World MParams Pages Subjects Devices Pwm Fsm.

(** ** Class Device: the virtual methods, with the defaults of the base class *)
Inductive Device :=
| DBinaryOutput (d : BinaryOutput) | DTriState (d : TriStateOutput) | DBinaryInput (d : BinaryInput)
| DAnalogInput (d : AnalogInput) | DRawInput (d : RawDevice) | DRawOutput (d : RawDevice)
| DMeter (d : ElectricMeter) | DFSM (d : FSMDevice) | DPwm (d : Pwm) | DRGB (d : RGBPwm).

Module Dev.
Definition name (v : Device) : string :=
  match v with
  | DBinaryOutput d => bo_name d | DTriState d => ts_name d | DBinaryInput d => bi_name d
  | DAnalogInput d => ai_name d | DRawInput d | DRawOutput d => raw_name d | DMeter d => em_name d
  | DFSM d => f_name d | DPwm d => pw_name d | DRGB d => rgb_name d
  end.
(** The constructor of [Device] sets "OFF", which [FSMDevice] keeps. *)
Definition status (v : Device) : string :=
  match v with
  | DBinaryOutput d => bo_status d | DTriState d => ts_status d | DBinaryInput d => bi_status d
  | DAnalogInput d => ai_status d | DRawInput d | DRawOutput d => raw_status d | DMeter d => em_status d
  | DFSM _ => "OFF" | DPwm d => pw_status d | DRGB d => rgb_status d
  end.
Section dev.
Context {P : Platform} {C : Config} {XP : XmlParser}.
Definition input (v : Device) : list MAttribute :=
  match v with
  | DTriState d => TS.input d | DBinaryInput d => BI.input d | DAnalogInput d => AI.input d
  | DMeter d => EM.input d | DFSM d => FSM.input d | _ => []
  end.
Definition output (v : Device) : list MAttribute :=
  match v with
  | DBinaryOutput d => BO.output d | DTriState d => TS.output d | DFSM d => FSM.output d
  | DPwm d => PW.output d | DRGB d => RGB.output d | _ => []
  end.
Definition getObservations (v : Device) (obs : MParams) : MParams :=
  match v with
  | DBinaryOutput d => BO.getObservations d obs | DTriState d => TS.getObservations d obs
  | DBinaryInput d => BI.getObservations d obs
  | DRawInput d | DRawOutput d => Raw.getObservations d obs
  | DFSM d => FSM.getObservations d obs | DPwm d => PW.getObservations d obs
  | DRGB d => RGB.getObservations d obs | DAnalogInput _ | DMeter _ => obs
  end.
Definition getSubjects (v : Device) (subj : MParams) : MParams :=
  match v with
  | DBinaryOutput d => BO.getSubjects d subj | DTriState d => TS.getSubjects d subj
  | DBinaryInput d => BI.getSubjects d subj | DAnalogInput d => AI.getSubjects d subj
  | DRawInput d => Raw.subjectsInput d subj | DRawOutput d => Raw.subjectsOutput d subj
  | DMeter d => EM.getSubjects d subj | DFSM d => FSM.getSubjects d subj
  | DPwm d => PW.getSubjects d subj | DRGB d => RGB.getSubjects d subj
  end.

(** A method that may crash ([None]); the flag is the result where the code gives one. *)
Definition flagged {T} (K : T -> Device) (c : M (bool * T)) : M (option (option bool * Device)) :=
  '(b, d) ← c; mret (Some (Some b, K d)).
Definition crashing {T} (K : T -> Device) (c : M (option (bool * T))) : M (option (option bool * Device)) :=
  o ← c; mret ((fun '(b, d) => (Some b, K d)) <$> o).
Definition execcmd (v : Device) (m : MMessage) : M (option (option bool * Device)) :=
  match v with
  | DBinaryOutput d => flagged DBinaryOutput (BO.execcmd d m)
  | DTriState d => flagged DTriState (TS.execcmd d m)
  | DBinaryInput d => '(b, d) ← BI.execcmd d m; mret (Some (b, DBinaryInput d))
  | DAnalogInput d => flagged DAnalogInput (AI.execcmd d m)
  | DRawInput d => flagged DRawInput (Raw.execInput d m)
  | DRawOutput d => flagged DRawOutput (Raw.execOutput d m)
  | DMeter d => flagged DMeter (EM.execcmd d m)
  | DFSM d => crashing DFSM (FSM.execcmd d m)
  | DPwm d => flagged DPwm (PW.execcmd d m)
  | DRGB d => crashing DRGB (RGB.execcmd d m)
  end.
Definition setstatus (v : Device) (m : MMessage) : M (bool * Device) :=
  match v with
  | DBinaryInput d => '(b, d) ← BI.setstatus d m; mret (b, DBinaryInput d)
  | _ => mret (false, v)
  end.
Definition publish (v : Device) : M bool :=
  match v with
  | DBinaryOutput d => BO.publish d | DTriState d => TS.publish d | DBinaryInput d => BI.publish d
  | DAnalogInput d => AI.publish d | DMeter d => EM.publish d | DFSM d => FSM.publish d
  | DRGB d => RGB.publish d | DRawInput _ | DRawOutput _ | DPwm _ => mret false
  end.
Definition doMeasure (v : Device) : M (bool * Device) :=
  match v with
  | DMeter d => '(b, d) ← EM.doMeasure d; mret (b, DMeter d)
  | _ => mret (false, v)
  end.
Definition reset (v : Device) (field : string) : M (bool * Device) :=
  match v with
  | DMeter d => '(b, d) ← EM.reset d field; mret (b, DMeter d)
  | _ => mret (false, v)
  end.
(** The constructor for a directory of "devices"; other directories give no device. *)
Definition mk (kind dir n : string) : M (option (option Device)) :=
  let boxed {T} (K : T -> Device) (c : M (option T)) : M (option (option Device)) :=
    o ← c; mret ((fun d => Some (K d)) <$> o) in
  if kind =s "ElectricMeter" then boxed DMeter (EM.mk dir n)
  else if kind =s "FSMDevice" then boxed DFSM (FSM.mk dir n)
  else if kind =s "BinaryInput" then boxed DBinaryInput (BI.mk dir n)
  else if kind =s "AnalogInput" then boxed DAnalogInput (AI.mk dir n)
  else if kind =s "BinaryOutput" then boxed DBinaryOutput (BO.mk dir n)
  else if kind =s "Pwm" then boxed DPwm (PW.mk dir n)
  else if kind =s "RGBPwm" then boxed DRGB (RGB.mk dir n)
  else if kind =s "TriStateOutput" then boxed DTriState (TS.mk dir n)
  else mret (Some None).
End dev.
End Dev.

(** ** Class VrtDevices *)
Record VrtDevices := mkVD {
  heap : list Device; dev_by_name : gmap string nat; dev_by_io : gmap string nat;
  day : string; initial_memory : Z }.
#[export] Instance VrtDevices_rebuild : Rebuild VrtDevices := fun v =>
  mkVD (heap v) (dev_by_name v) (dev_by_io v) (day v) (initial_memory v).

(** The end of a step: [VExit] is [exit(1)], [VCrash] a null pointer, an access past the end
    or an exception, [VLoop] a loop that does not end. *)
Inductive vd_outcome := VRunning (v : VrtDevices) | VExit | VCrash | VLoop.

Module VD.
Section vd.
Context {P : Platform} {C : Config} {XP : XmlParser} {FS : PathNames} {Ar : Archived}.

(** *** Loading *)
(** A new device: the last one of a name, or on a channel, hides the ones before. *)
Definition insert (v : VrtDevices) (d : Device) : VrtDevices :=
  let a := length (heap v) in
  v <| heap := heap v ++ [d] |> <| dev_by_name := <[Dev.name d := a]> (dev_by_name v) |>
    <| dev_by_io := fold_left (fun io i => <[aname i := a]> io) (Dev.input d) (dev_by_io v) |>.
Fixpoint load_each (mk : string -> M (option (option Device))) (files : list string) (v : VrtDevices)
    : M (option VrtDevices) :=
  match files with
  | [] => mret (Some v)
  | f :: files' =>
      d ← mk (FilePath.getStem f);
      match d with
      | None => mret None
      | Some None => load_each mk files' v
      | Some (Some d) => load_each mk files' (insert v d)
      end
  end.
Definition loadDevType (v : VrtDevices) (dir1 dir2 : string) (files : list string) : M (option VrtDevices) :=
  load_each (Dev.mk dir2 (dir1 +:+ "/" +:+ dir2)) files v.
Definition loadRawOutput (v : VrtDevices) (dir : string) (files : list string) : M (option VrtDevices) :=
  load_each (fun n => o ← Raw.mkOutput (dir +:+ "/RawOutput") n; mret ((fun d => Some (DRawOutput d)) <$> o)) files v.
Definition loadRawInput (v : VrtDevices) (dir : string) (files : list string) : M (option VrtDevices) :=
  load_each (fun n => o ← Raw.mkInput (dir +:+ "/RawInput") n;
                      match o with
                      | None => mret None
                      | Some d => World.publish (raw_name d) "0";; mret (Some (Some (DRawInput d)))
                      end) files v.
(** [FileManager::copyFile]: the output is created even when there is nothing to copy. *)
Definition copyFile (source new_path new_name : string) : M bool :=
  let out := FM.path_of new_path new_name in
  c ← read_file source;
  ok ← write_file out (default "" c);
  if negb ok then log_info ("[Filemanager::copyFile] error copying file (file output problem): " +:+ out);; mret false
  else match c with
       | None => log_info ("[Filemanager::copyFile] error copying file (file input problem): " +:+ source);; mret false
       | Some _ => mret true
       end.
Definition copy_named (kw dir path : string) (files : list string) : M unit :=
  iterM (fun f => if contains kw f then copyFile (dir +:+ "/" +:+ f) path f;; mret tt else mret tt) files.
(** A directory that is not there is made; a failure ends the process. *)
Definition need_dir (path : string) : M (option bool) :=
  d ← Dirs.isDir path; if d : bool then ok true else Dirs.makeDir path true.
Definition mkRawOutput (dir : string) (gpioout pwmout : list string) : M (option bool) :=
  let path := dir +:+ "/RawOutput" in
  _ ←! need_dir path;
  cmdExec ("rm -f " +:+ path +:+ "/*.xml");;
  copy_named "out" (configdir +:+ "/gpioout") path gpioout;;
  copy_named "PWM" (configdir +:+ "/pwmout") path pwmout;; ok true.
Definition mkRawInput (dir : string) (gpioin : list string) : M (option bool) :=
  let path := dir +:+ "/RawInput" in
  _ ←! need_dir path;
  cmdExec ("rm -f " +:+ path +:+ "/*.xml");;
  copy_named "in" (configdir +:+ "/gpioin") path gpioin;; ok true.
Fixpoint load_types (v : VrtDevices) (dir : string) (l : list (string * list string)) : M (option VrtDevices) :=
  match l with
  | [] => mret (Some v)
  | (kind, files) :: l' =>
      o ← loadDevType v dir kind files;
      match o with None => mret None | Some v => load_types v dir l' end
  end.
(** The listings of a start: the channel directories, the raw devices found after they have
    been copied, and the directories of "devices" with their files. *)
Record listings := mkLs {
  ls_gpioout : list string; ls_pwmout : list string; ls_gpioin : list string;
  ls_rawout : list string; ls_rawin : list string; ls_devices : list (string * list string) }.
Definition loadDevices (v : VrtDevices) (dir : string) (ls : listings) : M (option VrtDevices) :=
  let raw := configdir +:+ "/rawdevices" in
  _ ←! mkRawOutput raw (ls_gpioout ls) (ls_pwmout ls);
  _ ←! mkRawInput raw (ls_gpioin ls);
  o ← loadRawOutput v "rawdevices" (ls_rawout ls);
  match o with
  | None => mret None
  | Some v =>
      o ← loadRawInput v "rawdevices" (ls_rawin ls);
      match o with None => mret None | Some v => load_types v dir (ls_devices ls) end
  end.
Definition mk (ls : listings) : M (option VrtDevices) :=
  o ← loadDevices (mkVD [] ∅ ∅ "" indet_int) "devices" ls;
  match o with
  | None => mret None
  | Some v => t ← getday 0; mret (Some (v <| day := t |>))
  end.

(** *** Access by address *)
Definition set_dev (v : VrtDevices) (a : nat) (d : Device) : VrtDevices := v <| heap := <[a := d]> (heap v) |>.
(** Run a method of the device at an address; a dangling address crashes. *)
Definition on_dev {A} (f : Device -> M (option (A * Device))) (a : nat) (v : VrtDevices)
    : M (option (A * VrtDevices)) :=
  match heap v !! a with
  | None => mret None
  | Some d => o ← f d; mret ((fun '(r, d) => (r, set_dev v a d)) <$> o)
  end.
Definition total {A} (f : Device -> M (A * Device)) (d : Device) : M (option (A * Device)) :=
  r ← f d; mret (Some r).
(** A loop over the devices, in the order of their names. *)
Fixpoint each {A} (f : Device -> M (A * Device)) (l : list (string * nat)) (v : VrtDevices) : M (option VrtDevices) :=
  match l with
  | [] => mret (Some v)
  | (_, a) :: l' =>
      o ← on_dev (total f) a v;
      match o with None => mret None | Some (_, v) => each f l' v end
  end.
Definition for_all {A} (f : Device -> M (A * Device)) (v : VrtDevices) : M (option VrtDevices) :=
  each f (map_items (dev_by_name v)) v.
Definition devices (v : VrtDevices) : list (string * Device) :=
  omap (fun '(n, a) => pair n <$> heap v !! a) (map_items (dev_by_name v)).

(** *** The messages for one device *)
Definition execcmd (v : VrtDevices) (msg : MMessage) : M (option (option bool * VrtDevices)) :=
  match dev_by_name v !! msubtype msg with
  | None => mret (Some (Some false, v))
  | Some a => on_dev (fun d => Dev.execcmd d msg) a v
  end.
Definition setstatus (v : VrtDevices) (msg : MMessage) : M (option (bool * VrtDevices)) :=
  match dev_by_name v !! msubtype msg with
  | None => mret (Some (false, v))
  | Some a => on_dev (total (fun d => Dev.setstatus d msg)) a v
  end.
Definition execLocalEvent (v : VrtDevices) (msg : MMessage) : M (option (option bool * VrtDevices)) :=
  match dev_by_io v !! msubtype msg with
  | None => mret (Some (Some false, v))
  | Some a => on_dev (fun d => Dev.execcmd d msg) a v
  end.
(** A change of a channel, which the field "name" tells. *)
Definition update (v : VrtDevices) (msg : MMessage) : M (option (bool * VrtDevices)) :=
  let n := Msg.getString msg "name" in
  match dev_by_io v !! n with
  | None => mret (Some (false, v))
  | Some _ =>
      o ← execLocalEvent v (Msg.set_subtype msg n);
      mret ((fun '(_, v) => (true, v)) <$> o)
  end.

(** The device of a timer, from the text "<seconds>_<name>" or
    "<seconds>_<name>$<time>".  [dev.length()-2] is unsigned: a text of less than two
    characters makes it wrap above every index. *)
Definition index_of (c : ascii) (l : list ascii) : nat := default (length l) (find_first (fun d => d =c c) l).
Definition timer_device (dev : string) : string :=
  let l := chars dev in
  let i := index_of "_" l in
  let l := if (length l <? 2)%nat || (i <? length l - 2)%nat then drop (S i) l else l in
  of_chars (take (index_of "$" l) l).
Definition execwait (v : VrtDevices) (msg : MMessage) : M (option (option bool * VrtDevices)) :=
  match dev_by_name v !! timer_device (Msg.getString msg "value") with
  | None => mret (Some (Some false, v))
  | Some a => on_dev (fun d => Dev.execcmd d msg) a v
  end.

(** *** All the devices *)
Definition publish (v : VrtDevices) : M (option VrtDevices) := for_all (fun d => b ← Dev.publish d; mret (b, d)) v.
Definition doMeasure (v : VrtDevices) : M (option VrtDevices) := for_all Dev.doMeasure v.
Definition doReset_all (v : VrtDevices) (field : string) : M (option VrtDevices) :=
  for_all (fun d => Dev.reset d field) v.
Definition doReset (v : VrtDevices) (m : MMessage) : M (option (bool * VrtDevices)) :=
  match dev_by_name v !! Msg.getString m "device" with
  | None => mret (Some (false, v))
  | Some a => on_dev (total (fun d => Dev.reset d (Msg.getString m "field"))) a v
  end.
(** On the first message of a day the counters of energy restart, if the last day was
    yesterday. *)
Definition doArchiveUpdate (v : VrtDevices) : M (option VrtDevices) :=
  currentday ← getday 0;
  yesterday ← getday (-900);
  if currentday =s day v then mret (Some v)
  else
    log_info ("ARCHIVEPURGE: " +:+ day v +:+ " " +:+ currentday +:+ " " +:+ yesterday);;
    if yesterday <>s day v then mret (Some (v <| day := currentday |>))
    else
      emit ArchivePurged;;
      log_info ("Archive PURGE!!!! " +:+ day v +:+ " " +:+ currentday);;
      doReset_all (v <| day := currentday |>) "energy".
Definition MAXMEMORYGROWTH : Z := 2.
(** [memory]: the size the system reports. *)
Definition doMemoryCheck (v : VrtDevices) (memory : Z) : M vd_outcome :=
  if swrap 32 (MAXMEMORYGROWTH * initial_memory v) <? memory then
    log_info ("MEMORY is too large: " +:+ int2a memory +:+ " - REBOOT!!!");; mret VExit
  else mret (VRunning v).

(** *** Pages *)
Definition makeDevicePage (v : VrtDevices) : M bool :=
  saveItemList "devices" "status"
    (map (fun '(n, d) => (n, if Dev.status d =s "" then "ON" else Dev.status d)) (devices v));; mret true.
Definition add_all (p : MParams) (l : list MAttribute) : MParams :=
  fold_left (fun p a => Params.add p (aname a) (avalue a)) l p.
Definition channel_line (a : MAttribute) : string :=
  "<attribute name=" +:+ quote (aname a) +:+ " value=" +:+ quote (avalue a) +:+ "/>".
(** The active channels that no device uses. *)
Definition free_channels (active : MParams) (v : VrtDevices) : MParams :=
  let used := fold_left (fun p '(_, d) => add_all (add_all p (Dev.input d)) (Dev.output d)) (devices v)
                (Params.mk2 "gpioactive" "gpioch") in
  add_all (Params.mk2 "gpioafree" "gpioch")
    (List.filter (fun a => Params.get used (aname a) =s "") (attrs active)).
Definition freegpioRegister (v : VrtDevices) : M (option bool) :=
  l ← Params.load (Params.mk2 "gpioactive" "gpioch");
  match l with
  | None => mret None
  | Some (_, active) =>
      write_out (homedir +:+ "/gpiochfree.xml") ("<?xml version=" +:+ quote "1.0" +:+ "?><set type=" +:+
        quote "gpioch" +:+ ">" +:+ sconcat (map channel_line (attrs (free_channels active v))) +:+ "</set>" +:+ Msg.endl);;
      addResource "gpiofree/gpioch.xml" (homedir +:+ "/gpiochfree.xml");;
      Dirs.deleteFile homedir "gpiochfree.xml";; mret (Some true)
  end.

(** *** Configuration *)
(** An empty [url], or one of a single part that is not "devices", is read past its end. *)
Definition doReboot (v : VrtDevices) (m : MMessage) : vd_outcome :=
  match NameList.of_string (Msg.getString m "url") "/"%char with
  | [] => VCrash
  | a :: l =>
      if a =s "devices" then VExit
      else match l with [] => VCrash | b :: _ => if b =s "devices" then VExit else VRunning v end
  end.
Definition deleteManifest (name : string) : M bool :=
  FM.deleteFile (configdir +:+ "/devmanifest/") (name +:+ ".xml");; mret true.
Definition devRemove (cpath hpath : string) (files : list string) (m : MMessage) : M bool :=
  let name := Msg.getString m "name" in
  let name := if name =s "" then Msg.getString m "value" else name in
  deleteManifest name;;
  let name := name +:+ ".xml" in
  if NameList.member files name then FM.deleteFile cpath name;; FM.deleteFile hpath name;; mret true
  else mret false.
(** [groups]: the directories of devices, with their files. *)
Fixpoint delete_loop (groups : list (string * list string)) (m : MMessage) : M bool :=
  match groups with
  | [] => mret false
  | (g, files) :: groups' =>
      done ← devRemove (configdir +:+ "/devices/" +:+ "/" +:+ g) (homedir +:+ "/devices/" +:+ "/" +:+ g) files m;
      if done : bool then mret true else delete_loop groups' m
  end.
Definition devDelete (v : VrtDevices) (groups : list (string * list string)) (m : MMessage) : M vd_outcome :=
  done ← delete_loop groups m; mret (if done : bool then VExit else VRunning v).
Definition mkManifest (m : MMessage) : M bool :=
  let name := Msg.getString m "$PREFIX" +:+ "_" +:+ Msg.getString m "$NAME" in
  write_file (configdir +:+ "/devmanifest/" +:+ name +:+ ".xml") (Msg.xmlPrint m 1);; mret true.

(** [removeComment] erases from the first opening of a comment to the first tag after the
    first closing.  [None]: there is no tag after it, and the scan leaves the string. *)
Definition removeComment (description : string) : option (bool * string) :=
  match sfind "<!--" description 0, sfind "-->" description 0 with
  | Some pos, Some endpos =>
      if (endpos <? pos)%nat then Some (false, description)
      else k ← find_first (fun c => c =c "<"%char) (drop endpos (chars description));
           Some (true, take_str pos description +:+ drop_str (endpos + k) description)
  | _, _ => Some (false, description)
  end.
(** [while(removeComment(description));] — the inner [None] is a crash. *)
Fixpoint removeComments (fuel : nat) (description : string) : option (option string) :=
  match fuel with
  | O => None
  | S n => match removeComment description with
           | None => Some None
           | Some (false, d) => Some (Some d)
           | Some (true, d) => removeComments n d
           end
  end.

(** The header of a template: "semantic_class = <directory> -->" in a comment, or
    "semantic_class = <directory> ]" before the first tag.  The directory, whether it is in
    a comment, and the position of the first tag after it; [inl]: the error that is logged. *)
Definition is_end (c : ascii) : bool :=
  (c =c "]"%char) || (c =c "-"%char) || (c =c "013"%char) || (c =c "010"%char).
Definition no_category : string := "Wrong template: doesn't contain the semantic category".
Definition bad_category : string := "Wrong template: semantic category non correctly specified".
Definition find_from (q : ascii -> bool) (l : list ascii) (from : nat) : option nat :=
  (fun k => (from + k)%nat) <$> find_first q (drop from l).
Definition header (description : string) : string + (string * bool * nat) :=
  let l := chars description in
  match sfind "semantic_class" description 0 with
  | None => inl no_category
  | Some pos =>
      match (eq ← find_from (fun c => c =c "="%char) l pos;
             stop ← find_from is_end l (S eq);
             c ← l !! stop;
             if (c =c "]"%char) || (c =c "-"%char) then
               tag ← find_from (fun c => c =c "<"%char) l stop; Some (S eq, stop, c, tag)
             else None) with
      | None => inl bad_category
      | Some (start, stop, c, tag) =>
          inr (of_chars (List.filter (fun c => negb (c =c " "%char)) (take (stop - start) (drop start l))),
               c =c "-"%char, tag)
      end
  end.
(** The placeholders of the message, in the order of the fields, and the four fields the
    code remembers. *)
Definition starts_dollar (s : string) : bool := match s with String c _ => c =c "$"%char | _ => false end.
Definition fill (s dst src : string) : option string := strReplaceAll (S (String.length s)) s dst src.
Fixpoint fill_loop (m : MMessage) (l : list string) (description : string) : option string :=
  match l with
  | [] => Some description
  | k :: l' =>
      d ← (if starts_dollar k then fill description k (Msg.getString m k) else Some description);
      fill_loop m l' d
  end.
(** The value of a field, or [dflt] when the message has no such field. *)
Definition field_or (m : MMessage) (k dflt : string) : string :=
  match fields m !! k with Some _ => Msg.getString m k | None => dflt end.
Definition fill_template (m : MMessage) (description : string) : option string :=
  d ← fill_loop m (map fst (map_items (fields m))) description;
  d ← (if field_or m "$DURATION" "0" =s "0" then fill d "$DURATION" "0" else Some d);
  if field_or m "$PDURATION" "0" =s "0" then fill d "$PDURATION" "0" else Some d.
Definition devConfigure (v : VrtDevices) (m : MMessage) : M vd_outcome :=
  let devtype := Msg.getString m "devtype" in
  let devname := if devtype =s "" then Msg.getString m "value" else devtype in
  mkManifest m;;
  c ← read_file (configdir +:+ "/templates/" +:+ devname +:+ ".xml");
  match c with
  | None => mret (VRunning v)
  | Some c =>
      let description := of_chars (until_nul (chars c)) in
      match header description with
      | inl e => log_info e;; mret (VRunning v)
      | inr (dir, iscomment, tag) =>
          let description := if iscomment : bool then description else drop_str tag description in
          match removeComments (S (String.length description)) description with
          | None => mret VLoop
          | Some None => mret VCrash
          | Some (Some description) =>
              match fill_template m description with
              | None => mret VLoop
              | Some description =>
                  let path := configdir +:+ "/devices/" +:+ dir +:+ "/" +:+ field_or m "$PREFIX" "" +:+ "_" +:+
                              field_or m "$NAME" devname +:+ ".xml" in
                  ok ← write_file path description;
                  if ok : bool then mret VExit
                  else log_info ("Impossible to save: " +:+ path);; mret (VRunning v)
              end
          end
      end
  end.

(** *** The loop over the messages *)
Definition running {A} (o : option (A * VrtDevices)) : vd_outcome :=
  match o with None => VCrash | Some (_, v) => VRunning v end.
Definition running1 (o : option VrtDevices) : vd_outcome :=
  match o with None => VCrash | Some v => VRunning v end.
Definition named (v : VrtDevices) (n : string) : bool := bool_decide (is_Some (dev_by_name v !! n)).
Definition wired_to (v : VrtDevices) (n : string) : bool := bool_decide (is_Some (dev_by_io v !! n)).
(** [c && hsrv::checkConfigureEnabled()]: the check runs only when [c] holds. *)
Definition and_enabled (c : bool) : M bool := if c then checkConfigureEnabled else mret false.
Definition is_msg (m : MMessage) (t st : string) : bool := (mtype m =s t) && (msubtype m =s st).
(** The messages for the devices. *)
Definition dispatch (v : VrtDevices) (msg : MMessage) : M vd_outcome :=
  if (mtype msg =s "cmd") && named v (msubtype msg) then o ← execcmd v msg; mret (running o)
  else if (mtype msg =s "set") && named v (msubtype msg) then
    o ← setstatus v msg;
    match o with
    | None => mret VCrash
    | Some (_, v) => makeDevicePage v;; mret (VRunning v)
    end
  else if (mtype msg =s "local_event") && wired_to v (msubtype msg) then
    o ← execLocalEvent v msg; mret (running o)
  else if is_msg msg "wait" "end" then o ← execwait v msg; mret (running o)
  else mret (VRunning v).
(** The configuration commands; the rest goes to the devices. *)
Definition configure (v : VrtDevices) (groups : list (string * list string)) (msg : MMessage) : M vd_outcome :=
  b ← and_enabled (is_msg msg "cmd" "putConf");
  if b : bool then mret (doReboot v msg)
  else
    b ← and_enabled (is_msg msg "cmd" "devConfigure");
    if b : bool then devConfigure v msg
    else
      b ← and_enabled (is_msg msg "cmd" "devDelete");
      if b : bool then devDelete v groups msg else dispatch v msg.
(** The memory size and the directories of devices are what the system says at this step. *)
Definition handle (v : VrtDevices) (memory : Z) (groups : list (string * list string)) (msg : MMessage)
    : M vd_outcome :=
  if is_msg msg "cmd" "reset" then o ← doReset v msg; mret (running o)
  else if is_msg msg "local_event" "update" then o ← update v msg; mret (running o)
  else if is_msg msg "trigger" "publish" then o ← publish v; mret (running1 o)
  else if is_msg msg "trigger" "measure" then o ← doMeasure v; mret (running1 o)
  else if is_msg msg "trigger" "archiveupd" then o ← doArchiveUpdate v; mret (running1 o)
  else if is_msg msg "trigger" "checkmemory" then doMemoryCheck v memory
  else configure v groups msg.
(** The start of the thread. *)
Definition start (v : VrtDevices) (memory : Z) : M (option VrtDevices) :=
  o ← freegpioRegister v;
  match o with
  | None => mret None
  | Some _ => makeDevicePage v;; mret (Some (v <| initial_memory := memory |>))
  end.
(** [param]: the parameters of the thread. *)
Definition getObservations (v : VrtDevices) (param obs : MParams) : MParams :=
  fold_left (fun o '(_, d) => Dev.getObservations d o) (devices v) (OT.getObservations param obs).
Definition getSubjects (v : VrtDevices) (param subj : MParams) : MParams :=
  fold_left (fun o '(_, d) => Dev.getSubjects d o) (devices v) (OT.getSubjects param subj).
End vd.
End VD.
