(* ===== verification/MqttDevices.v ===== *)
(** * The devices over MQTT (MqttBBDevices, MqttLogger)

    MqttBBDevices is a copy of BBDevices with a client of an MQTT broker: its devices also report to the broker, and a topic
    is a command or the request of a page.  The methods of the copy that report are translated here from the copy; the others
    are word for word those of BBDevices and are the definitions of [Devices], [Pwm] and [Fsm], where the members are.  The
    first properties compare the copy with the original.  MqttLogger forwards the messages it receives to the broker.
    The library mosquitto is a parameter ([Mosquitto]); what the client asks of it is in [mq_calls].
    [None] is the end of the process or a loop that does not end. *)
From S2P Require Import Prelude Doubles Hsrv Xml MMessage World MParams Samples Pages Devices Pwm Fsm VirtualDevices.

(** [hsrv::mqtt] and [hsrv::mqtt_domain] *)
Class MqttConfig := { mqtt : string; mqtt_domain : string }.
(** The result of a turn of the network loop of the library *)
Class Mosquitto := { mosq_loop : nat -> Z }.

(** ** The reports of the devices *)
Module MqRep.
Section reports.
Context {P : Platform} {MC : MqttConfig}.
(** [mkMqttmessage] of a device with this status *)
Definition mkMqttmessage (status ty subty value mqtttag : string) : M MMessage :=
  let topic := ty +:+ "/" +:+ subty in
  let topic := if mqtttag <>s "" then topic +:+ "/" +:+ mqtttag else topic in
  let topic := if mqtt_domain <>s "" then mqtt_domain +:+ "/" +:+ topic else topic in
  now ← gettime;
  let m := Msg.add (retype Msg.dummy "mqtt" "mqtt_send") "topic" topic in
  mret (Msg.add m "value" (subty +:+ ":" +:+ value +:+ ",time=" +:+ double2a now +:+ ",status=" +:+ status)).
Definition report (status name value mqtttag : string) : M unit :=
  if mqtt =s "ON" then m ← mkMqttmessage status "event" name value mqtttag; notify m else mret tt.
Definition tag_of (m : MMessage) : string := Msg.getString m "mqtttag".
End reports.
End MqRep.

(** ** The classes of the devices *)
Module MqDev.
Import MqRep.
Section devices.
Context {P : Platform} {C : Config} {XP : XmlParser} {MC : MqttConfig}.
Implicit Types (msg m : MMessage).
(** BinaryOutput.cpp, [execcmd] *)
Definition binary_output (d : BinaryOutput) msg : M (bool * BinaryOutput) :=
  now ← gettime;
  let value := Msg.getString msg "value" in
  if msubtype msg =s bo_name d then
    d ← (if bo_currentValue d <>s value then
           d ← BO.drive d now value value;
           (if BO.timed d && negb (BO.at_default d) then notify (wait_msg "set" (bo_wait_condition d))
            else if BO.timed d && BO.at_default d then notify (wait_msg "reset" (bo_wait_condition d))
            else mret tt);; mret d
         else if negb (BO.at_default d) && BO.timed d then notify (wait_msg "set" (bo_wait_condition d));; mret d
         else mret d);
    answer_rpc msg ("value=" +:+ value);;
    report (bo_status d) (bo_name d) ("value=" +:+ value) (tag_of msg);; mret (true, d)
  else if (mtype msg =s "wait") && (msubtype msg =s "end") then
    if negb (BO.at_default d) then
      d ← BO.drive d now (default_value d) (Msg.getString msg "value"); mret (true, d)
    else mret (true, d)
  else mret (false, d).
(** TriStateOutput.cpp, [execcmd]: also a device that is off reports. *)
Definition tristate (d : TriStateOutput) msg : M (bool * TriStateOutput) :=
  now ← gettime;
  let d := d <| ts_currentTime := now |> in
  let msg := TS.checkUpcase msg in
  let newstate := Msg.getString msg "value" in
  if ts_status d =s "OFF" then
    rpcNotify (Msg.getString msg "tag") "value" "value=none";;
    report (ts_status d) (ts_name d) "value=none" (tag_of msg);; mret (false, d)
  else if (mtype msg =s "cmd") && (msubtype msg =s ts_name d) then
    d ← TS.docmdaction d newstate;
    answer_rpc msg ("value=" +:+ newstate);;
    report (ts_status d) (ts_name d) ("value=" +:+ newstate) (tag_of msg);; mret (true, d)
  else if mtype msg =s "local_event" then d ← TS.on_input d msg; mret (true, d)
  else if (mtype msg =s "wait") && (msubtype msg =s "end") then d ← TS.dowaitaction d; mret (true, d)
  else mret (false, d).
(** BinaryInput.cpp, [setstatus] *)
Definition binary_input_status (d : BinaryInput) m : M (bool * BinaryInput) :=
  let newstatus := Msg.getString m "value" in
  d ← (if ((newstatus =s "ON") || (newstatus =s "OFF")) && (BI.get d "status" <>s newstatus) then
         let d := d <| bi_params := Params.add (bi_params d) "status" newstatus |> <| bi_status := newstatus |> in
         Params.save (bi_params d);; BI.publish d;; mret d
       else mret d);
  answer_rpc m ("status=" +:+ bi_status d);;
  report (bi_status d) (bi_name d) ("status=" +:+ bi_status d) (tag_of m);; mret (true, d).
(** AnalogInput.cpp, [update]: the report goes before the page. *)
Definition analog_update (d : AnalogInput) (channel value : string) : M (bool * AnalogInput) :=
  now ← gettime;
  if channel =s ai_in d then
    let d := d <| ai_currentValue := AI.scale d value |> <| ai_currentTime := now |> in
    notify (Msg.add (Msg.add (retype Msg.dummy "event" (ai_name d)) "value" (ai_currentValue d)) "time"
      (double2a (ai_currentTime d)));;
    report (ai_status d) (ai_name d) ("value=" +:+ ai_currentValue d) "";;
    AI.publish d;; mret (true, d)
  else mret (false, d).
(** ElectricMeter.cpp, [publish]: the report goes before the event. *)
Definition measures (d : ElectricMeter) m : MMessage :=
  Msg.add (Msg.add (Msg.add (Msg.add m "energy" (double2a (energy d))) "Ipower" (double2a (Ipower d)))
    "Apower" (double2a (Apower d))) "unit" (unit_ d).
Definition meter_report (d : ElectricMeter) : M unit :=
  if mqtt =s "ON" then
    m ← mkMqttmessage (em_status d) "event" (em_name d) ("value=" +:+ double2a (Ipower d)) "";
    t ← getasciitimecompact;
    notify (Msg.add (measures d m) "timeofday" t)
  else mret tt.
Definition meter_publish (d : ElectricMeter) : M bool :=
  t ← getasciitimecompact;
  meter_report d;;
  notify (Msg.add (measures d (retype Msg.dummy "event" (em_name d))) "timeofday" t);;
  World.publish (em_name d) ("type=" +:+ quote "source" +:+ " energy=" +:+ quote (double2a (energy d)) +:+
    " power=" +:+ quote (double2a (Ipower d)) +:+ " status=" +:+ quote (Params.get (em_params d) "status"));;
  mret true.
(** FSMDevice.cpp, [execcmd]: [load] has set the status of the machine to "ON", and the constructor crashes when there is
    nothing to load.  An unexpected message is reported if it has the field "mqtt". *)
Definition machine (d : FSMDevice) msg : M (option (bool * FSMDevice)) :=
  match FSM.fire d (mkCond (mtype msg) (msubtype msg) (Msg.getString msg "value")) with
  | None => mret None
  | Some None =>
      rpcNotify (Msg.getString msg "tag") "value" (f_currentValue d);;
      (if Msg.getString msg "mqtt" <>s "" then report "ON" (f_name d) ("value=" +:+ f_currentValue d) (tag_of msg) else mret tt);;
      mret (Some (false, d))
  | Some (Some (d, res)) =>
      let d := d <| f_currentValue := fold_left (FSM.value_after (f_name d)) res (f_currentValue d) |> in
      iterM notify res;;
      rpcNotify (Msg.getString msg "tag") "value" (f_currentValue d);;
      FSM.publish d;;
      report "ON" (f_name d) ("value=" +:+ f_currentValue d) (tag_of msg);; mret (Some (true, d))
  end.
(** Pwm.cpp, [execcmd] *)
Definition pwm (d : Pwm) msg : M (bool * Pwm) :=
  now ← gettime;
  let value := Msg.getString msg "value" in
  if msubtype msg =s pw_name d then
    d ← (if pw_currentValue d <>s value then
           let d := d <| pw_currentTime := now |> in notify (PW.command d value);; mret d
         else mret d);
    d ← PW.eventNotify d value;
    answer_rpc msg ("value=" +:+ (if value =s "OFF" then "0" else pw_currentValue d));;
    report (pw_status d) (pw_name d) ("value=" +:+ (if value =s "OFF" then "0" else pw_currentValue d)) (tag_of msg);;
    mret (true, d)
  else mret (false, d).
(** RGBPwm.cpp, [execcmd] *)
Definition rgb (d : RGBPwm) msg : M (option (bool * RGBPwm)) :=
  now ← gettime;
  if msubtype msg =s rgb_name d then
    let '(value, color) := RGB.value_color msg in
    o ← RGB.apply (d <| rgb_currentTime := now |>) value color;
    match o with
    | None => mret None
    | Some d =>
        d ← RGB.eventNotify d;
        answer_rpc msg (("value=" +:+ (if outputStatus d =s "ON" then currentIntensity d else "0")) +:+
                        ",color=" +:+ currentColor d);;
        report (rgb_status d) (rgb_name d)
          (if outputStatus d =s "ON" then "value=" +:+ currentIntensity d +:+ ",color=" +:+ currentColor d
           else "value=0,color=" +:+ currentColor d) (tag_of msg);;
        mret (Some (true, d))
    end
  else mret (Some (false, d)).
(** The virtual methods: the other ones are those of [Dev]. *)
Definition execcmd (v : Device) msg : M (option (option bool * Device)) :=
  match v with
  | DBinaryOutput d => Dev.flagged DBinaryOutput (binary_output d msg)
  | DTriState d => Dev.flagged DTriState (tristate d msg)
  | DAnalogInput d => Dev.flagged DAnalogInput (analog_update d (msubtype msg) (Msg.getString msg "value"))
  | DFSM d => Dev.crashing DFSM (machine d msg)
  | DPwm d => Dev.flagged DPwm (pwm d msg)
  | DRGB d => Dev.crashing DRGB (rgb d msg)
  | _ => Dev.execcmd v msg
  end.
Definition setstatus (v : Device) m : M (bool * Device) :=
  match v with
  | DBinaryInput d => '(b, d) ← binary_input_status d m; mret (b, DBinaryInput d)
  | _ => Dev.setstatus v m
  end.
Definition publish (v : Device) : M bool :=
  match v with DMeter d => meter_publish d | _ => Dev.publish v end.
End devices.
End MqDev.

(** ** Class MqttClient *)
Inductive mqcall := Subscribe (topic : string) | Publish (topic payload : string) | Reconnect.
Record MqttClient := mkMqC { tosubscribe : list string; mq_calls : list mqcall }.
#[export] Instance MqttClient_rebuild : Rebuild MqttClient := fun c => mkMqC (tosubscribe c) (mq_calls c).
Definition MAXBUF : nat := 16000.

Module MqC.
Section client.
Context {P : Platform} {MC : MqttConfig} {Mo : Mosquitto}.
Implicit Types (c : MqttClient).
Definition call (q : mqcall) c : MqttClient := c <| mq_calls := mq_calls c ++ [q] |>.
Definition in_domain (s : string) : string := if mqtt_domain =s "" then s else mqtt_domain +:+ "/" +:+ s.
Definition mk (subjects : list string) : MqttClient := mkMqC (map in_domain subjects) [].
Definition on_connect (rc : Z) c : MqttClient :=
  if rc =? 0 then fold_left (fun c t => call (Subscribe t) c) (tosubscribe c) c else c.
Definition loop : M Z := fun w => (mosq_loop (w_tick w), set_tick (S (w_tick w)) w).
(** After a failure the client reconnects for ever: the result of the loop is not read again. *)
Definition publish (topic message : string) c : M (option (bool * MqttClient)) :=
  res ← loop; mret (if res =? 0 then Some (true, call (Publish topic message) c) else None).
Definition isTag (name : string) : bool :=
  match chars name with a :: b :: _ :: _ => (a =c "t"%char) && (b =c "."%char) | _ => false end.
(** "wget": a page is published under the topic of the answers; the function ends without a result there. *)
Definition page_topic (next : string) : string :=
  let t := if mqtt_domain <>s "" then mqtt_domain +:+ "/wgetr" else "wgetr" in
  if isTag next then t +:+ "/" +:+ next else t.
Definition wget (next message : string) : M (option (option bool)) :=
  match NameList.of_string message "/" with
  | [] => mret None
  | p :: _ =>
      (if (p =s "DynamicPage") || (p =s "DynamicPage.xml") || (p =s "DynamicPage.json") then
         response ← getDynamicPage message;
         notify (Msg.add (Msg.add (Msg.mk "mqtt" "mqtt_send") "topic" (page_topic next)) "value" response)
       else mret tt);;
      mret (Some None)
  end.
Definition command (ty subty : string) (tag : option string) (message : string) : M bool :=
  let m := retype Msg.dummy ty subty in
  let m := match tag with Some t => if isTag t then Msg.add m "mqtttag" t else m | None => m end in
  match NameList.of_string message "=" with
  | f :: v :: _ => notify (Msg.add m f v);; mret true
  | _ => mret false
  end.
(** The names of a topic, without the domain: at least two are left. *)
Definition sendCmd (topic message : string) : M (option (option bool)) :=
  let names := NameList.of_string topic "/" in
  if (length names <? 3)%nat then mret (Some (Some false))
  else
    let names := match names with d :: names' => if d =s mqtt_domain then names' else names | [] => names end in
    match names with
    | n0 :: n1 :: rest =>
        if n0 =s "wget" then wget n1 message
        else b ← command n0 n1 (head rest) message; mret (Some (Some b))
    | _ => mret None
    end.
(** The payload is copied to a buffer up to its NUL; a longer one overflows it. *)
Definition on_message (topic payload : string) : M (option unit) :=
  let mm := of_chars (until_nul (chars payload)) in
  if (MAXBUF <=? String.length mm)%nat then mret None
  else r ← sendCmd topic mm; mret ((fun _ => tt) <$> r).
End client.
End MqC.

(** ** Class MqttClientThread *)
Module MqThread.
Section thread.
Context {P : Platform} {C : Config} {XP : XmlParser} {MC : MqttConfig} {Mo : Mosquitto}.
Definition subjects (p : MParams) : list string :=
  map aname (List.filter (fun a => avalue a =s "mqtt_sub") (Params.extractCategory p "topic")).
Definition mk (id : string) : M (option MqttClient) :=
  r ← Params.load (Params.mk1 ("threads/" +:+ id)); mret ((fun r => MqC.mk (subjects r.2)) <$> r).
(** One message of [do_work], one turn of [do_work1]. *)
Definition do_work (m : MMessage) (c : MqttClient) : M (option MqttClient) :=
  if (mtype m =s "mqtt") && (msubtype m =s "mqtt_send")
  then r ← MqC.publish (Msg.getString m "topic") (Msg.getString m "value") c; mret (snd <$> r)
  else mret (Some c).
Definition do_work1 (c : MqttClient) : M MqttClient :=
  rc ← MqC.loop; mret (if rc =? 0 then c else MqC.call Reconnect c).
End thread.
End MqThread.

(** ** MqttLogger: Receiver and MqttClientThread *)
Module MqLog.
Section logger.
Context {P : Platform} {Mo : Mosquitto}.
Definition mk : MqttClient := mkMqC [] [].
(** The receiver marks every message for the thread; the time is read twice. *)
Definition receive (msg : MMessage) : M unit :=
  _ ← getasciitimecompact;
  t ← getasciitimecompact;
  let m := Msg.add (Msg.add (retype msg "mqtt" "mqtt_send") "class" (mtype msg)) "feature" (msubtype msg) in
  notify (Msg.add (Msg.add m "timeofday" t) "time" (Msg.getString msg "time")).
Definition do_work (m : MMessage) (c : MqttClient) : M (option MqttClient) :=
  if (mtype m =s "mqtt") && (msubtype m =s "mqtt_send")
  then r ← MqC.publish "event" (Msg.xmlEncode m 0) c; mret (snd <$> r)
  else mret (Some c).
End logger.
End MqLog.

(** * Properties of the devices over MQTT *)

Section reports.
Context {P : Platform} {C : Config} {XP : XmlParser} {MC : MqttConfig}.
Implicit Types (w : world) (m : MMessage).
(** The topic of the events of a device, with the tag of the request. *)
Definition event_topic (name tag : string) : string :=
  let t := "event/" +:+ name in
  let t := if tag <>s "" then t +:+ "/" +:+ tag else t in
  if mqtt_domain <>s "" then mqtt_domain +:+ "/" +:+ t else t.
(** What a device has to report: its name, the tag, the text and its status. *)
Record due_report := mkDue { due_name : string; due_tag : string; due_text : string; due_status : string }.
Definition is_report (p : due_report) (r : MMessage) : Prop :=
  mtype r = "mqtt" /\ msubtype r = "mqtt_send" /\ Msg.getString r "topic" = event_topic (due_name p) (due_tag p) /\
  exists now, Msg.getString r "value" = due_name p +:+ ":" +:+ due_text p +:+ ",time=" +:+ double2a now +:+ ",status=" +:+ due_status p.
(** After a command: which devices report, from the device before, the message, and the device after. *)
Definition due_command (v : Device) msg (o : option (option bool * Device)) : option due_report :=
  let tag := Msg.getString msg "mqtttag" in
  match v, o with
  | DBinaryOutput d, Some (_, DBinaryOutput d') =>
      if msubtype msg =s bo_name d then Some (mkDue (bo_name d') tag ("value=" +:+ Msg.getString msg "value") (bo_status d')) else None
  | DTriState d, Some (_, DTriState d') =>
      if ts_status d =s "OFF" then Some (mkDue (ts_name d') tag "value=none" (ts_status d'))
      else if (mtype msg =s "cmd") && (msubtype msg =s ts_name d)
      then Some (mkDue (ts_name d') tag ("value=" +:+ Msg.getString (TS.checkUpcase msg) "value") (ts_status d')) else None
  | DAnalogInput d, Some (_, DAnalogInput d') =>
      if msubtype msg =s ai_in d then Some (mkDue (ai_name d') "" ("value=" +:+ ai_currentValue d') (ai_status d')) else None
  | DFSM _, Some (Some done, DFSM d') =>
      if done || (Msg.getString msg "mqtt" <>s "") then Some (mkDue (f_name d') tag ("value=" +:+ f_currentValue d') "ON") else None
  | DPwm d, Some (_, DPwm d') =>
      if msubtype msg =s pw_name d
      then Some (mkDue (pw_name d') tag ("value=" +:+ (if Msg.getString msg "value" =s "OFF" then "0" else pw_currentValue d')) (pw_status d'))
      else None
  | DRGB d, Some (_, DRGB d') =>
      if msubtype msg =s rgb_name d
      then Some (mkDue (rgb_name d') tag ("value=" +:+ (if outputStatus d' =s "ON" then currentIntensity d' else "0") +:+ ",color=" +:+ currentColor d')
                   (rgb_status d'))
      else None
  | _, _ => None
  end.
Definition due_setstatus msg (r : bool * Device) : option due_report :=
  match r.2 with DBinaryInput d => Some (mkDue (bi_name d) (Msg.getString msg "mqtttag") ("status=" +:+ bi_status d) (bi_status d)) | _ => None end.
Definition due_publish (v : Device) : option due_report :=
  match v with DMeter d => Some (mkDue (em_name d) "" ("value=" +:+ double2a (Ipower d)) (em_status d)) | _ => None end.
(** [w1] is [w0] with the report that is due before the last [k] effects, if MQTT is on; else [w0]. *)
Definition with_report (p : option due_report) (k : nat) w0 w1 : Prop :=
  match p with
  | Some p =>
      if mqtt =s "ON" then
        w_files w1 = w_files w0 /\ w_dirs w1 = w_dirs w0 /\ w_index w1 = w_index w0 /\
        exists r l1 l2, is_report p r /\ w_trace w0 = l1 ++ l2 /\ w_trace w1 = l1 ++ Notified r :: l2 /\ length l2 = k
      else w1 = w0
  | None => w1 = w0
  end.
(** What a computation does, a second one does with the report that is due after it. *)
Definition agrees {A} (due : A -> option due_report) (k : nat) (c c' : M A) w : Prop :=
  result c' w = result c w /\ with_report (due (result c w)) k (final c w) (final c' w).
Lemma report_due status name text tag w :
  with_report (Some (mkDue name tag text status)) 0 w (final (MqRep.report status name text tag) w).
Proof.
  unfold with_report, MqRep.report. destruct (mqtt =s "ON"); [|done]. repeat split; try done.
  eexists _, (w_trace w), []. split_and!; [|by rewrite app_nil_r|reflexivity|done].
  split_and!; [done|done| |].
  - unfold event_topic. rewrite sapp_assoc. done.
  - eexists. reflexivity.
Qed.
Lemma nothing_due k w : with_report None k w w.
Proof. done. Qed.
Lemma agrees_refl {A} k (c : M A) w : agrees (fun _ => None) k c c w.
Proof. done. Qed.
Lemma agrees_after {A} due (c c' : M A) (k : A -> M unit) w :
  c' w = (a ← c; k a;; mret a) w -> (forall a w, with_report (due a) 0 w (final (k a) w)) -> agrees due 0 c c' w.
Proof.
  intros E H. unfold agrees, result, final. rewrite E. unfold mbind, M_bind. destruct (c w) as [a w1]. specialize (H a w1).
  unfold final in H. destruct (k a w1) as [u w2]. done.
Qed.
(** Both sides run the same parts. *)
Ltac same_runs :=
  repeat (first [rewrite run_bind|rewrite result_bind|rewrite final_bind|rewrite result_ret|rewrite final_ret]; cbv beta iota zeta; cbn [fst snd]);
  try reflexivity.

Lemma binary_output_after d msg w :
  MqDev.binary_output d msg w =
  (r ← BO.execcmd d msg;
   (if msubtype msg =s bo_name d
    then MqRep.report (bo_status r.2) (bo_name r.2) ("value=" +:+ Msg.getString msg "value") (MqRep.tag_of msg) else mret tt);; mret r) w.
Proof.
  unfold MqDev.binary_output, BO.execcmd, BO.on_command. destruct (msubtype msg =s bo_name d).
  { same_runs. }
  destruct ((mtype msg =s "wait") && (msubtype msg =s "end")); [destruct (negb (BO.at_default d))|]; same_runs.
Qed.
Lemma tristate_after d msg w :
  MqDev.tristate d msg w =
  (r ← TS.execcmd d msg;
   (if ts_status d =s "OFF" then MqRep.report (ts_status r.2) (ts_name r.2) "value=none" (MqRep.tag_of msg)
    else if (mtype msg =s "cmd") && (msubtype msg =s ts_name d)
    then MqRep.report (ts_status r.2) (ts_name r.2) ("value=" +:+ Msg.getString (TS.checkUpcase msg) "value") (MqRep.tag_of msg)
    else mret tt);; mret r) w.
Proof.
  assert (MqRep.tag_of (TS.checkUpcase msg) = MqRep.tag_of msg) as Ht by (apply MsgFacts.getString_add_ne; done).
  assert (mtype (TS.checkUpcase msg) = mtype msg /\ msubtype (TS.checkUpcase msg) = msubtype msg) as [Hm Hs].
  { unfold TS.checkUpcase. by rewrite MsgFacts.mtype_add, MsgFacts.msubtype_add. }
  unfold MqDev.tristate, TS.execcmd. rewrite !run_bind, result_bind, final_bind. cbv beta.
  set (now := result gettime w). set (d0 := d <| ts_currentTime := now |>). cbv zeta. rewrite Hm, Hs, Ht.
  change (ts_status d0) with (ts_status d). change (ts_name d0) with (ts_name d).
  destruct (ts_status d =s "OFF"); [same_runs|].
  destruct ((mtype msg =s "cmd") && (msubtype msg =s ts_name d)); [same_runs|].
  destruct (mtype msg =s "local_event"); [same_runs|].
  destruct ((mtype msg =s "wait") && (msubtype msg =s "end")); same_runs.
Qed.
Lemma setstatus_after d m w :
  MqDev.binary_input_status d m w =
  (r ← BI.setstatus d m; MqRep.report (bi_status r.2) (bi_name r.2) ("status=" +:+ bi_status r.2) (MqRep.tag_of m);; mret r) w.
Proof. unfold MqDev.binary_input_status, BI.setstatus. same_runs. Qed.
Lemma pwm_after d msg w :
  MqDev.pwm d msg w =
  (r ← PW.execcmd d msg;
   (if msubtype msg =s pw_name d
    then MqRep.report (pw_status r.2) (pw_name r.2)
           ("value=" +:+ (if Msg.getString msg "value" =s "OFF" then "0" else pw_currentValue r.2)) (MqRep.tag_of msg)
    else mret tt);; mret r) w.
Proof. unfold MqDev.pwm, PW.execcmd. destruct (msubtype msg =s pw_name d); same_runs. Qed.
Lemma machine_after d msg w :
  MqDev.machine d msg w =
  (o ← FSM.execcmd d msg;
   match o with
   | Some r =>
       if r.1 || (Msg.getString msg "mqtt" <>s "")
       then MqRep.report "ON" (f_name r.2) ("value=" +:+ f_currentValue r.2) (MqRep.tag_of msg) else mret tt
   | None => mret tt
   end;; mret o) w.
Proof.
  unfold MqDev.machine, FSM.execcmd. destruct (FSM.fire d _) as [[[d' res]|]|]; [|destruct (Msg.getString msg "mqtt" =s "")|]; same_runs.
Qed.
Lemma rgb_after d msg w :
  MqDev.rgb d msg w =
  (o ← RGB.execcmd d msg;
   match o with
   | Some r =>
       if msubtype msg =s rgb_name d
       then MqRep.report (rgb_status r.2) (rgb_name r.2)
              ("value=" +:+ (if outputStatus r.2 =s "ON" then currentIntensity r.2 else "0") +:+ ",color=" +:+ currentColor r.2)
              (MqRep.tag_of msg)
       else mret tt
   | None => mret tt
   end;; mret o) w.
Proof.
  unfold MqDev.rgb, RGB.execcmd. rewrite !run_bind, result_bind, final_bind. cbv beta.
  destruct (msubtype msg =s rgb_name d); [|same_runs]. destruct (RGB.value_color msg) as [value color]. cbv iota beta.
  rewrite !run_bind, result_bind, final_bind. destruct (result (RGB.apply _ value color) _) as [d'|]; [|same_runs].
  same_runs. match goal with |- context [outputStatus ?x =s "ON"] => destruct (outputStatus x =s "ON") end; [|reflexivity].
  reflexivity.
Qed.
Lemma agrees_analog (d : AnalogInput) msg w :
  agrees (fun r => if msubtype msg =s ai_in d then Some (mkDue (ai_name r.2) "" ("value=" +:+ ai_currentValue r.2) (ai_status r.2)) else None)
    0 (AI.execcmd d msg) (MqDev.analog_update d (msubtype msg) (Msg.getString msg "value")) w.
Proof.
  unfold agrees, AI.execcmd, AI.update, MqDev.analog_update. rewrite !result_bind, !final_bind.
  destruct (msubtype msg =s ai_in d); [|done]. cbv zeta.
  set (d' := d <| ai_currentValue := _ |> <| ai_currentTime := _ |>). set (event := Msg.add _ "time" _).
  set (w1 := final gettime w).
  pose proof (report_due (ai_status d') (ai_name d') ("value=" +:+ ai_currentValue d') "" (final (notify event) w1)) as H.
  rewrite !result_bind, !final_bind. split; [done|]. unfold with_report in *. cbn [result snd fst].
  change (result (AI.publish d';; mret (true, d')) _).2 with d'.
  set (rep := MqRep.report (ai_status d') (ai_name d') ("value=" +:+ ai_currentValue d') "") in *.
  set (w2 := final (notify event) w1) in *.
  destruct (mqtt =s "ON"); [|by rewrite H].
  destruct H as (Hf & Hd & Hi & r & l1 & l2 & Hr & H1 & H2 & Hl). unfold AI.publish, World.publish, final, mbind, M_bind. simpl.
  unfold final in Hf, Hd, Hi, H2. split_and!; [exact Hf|exact Hd|exact (f_equal (insert _ _) Hi)|]. exists r, l1, l2. done.
Qed.
Lemma agrees_meter (d : ElectricMeter) w :
  agrees (fun _ => Some (mkDue (em_name d) "" ("value=" +:+ double2a (Ipower d)) (em_status d))) 1 (EM.publish d) (MqDev.meter_publish d) w.
Proof.
  unfold agrees, EM.publish, MqDev.meter_publish, MqDev.meter_report, with_report.
  destruct (mqtt =s "ON"); [|done]. split; [done|]. repeat split; try done.
  eexists _, (w_trace w), [_]. refine (conj _ (conj eq_refl (conj _ eq_refl))).
  2: { simpl. rewrite <- app_assoc. reflexivity. }
  split_and!; [done|done| |].
  - unfold event_topic. done.
  - eexists. reflexivity.
Qed.
Lemma agrees_map {A B} due due' (f : A -> M B) (g : A -> B) (c c' : M A) w :
  (forall a w, f a w = (g a, w)) -> (forall a, due a = due' (g a)) -> agrees due 0 c c' w -> agrees due' 0 (c ≫= f) (c' ≫= f) w.
Proof.
  intros Hf Hd [H1 H2]. assert (forall c0 : M A, (c0 ≫= f) w = (g (result c0 w), final c0 w)) as E by (intros c0; by rewrite run_bind).
  unfold agrees. unfold result at 1 2 3, final at 1 2. rewrite !E. cbn [fst snd]. rewrite <- Hd, H1. done.
Qed.
Lemma agrees_flagged {T} due due' (K : T -> Device) c c' w :
  (forall r, due r = due' (Some (Some r.1, K r.2))) -> agrees due 0 c c' w -> agrees due' 0 (Dev.flagged K c) (Dev.flagged K c') w.
Proof. intros Hd. apply (agrees_map _ _ _ (fun r => Some (Some r.1, K r.2))); [by intros []|exact Hd]. Qed.
Lemma agrees_crashing {T} due due' (K : T -> Device) c c' w :
  (forall o, due o = due' ((fun r => (Some r.1, K r.2)) <$> o)) -> agrees due 0 c c' w -> agrees due' 0 (Dev.crashing K c) (Dev.crashing K c') w.
Proof. intros Hd. apply (agrees_map _ _ _ (fun o => (fun r => (Some r.1, K r.2)) <$> o)); [by intros [[]|]|exact Hd]. Qed.
(** The conditions of the two sides are the same. *)
Ltac dues := cbn [due_command due_setstatus fst snd fmap option_fmap option_map]; repeat split_match; first [apply nothing_due|apply (report_due _ _ _ _ _)].

(** C31: the classes of BBDevices and their copies in MqttBBDevices do the same on the bus, in their files and on their page,
    and answer the same, whatever the command; the copy has exactly one more message, to the broker, when MQTT is on and the
    device has something to report, and none otherwise.  [due_command] says when that is and with which tag, text and status:
    a binary output, a dimmer or a coloured lamp that is named, an analog input whose channel changed, a motor that is off or
    commanded, a machine that moved or was asked.  A change of the status of a binary input is reported too, and a meter
    reports before the event of its page. *)
Theorem mqtt_devices_agree v msg w :
  agrees (due_command v msg) 0 (Dev.execcmd v msg) (MqDev.execcmd v msg) w /\
  agrees (due_setstatus msg) 0 (Dev.setstatus v msg) (MqDev.setstatus v msg) w /\
  agrees (fun _ => due_publish v) (match v with DMeter _ => 1 | _ => 0 end) (Dev.publish v) (MqDev.publish v) w.
Proof.
  split_and!; destruct v as [d|d|d|d|d|d|d|d|d|d]; try (split; [done|]; apply nothing_due).
  - eapply agrees_flagged, (agrees_after _ _ _ _ _ (binary_output_after d msg w)); [done|]. intros r w'. dues.
  - eapply agrees_flagged, (agrees_after _ _ _ _ _ (tristate_after d msg w)); [done|]. intros r w'. dues.
  - eapply agrees_flagged, agrees_analog. done.
  - eapply agrees_crashing, (agrees_after _ _ _ _ _ (machine_after d msg w)); [done|]. intros [[]|] w'; dues.
  - eapply agrees_flagged, (agrees_after _ _ _ _ _ (pwm_after d msg w)); [done|]. intros r w'. dues.
  - eapply agrees_crashing, (agrees_after _ _ _ _ _ (rgb_after d msg w)); [done|]. intros [[]|] w'; dues.
  - eapply (agrees_map _ _ _ (fun r => (r.1, DBinaryInput r.2))), (agrees_after _ _ _ _ _ (setstatus_after d msg w)); [by intros []|done|]. intros r w'. dues.
  - apply agrees_meter.
Qed.
End reports.

(** ** From a topic to the answer *)
Section request.
Context {P : Platform} {C : Config} {XP : XmlParser} {MC : MqttConfig} {Mo : Mosquitto}.
Definition word_of (delim : ascii) (s : string) : Prop := s <> "" /\ delim ∉ chars s /\ nul ∉ chars s.
Definition topic_of (l : list string) : string := NameList.join "/" l.
Lemma topic_names a l : Forall (word_of "/") (a :: l) -> NameList.of_string (topic_of (a :: l)) "/" = a :: l.
Proof.
  intros H. unfold NameList.of_string, NameList.init.
  assert (topic_of (a :: l) =s "" = false) as ->.
  { apply seqb_ne. unfold topic_of. apply Forall_cons_1 in H as [(Ha & _) _]. by destruct a. }
  cbn [snd]. apply NameList.init_join.
  - eapply Forall_impl; [exact H|]. by intros s (_ & Hs & _).
  - apply (List.Forall_forall (word_of "/") (a :: l)); [done|]. destruct (exists_last (l := a :: l)) as (l' & x & E); [done|].
    rewrite E, last_last. apply in_or_app. right. by left.
Qed.
Definition command_of (n tag v : string) : MMessage :=
  Msg.add (Msg.add (retype Msg.dummy "cmd" n) "mqtttag" tag) "value" v.
Lemma plain_until_nul s : nul ∉ chars s -> of_chars (until_nul (chars s)) = s.
Proof.
  intros H. rewrite <- (of_chars_chars s) at 2. f_equal. induction (chars s) as [|c l IH]; [done|]. apply not_elem_of_cons in H as [Hc Hl].
  simpl. unfold ceqb. destruct (Ascii.eqb_spec c nul); [congruence|]. by rewrite IH.
Qed.
#[local] Opaque MAXBUF.
Lemma topic_is_command n tag v w :
  Forall (word_of "/") [mqtt_domain; n; tag] -> MqC.isTag tag = true -> word_of "=" v -> (String.length v < MAXBUF - 6)%nat ->
  MqC.on_message (topic_of [mqtt_domain; "cmd"; n; tag]) ("value=" +:+ v) w =
    (Some tt, set_trace (w_trace w ++ [Notified (command_of n tag v)]) w).
Proof.
  intros Hw Htag (Hv & Heq & Hnul) Hlen. unfold MqC.on_message.
  rewrite plain_until_nul by (rewrite chars_app, not_elem_of_app; split; [cbv; set_solver|done]).
  rewrite length_sapp. cbn [String.length]. assert ((MAXBUF <=? 6 + String.length v)%nat = false) as -> by (apply Nat.leb_gt; lia).
  unfold MqC.sendCmd. rewrite topic_names.
  2:{ apply Forall_cons in Hw as [Hd Hw]. repeat (apply Forall_cons; split); try done; [by split_and!; [|cbv; set_solver..]|..]; by inversion_clear Hw as [|? ? ? Hr]; inversion_clear Hr. }
  cbn [length Nat.ltb Nat.leb]. rewrite seqb_refl. cbn [head]. 
  assert (NameList.of_string ("value=" +:+ v) "=" = ["value"; v]) as E.
  { assert ("value=" +:+ v = NameList.join "=" ["value"; v]) as -> by (cbn; by rewrite sapp_nil_r).
    unfold NameList.of_string, NameList.init. change (_ =s "") with false. cbn [snd]. apply NameList.init_join; [|done].
    repeat (apply Forall_cons; split); [cbv; set_solver|done|constructor]. }
  unfold MqC.command. rewrite Htag, E. done.
Qed.
Lemma report_is_published name status v tag c w1 w2 :
  mqtt = "ON" -> Forall (word_of "/") [mqtt_domain; name; tag] -> (forall i, mosq_loop i = 0) ->
  exists r tail,
    w_trace (final (MqRep.report status name v tag) w1) = w_trace w1 ++ [Notified r] /\
    result (MqThread.do_work r c) w2 =
      Some (MqC.call (Publish (topic_of [mqtt_domain; "event"; name; tag]) (name +:+ ":" +:+ v +:+ tail)) c).
Proof.
  intros Hon Hw Hloop. apply Forall_cons in Hw as [(Hd & _) Hw]. apply Forall_cons in Hw as [_ Hw]. apply Forall_cons in Hw as [(Ht & _) _].
  unfold MqRep.report. rewrite Hon. cbn. eexists _, _. split; [reflexivity|].
  unfold MqThread.do_work, MqC.publish, MqC.loop, result, mbind, M_bind. cbn [mtype msubtype Msg.add retype Msg.set_type Msg.set_subtype].
  rewrite !seqb_refl.
  unfold topic_of. rewrite (seqb_ne tag "") by done. rewrite (seqb_ne mqtt_domain "") by done. cbn.
  rewrite sapp_nil_r, !sapp_assoc, Hloop. reflexivity.
Qed.
Lemma binary_output_name d msg w : bo_name (result (BO.execcmd d msg) w).2 = bo_name d.
Proof.
  assert (forall d now v r w, bo_name (result (BO.drive d now v r) w) = bo_name d) as Hdrive.
  { intros d0 now v r w0. unfold BO.drive, BO.save. by rewrite !result_bind, result_ret. }
  unfold BO.execcmd, BO.on_command. rewrite result_bind. split_match; [|split_match; [split_match|]; rewrite ?result_bind; apply Hdrive || done].
  rewrite !result_bind, result_ret. cbn [snd]. split_match; [|by split_match].
  rewrite !result_bind, result_ret. apply Hdrive.
Qed.
(** C38: a command to a binary output that arrives under a topic with a tag is put on the bus; when the device has executed
    it, the client publishes the new value under the topic of the events of the device with that tag. *)
Theorem topic_command_is_answered (d : BinaryOutput) tag v c w w2 :
  mqtt = "ON" -> Forall (word_of "/") [mqtt_domain; bo_name d; tag] -> MqC.isTag tag = true -> word_of "=" v ->
  (String.length v < MAXBUF - 6)%nat -> (forall i, mosq_loop i = 0) ->
  let run := MqC.on_message (topic_of [mqtt_domain; "cmd"; bo_name d; tag]) ("value=" +:+ v) in
  exists m r tail,
    result run w = Some tt /\ w_trace (final run w) = w_trace w ++ [Notified m] /\
    last (w_trace (final (MqDev.binary_output d m) (final run w))) = Some (Notified r) /\
    result (MqThread.do_work r c) w2 =
      Some (MqC.call (Publish (topic_of [mqtt_domain; "event"; bo_name d; tag]) (bo_name d +:+ ":value=" +:+ v +:+ tail)) c).
Proof.
  intros Hon Hw Htag Hv Hlen Hloop run. set (m := command_of (bo_name d) tag v). set (w1 := set_trace (w_trace w ++ [Notified m]) w).
  assert (run w = (Some tt, w1)) as E by by apply topic_is_command.
  assert (result run w = Some tt /\ final run w = w1) as [-> ->] by (unfold result, final; by rewrite E). clearbody run.
  set (o := BO.execcmd d m).
  destruct (report_is_published (bo_name d) (bo_status (result o w1).2) ("value=" +:+ v) tag c (final o w1) w2) as (r & tail & Hr & Hp); [done..|].
  exists m, r, tail. split_and!; [done..| |done]. unfold final at 1. rewrite (binary_output_after d m w1). fold o.
  change (msubtype m) with (bo_name d). rewrite seqb_refl, run_bind. replace (bo_name (result o w1).2) with (bo_name d) by (symmetry; apply binary_output_name).
  change (Msg.getString m "value") with v. change (MqRep.tag_of m) with tag.
  rewrite run_bind. unfold mret, M_ret. cbn [snd]. rewrite Hr. by rewrite last_snoc.
Qed.
End request.

(** ** A lamp asked over MQTT *)
#[local] Existing Instance utc_platform.
#[local] Existing Instance sample_config.
#[local] Existing Instance tinyxml.
Definition at_home : MqttConfig := {| mqtt := "ON"; mqtt_domain := "home" |}.
Definition good_broker : Mosquitto := {| mosq_loop := fun _ => 0 |}.
Definition hall_lamp : BinaryOutput :=
  mkBO (mkParams "LI_hall" "" "" [mkAttr "eventname" "generic" "LI_hall"]) "LI_hall" "ON" d0 "OFF" "0" "OFF" "" "relay1".
Lemma topic_command_is_answered_witness (MC := at_home) (Mo := good_broker) :
  let run := MqC.on_message (topic_of ["home"; "cmd"; "LI_hall"; "t.7"]) ("value=" +:+ "ON") in
  exists m r tail,
    result run (world_at early) = Some tt /\ w_trace (final run (world_at early)) = w_trace (world_at early) ++ [Notified m] /\
    last (w_trace (final (MqDev.binary_output hall_lamp m) (final run (world_at early)))) = Some (Notified r) /\
    result (MqThread.do_work r (MqC.mk [])) (world_at early) =
      Some (MqC.call (Publish (topic_of ["home"; "event"; "LI_hall"; "t.7"]) ("LI_hall" +:+ ":value=" +:+ "ON" +:+ tail)) (MqC.mk [])).
Proof.
  assert (forall c s, s <> "" /\ bool_decide (c ∉ chars s) = true /\ bool_decide (nul ∉ chars s) = true -> word_of c s) as Hw.
  { intros c s. unfold word_of. rewrite !bool_decide_eq_true. done. }
  assert (Forall (word_of "/") [mqtt_domain; bo_name hall_lamp; "t.7"]) as Hws
    by (repeat (apply Forall_cons; split); try (apply Hw; split_and!; by vm_compute); done).
  assert (word_of "=" "ON") as Hv by (apply Hw; split_and!; by vm_compute).
  pose proof (topic_command_is_answered hall_lamp "t.7" "ON" (MqC.mk []) (world_at early) (world_at early) eq_refl Hws eq_refl Hv
    ltac:(unfold MAXBUF; cbn; lia) (fun _ => eq_refl)) as H.
  change (@mqtt_domain MC) with "home" in H. change (bo_name hall_lamp) with "LI_hall" in H. exact H.
Defined.
