(* ===== verification/VirtualClaims.v ===== *)
(** * What the methods of a device keep: its name and its channels; then the properties of the
    device manager (BBDevices/VirtualDevices.cpp) *)
From S2P Require Import Prelude Doubles Hsrv Xml MMessage World MParams Samples Pages Subjects Devices Pwm Fsm VirtualDevices.

(** The name and the channels of a device, which the maps of the manager rely on. *)
Definition same_face {P : Platform} (d d' : Device) : Prop :=
  Dev.name d' = Dev.name d /\ Dev.input d' = Dev.input d /\ Dev.output d' = Dev.output d.

Section face.
Context {P : Platform} {C : Config} {XP : XmlParser}.

Lemma same_face_refl d : same_face d d.
Proof. done. Qed.
Lemma same_face_trans d1 d2 d3 : same_face d1 d2 -> same_face d2 d3 -> same_face d1 d3.
Proof. unfold same_face. intuition congruence. Qed.

Local Ltac face := repeat returns_step;
  try (unfold same_face in *; simpl in *; unfold BO.output, TS.input, TS.output, BI.input, AI.input, EM.input,
         PW.output, RGB.output in *; simpl in *; intuition congruence).

Lemma face_bo_save d : returns (BO.save d) (fun d' => same_face (DBinaryOutput d) (DBinaryOutput d')).
Proof. unfold BO.save. face. Qed.
Hint Resolve face_bo_save : returns.
Lemma face_bo_drive d now v r : returns (BO.drive d now v r) (fun d' => same_face (DBinaryOutput d) (DBinaryOutput d')).
Proof. unfold BO.drive. face. Qed.
Hint Resolve face_bo_drive : returns.
Lemma face_bo_command d now m : returns (BO.on_command d now m) (fun d' => same_face (DBinaryOutput d) (DBinaryOutput d')).
Proof.
  unfold BO.on_command. eapply (returns_bind _ _ (fun d' => same_face (DBinaryOutput d) (DBinaryOutput d')));
    [face|intros ? ?; face].
Qed.
Hint Resolve face_bo_command : returns.
Lemma face_bo d m : returns (BO.execcmd d m) (fun r => same_face (DBinaryOutput d) (DBinaryOutput r.2)).
Proof. unfold BO.execcmd. face. Qed.

Lemma face_ts_save d : returns (TS.save d) (fun d' => same_face (DTriState d) (DTriState d')).
Proof. unfold TS.save. face. Qed.
Hint Resolve face_ts_save : returns.
Lemma face_ts_event d v : returns (TS.notifyEvent d v) (fun d' => same_face (DTriState d) (DTriState d')).
Proof. unfold TS.notifyEvent. face. Qed.
Hint Resolve face_ts_event : returns.
Lemma face_ts_action d s : returns (TS.docmdaction d s) (fun d' => same_face (DTriState d) (DTriState d')).
Proof.
  unfold TS.docmdaction. eapply (returns_bind _ _ (fun d' => same_face (DTriState d) (DTriState d'))).
  - destruct (currentStatus d <>s s); [apply returns_any; intros m|]; face.
  - intros d1 H1. eapply returns_conseq; [apply face_ts_event|]. intros d2. by apply same_face_trans.
Qed.
Hint Resolve face_ts_action : returns.
Lemma face_ts_wait d : returns (TS.dowaitaction d) (fun d' => same_face (DTriState d) (DTriState d')).
Proof. unfold TS.dowaitaction. face. Qed.
Hint Resolve face_ts_wait : returns.
Lemma face_ts_input d m : returns (TS.on_input d m) (fun d' => same_face (DTriState d) (DTriState d')).
Proof.
  unfold TS.on_input. set (d1 := if msubtype m =s ing1 d then _ else _).
  assert (same_face (DTriState d) (DTriState d1)) as H1 by (subst d1; repeat case_match; done).
  destruct (TS.buttons d1); [|by apply returns_ret].
  eapply returns_conseq; [apply face_ts_action|]. intros d2. by apply same_face_trans.
Qed.
Hint Resolve face_ts_input : returns.
Lemma face_ts d m : returns (TS.execcmd d m) (fun r => same_face (DTriState d) (DTriState r.2)).
Proof. unfold TS.execcmd. face. Qed.

Lemma face_bi_report d : returns (BI.report d) (fun d' => same_face (DBinaryInput d) (DBinaryInput d')).
Proof. unfold BI.report. face. Qed.
Hint Resolve face_bi_report : returns.
Lemma face_bi_update d c v : returns (BI.update d c v) (fun r => same_face (DBinaryInput d) (DBinaryInput r.2)).
Proof. unfold BI.update. face. Qed.
Hint Resolve face_bi_update : returns.
Lemma face_bi d m : returns (BI.execcmd d m) (fun r => same_face (DBinaryInput d) (DBinaryInput r.2)).
Proof. unfold BI.execcmd. face. Qed.
Lemma face_bi_status d m : returns (BI.setstatus d m) (fun r => same_face (DBinaryInput d) (DBinaryInput r.2)).
Proof.
  unfold BI.setstatus. eapply (returns_bind _ _ (fun d' => same_face (DBinaryInput d) (DBinaryInput d')));
    [face|intros ? ?; face].
Qed.

Lemma face_ai d m : returns (AI.execcmd d m) (fun r => same_face (DAnalogInput d) (DAnalogInput r.2)).
Proof. unfold AI.execcmd, AI.update. face. Qed.
Lemma face_rawin d m : returns (Raw.execInput d m) (fun r => same_face (DRawInput d) (DRawInput r.2)).
Proof. unfold Raw.execInput. face. Qed.
Lemma face_rawout d m : returns (Raw.execOutput d m) (fun r => same_face (DRawOutput d) (DRawOutput r.2)).
Proof. unfold Raw.execOutput. face. Qed.

Lemma face_em_record d : returns (EM.record d) (fun d' => same_face (DMeter d) (DMeter d')).
Proof. unfold EM.record. face. Qed.
Hint Resolve face_em_record : returns.
Lemma face_em d m : returns (EM.execcmd d m) (fun r => same_face (DMeter d) (DMeter r.2)).
Proof. unfold EM.execcmd, EM.update. face. Qed.
Lemma face_em_measure d : returns (EM.doMeasure d) (fun r => same_face (DMeter d) (DMeter r.2)).
Proof. unfold EM.doMeasure, EM.measure_at. face. Qed.
Lemma face_em_reset d f : returns (EM.reset d f) (fun r => same_face (DMeter d) (DMeter r.2)).
Proof. unfold EM.reset. face. Qed.

Lemma face_pw_save d : returns (PW.save d) (fun d' => same_face (DPwm d) (DPwm d')).
Proof. unfold PW.save. face. Qed.
Hint Resolve face_pw_save : returns.
Lemma face_pw_event d v : returns (PW.eventNotify d v) (fun d' => same_face (DPwm d) (DPwm d')).
Proof.
  unfold PW.eventNotify. apply returns_any. intros _. set (d1 := if _ : bool then _ else d).
  assert (same_face (DPwm d) (DPwm d1)) as H1 by (subst d1; case_match; done). clearbody d1. face.
Qed.
Hint Resolve face_pw_event : returns.
Lemma face_pw d m : returns (PW.execcmd d m) (fun r => same_face (DPwm d) (DPwm r.2)).
Proof.
  unfold PW.execcmd. apply returns_any. intros now. destruct (msubtype m =s pw_name d); [|by apply returns_ret].
  eapply (returns_bind _ _ (fun d' => same_face (DPwm d) (DPwm d'))); [face|intros ? ?; face].
Qed.

Lemma face_rgb_save d : returns (RGB.save d) (fun d' => same_face (DRGB d) (DRGB d')).
Proof. unfold RGB.save. face. Qed.
Hint Resolve face_rgb_save : returns.
Lemma face_rgb_event d : returns (RGB.eventNotify d) (fun d' => same_face (DRGB d) (DRGB d')).
Proof. unfold RGB.eventNotify. face. Qed.
Hint Resolve face_rgb_event : returns.
Lemma face_rgb_apply d v c : returns (RGB.apply d v c) (fun o => forall d', o = Some d' -> same_face (DRGB d) (DRGB d')).
Proof.
  unfold RGB.apply, RGB.colored. face; try done; try (intros ? [= <-]; done).
  repeat match goal with H : context [RGB.substr2 c ?k] |- _ => destruct (RGB.substr2 c k); simpl in H; [|done] end.
  intros ? [= <-]. by simplify_eq.
Qed.
Lemma face_rgb d m : returns (RGB.execcmd d m) (fun o => forall b d', o = Some (b, d') -> same_face (DRGB d) (DRGB d')).
Proof.
  unfold RGB.execcmd. apply returns_any. intros now.
  destruct (msubtype m =s rgb_name d); [|apply returns_ret; by intros ? ? [= _ <-]].
  destruct (RGB.value_color m) as [value color].
  eapply returns_bind; [apply face_rgb_apply|]. intros [d1|] H1; [|by apply returns_ret].
  specialize (H1 d1 eq_refl). face.
Qed.

(** The states of a machine do not change when it runs. *)
Lemma fsm_fire_states d c d' res : FSM.fire d c = Some (Some (d', res)) -> f_name d' = f_name d /\ states d' = states d.
Proof.
  unfold FSM.fire, FSM.exec. destruct (existsb _ _); [|done]. simpl.
  destruct (states d !! f_current d); simpl; [|done]. destruct (St.exec _ _ _ _) as [[? ?] ?]. simpl.
  destruct (FSM.activeFSMConditions _ _); simpl; [|done]. by intros [= <- <-].
Qed.
Lemma face_fsm d m : returns (FSM.execcmd d m) (fun o => forall b d', o = Some (b, d') -> same_face (DFSM d) (DFSM d')).
Proof.
  unfold FSM.execcmd. destruct (FSM.fire _ _) as [[[d1 res]|]|] eqn:E; [| |by apply returns_ret].
  - apply fsm_fire_states in E as [E1 E2]. face. intros ? ? [= _ <-]. unfold same_face. simpl.
    unfold FSM.input, FSM.output. simpl. by rewrite E1, E2.
  - face.
Qed.

(** *** Every method, and the manager *)
Lemma face_execcmd d m : returns (Dev.execcmd d m) (fun o => forall b d', o = Some (b, d') -> same_face d d').
Proof.
  destruct d; simpl; unfold Dev.flagged, Dev.crashing;
    (eapply returns_bind;
      [first [apply face_bo | apply face_ts | apply face_bi | apply face_ai | apply face_rawin | apply face_rawout
             | apply face_em | apply face_fsm | apply face_pw | apply face_rgb]|]);
    [intros [b1 d1] H1; apply returns_ret; by intros ? ? [= _ <-]..| | |];
    try (intros [b1 d1] H1; apply returns_ret; by intros ? ? [= _ <-]);
    intros [[b1 d1]|] H1; apply returns_ret; intros b' d' H2; simpl in H2; simplify_eq; by eapply H1.
Qed.
Lemma face_setstatus d m : returns (Dev.setstatus d m) (fun r => same_face d r.2).
Proof.
  destruct d; simpl; try by apply returns_ret.
  eapply returns_bind; [apply face_bi_status|]. intros [? ?] ?. by apply returns_ret.
Qed.
Lemma face_doMeasure d : returns (Dev.doMeasure d) (fun r => same_face d r.2).
Proof.
  destruct d; simpl; try by apply returns_ret.
  eapply returns_bind; [apply face_em_measure|]. intros [? ?] ?. by apply returns_ret.
Qed.
Lemma face_reset d f : returns (Dev.reset d f) (fun r => same_face d r.2).
Proof.
  destruct d; simpl; try by apply returns_ret.
  eapply returns_bind; [apply face_em_reset|]. intros [? ?] ?. by apply returns_ret.
Qed.
End face.

(** * Properties of the device manager (BBDevices/VirtualDevices.cpp) *)
Import MsgFacts.

Section manager.
Context {P : Platform} {C : Config} {XP : XmlParser} {FS : PathNames} {Ar : Archived}.

(** ** The maps of the manager *)
(** Every address of the maps is alive, and leads to a device of that name, or to one that
    listens to that channel. *)
Definition vd_ok (v : VrtDevices) : Prop :=
  (forall n a, dev_by_name v !! n = Some a -> exists d, heap v !! a = Some d /\ Dev.name d = n) /\
  (forall ch a, dev_by_io v !! ch = Some a -> exists d, heap v !! a = Some d /\ ch ∈ map aname (Dev.input d)).
(** The states of the thread: after the constructor, the start and any messages. *)
Inductive vd_run : VrtDevices -> Prop :=
| run_mk ls w v : result (VD.mk ls) w = Some v -> vd_run v
| run_start v memory w v' : vd_run v -> result (VD.start v memory) w = Some v' -> vd_run v'
| run_handle v memory groups msg w v' :
    vd_run v -> result (VD.handle v memory groups msg) w = VRunning v' -> vd_run v'.
Definition outcome_ok (o : vd_outcome) : Prop := match o with VRunning v => vd_ok v | _ => True end.
Definition option_ok {A} (o : option (A * VrtDevices)) : Prop := forall r v, o = Some (r, v) -> vd_ok v.
Definition loaded_ok (o : option VrtDevices) : Prop := forall v, o = Some v -> vd_ok v.

Lemma io_insert a l io ch b :
  fold_left (fun (io : gmap string nat) i => <[aname i := a]> io) l io !! ch = Some b ->
  (b = a /\ ch ∈ map aname l) \/ io !! ch = Some b.
Proof.
  revert io. induction l as [|i l IH]; intros io H; simpl in *; [by right|].
  destruct (IH _ H) as [[-> Hin]|H1]; [left; split; [done|by right]|].
  destruct (decide (aname i = ch)) as [E|E].
  - subst ch. rewrite lookup_insert_eq in H1. injection H1 as [= <-]. left. split; [done|left].
  - rewrite lookup_insert_ne in H1 by done. by right.
Qed.
Lemma ok_insert v d : vd_ok v -> vd_ok (VD.insert v d).
Proof.
  intros [Hn Hi].
  assert (forall a d0, heap v !! a = Some d0 -> (heap v ++ [d]) !! a = Some d0) as Hold.
  { intros a d0 H. by apply lookup_app_l_Some. }
  assert ((heap v ++ [d]) !! length (heap v) = Some d) as Hnew.
  { by apply list_lookup_middle. }
  split; intros x a; simpl.
  - destruct (decide (Dev.name d = x)) as [E|E].
    + subst x. rewrite lookup_insert_eq. intros [= <-]. eauto.
    + rewrite lookup_insert_ne by done. intros (d0 & H1 & H2)%Hn. eauto.
  - intros [[-> Hin]|(d0 & H1 & H2)%Hi]%io_insert; eauto.
Qed.
Lemma ok_set_dev v a d d' : vd_ok v -> heap v !! a = Some d -> same_face d d' -> vd_ok (VD.set_dev v a d').
Proof.
  intros [Hn Hi] Ha (E1 & E2 & _). unfold VD.set_dev.
  assert (forall b d0, heap v !! b = Some d0 -> exists d1, <[a := d']> (heap v) !! b = Some d1 /\
    Dev.name d1 = Dev.name d0 /\ Dev.input d1 = Dev.input d0) as H.
  { intros b d0 Hb. destruct (decide (a = b)) as [<-|Hne].
    - rewrite list_lookup_insert_eq by (by eapply lookup_lt_Some). simplify_eq. eauto.
    - rewrite list_lookup_insert_ne by done. eauto. }
  split; simpl.
  - intros n b (d0 & H1 & <-)%Hn. destruct (H b d0 H1) as (d1 & ? & ? & _). eauto.
  - intros ch b (d0 & H1 & H2)%Hi. destruct (H b d0 H1) as (d1 & ? & _ & E). exists d1. by rewrite E.
Qed.

(** *** Loading *)
Lemma ok_load_each mk files v : vd_ok v -> returns (VD.load_each mk files v) loaded_ok.
Proof.
  revert v. induction files as [|f files IH]; intros v H; simpl.
  - apply returns_ret. by intros ? [= <-].
  - apply returns_any. intros [[d|]|]; [apply IH; by apply ok_insert|by apply IH|by apply returns_ret].
Qed.
Lemma ok_load_types v dir l : vd_ok v -> returns (VD.load_types v dir l) loaded_ok.
Proof.
  revert v. induction l as [|[kind files] l IH]; intros v H; simpl.
  - apply returns_ret. by intros ? [= <-].
  - eapply returns_bind; [by apply ok_load_each|]. intros [v1|] H1; [|by apply returns_ret]. apply IH. by apply H1.
Qed.
Lemma ok_mk ls : returns (VD.mk ls) loaded_ok.
Proof.
  unfold VD.mk, VD.loadDevices. set (v0 := mkVD [] ∅ ∅ "" indet_int).
  assert (vd_ok v0) as H0 by (split; intros ? ? H; simpl in H; by rewrite lookup_empty in H).
  eapply (returns_bind _ _ loaded_ok).
  - do 2 (apply returns_any; intros [?|]; [|by apply returns_ret]).
    eapply returns_bind; [by apply ok_load_each|]. intros [v1|] H1; [|by apply returns_ret].
    eapply returns_bind; [by apply ok_load_each, H1|]. intros [v2|] H2; [|by apply returns_ret].
    by apply ok_load_types, H2.
  - intros [v|] H; [|by apply returns_ret]. apply returns_any. intros t. apply returns_ret.
    intros ? [= <-]. exact (H v eq_refl).
Qed.

(** *** Handling *)
Lemma ok_on_dev {A} (f : Device -> M (option (A * Device))) a v :
  (forall d, returns (f d) (fun o => forall r d', o = Some (r, d') -> same_face d d')) ->
  vd_ok v -> returns (VD.on_dev f a v) option_ok.
Proof.
  intros Hf H. unfold VD.on_dev. destruct (heap v !! a) as [d|] eqn:E; [|by apply returns_ret].
  eapply returns_bind; [apply Hf|]. intros [[r d']|] H1; apply returns_ret; intros r1 v1 [= <- <-].
  eapply ok_set_dev; eauto.
Qed.
Lemma face_total {A} (f : Device -> M (A * Device)) d :
  returns (f d) (fun r => same_face d r.2) ->
  returns (VD.total f d) (fun o => forall r d', o = Some (r, d') -> same_face d d').
Proof. intros H. unfold VD.total. eapply returns_bind; [exact H|]. intros [r d'] ?. apply returns_ret. by intros ? ? [= <- <-]. Qed.
Lemma ok_each {A} (f : Device -> M (A * Device)) l v :
  (forall d, returns (f d) (fun r => same_face d r.2)) -> vd_ok v -> returns (VD.each f l v) loaded_ok.
Proof.
  intros Hf. revert v. induction l as [|[n a] l IH]; intros v H; simpl.
  - apply returns_ret. by intros ? [= <-].
  - eapply returns_bind; [apply ok_on_dev; [intros d; apply face_total, Hf|exact H]|].
    intros [[r v1]|] H1; [|by apply returns_ret]. apply IH. by eapply H1.
Qed.
Lemma ok_publish v : vd_ok v -> returns (VD.publish v) loaded_ok.
Proof. apply ok_each. intros d. apply returns_any. intros b. by apply returns_ret. Qed.
Lemma ok_execcmd_at v a msg : vd_ok v -> returns (VD.on_dev (fun d => Dev.execcmd d msg) a v) option_ok.
Proof. apply ok_on_dev. intros d. apply face_execcmd. Qed.
Lemma ok_archive v : vd_ok v -> returns (VD.doArchiveUpdate v) loaded_ok.
Proof.
  intros H. unfold VD.doArchiveUpdate. do 2 (apply returns_any; intros ?).
  destruct (_ =s day v); [apply returns_ret; by intros ? [= <-]|].
  apply returns_any. intros _. destruct (_ <>s day v); [apply returns_ret; by intros ? [= <-]|].
  do 2 (apply returns_any; intros ?). apply ok_each; [intros d; apply face_reset|exact H].
Qed.
Lemma returns_running {A} (c : M (option (A * VrtDevices))) :
  returns c option_ok -> returns (o ← c; mret (VD.running o)) outcome_ok.
Proof. intros H. eapply returns_bind; [exact H|]. intros [[r v]|] H1; apply returns_ret; simpl; [by eapply H1|done]. Qed.
Lemma returns_running1 (c : M (option VrtDevices)) :
  returns c loaded_ok -> returns (o ← c; mret (VD.running1 o)) outcome_ok.
Proof. intros H. eapply returns_bind; [exact H|]. intros [v|] H1; apply returns_ret; simpl; [by apply H1|done]. Qed.
Lemma ok_same {A} (r : A) v : vd_ok v -> returns (mret (Some (r, v))) option_ok.
Proof. intros H. apply returns_ret. by intros ? ? [= _ <-]. Qed.
Lemma ok_dispatch v msg : vd_ok v -> returns (VD.dispatch v msg) outcome_ok.
Proof.
  intros H. unfold VD.dispatch. repeat case_match; try by apply returns_ret.
  - apply returns_running. unfold VD.execcmd. case_match; [by apply ok_execcmd_at|by apply ok_same].
  - eapply (returns_bind _ _ option_ok).
    + unfold VD.setstatus. case_match; [|by apply ok_same]. apply ok_on_dev; [|done]. intros d. apply face_total, face_setstatus.
    + intros [[r v1]|] Hv; [|by apply returns_ret]. apply returns_any. intros _. apply returns_ret. by eapply Hv.
  - apply returns_running. unfold VD.execLocalEvent. case_match; [by apply ok_execcmd_at|by apply ok_same].
  - apply returns_running. unfold VD.execwait. case_match; [by apply ok_execcmd_at|by apply ok_same].
Qed.
Lemma ok_configure v groups msg : vd_ok v -> returns (VD.configure v groups msg) outcome_ok.
Proof.
  intros H. unfold VD.configure.
  apply returns_any. intros [|].
  { apply returns_ret. unfold VD.doReboot. by repeat case_match. }
  apply returns_any. intros [|].
  { unfold VD.devConfigure. by repeat returns_step. }
  apply returns_any. intros [|]; [|by apply ok_dispatch].
  unfold VD.devDelete. apply returns_any. intros [|]; by apply returns_ret.
Qed.
Lemma ok_handle v memory groups msg : vd_ok v -> returns (VD.handle v memory groups msg) outcome_ok.
Proof.
  intros H. unfold VD.handle.
  destruct (VD.is_msg msg "cmd" "reset").
  { apply returns_running. unfold VD.doReset. case_match; [|by apply ok_same].
    apply ok_on_dev; [|done]. intros d. apply face_total, face_reset. }
  destruct (VD.is_msg msg "local_event" "update").
  { apply returns_running. unfold VD.update, VD.execLocalEvent. simpl.
    destruct (dev_by_io v !! Msg.getString msg "name"); [|by apply ok_same].
    eapply returns_bind; [by apply ok_execcmd_at|]. intros [[r v1]|] H1; apply returns_ret; intros ? ? [= <- <-]. by eapply H1. }
  destruct (VD.is_msg msg "trigger" "publish"); [by apply returns_running1, ok_publish|].
  destruct (VD.is_msg msg "trigger" "measure").
  { apply returns_running1, ok_each; [intros d; apply face_doMeasure|done]. }
  destruct (VD.is_msg msg "trigger" "archiveupd"); [by apply returns_running1, ok_archive|].
  destruct (VD.is_msg msg "trigger" "checkmemory"); [|by apply ok_configure].
  unfold VD.doMemoryCheck. case_match; [apply returns_any; intros _|]; by apply returns_ret.
Qed.

Lemma manager_sound v : vd_run v -> vd_ok v.
Proof.
  induction 1 as [ls w v H|v memory w v' Hr IH H|v memory groups msg w v' Hr IH H].
  - exact (ok_mk ls w v H).
  - revert H. unfold VD.start. rewrite result_bind. destruct (result (VD.freegpioRegister v) w); [|done].
    rewrite result_bind. intros [= <-]. exact IH.
  - pose proof (ok_handle v memory groups msg IH w) as Ho. by rewrite H in Ho.
Qed.

(** C20: in every state the device manager reaches, from any configuration and after any
    messages, its two maps hold addresses of live devices: a name leads to the device of
    that name, a channel to a device that listens to it. *)
Theorem manager_maps_sound v :
  vd_run v ->
  (forall n a, dev_by_name v !! n = Some a -> exists d, heap v !! a = Some d /\ Dev.name d = n) /\
  (forall ch a, dev_by_io v !! ch = Some a -> exists d, heap v !! a = Some d /\ ch ∈ map aname (Dev.input d)).
Proof. apply manager_sound. Qed.

(** *** Dispatch *)
Definition config_command (st : string) : bool :=
  (st =s "reset") || (st =s "putConf") || (st =s "devConfigure") || (st =s "devDelete").
Lemma handle_other v memory groups msg w :
  mtype msg <> "trigger" -> mtype msg <> "cmd" \/ config_command (msubtype msg) = false ->
  VD.is_msg msg "local_event" "update" = false ->
  VD.handle v memory groups msg w = VD.dispatch v msg w.
Proof.
  intros Ht Hc Hl.
  assert (forall st, config_command st = true -> VD.is_msg msg "cmd" st = false) as Hno.
  { intros st Hst. unfold VD.is_msg.
    destruct (mtype msg =s "cmd") eqn:E1; [|done]. destruct (msubtype msg =s st) eqn:E2; [|done].
    apply seqb_true in E1, E2. subst st. destruct Hc as [?|Hc]; [done|]. congruence. }
  assert (forall st, VD.is_msg msg "trigger" st = false) as Htr.
  { intros st. unfold VD.is_msg. by rewrite seqb_ne. }
  unfold VD.handle. rewrite Hl, !Htr, !Hno by done.
  unfold VD.configure. rewrite !Hno by done. unfold VD.and_enabled.
  do 3 (rewrite run_bind; rewrite result_ret, final_ret). done.
Qed.

Lemma command_run v memory groups msg a d w :
  mtype msg = "cmd" -> config_command (msubtype msg) = false ->
  dev_by_name v !! msubtype msg = Some a -> heap v !! a = Some d ->
  VD.handle v memory groups msg w =
    (match result (Dev.execcmd d msg) w with
     | None => VCrash
     | Some (_, d') => VRunning (v <| heap := <[a := d']> (heap v) |>)
     end, final (Dev.execcmd d msg) w).
Proof.
  intros Ht Hc Ha Hd. rewrite handle_other.
  - unfold VD.dispatch, VD.named, VD.execcmd, VD.on_dev. rewrite Ht, Ha, Hd, seqb_refl. rewrite bool_decide_true by eauto.
    cbn [andb]. rewrite run_bind. unfold result, final. rewrite !run_bind. unfold result, final.
    by destruct (Dev.execcmd d msg w) as [[[? ?]|] ?].
  - by rewrite Ht.
  - by right.
  - unfold VD.is_msg. by rewrite Ht.
Qed.

(** C36: a command whose subtype names a device (and is none of the four configuration
    commands) is executed by exactly that device: the outcome is the one of its own
    [execcmd], every other device is unchanged, and so are the maps. *)
Theorem command_reaches_its_device v memory groups msg a w :
  vd_run v -> mtype msg = "cmd" -> config_command (msubtype msg) = false ->
  dev_by_name v !! msubtype msg = Some a ->
  exists d, heap v !! a = Some d /\ Dev.name d = msubtype msg /\
    let '(o, w1) := Dev.execcmd d msg w in
    VD.handle v memory groups msg w =
      (match o with
       | None => VCrash
       | Some (_, d') => VRunning (v <| heap := <[a := d']> (heap v) |>)
       end, w1).
Proof.
  intros Hr Ht Hc Ha. destruct (proj1 (manager_sound v Hr) _ _ Ha) as (d & Hd & Hn). exists d. split_and!; [done|done|].
  rewrite (command_run v memory groups msg a d w Ht Hc Ha Hd). unfold result, final. by destruct (Dev.execcmd d msg w).
Qed.

(** Dispatching a message never dereferences a dangling address: the thread can only
    crash inside the method of a state machine or of a coloured lamp. *)
Lemma dispatch_crash_is_inside v msg w :
  vd_run v -> result (VD.dispatch v msg) w = VCrash ->
  exists a d, heap v !! a = Some d /\ result (Dev.execcmd d msg) w = None /\
    match d with DFSM _ | DRGB _ => True | _ => False end.
Proof.
  intros Hr. pose proof (manager_sound v Hr) as [Hn Hi].
  assert (forall a d, heap v !! a = Some d ->
    result (o ← VD.on_dev (fun d => Dev.execcmd d msg) a v; mret (VD.running o)) w = VCrash ->
    exists a d, heap v !! a = Some d /\ result (Dev.execcmd d msg) w = None /\
      match d with DFSM _ | DRGB _ => True | _ => False end) as Hcrash.
  { intros a d Hd H. exists a, d. split; [done|]. unfold VD.on_dev in H. rewrite Hd, !result_bind in H.
    destruct (result (Dev.execcmd d msg) w) as [[? ?]|] eqn:E; [done|]. split; [done|].
    destruct d; try done; simpl in E; unfold Dev.flagged in E; rewrite result_bind in E; by destruct (result _ w). }
  unfold VD.dispatch.
  destruct (_ && VD.named _ _).
  { unfold VD.execcmd. destruct (dev_by_name v !! msubtype msg) as [a|] eqn:E; [|done].
    destruct (Hn _ _ E) as (d & Hd & _). by apply (Hcrash a d). }
  destruct (_ && VD.named _ _).
  { unfold VD.setstatus. destruct (dev_by_name v !! msubtype msg) as [a|] eqn:E;
      [|by rewrite result_bind, result_ret, final_ret, result_bind].
    destruct (Hn _ _ E) as (d & Hd & _). unfold VD.on_dev. rewrite Hd. unfold VD.total.
    rewrite !result_bind. destruct (result (Dev.setstatus d msg) w). simpl. by rewrite !result_bind. }
  destruct (_ && VD.wired_to _ _).
  { unfold VD.execLocalEvent. destruct (dev_by_io v !! msubtype msg) as [a|] eqn:E; [|done].
    destruct (Hi _ _ E) as (d & Hd & _). by apply (Hcrash a d). }
  destruct (VD.is_msg msg "wait" "end"); [|done].
  unfold VD.execwait. destruct (dev_by_name v !! VD.timer_device _) as [a|] eqn:E; [|done].
  destruct (Hn _ _ E) as (d & Hd & _). by apply (Hcrash a d).
Qed.

(** ** Delayed inputs: the timer finds its device *)
Lemma index_of_app c l1 l2 : c ∉ l1 -> VD.index_of c (l1 ++ c :: l2) = length l1.
Proof.
  intros H. unfold VD.index_of. induction l1 as [|x l1 IH]; simpl.
  - unfold ceqb. by rewrite Ascii.eqb_refl.
  - apply not_elem_of_cons in H as [Hx H]. unfold ceqb at 1.
    destruct (Ascii.eqb_spec x c) as [->|_]; [done|]. specialize (IH H).
    destruct (find_first _ _); simpl in *; lia.
Qed.
Lemma timer_device_key dl n t :
  "_"%char ∉ chars dl -> "$"%char ∉ chars n -> n <> "" ->
  VD.timer_device (dl +:+ "_" +:+ n +:+ SEPARATOR +:+ t) = n.
Proof.
  intros Hd Hn Hne. unfold VD.timer_device, SEPARATOR. rewrite !chars_app. simpl (chars "_"). simpl (chars "$").
  change (["_"%char] ++ chars n ++ ["$"%char] ++ chars t) with ("_"%char :: (chars n ++ "$"%char :: chars t)).
  rewrite index_of_app by done.
  assert ((length (chars n) > 0)%nat) as Hlen by (rewrite length_chars; destruct n; simpl; [done|lia]).
  replace (length (chars dl) <? length _ - 2)%nat with true
    by (symmetry; apply Nat.ltb_lt; rewrite length_app; simpl; rewrite length_app; simpl; lia).
  rewrite orb_true_r. replace (S (length (chars dl))) with (length (chars dl ++ ["_"%char])) by (rewrite length_app; simpl; lia).
  change ("_"%char :: chars n ++ "$"%char :: chars t) with (["_"%char] ++ chars n ++ "$"%char :: chars t).
  rewrite (app_assoc (chars dl)), drop_app_length, index_of_app by done. by rewrite take_app_length, of_chars_chars.
Qed.

(** An active input with a delay, whose name and delay the timer text can hold. *)
Definition delayed (d : BinaryInput) : Prop :=
  BI.get d "status" <> "OFF" /\ delay d <> "" /\ delay d <> "0" /\
  "_"%char ∉ chars (delay d) /\ "$"%char ∉ chars (bi_name d) /\ bi_name d <> "".
Definition key_at (d : BinaryInput) (w : world) : string :=
  delay d +:+ "_" +:+ bi_name d +:+ SEPARATOR +:+ getasciitimecompact_of (w_clock w (S (w_tick w))).
Definition changed (d : BinaryInput) (value : string) (w : world) : BinaryInput :=
  d <| bi_currentValue := remap (bi_params d) value |> <| bi_currentTime := gettime_of (w_clock w (w_tick w)) |>.
(** The change is taken; unless the text of this second is in use, its event is stored and a timer is asked for.  Nothing is
    reported yet. *)
Lemma delayed_change d msg w :
  delayed d -> mtype msg = "local_event" -> msubtype msg = bi_in d ->
  remap (bi_params d) (Msg.getString msg "value") <> bi_currentValue d ->
  let d1 := changed d (Msg.getString msg "value") w in
  let w1 := set_tick (S (S (w_tick w))) w in
  BI.execcmd d msg w =
    match delay_table d !! key_at d w with
    | Some _ => ((Some true, d1), w1)
    | None =>
        ((Some true, d1 <| delay_table := <[key_at d w := BI.event_of d1]> (delay_table d) |>),
         set_trace (w_trace w ++ [Notified (Msg.add (retype (BI.event_of d1) "wait" "set") "value" (key_at d w))]) w1)
    end.
Proof.
  intros (H1 & H2 & H3 & _) Ht Hs Hv. unfold BI.execcmd. rewrite Ht. rewrite (seqb_ne _ _ H1). simpl.
  unfold BI.update. rewrite !run_bind. unfold result, final. simpl.
  rewrite (seqb_ne _ _ H1), Hs, seqb_refl, (seqb_ne _ _ Hv). simpl. unfold BI.report. simpl.
  rewrite (seqb_ne _ _ H2), (seqb_ne _ _ H3). simpl. unfold mbind, M_bind. simpl. fold (key_at d w).
  by destruct (delay_table d !! key_at d w).
Qed.
(** The end of the timer reports the stored event. *)
Lemma delayed_end d msg key m w :
  BI.get d "status" <> "OFF" -> VD.is_msg msg "wait" "end" = true -> Msg.getString msg "value" = key ->
  delay_table d !! key = Some m ->
  BI.execcmd d msg w =
    ((None, d <| delay_table := delete key (delay_table d) |>), set_trace (w_trace w ++ [Notified m]) w).
Proof.
  intros H1 Hm Hk Hd. unfold BI.execcmd. rewrite (seqb_ne _ _ H1). unfold VD.is_msg in Hm. by rewrite Hm, Hk, Hd.
Qed.
Lemma is_msg_type m t st : VD.is_msg m t st = true -> mtype m = t.
Proof. unfold VD.is_msg. intros [Hm _]%andb_true_iff. by apply seqb_true in Hm. Qed.
(** The manager hands the announcement of a channel to the input wired to it. *)
Lemma handle_local_event v a d memory groups msg w o d' w1 :
  VD.is_msg msg "local_event" "update" = true ->
  dev_by_io v !! Msg.getString msg "name" = Some a -> heap v !! a = Some (DBinaryInput d) ->
  BI.execcmd d (Msg.set_subtype msg (Msg.getString msg "name")) w = ((o, d'), w1) ->
  VD.handle v memory groups msg w = (VRunning (v <| heap := <[a := DBinaryInput d']> (heap v) |>), w1).
Proof.
  intros Hm Hio Hd E. pose proof (is_msg_type _ _ _ Hm) as Ht. unfold VD.handle. rewrite Hm.
  assert (VD.is_msg msg "cmd" "reset" = false) as -> by (unfold VD.is_msg; by rewrite Ht).
  rewrite run_bind. unfold VD.update, VD.execLocalEvent. simpl. rewrite Hio.
  unfold VD.on_dev. rewrite Hd. unfold result, final. rewrite !run_bind. unfold result, final. rewrite !run_bind.
  unfold result, final. simpl. rewrite !run_bind. unfold result, final. rewrite E. simpl. reflexivity.
Qed.
(** The end of a timer goes to the device the text names. *)
Lemma handle_wait_end v a d key memory groups msg w o d' w1 :
  VD.is_msg msg "wait" "end" = true -> Msg.getString msg "value" = key ->
  dev_by_name v !! VD.timer_device key = Some a -> heap v !! a = Some (DBinaryInput d) ->
  BI.execcmd d msg w = ((o, d'), w1) ->
  VD.handle v memory groups msg w = (VRunning (v <| heap := <[a := DBinaryInput d']> (heap v) |>), w1).
Proof.
  intros Hm Hk Hn Hd E. pose proof (is_msg_type _ _ _ Hm) as Ht.
  rewrite handle_other by (first [by left; rewrite Ht | by rewrite Ht | unfold VD.is_msg; by rewrite Ht]).
  unfold VD.dispatch. rewrite Hm, Ht. simpl. unfold VD.execwait. rewrite Hk, Hn.
  unfold VD.on_dev. rewrite Hd. rewrite run_bind. unfold result, final. rewrite run_bind. unfold result, final. simpl.
  rewrite run_bind. unfold result, final. rewrite E. simpl. reflexivity.
Qed.

(** C12: a change of a delayed input, which the channel thread announces, is taken at once but not reported.  When the timer
    text of this second is free, its event is stored under the text beside those that wait already, and a timer is asked for;
    in whatever later state of the manager the timer ends with that text while the input is active and holds the event, the
    event with the new value and the time of the change is notified, once, and only its entry is dropped.  When an event waits
    already under the text (a second change of the input within one second), nothing is stored and no timer is asked for:
    that change is never reported. *)
Theorem delayed_change_is_reported v a d msg memory groups w :
  vd_run v -> VD.is_msg msg "local_event" "update" = true ->
  dev_by_io v !! Msg.getString msg "name" = Some a -> heap v !! a = Some (DBinaryInput d) -> delayed d ->
  remap (bi_params d) (Msg.getString msg "value") <> bi_currentValue d ->
  let key := key_at d w in
  exists w1 d1, VD.handle v memory groups msg w = (VRunning (v <| heap := <[a := DBinaryInput d1]> (heap v) |>), w1) /\
    bi_currentValue d1 = remap (bi_params d) (Msg.getString msg "value") /\ bi_params d1 = bi_params d /\
    match delay_table d !! key with
    | Some _ => w_trace w1 = w_trace w /\ delay_table d1 = delay_table d
    | None => exists timer event,
        w_trace w1 = w_trace w ++ [Notified timer] /\ mtype timer = "wait" /\ msubtype timer = "set" /\
        Msg.getString timer "value" = key /\
        mtype event = "event" /\ msubtype event = bi_name d /\
        Msg.getString event "value" = remap (bi_params d) (Msg.getString msg "value") /\
        Msg.getString event "time" = double2a (gettime_of (w_clock w (w_tick w))) /\
        delay_table d1 = <[key := event]> (delay_table d) /\
        forall v' d' msg2 memory2 groups2 w2,
          VD.is_msg msg2 "wait" "end" = true -> Msg.getString msg2 "value" = key ->
          dev_by_name v' !! bi_name d = Some a -> heap v' !! a = Some (DBinaryInput d') ->
          BI.get d' "status" <> "OFF" -> delay_table d' !! key = Some event ->
          VD.handle v' memory2 groups2 msg2 w2 =
            (VRunning (v' <| heap := <[a := DBinaryInput (d' <| delay_table := delete key (delay_table d') |>)]> (heap v') |>),
             set_trace (w_trace w2 ++ [Notified event]) w2)
    end.
Proof.
  intros Hr Hm Hio Hd Hdel Hv key.
  destruct (proj2 (manager_sound v Hr) _ _ Hio) as (d0 & Hd0 & Hin). rewrite Hd in Hd0. injection Hd0 as <-.
  simpl in Hin. apply list_elem_of_singleton in Hin.
  set (n := Msg.getString msg "name") in *.
  pose proof (delayed_change d (Msg.set_subtype msg n) w Hdel (is_msg_type _ _ _ Hm) Hin Hv) as E.
  change (Msg.getString (Msg.set_subtype msg n) "value") with (Msg.getString msg "value") in E.
  cbv zeta in E. set (d1 := changed d (Msg.getString msg "value") w) in *.
  set (event := BI.event_of d1) in *. fold key in E.
  assert (flat event) as Hflat by (apply flat_add, flat_add, flat_set_subtype, flat_set_type, flat_mk).
  destruct (delay_table d !! key) as [old|].
  { eexists _, _. split; [exact (handle_local_event v a d memory groups msg w _ _ _ Hm Hio Hd E)|done]. }
  eexists _, _. split; [exact (handle_local_event v a d memory groups msg w _ _ _ Hm Hio Hd E)|].
  split; [done|]. split; [done|]. exists (Msg.add (retype event "wait" "set") "value" key), event. split_and!.
  - done.
  - by rewrite mtype_add.
  - by rewrite msubtype_add.
  - apply getString_add_flat. by apply flat_set_subtype, flat_set_type.
  - unfold event, BI.event_of. by rewrite !mtype_add.
  - unfold event, BI.event_of. by rewrite !msubtype_add.
  - unfold event, BI.event_of. rewrite getString_add_ne by done. apply getString_add_flat, flat_set_subtype, flat_set_type, flat_mk.
  - unfold event, BI.event_of. apply getString_add_flat, flat_add, flat_set_subtype, flat_set_type, flat_mk.
  - done.
  - intros v' d' msg2 memory2 groups2 w2 Hm2 Hk Hn Hd' Hst Htab.
    eapply handle_wait_end; [exact Hm2|exact Hk| |exact Hd'|by apply delayed_end].
    unfold key, key_at. by rewrite timer_device_key by apply Hdel.
Qed.
End manager.

(** ** Witnesses: a house with a lamp, a coloured lamp and a delayed button *)
Import Samples.Instances.
Definition attribute (kv : string * string * string) : MAttribute := mkAttr kv.1.1 kv.1.2 kv.2.
Definition lamp_file : list (string * string * string) :=
  [("status", "generic", "ON"); ("eventname", "generic", "LI_lamp"); ("default", "generic", "OFF"); ("out1", "output", "");
   ("output", "output", "GPIO1")].
Definition button_file : list (string * string * string) :=
  [("status", "generic", "ON"); ("delay", "generic", "5"); ("input", "input", "GPIO2")].
Definition rgb_file : list (string * string * string) := [("red", "output", "PWM1")].
Definition house_files : gmap string string :=
  list_to_map (map (fun '(n, l) => ("/etc/hat/devices/" +:+ n +:+ ".xml",
      Params.xmlEncode (mkParams "device" "" "" (map attribute l)) 1 +:+ Msg.endl))
    [("BinaryOutput/LI_lamp", lamp_file); ("BinaryInput/BU_door", button_file); ("RGBPwm/LC_rgb", rgb_file)]).
Definition house_world : world :=
  set_dirs (list_to_set ["/"; "/etc"; "/etc/hat"; "/etc/hat/rawdevices"; "/etc/hat/rawdevices/RawOutput"; "/etc/hat/rawdevices/RawInput"])
    (set_files house_files (world_at early)).
Definition house_listing : VD.listings :=
  VD.mkLs [] [] [] [] [] [("BinaryOutput", ["LI_lamp.xml"]); ("BinaryInput", ["BU_door.xml"]); ("RGBPwm", ["LC_rgb.xml"])].
Definition house : VrtDevices := default (mkVD [] ∅ ∅ "" 0) (result (VD.mk house_listing) house_world).
Definition lamp : BinaryOutput :=
  match heap house !! 0%nat with
  | Some (DBinaryOutput d) => d | _ => mkBO (params []) "" "" d0 "" "" "" "" ""
  end.
Definition button : BinaryInput :=
  match heap house !! 1%nat with
  | Some (DBinaryInput d) => d | _ => mkBI (params []) "" "" d0 "" "" "" ∅
  end.
Example house_has : map Dev.name (heap house) = ["LI_lamp"; "BU_door"; "LC_rgb"] /\ day house = "2021_03_14".
Proof. vm_compute. done. Qed.
Lemma house_run : vd_run house.
Proof. apply (run_mk house_listing house_world). vm_compute. reflexivity. Qed.
Definition order (st field value : string) : MMessage := Msg.add (Msg.mk "cmd" st) field value.

Lemma manager_maps_sound_witness : exists d, heap house !! 0%nat = Some d /\ Dev.name d = "LI_lamp".
Proof. apply (proj1 (manager_maps_sound house house_run)). vm_compute. reflexivity. Defined.
Lemma command_reaches_its_device_witness :
  exists d, heap house !! 0%nat = Some d /\ Dev.name d = "LI_lamp" /\
    let '(o, w1) := Dev.execcmd d (order "LI_lamp" "value" "ON") house_world in
    VD.handle house 0 [] (order "LI_lamp" "value" "ON") house_world =
      (match o with None => VCrash | Some (_, d') => VRunning (house <| heap := <[0%nat := d']> (heap house) |>) end, w1).
Proof.
  apply (command_reaches_its_device house 0 [] (order "LI_lamp" "value" "ON") 0 house_world house_run);
    vm_compute; reflexivity.
Defined.

Definition press : MMessage :=
  Msg.add (Msg.add (Msg.mk "local_event" "update") "name" "GPIO2") "value" "1".
Lemma delayed_change_is_reported_witness :
  exists v1 w1 timer event, VD.handle house 0 [] press house_world = (VRunning v1, w1) /\
    w_trace w1 = w_trace house_world ++ [Notified timer] /\ Msg.getString event "value" = "1" /\
    forall w2, exists v2, VD.handle v1 0 [] (Msg.add (Msg.mk "wait" "end") "value" (Msg.getString timer "value")) w2 =
      (VRunning v2, set_trace (w_trace w2 ++ [Notified event]) w2).
Proof.
  destruct (delayed_change_is_reported house 1 button press 0 [] house_world house_run) as (w1 & d1 & H1 & _ & Hp & H2).
  1-3: vm_compute; reflexivity.
  - unfold delayed. split_and!; apply (bool_decide_unpack _); vm_compute; exact I.
  - vm_compute. discriminate.
  - replace (delay_table button !! key_at button house_world) with (@None MMessage) in H2 by (vm_compute; reflexivity).
    destruct H2 as (timer & event & H2 & _ & _ & Hk & _ & _ & H3 & _ & Ht & Hend).
    eexists _, w1, timer, event. split; [exact H1|]. split; [exact H2|]. split; [rewrite H3; vm_compute; reflexivity|].
    intros w2. eexists. apply (Hend _ d1).
    + reflexivity.
    + rewrite Hk. vm_compute. reflexivity.
    + vm_compute. reflexivity.
    + vm_compute. reflexivity.
    + unfold BI.get. rewrite Hp. vm_compute. discriminate.
    + rewrite Ht. apply lookup_insert_eq.
Defined.
