(* ===== verification/DeviceClaims.v ===== *)
(** * Properties of the devices (BBDevices/TriStateOutput.cpp, BinaryOutput.cpp, Timer.cpp) *)
From S2P Require Import Prelude Doubles Hsrv Xml MMessage World MParams Samples Devices.
Import MsgFacts.

(** ** The interlock of the two relays of a motor *)
Section interlock.
Context {P : Platform} {C : Config} {XP : XmlParser}.
(** The channels of the relays and the values that "ON" and "OFF" are remapped to. *)
Context (o1 o2 : string) (rm : string -> string).
Context (distinct : o1 <> o2) (on_off : rm "ON" <> rm "OFF").

(** The state of the relays (up, down), as the channel driver sees the commands. *)
Definition drive_relay (s : bool * bool) (m : MMessage) : bool * bool :=
  if mtype m =s "devcmd" then
    if msubtype m =s o1 then (Msg.getString m "value" =s rm "ON", s.2)
    else if msubtype m =s o2 then (s.1, Msg.getString m "value" =s rm "ON")
    else s
  else s.
Definition both : bool * bool := (true, true).
(** No message of the sequence leaves both relays closed. *)
Fixpoint guarded (s : bool * bool) (ms : list MMessage) : Prop :=
  match ms with [] => True | m :: ms' => drive_relay s m <> both /\ guarded (drive_relay s m) ms' end.
Definition interlocked (ms : list MMessage) : Prop := forall s, s <> both -> guarded s ms.

Lemma guarded_app s ms1 ms2 : guarded s ms1 -> interlocked ms2 -> s <> both -> guarded s (ms1 ++ ms2).
Proof. revert s. induction ms1 as [|m ms1 IH]; intros s H1 H2 Hs; simpl; [by apply H2|]. naive_solver. Qed.
Lemma interlocked_app ms1 ms2 : interlocked ms1 -> interlocked ms2 -> interlocked (ms1 ++ ms2).
Proof. intros H1 H2 s Hs. apply guarded_app; auto. Qed.
Lemma interlocked_nil : interlocked [].
Proof. by intros s. Qed.
Lemma interlocked_other m ms : mtype m <> "devcmd" -> interlocked ms -> interlocked (m :: ms).
Proof. intros Hm H s Hs. simpl. unfold drive_relay. rewrite seqb_ne by done. auto. Qed.

(** A relay command, and what it does to the relays. *)
Definition relay_cmd (out value : string) (m : MMessage) : Prop :=
  mtype m = "devcmd" /\ msubtype m = out /\ Msg.getString m "value" = rm value.
Lemma drive_o1 s v m : relay_cmd o1 v m -> drive_relay s m = (rm v =s rm "ON", s.2).
Proof. intros (H1 & H2 & H3). unfold drive_relay. by rewrite H1, H2, H3, !seqb_refl. Qed.
Lemma drive_o2 s v m : relay_cmd o2 v m -> drive_relay s m = (s.1, rm v =s rm "ON").
Proof.
  intros (H1 & H2 & H3). unfold drive_relay. rewrite H1, H2, H3. rewrite (seqb_ne o2 o1) by done. by rewrite !seqb_refl.
Qed.
Lemma off_first_up m1 m2 ms :
  relay_cmd o2 "OFF" m1 -> relay_cmd o1 "ON" m2 -> interlocked ms -> interlocked (m1 :: m2 :: ms).
Proof.
  intros H1 H2 H [a b] Hs. simpl. rewrite (drive_o2 _ _ _ H1), (drive_o1 _ _ _ H2). simpl.
  rewrite (seqb_ne (rm "OFF")) by done. rewrite seqb_refl. split_and!; [by intros [=]..|]. apply H. by intros [=].
Qed.
Lemma off_first_down m1 m2 ms :
  relay_cmd o1 "OFF" m1 -> relay_cmd o2 "ON" m2 -> interlocked ms -> interlocked (m1 :: m2 :: ms).
Proof.
  intros H1 H2 H [a b] Hs. simpl. rewrite (drive_o1 _ _ _ H1), (drive_o2 _ _ _ H2). simpl.
  rewrite (seqb_ne (rm "OFF")) by done. rewrite seqb_refl. split_and!; [by intros [=]..|]. apply H. by intros [=].
Qed.
Lemma both_off m1 m2 ms :
  relay_cmd o1 "OFF" m1 -> relay_cmd o2 "OFF" m2 -> interlocked ms -> interlocked (m1 :: m2 :: ms).
Proof.
  intros H1 H2 H [a b] Hs. simpl. rewrite (drive_o1 _ _ _ H1), (drive_o2 _ _ _ H2). simpl.
  rewrite (seqb_ne (rm "OFF")) by done. split_and!; [by intros [=]..|]. apply H. by intros [=].
Qed.

(** The device drives these channels, remaps so, and rests at "OFF". *)
Definition wired (d : TriStateOutput) : Prop :=
  out1 d = o1 /\ out2 d = o2 /\ default_status d = "OFF" /\ forall v, remap (ts_params d) v = rm v.
Lemma wired_same d d' : wired d ->
  out1 d' = out1 d -> out2 d' = out2 d -> default_status d' = default_status d ->
  (forall v, remap (ts_params d') v = remap (ts_params d) v) -> wired d'.
Proof. intros (H1 & H2 & H3 & H4) E1 E2 E3 E4. unfold wired. rewrite E1, E2, E3. split_and!; [done..|]. intros v. by rewrite E4. Qed.

Lemma relay_is_cmd d m out v :
  wired d -> mtype m = "devcmd" -> flat m -> relay_cmd out v (TS.relay d m out v) /\
  mtype (TS.relay d m out v) = "devcmd" /\ flat (TS.relay d m out v).
Proof.
  intros (_ & _ & _ & Hr) Hm Hf. unfold TS.relay, relay_cmd. rewrite mtype_add, msubtype_add, Hr.
  split_and!; [done|done|apply getString_add_flat; by apply flat_set_subtype|done|]. by apply flat_add, flat_set_subtype.
Qed.
Lemma sends_save d : wired d -> sends (TS.save d) (fun d' ms => wired d' /\ ms = []).
Proof.
  intros H. unfold TS.save. apply sends_silent; [eauto with silent|]. intros ?. apply sends_ret. split; [|done].
  eapply wired_same; [exact H|done..|]. intros v. unfold remap. simpl.
  unfold Params.add. by rewrite !Params.get_cat_add_ne by congruence.
Qed.
Lemma sends_notifyEvent d v : wired d -> sends (TS.notifyEvent d v) (fun d' ms => wired d' /\ interlocked ms).
Proof.
  intros H. unfold TS.notifyEvent. apply sends_notify. eapply sends_bind; [by apply sends_save|].
  intros d' ms [Hd ->]. unfold TS.publish. eapply (sends_bind _ _ (fun _ ms => ms = [])).
  - apply sends_silent; [eauto with silent|]. intros ?. by apply sends_ret.
  - intros ? ? ->. apply sends_ret. split; [done|]. apply interlocked_other; [|apply interlocked_nil].
    by rewrite !mtype_add.
Qed.

Lemma wired_status d s : wired d -> wired (d <| currentStatus := s |>).
Proof. intros H. by eapply wired_same. Qed.
Lemma wired_time d t : wired d -> wired (d <| ts_currentTime := t |>).
Proof. intros H. by eapply wired_same. Qed.

(** The commands of one change of state, before the event. *)
Lemma sends_relays d newstate :
  wired d ->
  let m := Msg.add (Msg.set_type Msg.dummy "devcmd") "time" (double2a (ts_currentTime d)) in
  sends (if newstate =s "UP" then
           let m := TS.relay d m (out2 d) "OFF" in notify m;;
           let m := TS.relay d m (out1 d) "ON" in notify m;; mret m
         else if newstate =s "DOWN" then
           let m := TS.relay d m (out1 d) "OFF" in notify m;;
           let m := TS.relay d m (out2 d) "ON" in notify m;; mret m
         else if newstate =s "OFF" then
           let m := TS.relay d m (out1 d) "OFF" in notify m;;
           let m := Msg.set_subtype m (out2 d) in notify m;; mret m
         else mret m) (fun _ ms => interlocked ms).
Proof.
  intros Hw m. pose proof Hw as (E1 & E2 & _). rewrite E1, E2.
  assert (mtype m = "devcmd" /\ flat m) as [Hm Hf].
  { unfold m. rewrite mtype_add. split; [done|]. apply flat_add, flat_set_type, flat_mk. }
  clearbody m. destruct (newstate =s "UP"); [|destruct (newstate =s "DOWN"); [|destruct (newstate =s "OFF")]].
  - destruct (relay_is_cmd d m o2 "OFF" Hw Hm Hf) as (H1 & Hm1 & Hf1).
    destruct (relay_is_cmd d _ o1 "ON" Hw Hm1 Hf1) as (H2 & _).
    do 2 apply sends_notify. apply sends_ret. apply off_first_up; auto using interlocked_nil.
  - destruct (relay_is_cmd d m o1 "OFF" Hw Hm Hf) as (H1 & Hm1 & Hf1).
    destruct (relay_is_cmd d _ o2 "ON" Hw Hm1 Hf1) as (H2 & _).
    do 2 apply sends_notify. apply sends_ret. apply off_first_down; auto using interlocked_nil.
  - destruct (relay_is_cmd d m o1 "OFF" Hw Hm Hf) as ((H1 & H2 & H3) & Hm1 & Hf1).
    do 2 apply sends_notify. apply sends_ret. apply both_off; [done| |apply interlocked_nil]. by split_and!.
  - apply sends_ret, interlocked_nil.
Qed.
Lemma sends_docmdaction d s : wired d -> sends (TS.docmdaction d s) (fun d' ms => wired d' /\ interlocked ms).
Proof.
  intros H. unfold TS.docmdaction. eapply (sends_bind _ _ (fun d' ms => wired d' /\ interlocked ms)).
  - apply sends_if; intros _; [|apply sends_ret; auto using interlocked_nil].
    eapply sends_bind; [by apply sends_relays|]. intros m ms Hms.
    eapply (sends_bind _ _ (fun _ ms => interlocked ms)).
    + apply sends_if; intros _; [apply sends_notify_last|apply sends_ret, interlocked_nil].
      apply interlocked_other; [|apply interlocked_nil]. by rewrite mtype_add.
    + intros _ ms' Hms'. apply sends_ret. rewrite app_nil_r. split; [by apply wired_status|by apply interlocked_app].
  - intros d' ms [Hd Hms]. eapply sends_conseq; [by apply sends_notifyEvent|].
    intros d'' ms' [? ?]. split; [done|by apply interlocked_app].
Qed.
Lemma sends_dowaitaction d : wired d -> sends (TS.dowaitaction d) (fun d' ms => wired d' /\ interlocked ms).
Proof.
  intros Hw. pose proof Hw as (E1 & E2 & E3 & _). unfold TS.dowaitaction. rewrite E1, E2, E3.
  apply sends_if; intros _; [|apply sends_ret; auto using interlocked_nil].
  destruct (relay_is_cmd d (Msg.set_type Msg.dummy "devcmd") o1 "OFF" Hw eq_refl (flat_mk _ _)) as ((H1 & H2 & H3) & _ & Hf).
  do 2 apply sends_notify. eapply sends_bind; [by apply sends_notifyEvent|].
  intros d' ms [Hd Hms]. apply sends_ret. rewrite app_nil_r. split.
  - by apply wired_status.
  - apply both_off; [| |done]; unfold relay_cmd; simpl; rewrite ?mtype_add, ?msubtype_add.
    + split_and!; [done|done|]. by rewrite getString_add_ne.
    + split_and!; [done|done|]. unfold Msg.getString in *. simpl.
      change (Msg.getString (Msg.add (TS.relay d (Msg.set_type Msg.dummy "devcmd") o1 "OFF") "time" (double2a (ts_currentTime d))) "value" = rm "OFF").
      by rewrite getString_add_ne.
Qed.
Lemma sends_answer_rpc m v : silent (answer_rpc m v).
Proof. unfold answer_rpc. apply sends_if; intros _; [|by apply sends_ret]. repeat sends_step. done. Qed.
Lemma sends_execcmd d msg : wired d -> sends (TS.execcmd d msg) (fun bd ms => wired bd.2 /\ interlocked ms).
Proof.
  intros H. unfold TS.execcmd. apply sends_silent; [apply silent_gettime|]. intros now.
  pose proof (wired_time d now H) as H'. set (d' := d <| ts_currentTime := now |>) in *. clearbody d'.
  repeat (apply sends_if; intros _).
  - apply sends_silent; [apply silent_rpcNotify|]. intros ?. apply sends_ret. auto using interlocked_nil.
  - eapply sends_bind; [by apply sends_docmdaction|]. intros d2 ms [H2 Hms].
    apply sends_silent; [apply sends_answer_rpc|]. intros ?. apply sends_ret. by rewrite app_nil_r.
  - unfold TS.on_input. set (d2 := if _ =s _ then _ else _).
    assert (wired d2) as H2 by (unfold d2; repeat case_match; by eapply wired_same).
    eapply (sends_bind _ _ (fun d' ms => wired d' /\ interlocked ms)).
    + clearbody d2. destruct (TS.buttons d2); [by apply sends_docmdaction|apply sends_ret; auto using interlocked_nil].
    + intros d3 ms Hd. apply sends_ret. by rewrite app_nil_r.
  - eapply sends_bind; [by apply sends_dowaitaction|]. intros d3 ms Hd. apply sends_ret. by rewrite app_nil_r.
  - apply sends_ret. auto using interlocked_nil.
Qed.
(** The loop of the device over the messages it receives. *)
Fixpoint run_tristate (d : TriStateOutput) (msgs : list MMessage) : M TriStateOutput :=
  match msgs with [] => mret d | m :: r => '(_, d) ← TS.execcmd d m; run_tristate d r end.

(** C4: the up and down relays of a motor are never closed together: whatever commands, button
    changes and timer ends a [TriStateOutput] receives, in any order, no message it sends
    leaves both relays ON, provided the relays are two channels, ON and OFF are remapped to
    different values, its rest state is "OFF" and the relays did not start both closed. *)
Theorem tristate_interlock d msgs w up down :
  wired d -> (up, down) <> both ->
  guarded (up, down) (sent_by (run_tristate d msgs) w).
Proof.
  intros Hw Hs. assert (sends (run_tristate d msgs) (fun _ ms => interlocked ms)) as H.
  { revert d Hw. induction msgs as [|m msgs IH]; intros d Hw; simpl; [apply sends_ret, interlocked_nil|].
    eapply sends_bind; [by apply sends_execcmd|]. intros [b d'] ms [Hd Hms]. simpl in *.
    eapply sends_conseq; [by apply IH|]. intros ? ms' Hms'. by apply interlocked_app. }
  destruct (H w) as (t & Ht & Hi). rewrite (sent_by_trace _ _ _ Ht). by apply Hi.
Qed.
End interlock.

(** ** Timed outputs *)
Section timed_output.
Context {P : Platform} {C : Config} {XP : XmlParser}.
(** What a message says: its kind, its subject and its value. *)
Definition summary (m : MMessage) : string * string * string := (mtype m, msubtype m, Msg.getString m "value").

Lemma sends_bo_save d :
  sends (BO.save d) (fun d' ms => d' = d <| bo_params := Params.add (bo_params d) "value" (bo_currentValue d) |> /\ ms = []).
Proof. unfold BO.save. apply sends_silent; [eauto with silent|]. intros ?. by apply sends_ret. Qed.
Lemma sends_drive d now v report :
  sends (BO.drive d now v report) (fun d' ms =>
    d' = d <| bo_currentTime := now |> <| bo_currentValue := v |> <| bo_params := Params.add (bo_params d) "value" v |> /\
    map summary ms = [("devcmd", bo_out d, remap (bo_params d) v); ("event", BO.get d "eventname", report)]).
Proof.
  unfold BO.drive. do 2 apply sends_notify. eapply sends_bind; [apply sends_bo_save|].
  intros d' ms [-> ->]. unfold BO.publish. eapply (sends_bind _ _ (fun _ ms => ms = [])).
  - apply sends_silent; [eauto with silent|]. intros ?. by apply sends_ret.
  - intros ? ? ->. apply sends_ret. split; [done|]. cbn [map app]. unfold summary.
    rewrite (getString_add_flat (retype _ _ _)) by apply flat_set_subtype, flat_set_type, flat_add, flat_add, flat_mk.
    rewrite (getString_add_ne _ "time" "value") by done. rewrite getString_add_flat by apply flat_mk.
    by rewrite !mtype_add, !msubtype_add.
Qed.

(** The channel and event of a change to [v], if it is one. *)
Definition change (d : BinaryOutput) (v : string) : list (string * string * string) :=
  if bo_currentValue d =s v then []
  else [("devcmd", bo_out d, remap (bo_params d) v); ("event", BO.get d "eventname", v)].
(** The timer request of a command [v]. *)
Definition timer_request (d : BinaryOutput) (v : string) : list (string * string * string) :=
  if bo_duration d =s "0" then []
  else if v =s default_value d then
    if bo_currentValue d =s v then [] else [("wait", "reset", bo_wait_condition d)]
  else [("wait", "set", bo_wait_condition d)].

Lemma sends_on_command d now msg :
  let v := Msg.getString msg "value" in
  sends (BO.on_command d now msg) (fun d' ms =>
    bo_currentValue d' = v /\ default_value d' = default_value d /\ bo_name d' = bo_name d /\
    bo_out d' = bo_out d /\ (forall x, remap (bo_params d') x = remap (bo_params d) x) /\
    BO.get d' "eventname" = BO.get d "eventname" /\
    map summary ms = change d v ++ timer_request d v).
Proof.
  intros v. unfold BO.on_command. fold v.
  assert (forall kind, summary (wait_msg kind (bo_wait_condition d)) = ("wait", kind, bo_wait_condition d)) as Hw by done.
  eapply (sends_bind _ _ (fun d' ms =>
    bo_currentValue d' = v /\ default_value d' = default_value d /\ bo_name d' = bo_name d /\
    bo_out d' = bo_out d /\ (forall x, remap (bo_params d') x = remap (bo_params d) x) /\
    BO.get d' "eventname" = BO.get d "eventname" /\
    map summary ms = change d v ++ timer_request d v)).
  - unfold change, timer_request. destruct (bo_currentValue d =s v) eqn:E; simpl.
    + apply seqb_true in E. unfold BO.at_default, BO.timed. rewrite E.
      destruct (v =s default_value d), (bo_duration d =s "0"); simpl;
        try (apply sends_ret; by split_and!); apply sends_notify, sends_ret; by split_and!.
    + eapply sends_bind; [apply sends_drive|]. intros d' ms [-> Hms].
      unfold BO.timed, BO.at_default. simpl.
      eapply (sends_bind _ _ (fun _ ms' => map summary ms' =
        if bo_duration d =s "0" then [] else if v =s default_value d then [("wait", "reset", bo_wait_condition d)]
        else [("wait", "set", bo_wait_condition d)])).
      { destruct (bo_duration d =s "0"), (v =s default_value d); simpl;
          (by apply sends_ret) || (apply sends_notify_last; simpl; by rewrite ?Hw). }
      intros ? ms' Hms'. apply sends_ret. rewrite app_nil_r, map_app, Hms, Hms'. simpl.
      split_and!; try done; unfold remap, BO.get, Params.get, Params.add; simpl; intros;
        by rewrite !Params.get_cat_add_ne by congruence.
  - intros d' ms H. apply sends_silent; [apply sends_answer_rpc|]. intros ?. apply sends_ret. by rewrite app_nil_r.
Qed.

Lemma sends_bo_execcmd d msg :
  msubtype msg = bo_name d ->
  let v := Msg.getString msg "value" in
  sends (BO.execcmd d msg) (fun bd ms =>
    bd.1 = true /\ bo_currentValue bd.2 = v /\ map summary ms = change d v ++ timer_request d v).
Proof.
  intros Hs v. unfold BO.execcmd. apply sends_silent; [apply silent_gettime|]. intros now. rewrite Hs, seqb_refl.
  eapply sends_bind; [apply sends_on_command|]. intros d' ms Hd. apply sends_ret. rewrite app_nil_r. naive_solver.
Qed.

(** A command to a binary output drives its channel and reports the event only when the
    value changes, and restarts its timer for a value other than the default one or resets it
    on the way back; the output then has the value of the command. *)
Lemma binary_output_command d msg w :
  msubtype msg = bo_name d ->
  let v := Msg.getString msg "value" in
  (result (BO.execcmd d msg) w).1 = true /\ bo_currentValue (result (BO.execcmd d msg) w).2 = v /\
  map summary (sent_by (BO.execcmd d msg) w) = change d v ++ timer_request d v.
Proof.
  intros Hs v. destruct (sends_bo_execcmd d msg Hs w) as (t & Ht & H1 & H2 & H3).
  rewrite (sent_by_trace _ _ _ Ht). done.
Qed.

(** The end of the timer brings a binary output that is not at rest back to its default
    value on the channel; the event it reports, though, carries the text of the timer and not
    the value of the output. *)
Lemma binary_output_timer_end d msg w :
  mtype msg = "wait" -> msubtype msg = "end" -> bo_name d <> "end" -> bo_currentValue d <> default_value d ->
  bo_currentValue (result (BO.execcmd d msg) w).2 = default_value d /\
  map summary (sent_by (BO.execcmd d msg) w) =
    [("devcmd", bo_out d, remap (bo_params d) (default_value d)); ("event", BO.get d "eventname", Msg.getString msg "value")].
Proof.
  intros Ht He Hn Hv. assert (sends (BO.execcmd d msg) (fun bd ms =>
    bo_currentValue bd.2 = default_value d /\ map summary ms =
    [("devcmd", bo_out d, remap (bo_params d) (default_value d)); ("event", BO.get d "eventname", Msg.getString msg "value")])) as H.
  { unfold BO.execcmd. apply sends_silent; [apply silent_gettime|]. intros now.
    rewrite He, Ht, (seqb_ne "end") by done. simpl. unfold BO.at_default. rewrite seqb_ne by done. simpl.
    eapply sends_bind; [apply sends_drive|]. intros d' ms [-> Hms]. apply sends_ret. by rewrite app_nil_r. }
  destruct (H w) as (t & Htr & H1 & H2). rewrite (sent_by_trace _ _ _ Htr). done.
Qed.
End timed_output.

(** ** Timers *)
Section timers.
Context {P : Platform}.
(** The condition has run out and its end has not been notified. *)
Definition ran_out (c : TimedCondition) : bool := negb (dgtb (wait_time c) d0) && negb (expired c).
Definition notified (c : TimedCondition) : TimedCondition := if ran_out c then c <| expired := true |> else c.

Lemma sends_fire_loop l m :
  flat m -> sends (Tmr.fire_loop l m) (fun r ms =>
    r.1 = map notified l /\ map summary ms = map (fun c => (tc_type c, "end", tc_value c)) (List.filter ran_out l)).
Proof.
  revert m. induction l as [|c l IH]; intros m Hm; cbn [Tmr.fire_loop List.filter map]; [by apply sends_ret|].
  unfold TC.message. unfold notified at 1, ran_out at 1 2.
  destruct (dgtb (wait_time c) d0) eqn:E; cbn [negb andb]; [|destruct (expired c) eqn:Ex; cbn [negb andb]].
  1,2: apply sends_silent; [by apply sends_ret|]; intros _; eapply sends_bind; [by apply IH|];
    intros [l' m'] ms [H1 H2]; apply sends_ret; rewrite app_nil_r; simpl in *; by rewrite H1.
  set (m1 := Msg.add _ "value" (tc_value c)).
  assert (flat m1) as Hf by (apply flat_add; done).
  apply sends_notify. eapply sends_bind; [by apply (IH m1)|].
  intros [l' m'] ms [H1 H2]. apply sends_ret. rewrite app_nil_r. simpl in *. rewrite H1, H2. split; [done|].
  f_equal. unfold summary, m1. rewrite mtype_add, msubtype_add. f_equal. by apply getString_add_flat.
Qed.

(** When a poll is accepted, the timer counts every condition down and notifies the end of
    exactly the conditions that have run out, in order, each with its own value; afterwards
    none is left to notify, and a notified condition does not change at later polls: it is
    notified once per start. *)
Lemma timer_notifies_once t msg w :
  flat (out_mess t) ->
  let period := Msg.getDouble msg "period" in
  dgtb (Msg.getDouble msg "time") (dadd (ddiv period (d_of_Z 2)) (last_update_time t)) = true ->
  let counted := tconditions (if dgtb period d0 then Tmr.update t period else Tmr.update_one t) in
  let t' := result (Tmr.on_poll t msg) w in
  map summary (sent_by (Tmr.on_poll t msg) w) =
    map (fun c => (tc_type c, "end", tc_value c)) (List.filter ran_out counted) /\
  tconditions t' = map notified counted /\ List.filter ran_out (tconditions t') = [] /\
  forall c p, c ∈ tconditions t' -> expired c = true -> (TC.update c p).2 = c.
Proof.
  intros Hm period Hp counted t'.
  assert (sends (Tmr.on_poll t msg) (fun t' ms => tconditions t' = map notified counted /\
    map summary ms = map (fun c => (tc_type c, "end", tc_value c)) (List.filter ran_out counted))) as H.
  { unfold Tmr.on_poll. fold period. rewrite Hp. eapply sends_bind.
    - apply (sends_fire_loop counted). by destruct (dgtb period d0).
    - intros [l m] ms [H1 H2]. apply sends_ret. rewrite app_nil_r. done. }
  destruct (H w) as (tr & Ht & H1 & H2). rewrite (sent_by_trace _ _ _ Ht).
  split_and!; [done|exact H1| |].
  - unfold t'. rewrite H1. generalize counted as l. induction l as [|c l IH]; simpl; [done|].
    assert (ran_out (notified c) = false) as Hr; [|by rewrite Hr].
    unfold notified. destruct (ran_out c) eqn:E; [|done]. unfold ran_out. simpl. by rewrite andb_false_r.
  - intros c p _ Hc. unfold TC.update. by rewrite Hc.
Qed.
End timers.

(** ** Witnesses *)
Import Samples.Instances.
Definition shutter : TriStateOutput :=
  mkTS (params [("eventname", "shutter")]) "shutter" "ON" d0 "OFF" "0" "OFF" "" "up" "down" "i1" "i2" "1" "1".
Definition as_is (v : string) : string := v.
Lemma shutter_wired : wired "up" "down" as_is shutter.
Proof.
  split_and!; [done..|]. intros v. unfold remap. rewrite Params.get_absent; [done|].
  unfold Params.has, Params.is_named. simpl. by rewrite andb_false_r.
Qed.
Lemma tristate_interlock_witness :
  guarded "up" "down" as_is (false, false)
    (sent_by (run_tristate shutter [Msg.add (Msg.mk "cmd" "shutter") "value" "UP";
                                    Msg.add (Msg.mk "cmd" "shutter") "value" "DOWN"]) (world_at early)).
Proof.
  apply (tristate_interlock "up" "down" as_is ltac:(discriminate) ltac:(discriminate) shutter _ (world_at early) false false
    shutter_wired). by intros [=].
Defined.
Definition stairs : BinaryOutput :=
  mkBO (params [("eventname", "stairs")]) "stairs" "ON" d0 "OFF" "30" "OFF" "30_stairs" "relay1".
Definition sample_timer : Timer :=
  mkTimer [TC.mk "wait" "set" "1_stairs"; TC.mk "wait" "set" "9_door"] d0 Msg.dummy.
Definition poll : MMessage := Msg.add (Msg.add (Msg.mk "trigger" "poll") "period" "1") "time" "100".
