(* ===== verification/FsmClaims.v ===== *)
(** * Properties of the finite state machine devices (BBDevices/FSMDevice.cpp) *)
From S2P Require Import Prelude Doubles Hsrv Xml MMessage World MParams Samples Devices Fsm.

Lemma cond_eqb a b : Cond.eqb a b = bool_decide (a = b).
Proof.
  unfold Cond.eqb. apply eq_true_iff_eq. rewrite !andb_true_iff, !seqb_true, bool_decide_eq_true.
  destruct a, b; simpl. naive_solver.
Qed.
Lemma cond_neqb a b : Cond.neqb a b = negb (bool_decide (a = b)).
Proof. unfold Cond.neqb. by rewrite <- !negb_andb, <- cond_eqb. Qed.

(** ** Compiling the names of the next states *)
Section compile.
Context {P : Platform}.
(** The index that the last state of that name gives, among (index, name) pairs. *)
Definition resolve (ps : list (nat * string)) (t : Transition) : Transition :=
  fold_left (fun t p => Tr.compileNumeric t p.2 p.1) ps t.
Lemma compile_fold ps l :
  fold_left (fun l '(i, n) => map (fun s => St.compileNumeric s n i) l) ps l =
  map (fun s => s <| transitions := map (resolve ps) (transitions s) |>) l.
Proof.
  revert l. induction ps as [|[i n] ps IH]; intros l; simpl.
  - rewrite <- (map_id l) at 1. apply map_ext. intros [a b c]. simpl. by rewrite map_id.
  - rewrite IH, map_map. apply map_ext. intros [a b c]. unfold St.compileNumeric. simpl. f_equal.
    by rewrite map_map.
Qed.
Lemma resolve_spec ps t :
  (newstate t ∉ ps.*2 -> resolve ps t = t) /\
  (newstate t ∈ ps.*2 -> exists i, (i, newstate t) ∈ ps /\ nextstate (resolve ps t) = i) /\
  newstate (resolve ps t) = newstate t /\ t_condition (resolve ps t) = t_condition t /\ t_action (resolve ps t) = t_action t.
Proof.
  revert t. induction ps as [|[i n] ps IH]; intros t; simpl.
  { split_and!; try done. intros H. by apply not_elem_of_nil in H. }
  unfold Tr.compileNumeric. simpl. destruct (newstate t =s n) eqn:E.
  - apply seqb_true in E. destruct (IH (t <| nextstate := i |>)) as (H1 & H2 & H3 & H4 & H5). simpl in *.
    split_and!; [set_solver| |done|done|done].
    intros _. destruct (decide (newstate t ∈ ps.*2)) as [Hin|Hout].
    + destruct (H2 Hin) as (j & Hj & Hn). exists j. set_solver.
    + exists i. rewrite (H1 Hout). simpl. rewrite E. set_solver.
  - apply seqb_false in E. destruct (IH t) as (H1 & H2 & H3 & H4 & H5).
    split_and!; [set_solver| |done|done|done]. intros Hin. destruct (H2 ltac:(set_solver)) as (j & Hj & Hn).
    exists j. set_solver.
Qed.
(** Every transition of every state names a state of the machine. *)
Definition closed (l : list FSMState) : Prop :=
  Forall (fun s => Forall (fun t => newstate t ∈ map s_name l) (transitions s)) l.

(** After [compileNumeric], every transition of a machine whose transitions name existing
    states holds the index of a state with the name it leads to; names, conditions and actions
    are unchanged. *)
Lemma compile_resolves_names l i s k t :
  closed l -> FSM.compile l !! i = Some s -> transitions s !! k = Some t ->
  exists s0 t0 target,
    l !! i = Some s0 /\ transitions s0 !! k = Some t0 /\ t_condition t = t_condition t0 /\ t_action t = t_action t0 /\
    FSM.compile l !! nextstate t = Some target /\ s_name target = newstate t0.
Proof.
  intros Hc Hs Ht. unfold FSM.compile in *. rewrite compile_fold in *.
  set (ps := zip (seq 0 (length l)) (map s_name l)) in *.
  change (map ?f l) with (f <$> l) in Hs. rewrite list_lookup_fmap in Hs.
  destruct (l !! i) as [s0|] eqn:Es; simplify_eq/=.
  change (map ?f (transitions s0)) with (f <$> transitions s0) in Ht. rewrite list_lookup_fmap in Ht.
  destruct (transitions s0 !! k) as [t0|] eqn:Et; simplify_eq/=.
  assert (newstate t0 ∈ ps.*2) as Hin.
  { unfold ps. rewrite snd_zip by (rewrite length_map, length_seq; lia).
    pose proof (proj1 (Forall_lookup _ _) Hc i s0 Es) as Hs0. by apply (proj1 (Forall_lookup _ _) Hs0 k t0 Et). }
  destruct (resolve_spec ps t0) as (_ & H2 & _ & H4 & H5). destruct (H2 Hin) as (j & Hj & ->).
  apply list_elem_of_lookup_1 in Hj as [x Hx]. unfold ps in Hx.
  apply lookup_zip_Some in Hx as [Hx1 Hx2]. apply lookup_seq in Hx1 as [-> _].
  change (map s_name l) with (s_name <$> l) in Hx2. rewrite list_lookup_fmap in Hx2.
  destruct (l !! x) as [s1|] eqn:E1; simplify_eq/=.
  exists s0, t0. eexists. split_and!; [done|done|done|done| |].
  - change (map ?f l) with (f <$> l). rewrite list_lookup_fmap. simpl. by rewrite E1.
  - done.
Qed.
End compile.

(** ** Running the machine *)
Section running.
Context {P : Platform} {C : Config} {XP : XmlParser}.

(** The machine is in one of its states, every transition leads to a state, and the conditions
    it expects are those of its current state. *)
Definition fsm_ok (d : FSMDevice) : Prop :=
  (exists s, states d !! f_current d = Some s /\ expected d = St.activeFSMConditions s []) /\
  Forall (fun s => Forall (fun t => is_Some (states d !! nextstate t)) (transitions s)) (states d).

Lemma active_conditions s c acc :
  c ∈ fold_left (fun c t => Tr.activeFSMConditions t c) s acc <-> c ∈ acc \/ exists t, t ∈ s /\ t_condition t = c.
Proof.
  revert acc. induction s as [|t s IH]; intros acc; simpl.
  { split; [by left|]. intros [?|(t & Ht & _)]; [done|]. by apply not_elem_of_nil in Ht. }
  rewrite IH. unfold Tr.activeFSMConditions.
  assert (existsb (Cond.eqb (t_condition t)) acc = bool_decide (t_condition t ∈ acc)) as ->.
  { apply eq_true_iff_eq. rewrite existsb_exists, bool_decide_eq_true. setoid_rewrite <- list_elem_of_In.
    setoid_rewrite cond_eqb. setoid_rewrite bool_decide_eq_true. naive_solver. }
  case_bool_decide; set_solver.
Qed.
Lemma exec_loop_first l c m ns :
  St.exec_loop l c m ns =
  match find_first (fun t => bool_decide (t_condition t = c)) l ≫= fun i => l !! i with
  | Some t => (true, m ++ Tr.action_msgs Msg.dummy (t_action t), nextstate t)
  | None => (false, m, ns)
  end.
Proof.
  revert m ns. induction l as [|t l IH]; intros m ns; simpl; [done|]. unfold Tr.exec. rewrite cond_eqb.
  rewrite (bool_decide_ext (c = t_condition t) (t_condition t = c)) by naive_solver.
  case_bool_decide; simpl; [done|]. rewrite IH. by destruct (find_first _ l).
Qed.
(** The transition the machine takes on a condition: the first of the current state that it fires. *)
Definition enabled_transition (d : FSMDevice) (c : FSMCondition) : option Transition :=
  s ← states d !! f_current d;
  i ← find_first (fun t => bool_decide (t_condition t = c)) (transitions s);
  transitions s !! i.

Lemma fire_spec d c :
  fsm_ok d ->
  match enabled_transition d c with
  | Some t => exists d', FSM.fire d c = Some (Some (d', Tr.action_msgs Msg.dummy (t_action t))) /\ fsm_ok d' /\
      f_current d' = nextstate t /\ states d' = states d /\ oldstate d' = f_current d /\
      f_name d' = f_name d /\ f_alias d' = f_alias d /\ f_currentValue d' = f_currentValue d
  | None => FSM.fire d c = Some None
  end.
Proof.
  intros [(s & Hs & He) Hcl]. unfold enabled_transition, FSM.fire. rewrite Hs. simpl.
  assert (existsb (fun e => negb (Cond.neqb c e)) (expected d) =
    match find_first (fun t => bool_decide (t_condition t = c)) (transitions s) with Some _ => true | None => false end) as ->.
  { destruct (find_first _ (transitions s)) as [i|] eqn:E.
    - apply find_first_Some in E as [(t & Ht & Hc%bool_decide_eq_true) _]. apply existsb_exists. exists c.
      rewrite cond_neqb, negb_involutive, bool_decide_true by done. split; [|done].
      apply list_elem_of_In. rewrite He. apply active_conditions. right. exists t. split; [by eapply list_elem_of_lookup_2|done].
    - rewrite find_first_None in E. apply not_true_iff_false. rewrite existsb_exists. intros (e & Hin & Heq).
      rewrite cond_neqb, negb_involutive in Heq. apply bool_decide_eq_true in Heq as <-.
      apply list_elem_of_In in Hin. rewrite He in Hin. apply active_conditions in Hin as [Hin|(t & Ht & Hc)]; [set_solver|].
      apply E in Ht. by apply bool_decide_eq_false in Ht. }
  destruct (find_first _ (transitions s)) as [i|] eqn:E; simpl; [|done].
  assert (exists t, transitions s !! i = Some t) as [t Ht] by (apply find_first_Some in E as [(t & Ht & _) _]; eauto).
  rewrite Ht. unfold FSM.exec. simpl. rewrite Hs. simpl. unfold St.exec. rewrite exec_loop_first, E. simpl. rewrite Ht. simpl.
  assert (is_Some (states d !! nextstate t)) as [s' Hs'].
  { pose proof (proj1 (Forall_lookup _ _) Hcl _ _ Hs) as H. by apply (proj1 (Forall_lookup _ _) H i). }
  unfold FSM.activeFSMConditions. simpl. rewrite Hs'. simpl.
  eexists. split; [reflexivity|]. split; [|done]. split; [exists s'; by split|exact Hcl].
Qed.

Lemma silent_iter_publish {A} (f : A -> string * string) l :
  silent (iterM (fun a => publish (f a).1 (f a).2) l).
Proof. induction l as [|a l IH]; simpl; [by apply sends_ret|]. apply sends_silent; [eauto with silent|]. intros ?. exact IH. Qed.
Lemma silent_fsm_publish d : silent (FSM.publish d).
Proof.
  unfold FSM.publish. apply sends_silent; [eauto with silent|]. intros _.
  eapply (sends_bind _ _ (fun _ ms => ms = [])).
  - apply sends_if; intros _; [|by apply sends_ret].
    apply (silent_iter_publish (fun a => (a, entry "source" (f_currentValue d) "ON"))).
  - intros ? ? ->. by apply sends_ret.
Qed.
Lemma sends_notify_all l : sends (iterM notify l) (fun _ ms => ms = l).
Proof.
  induction l as [|m l IH]; cbn [iterM]; [by apply sends_ret|]. apply sends_notify.
  eapply sends_conseq; [exact IH|]. intros ? ? ->. done.
Qed.

(** C28: a machine in a sound state reacts to every message: it takes the first transition of
    its current state that the message fires, sends exactly the messages of that transition in
    order and moves to its next state, which is again sound; a message that fires none
    changes nothing and sends nothing.  It never reaches a missing state. *)
Theorem fsm_takes_first_transition d msg w :
  fsm_ok d ->
  let c := mkCond (mtype msg) (msubtype msg) (Msg.getString msg "value") in
  match enabled_transition d c with
  | Some t => exists d', result (FSM.execcmd d msg) w = Some (true, d') /\ fsm_ok d' /\
      f_current d' = nextstate t /\ states d' = states d /\
      sent_by (FSM.execcmd d msg) w = Tr.action_msgs Msg.dummy (t_action t)
  | None => result (FSM.execcmd d msg) w = Some (false, d) /\ sent_by (FSM.execcmd d msg) w = []
  end.
Proof.
  intros Hok c. pose proof (fire_spec d c Hok) as Hf.
  destruct (enabled_transition d c) as [t|].
  - destruct Hf as (d' & Hf & Hok' & Hcur & Hst & _).
    assert (sends (FSM.execcmd d msg) (fun r ms => (exists v, r = Some (true, d' <| f_currentValue := v |>)) /\
      ms = Tr.action_msgs Msg.dummy (t_action t))) as H.
    { unfold FSM.execcmd. fold c. rewrite Hf. eapply sends_bind; [apply sends_notify_all|]. intros ? ms ->.
      apply sends_silent; [eauto with silent|]. intros ?. apply sends_silent; [apply silent_fsm_publish|]. intros ?.
      apply sends_ret. rewrite app_nil_r. split; [by eexists|done]. }
    destruct (H w) as (tr & Ht & (v & Hr) & Hms). rewrite (sent_by_trace _ _ _ Ht), Hr, Hms.
    eexists. split_and!; [done|exact Hok'|done|done|done].
  - assert (sends (FSM.execcmd d msg) (fun r ms => r = Some (false, d) /\ ms = [])) as H.
    { unfold FSM.execcmd. fold c. rewrite Hf. apply sends_silent; [eauto with silent|]. intros ?. by apply sends_ret. }
    destruct (H w) as (tr & Ht & Hr & Hms). by rewrite (sent_by_trace _ _ _ Ht), Hr, Hms.
Qed.
End running.

(** ** Witnesses *)
Import Samples.Instances.
Definition press : FSMCondition := mkCond "local_event" "button" "1".
Definition toggle (to : string) (v : string) : Transition :=
  mkTrans "toggle" to press [mkAct "devcmd" "relay1" v; mkAct "event" "lamp" v] 0.
Definition lamp_states : list FSMState :=
  [mkState "off" true [toggle "on" "ON"]; mkState "on" false [toggle "off" "OFF"]].
Definition lamp : FSMDevice := mkFSM "lamp" "" (FSM.compile lamp_states) "OFF" [press] 0 0.
Definition pressed : MMessage := Msg.add (Msg.mk "local_event" "button") "value" "1".

Lemma fsm_takes_first_transition_witness :
  exists d', result (FSM.execcmd lamp pressed) (world_at early) = Some (true, d') /\ f_current d' = 1%nat.
Proof.
  assert (fsm_ok lamp) as Hok.
  { split; [exists (nth 0 (FSM.compile lamp_states) (mkState "" false [])); by split|].
    repeat constructor; vm_compute; by eexists. }
  destruct (fsm_takes_first_transition lamp pressed (world_at early) Hok) as (d' & H1 & _ & H3 & _).
  exists d'. split; [exact H1|exact H3].
Defined.
