(* ===== verification/TemplateClaims.v ===== *)
(** * Properties of the templates of the device manager (BBDevices/VirtualDevices.cpp): the
    loops that fill placeholders and remove comments *)
From S2P Require Import Prelude Doubles Hsrv Xml MMessage World MParams Samples Pages Devices Pwm Fsm VirtualDevices.

(** ** Filling placeholders *)
Lemma dollars_placeholder k : VD.starts_dollar k = true -> (0 < dollars k)%nat /\ k <> "".
Proof. destruct k as [|c k]; simpl; [done|]. intros H. unfold dollars, dollar. simpl. rewrite H. simpl. split; [lia|done]. Qed.

Lemma fill_ends s k v :
  VD.starts_dollar k = true -> dollar ∉ chars v -> exists s', VD.fill s k v = Some s' /\ contains k s' = false.
Proof. intros Hk Hv. apply fill_loop_ends; [by apply dollars_placeholder|done|]. pose proof (dollars_le s). lia. Qed.
(** ** Removing comments *)
(** A comment that [removeComment] would remove is left. *)
Definition has_comment (s : string) : Prop :=
  exists pos endpos, sfind "<!--" s 0 = Some pos /\ sfind "-->" s 0 = Some endpos /\ (pos <= endpos)%nat.
Lemma removeComment_shorter s s' :
  VD.removeComment s = Some (true, s') -> (String.length s' < String.length s)%nat.
Proof.
  unfold VD.removeComment. destruct (sfind "<!--" s 0) as [pos|] eqn:E1; [|done].
  destruct (sfind "-->" s 0) as [endpos|] eqn:E2; [|done].
  destruct (Nat.ltb_spec endpos pos); [done|].
  destruct (find_first _ _) as [k|] eqn:E3; simpl; [|done]. intros [= <-].
  destruct (sfind_split "<!--" s pos ltac:(done) E1) as [_ H1]. destruct (sfind_split "-->" s endpos ltac:(done) E2) as [Hs H2].
  apply find_first_Some in E3 as [(c & Hc & Hp) _].
  pose proof (lookup_lt_Some _ _ _ Hc) as Hlt. rewrite length_drop, length_chars in Hlt.
  assert (k <> 0%nat) as Hk.
  { intros ->. rewrite lookup_drop, Nat.add_0_r in Hc. rewrite Hs, !chars_app in Hc.
    rewrite take_str_chars, lookup_app_r in Hc; rewrite length_take, length_chars in *; [|lia].
    replace (endpos - _)%nat with 0%nat in Hc by lia. simpl in Hc. injection Hc as <-. vm_compute in Hp. discriminate. }
  rewrite <- !length_chars, chars_app, length_app, take_str_chars, drop_str_chars, length_take, length_drop, length_chars by lia.
  simpl in *. lia.
Qed.
Lemma removeComment_false s s' : VD.removeComment s = Some (false, s') -> s' = s /\ ~ has_comment s.
Proof.
  unfold VD.removeComment, has_comment. destruct (sfind "<!--" s 0) as [pos|] eqn:E1.
  - destruct (sfind "-->" s 0) as [endpos|] eqn:E2.
    + destruct (Nat.ltb_spec endpos pos).
      * intros [= <-]. split; [done|]. intros (? & ? & [= <-] & [= <-] & ?). lia.
      * by destruct (find_first _ _).
    + intros [= <-]. split; [done|]. by intros (? & ? & _ & ? & _).
  - intros [= <-]. split; [done|]. by intros (? & ? & ? & _).
Qed.
Lemma removeComments_ends n s :
  (String.length s < n)%nat ->
  exists r, VD.removeComments n s = Some r /\ forall s', r = Some s' -> ~ has_comment s'.
Proof.
  revert s. induction n as [|n IH]; intros s Hn; [lia|]. simpl.
  destruct (VD.removeComment s) as [[[|] s1]|] eqn:E.
  - apply removeComment_shorter in E. apply IH. lia.
  - apply removeComment_false in E as [-> H]. exists (Some s). split; [done|]. by intros ? [= <-].
  - by exists None.
Qed.

Section templates.
Context {P : Platform} {C : Config} {XP : XmlParser}.

(** No placeholder of the message has a '$' in its value. *)
Definition plain_values (m : MMessage) : Prop :=
  forall k, VD.starts_dollar k = true -> dollar ∉ chars (Msg.getString m k).
Lemma fill_loop_total m l d : plain_values m -> exists d', VD.fill_loop m l d = Some d'.
Proof.
  intros Hm. revert d. induction l as [|k l IH]; intros d; simpl; [eauto|].
  destruct (VD.starts_dollar k) eqn:E; simpl; [|apply IH].
  destruct (fill_ends d k (Msg.getString m k) E (Hm k E)) as (d' & -> & _). apply IH.
Qed.
Lemma fill_template_total m d : plain_values m -> exists d', VD.fill_template m d = Some d'.
Proof.
  intros Hm. unfold VD.fill_template.
  assert (forall d k, VD.starts_dollar k = true -> exists d', (if VD.field_or m k "0" =s "0" then VD.fill d k "0" else Some d) = Some d') as Hz.
  { intros d0 k Hk. case_match; [|eauto]. destruct (fill_ends d0 k "0" Hk) as (d' & ? & _); [vm_compute; set_solver|eauto]. }
  destruct (fill_loop_total m (map fst (map_items (fields m))) d Hm) as [d1 ->]. simpl.
  destruct (Hz d1 "$DURATION" eq_refl) as [d2 ->]. simpl. apply (Hz d2 "$PDURATION" eq_refl).
Qed.

(** The command that creates a device from a template always comes to an end when no
    value of the command holds a '$': neither the loop over the comments nor the loops
    over the placeholders run for ever, whatever the template. *)
Lemma devConfigure_terminates v m w : plain_values m -> result (VD.devConfigure v m) w <> VLoop.
Proof.
  intros Hm. revert w. change (returns (VD.devConfigure v m) (fun o => o <> VLoop)). unfold VD.devConfigure.
  do 2 (apply returns_any; intros ?). repeat returns_step; try done.
  all: match goal with
  | Hv : plain_values ?m, H : VD.fill_template ?m ?d = None |- _ => destruct (fill_template_total m d Hv); congruence
  | H : VD.removeComments _ ?d = None |- _ =>
      destruct (removeComments_ends (S (String.length d)) d) as (? & ? & _); [lia|congruence]
  end.
Qed.

(** A placeholder whose value holds the placeholder itself is replaced for ever: no
    number of turns ends the loop on a template that uses it. *)
Lemma self_reference_never_ends fuel description k v :
  VD.starts_dollar k = true -> contains k v = true -> contains k description = true ->
  strReplaceAll fuel description k v = None /\ VD.fill description k v = None.
Proof.
  intros Hk Hv Hd. destruct (dollars_placeholder k Hk) as [_ Hne].
  split; [by apply fill_never_ends|by apply fill_never_ends].
Qed.

(** Where the loops end they do their work: no placeholder is left by the first, no
    comment that precedes a tag by the second. *)
Lemma template_loops_complete description k v :
  VD.starts_dollar k = true -> dollar ∉ chars v ->
  (exists d, VD.fill description k v = Some d /\ contains k d = false) /\
  exists r, VD.removeComments (S (String.length description)) description = Some r /\
    forall d, r = Some d -> ~ has_comment d.
Proof. intros Hk Hv. split; [by apply fill_ends|]. apply removeComments_ends. lia. Qed.
End templates.

(** ** Witnesses *)
Import Samples.Instances.
Definition new_lamp : MMessage := Msg.add (Msg.add (Msg.mk "cmd" "devConfigure") "devtype" "lamp") "$NAME" "hall".
