(* ===== verification/GpioClaims.v ===== *)
(** * Properties of the channels and the dimmers (BBDevices/Gpio.cpp, GPIOThread.cpp, RGBPwm.cpp) *)
From S2P Require Import Prelude Doubles Hsrv Xml MMessage World MParams Samples Pages Subjects Devices Pwm Gpio.

Section gpio.
Context {P : Platform} {C : Config} {XP : XmlParser}.

(** ** Inputs: the dead time between two changes *)
Definition reading (w : world) : double := gettime_of (w_clock w (w_tick w)).
Definition text_of (buffer : option string) : string := int2a (GT.get_current_value buffer).
(** A poll reports the change of an input: a new value, after the dead time. *)
Definition accepts (g : Gpio) (buffer : option string) (now : double) : bool :=
  dleb (g_wait_until g) now && (text_of buffer <>s g_currentValue g).
(** An input as the thread runs: read once, then polled any number of times; the list holds
    the times of the changes it accepted, the last one first. *)
Inductive polled : Gpio -> list double -> Prop :=
| polled_first g b w : g_wait_until g = d0 -> polled (result (GT.first_value g b) w) []
| polled_again g ts b w :
    polled g ts -> polled (result (GT.on_ready g b) w) (if accepts g b (reading w) then reading w :: ts else ts).

Lemma on_ready_run g b w :
  GT.on_ready g b w =
  if accepts g b (reading w) then
    (g <| g_currentValue := text_of b |> <| g_wait_until := dadd (reading w) (g_w g) |>,
     let t := if dgtb (g_wait_until g) d0
              then w_trace w ++ [Notified (Msg.add (GT.local_event g (text_of b)) "time" (double2a (reading w)))]
              else w_trace w in
     set_index (<[g_name g := text_of b]> (w_index w)) (set_trace t (set_tick (S (w_tick w)) w)))
  else (g, set_tick (S (w_tick w)) w).
Proof.
  unfold GT.on_ready, accepts, text_of, reading. rewrite run_bind. unfold result, final. simpl.
  destruct (_ && _); [|done]. rewrite run_bind. unfold result, final. by destruct (dgtb _ _).
Qed.
Lemma polled_until g ts :
  polled g ts -> g_wait_until g = match ts with [] => d0 | t :: _ => dadd t (g_w g) end.
Proof.
  induction 1 as [g b w H|g ts b w Hp IH]; [exact H|]. unfold result. rewrite on_ready_run.
  destruct (accepts g b (reading w)); done.
Qed.

(** C33: the changes an input accepts are separated by its dead time, whatever the channel
    does in between; a poll notifies at most one message, the event of an accepted change,
    and no other poll changes the value that is held. *)
Theorem input_changes_apart g ts :
  polled g ts ->
  (forall i t1 t2, ts !! i = Some t2 -> ts !! S i = Some t1 -> dleb (dadd t1 (g_w g)) t2 = true) /\
  forall b w,
    sent_by (GT.on_ready g b) w =
      (if accepts g b (reading w) && dgtb (g_wait_until g) d0
       then [Msg.add (GT.local_event g (text_of b)) "time" (double2a (reading w))] else []) /\
    g_currentValue (result (GT.on_ready g b) w) =
      (if accepts g b (reading w) then text_of b else g_currentValue g).
Proof.
  intros H. split.
  - induction H as [g b w H|g ts b w Hp IH]; [by intros i t1 t2 Hi|].
    assert (g_w (result (GT.on_ready g b) w) = g_w g) as Hw.
    { unfold result. rewrite on_ready_run. by case_match. }
    rewrite Hw. destruct (accepts g b (reading w)) eqn:E; [|exact IH].
    intros [|i] t1 t2 H2 H1; simpl in *; [|by eapply IH]. injection H2 as <-.
    apply andb_true_iff in E as [E _]. rewrite (polled_until _ _ Hp) in E. destruct ts as [|t ts]; simpl in *; [done|].
    by injection H1 as ->.
  - intros b w. unfold sent_by, result, final. rewrite on_ready_run.
    destruct (accepts g b (reading w)); simpl; [|by rewrite drop_ge].
    split; [|done]. destruct (dgtb _ _); simpl; [|by rewrite drop_ge].
    rewrite sent_app, drop_app_length. done.
Qed.

(** ** Names of one-wire sensors *)
Lemma unused_spec l t : t <> "" -> GT.unused l t = if bool_decide (t ∈ map g_name l) then "" else t.
Proof.
  intros Ht. unfold GT.unused.
  assert (forall l, fold_left (fun t g => if t =s g_name g then "" else t) l "" = "") as Hnil.
  { clear. induction l as [|g l IH]; simpl; [done|]. by case_match. }
  induction l as [|g l IH].
  - case_bool_decide as H; [|done]. by apply not_elem_of_nil in H.
  - cbn [fold_left]. destruct (t =s g_name g) eqn:E.
    + apply seqb_true in E as ->. clear IH. rewrite Hnil. case_bool_decide as H; [done|]. destruct H. cbn [map]. set_solver.
    + apply seqb_false in E. rewrite IH. cbn [map]. do 2 case_bool_decide; try done; set_solver.
Qed.
Lemma probe_name_inj i j : GT.probe_name i = GT.probe_name j -> i = j.
Proof. unfold GT.probe_name, unsigned2a. rewrite !sapp_cons, !sapp_nil_l. intros [= H]. apply (inj pretty) in H. lia. Qed.
Lemma mkName_loop_spec l i n :
  let t := GT.mkName_loop l i n "" in
  if t =s "" then forall j, (i < j <= i + n)%nat -> GT.probe_name j ∈ map g_name l else t ∉ map g_name l.
Proof.
  assert (forall n i t, t <> "" -> GT.mkName_loop l i n t = t) as Hstop.
  { intros [|k] j t Ht; simpl; [done|]. by rewrite seqb_ne. }
  revert i. induction n as [|n IH]; intros i; simpl; [lia|].
  rewrite unused_spec by done. case_bool_decide as H.
  - specialize (IH (S i)). simpl in IH. destruct (GT.mkName_loop l (S i) n "" =s ""); [|exact IH].
    intros j Hj. destruct (decide (j = S i)) as [->|]; [done|]. apply IH. lia.
  - rewrite Hstop by done. by rewrite seqb_ne.
Qed.

(** The name given to a newly found sensor is the name of no known sensor. *)
Lemma mkName_fresh l : GT.mkName l ∉ map g_name l.
Proof.
  unfold GT.mkName. pose proof (mkName_loop_spec l 0 (length l)) as H. simpl in H.
  destruct (GT.mkName_loop l 0 (length l) "" =s "") eqn:E; [|exact H]. intros Hin.
  assert (forall j, j ∈ seq 1 (S (length l)) -> GT.probe_name j ∈ map g_name l) as Hall.
  { intros j Hj%elem_of_seq. destruct (decide (j = S (length l))) as [->|]; [done|]. apply H. lia. }
  assert (length (map GT.probe_name (seq 1 (S (length l)))) <= length (map g_name l))%nat as Hle.
  { apply submseteq_length, NoDup_submseteq.
    - apply NoDup_fmap_2_strong; [|apply NoDup_seq]. intros x y _ _. apply probe_name_inj.
    - intros x (j & -> & Hj)%list_elem_of_fmap. by apply Hall. }
  rewrite !length_map, length_seq in Hle. lia.
Qed.

(** ** Outputs *)
(** What a command writes to a boolean output. *)
Definition level_text (value : string) : string :=
  if Gp.is_on value then "1" else if Gp.is_off value then "0" else value.
Lemma save_run p w :
  exists w', Params.save p w = (w_writable w (pathh p), w') /\ w_writable w' = w_writable w /\
    w_index w' = w_index w /\ w_trace w' = w_trace w /\ w_tick w' = w_tick w /\ w_clock w' = w_clock w.
Proof. unfold Params.save, Params.xmlSave, write_file. destruct (w_writable w (pathh p)); by eexists. Qed.
Lemma set_boolean g value w :
  gpiotype g = "booleanout" -> value <> "" -> w_writable w (gpiovalue g) = true ->
  exists g' w', Gp.setCurrentValue g value w = ((true, g'), w') /\
    w_files w' !! gpiovalue g = Some (level_text value) /\ w_index w' = <[g_name g := level_text value]> (w_index w) /\
    w_trace w' = w_trace w /\ g_currentValue g' = level_text value /\ g_name g' = g_name g.
Proof.
  intros Ht Hv Hw. unfold Gp.setCurrentValue, Gp.get_and_set_value. rewrite (seqb_ne _ _ Hv), Ht. simpl.
  unfold Gp.store_value. simpl. rewrite ?Ht. simpl. fold (level_text value).
  rewrite run_bind. unfold result, final. rewrite run_bind. unfold result, final. rewrite run_bind. unfold result, final.
  destruct (save_run (Params.add (g_params g) "currentValue" (level_text value)) w) as (w1 & E & E1 & E2 & E3 & _).
  rewrite E. simpl. rewrite run_bind. unfold result, final. unfold write_file at 1 2, Gp.getpath. simpl. rewrite ?Ht. simpl.
  rewrite E1, Hw. simpl. eexists _, _. split; [reflexivity|]. simpl. rewrite lookup_insert_eq, E2, E3. done.
Qed.
Lemma drive_first name value l1 g l2 w :
  Forall (fun g => g_name g <> name) l1 -> g_name g = name ->
  GT.drive name value (l1 ++ g :: l2) w =
    (l1 ++ (result (Gp.setCurrentValue g value) w).2 :: l2, final (Gp.setCurrentValue g value) w).
Proof.
  intros H Hg. induction H as [|h l1 Hh Hl IH]; simpl.
  - rewrite Hg, seqb_refl, run_bind. unfold result, final. by destruct (Gp.setCurrentValue g value w) as [[? ?] ?].
  - rewrite (seqb_ne name (g_name h)) by done. rewrite run_bind. unfold result, final. by rewrite IH.
Qed.
Lemma drive_none name value l w : Forall (fun g => g_name g <> name) l -> GT.drive name value l w = (l, w).
Proof.
  induction 1 as [|h l Hh Hl IH]; simpl; [done|]. rewrite (seqb_ne name (g_name h)) by done.
  rewrite run_bind. unfold result, final. by rewrite IH.
Qed.

(** A "devcmd" for a boolean output writes the level (1, 0 or the value itself) into
    the file of the first output of that name and publishes it; the output remembers it,
    the other channels are unchanged and nothing is notified. *)
Lemma devcmd_drives_output t msg l1 g l2 w :
  gt_output t = l1 ++ g :: l2 -> Forall (fun h => g_name h <> g_name g) l1 ->
  Forall (fun h => g_name h <> g_name g) (pwmout t) ->
  gpiotype g = "booleanout" -> w_writable w (gpiovalue g) = true ->
  mtype msg = "devcmd" -> msubtype msg = g_name g -> Msg.getString msg "value" <> "" ->
  let v := level_text (Msg.getString msg "value") in
  exists g' w', GT.handle t msg w = (t <| gt_output := l1 ++ g' :: l2 |>, w') /\ g_currentValue g' = v /\
    w_files w' !! gpiovalue g = Some v /\ w_index w' = <[g_name g := v]> (w_index w) /\ w_trace w' = w_trace w.
Proof.
  intros Ho H1 Hp Ht Hw Hm Hs Hv v. destruct (set_boolean g _ w Ht Hv Hw) as (g' & w' & E & Hf & Hi & Htr & Hc & _).
  exists g', w'. split; [|done]. unfold GT.handle. rewrite Hm, Hs, Ho. simpl.
  rewrite run_bind. unfold result, final. rewrite drive_first by done. unfold result, final. rewrite E. simpl.
  rewrite run_bind. unfold result, final. rewrite drive_none by done. by destruct t.
Qed.

(** ** Dimmers *)
Lemma dimmer_get_set p m n : n <> "mode" -> Params.get (Params.set p "mode" m).2 n = Params.get p n.
Proof. intros H. unfold Params.get, Params.set. apply Params.get_cat_set_ne. congruence. Qed.
#[local] Opaque Params.set.
Lemma set_dimmer g value w :
  gpiotype g = "pwmout" -> Gp.is_on value || Gp.is_off value = true -> w_writable w (Gp.get g "duty") = true ->
  exists g' w', Gp.setCurrentValue g value w = ((true, g'), w') /\
    w_files w' !! Gp.get g "duty" = Some (if Gp.is_on value then g_currentValue g else Gp.get g "default_cycle") /\
    g' = g <| g_params := (Params.set (g_params g) "mode" (if Gp.is_on value then "ON" else "OFF")).2 |> /\
    w_writable w' = w_writable w.
Proof.
  intros Ht Hv Hw. unfold Gp.setCurrentValue, Gp.get_and_set_value.
  assert ((value =s "") = false) as -> by (unfold Gp.is_on, Gp.is_off in Hv; by destruct (value =s "") eqn:E; [apply seqb_true in E as ->|]).
  rewrite Ht. simpl. unfold Gp.set_mode.
  rewrite run_bind. unfold result, final.
  destruct (Gp.is_on value) eqn:Eon; [|simpl in Hv; rewrite Hv].
  - rewrite run_bind. unfold result, final. rewrite run_bind. unfold result, final.
    destruct (save_run (Params.set (g_params g) "mode" "ON").2 w) as (w1 & E & E1 & _). simpl in *. rewrite E. simpl.
    rewrite run_bind. unfold result, final, write_file, Gp.getpath. simpl. rewrite ?Ht. simpl. unfold Gp.get in *. simpl.
    rewrite dimmer_get_set by done. rewrite E1, Hw. simpl. eexists _, _. split; [reflexivity|]. simpl. by rewrite lookup_insert_eq.
  - rewrite run_bind. unfold result, final. rewrite run_bind. unfold result, final.
    destruct (save_run (Params.set (g_params g) "mode" "OFF").2 w) as (w1 & E & E1 & _). simpl in *. rewrite E. simpl.
    rewrite run_bind. unfold result, final, write_file, Gp.getpath. simpl. rewrite ?Ht. simpl. unfold Gp.get in *. simpl.
    rewrite !dimmer_get_set by done. rewrite E1, Hw. simpl. eexists _, _. split; [reflexivity|]. simpl. by rewrite lookup_insert_eq.
Qed.

(** Switching a dimmer off writes the whole cycle into its duty file, and switching it
    on again restores the duty time of its last percentage. *)
Lemma dimmer_off_on_roundtrip g off on w :
  gpiotype g = "pwmout" -> Gp.is_off off = true -> Gp.is_on on = true -> w_writable w (Gp.get g "duty") = true ->
  let '((b1, g1), w1) := Gp.setCurrentValue g off w in
  let '((b2, g2), w2) := Gp.setCurrentValue g1 on w1 in
  b1 = true /\ w_files w1 !! Gp.get g "duty" = Some (Gp.get g "default_cycle") /\
  b2 = true /\ w_files w2 !! Gp.get g "duty" = Some (g_currentValue g) /\ g_currentValue g2 = g_currentValue g.
Proof.
  intros Ht Hoff Hon Hw.
  assert (Gp.is_on off = false) as Eoff.
  { unfold Gp.is_on, Gp.is_off in *. apply orb_true_iff in Hoff as [->%seqb_true| ->%seqb_true]; done. }
  destruct (set_dimmer g off w Ht) as (g1 & w1 & E1 & F1 & G1 & W1); [by rewrite Hoff, orb_true_r|done|].
  rewrite E1. rewrite Eoff in *.
  assert (Gp.get g1 "duty" = Gp.get g "duty") as Ed by (subst g1; unfold Gp.get; simpl; by rewrite dimmer_get_set).
  destruct (set_dimmer g1 on w1) as (g2 & w2 & E2 & F2 & G2 & _); [by subst g1|by rewrite Hon|by rewrite Ed, W1|].
  rewrite E2. rewrite Ed, Hon in *. subst g1 g2. by split_and!.
Qed.

End gpio.

(** ** Coloured lamps *)
(** A colour of less than four characters ends the thread with an exception. *)
Lemma short_colour_crashes {P : Platform} {C : Config} {XP : XmlParser} d msg w :
  msubtype msg = rgb_name d -> Msg.getString msg "value" = "" ->
  0 < Z.of_nat (String.length (Msg.getString msg "color")) < 4 -> Msg.getString msg "color" <> currentColor d ->
  result (RGB.execcmd d msg) w = None.
Proof.
  intros Hs Hv Hc Hne. unfold RGB.execcmd. rewrite result_bind, Hs, seqb_refl. unfold RGB.value_color. rewrite Hv. simpl.
  rewrite result_bind. unfold RGB.apply. simpl. rewrite andb_false_r.
  rewrite (seqb_ne (Msg.getString msg "color") "") by (intros E; rewrite E in Hc; simpl in Hc; lia).
  rewrite seqb_ne by done. simpl. unfold RGB.colored, RGB.substr2.
  destruct (Nat.ltb_spec (String.length (Msg.getString msg "color")) 4); [|lia].
  by destruct (_ <? 0)%nat, (_ <? 2)%nat.
Qed.

(** ** Witnesses *)
Import Samples.Instances.
Definition button_channel : Gpio := Gp.of_params (params [("capename", "GPIO2"); ("type", "booleanin"); ("waitfor", "2")]).
Definition pressed : Gpio := result (GT.first_value button_channel (Some "0")) (world_at early).
Lemma input_changes_apart_witness :
  sent_by (GT.on_ready (result (GT.on_ready pressed (Some "1")) (world_at early)) (Some "0")) (world_at (early + 3)) =
    [Msg.add (GT.local_event button_channel "0") "time" (double2a (reading (world_at (early + 3))))].
Proof.
  pose proof (polled_again _ _ (Some "1") (world_at early) (polled_first button_channel (Some "0") (world_at early) eq_refl)) as H.
  destruct (proj2 (input_changes_apart _ _ H) (Some "0") (world_at (early + 3))) as [E _].
  etransitivity; [exact E|]. vm_compute. reflexivity.
Defined.
Definition dimmer : Gpio :=
  Gp.of_params (params [("capename", "PWM1"); ("type", "pwmout"); ("duty", "/sys/pwm1/duty"); ("default_cycle", "1000");
    ("currentValue", "250"); ("mode", "ON")]).
