(* ===== verification/SystemClaims.v ===== *)
(** * A command from the bus to the board: the device manager, a binary output and the
    channels (BBDevices/VirtualDevices.cpp, BinaryOutput.cpp, GPIOThread.cpp, Gpio.cpp) *)
From S2P Require Import Prelude Doubles Hsrv Xml MMessage World MParams Samples Pages Subjects Devices Pwm Gpio Fsm VirtualDevices VirtualClaims DeviceClaims GpioClaims.
Import MsgFacts.

Section system.
Context {P : Platform} {C : Config} {XP : XmlParser} {FS : PathNames} {Ar : Archived}.

Lemma sent_by_handle v memory groups msg a d w :
  mtype msg = "cmd" -> config_command (msubtype msg) = false ->
  dev_by_name v !! msubtype msg = Some a -> heap v !! a = Some (DBinaryOutput d) ->
  sent_by (VD.handle v memory groups msg) w = sent_by (BO.execcmd d msg) w.
Proof.
  intros Ht Hc Ha Hd. unfold sent_by, final at 1. rewrite (command_run v memory groups msg a _ w Ht Hc Ha Hd). simpl.
  unfold Dev.flagged. rewrite final_bind. by destruct (result (BO.execcmd d msg) w).
Qed.

(** C2: a command that changes a binary output reaches the board: the first message the
    device manager sends for it, given to the channel thread, writes the level of the
    (remapped) value into the file of the output's channel and publishes it, and the
    manager then holds the output with the value of the command. *)
Theorem command_reaches_the_board v a d msg memory groups w t l1 g l2 w2 :
  vd_run v -> mtype msg = "cmd" -> config_command (msubtype msg) = false ->
  dev_by_name v !! msubtype msg = Some a -> heap v !! a = Some (DBinaryOutput d) ->
  let value := Msg.getString msg "value" in
  value <> bo_currentValue d -> remap (bo_params d) value <> "" ->
  gt_output t = l1 ++ g :: l2 -> g_name g = bo_out d -> gpiotype g = "booleanout" ->
  Forall (fun h => g_name h <> g_name g) l1 -> Forall (fun h => g_name h <> g_name g) (pwmout t) ->
  w_writable w2 (gpiovalue g) = true ->
  exists v1 d1 order rest, result (VD.handle v memory groups msg) w = VRunning v1 /\
    heap v1 !! a = Some (DBinaryOutput d1) /\ bo_currentValue d1 = value /\
    sent_by (VD.handle v memory groups msg) w = order :: rest /\
    let level := level_text (remap (bo_params d) value) in
    exists g' w3, GT.handle t order w2 = (t <| gt_output := l1 ++ g' :: l2 |>, w3) /\
      w_files w3 !! gpiovalue g = Some level /\ w_index w3 !! bo_out d = Some level.
Proof.
  intros Hr Hm Hc Ha Hd value Hv Hne Ho Hg Hty H1 Hp Hw.
  destruct (proj1 (manager_sound v Hr) _ _ Ha) as (d0 & Hd0 & Hn). rewrite Hd in Hd0. injection Hd0 as <-. simpl in Hn.
  destruct (sends_bo_execcmd d msg (eq_sym Hn) w) as (tr & Htr & _ & Hval & Hms). fold value in Hval, Hms.
  unfold change in Hms. rewrite seqb_ne in Hms by done. simpl in Hms.
  rewrite (sent_by_handle v memory groups msg a d w Hm Hc Ha Hd), (sent_by_trace _ _ _ Htr).
  destruct (sent tr) as [|order rest]; [done|]. simpl in Hms. injection Hms as E1 E2 E3 _.
  unfold result at 1. rewrite (command_run v memory groups msg a _ w Hm Hc Ha Hd). simpl. unfold Dev.flagged. rewrite result_bind.
  destruct (result (BO.execcmd d msg) w) as [b d1] eqn:Ed. simpl in Hval |- *.
  eexists _, d1, order, rest. split; [reflexivity|]. split_and!; [|done|done|].
  - simpl. apply list_lookup_insert_eq. by eapply lookup_lt_Some.
  - destruct (devcmd_drives_output t order l1 g l2 w2) as (g' & w3 & E & _ & Hf & Hi & _); try done.
    + by rewrite E2.
    + by rewrite E3.
    + rewrite E3 in Hf, Hi. exists g', w3. split_and!; [done|done|]. rewrite Hi, Hg. apply lookup_insert_eq.
Qed.
End system.

(** ** Witness: the lamp of the house and its channel *)
Import Samples.Instances.
Definition lamp_channel : Gpio :=
  Gp.of_params (params [("capename", "GPIO1"); ("type", "booleanout"); ("gpiopath", "/sys/gpio1")]).
Definition board : GPIOThread := mkGT [] [dimmer; lamp_channel] [] [] Q.empty 0.
Lemma command_reaches_the_board_witness :
  exists first rest g' w3, sent_by (VD.handle house 0 [] (order "LI_lamp" "value" "ON")) house_world = first :: rest /\
    GT.handle board first (world_at early) = (board <| gt_output := [dimmer; g'] |>, w3) /\
    w_files w3 !! "/sys/gpio1/value" = Some "1".
Proof.
  assert (remap (bo_params lamp) "ON" = "ON") as Hr by (vm_compute; reflexivity).
  assert ("ON" <> bo_currentValue lamp) as Hc by (vm_compute; discriminate).
  assert (heap house !! 0%nat = Some (DBinaryOutput lamp)) as Hh by (vm_compute; reflexivity).
  assert (dev_by_name house !! "LI_lamp" = Some 0%nat) as Hn by (vm_compute; reflexivity).
  assert (g_name lamp_channel = bo_out lamp) as Hg by (vm_compute; reflexivity).
  assert (Forall (fun h => g_name h <> g_name lamp_channel) [dimmer]) as Hd by (repeat constructor; vm_compute; discriminate).
  assert (remap (bo_params lamp) "ON" <> "") as Hne by (rewrite Hr; discriminate).
  destruct (command_reaches_the_board house 0 lamp (order "LI_lamp" "value" "ON") 0 [] house_world board [dimmer]
    lamp_channel [] (world_at early) house_run eq_refl eq_refl Hn Hh Hc Hne eq_refl Hg eq_refl Hd (List.Forall_nil _) eq_refl)
    as (v1 & d1 & o & rest & _ & _ & _ & H1 & g' & w3 & H2 & H3 & _).
  exists o, rest, g', w3. split; [exact H1|]. split; [exact H2|]. etransitivity; [exact H3|].
  change (Msg.getString (order "LI_lamp" "value" "ON") "value") with "ON". by rewrite Hr.
Defined.
